(** * os8pip: the OS/8 directory engine, block codecs and file streamers

    A shallow embedding of [os8pip.c].  A [pdp8_word_t] (C [unsigned short])
    is a [Z] with its 16-bit wrap-around written out where the C code stores
    into one; a directory segment is the list of its 256 words together with
    its dirty flag; a pointer into a segment is the pair of the segment index
    and the word offset from [d.data].  Loops that the C code runs for a
    number of rounds that is not known in advance take a [fuel] argument, and
    [None] stands for a run that does not yield a result: the fuel ran out, an
    [assert] failed, or a segment index left the directory array. *)

From Stdlib Require Import Ascii String ZArith List Bool Lia.
Import ListNotations.
Local Open Scope Z_scope.

(** ** Machine integers *)

Definition u8 (x : Z) : Z := x mod 256.
Definition u16 (x : Z) : Z := x mod 65536.

Definition OS8_BLOCK_SIZE : Z := 256.
Definition DECTAPE_BLOCK_SIZE : Z := 258.
Definition RK05_BLOCK_SIZE : Z := 384.
Definition RK05_RKB_OFFSET : Z := 3248.
Definition DIR_LENGTH : Z := 6.
Definition FIRST_DIR_BLOCK : Z := 1.
Definition empty_entry_length : Z := 2.

(** [negate]: twos-complement negation in 12 bits, [(4096 - word) % 4096]
    on C [int]; the C remainder takes the sign of the dividend. *)
Definition negate (word : Z) : Z := Z.rem (4096 - word) 4096.

(** The test [(w & 0170000) != 0] of the block readers and writers. *)
Definition corrupted (w : Z) : bool := negb (Z.land w 61440 =? 0).

Arguments u8 : simpl never.
Arguments u16 : simpl never.
Arguments negate : simpl never.
Arguments corrupted : simpl never.

Definition word12 (w : Z) : Prop := 0 <= w < 4096.
Definition byte8 (b : Z) : Prop := 0 <= b < 256.

(** ** The image file: [pread] and [pwrite] on a list of bytes *)

Definition image := list Z.

(** [pread] returns the bytes it could read; the callers compare their
    number with the number asked for. *)
Definition pread (img : image) (count offset : nat) : list Z :=
  firstn count (skipn offset img).

(** [pwrite] past the end of the file extends it, the gap reading as zero. *)
Definition pwrite (img : image) (buf : list Z) (offset : nat) : image :=
  firstn offset img ++ repeat 0 (offset - length img) ++ buf
    ++ skipn (offset + length buf) img.

(** ** Block codecs *)

(** The loop of [byte_buffer_to_word_buffer]: [n] words are assembled from
    byte pairs, low byte first, and a word with a bit above the twelfth
    aborts the read. *)
Fixpoint byte_buffer_to_word_buffer (n : nat) (byte_buffer : list Z)
  : option (list Z) :=
  match n with
  | O => Some []
  | S n' =>
      match byte_buffer with
      | b0 :: b1 :: rest =>
          let w := u16 (Z.lor b0 (Z.shiftl b1 8)) in
          if corrupted w then None
          else option_map (cons w) (byte_buffer_to_word_buffer n' rest)
      | _ => None
      end
  end.

(** The packing loop shared by [write_dsk_block] and [write_dectape_block]. *)
Fixpoint words_to_bytes (block_buffer : list Z) : option (list Z) :=
  match block_buffer with
  | [] => Some []
  | w :: rest =>
      if corrupted w then None
      else option_map (fun bs => u8 (Z.land w 255) :: u8 (Z.shiftr w 8) :: bs)
                      (words_to_bytes rest)
  end.

Definition write_dsk_block (img : image) (block_no : Z) (block_buffer : list Z)
  : option image :=
  match words_to_bytes block_buffer with
  | None => None
  | Some byte_buffer =>
      Some (pwrite img byte_buffer (Z.to_nat (block_no * OS8_BLOCK_SIZE * 2)))
  end.

Definition read_dsk_block (img : image) (block_no : Z) : option (list Z) :=
  let byte_buffer :=
    pread img (Z.to_nat (OS8_BLOCK_SIZE * 2))
          (Z.to_nat (block_no * OS8_BLOCK_SIZE * 2)) in
  if (length byte_buffer =? Z.to_nat (OS8_BLOCK_SIZE * 2))%nat
  then byte_buffer_to_word_buffer (Z.to_nat OS8_BLOCK_SIZE) byte_buffer
  else None.

(** [write_dectape_block]: an OS/8 block is two physical records of 129
    words; the 129th word of each record is written as zero. *)
Definition write_dectape_block (img : image) (block_no : Z)
  (block_buffer : list Z) : option image :=
  let byte_offset := Z.to_nat (block_no * DECTAPE_BLOCK_SIZE * 2) in
  match words_to_bytes (firstn 128 block_buffer) with
  | None => None
  | Some rec0 =>
      let img1 := pwrite img (rec0 ++ [0; 0]) byte_offset in
      match words_to_bytes (skipn 128 block_buffer) with
      | None => None
      | Some rec1 =>
          Some (pwrite img1 (rec1 ++ [0; 0])
                       (byte_offset + Z.to_nat DECTAPE_BLOCK_SIZE))
      end
  end.

(** [read_dectape_block]: 256 bytes are read from each of the two records,
    the 129th word of each is skipped. *)
Definition read_dectape_block (img : image) (block_no : Z)
  : option (list Z) :=
  let byte_offset := Z.to_nat (block_no * DECTAPE_BLOCK_SIZE * 2) in
  let half0 := pread img (Z.to_nat OS8_BLOCK_SIZE) byte_offset in
  if (length half0 =? Z.to_nat OS8_BLOCK_SIZE)%nat then
    let half1 := pread img (Z.to_nat OS8_BLOCK_SIZE)
                       (byte_offset + Z.to_nat DECTAPE_BLOCK_SIZE) in
    if (length half1 =? Z.to_nat OS8_BLOCK_SIZE)%nat then
      byte_buffer_to_word_buffer (Z.to_nat OS8_BLOCK_SIZE) (half0 ++ half1)
    else None
  else None.

(** The packing loop of [write_rka_block]: two words in three bytes. *)
Fixpoint rka_pack (block_buffer : list Z) : option (list Z) :=
  match block_buffer with
  | w1 :: w2 :: rest =>
      if corrupted w1 || corrupted w2 then None
      else option_map
             (fun bs => u8 (Z.shiftr w1 4)
                        :: u8 (Z.lor (Z.shiftl (Z.land w1 15) 4) (Z.shiftr w2 8))
                        :: u8 (Z.land w2 255) :: bs)
             (rka_pack rest)
  | _ => Some []
  end.

(** The unpacking loop of [read_rka_block]. *)
Fixpoint rka_unpack (n : nat) (byte_buffer : list Z) : list Z :=
  match n with
  | O => []
  | S n' =>
      match byte_buffer with
      | c1 :: c2 :: c3 :: rest =>
          u16 (Z.lor (Z.shiftl c1 4) (Z.shiftr c2 4))
          :: u16 (Z.lor (Z.shiftl (Z.land c2 15) 8) c3)
          :: rka_unpack n' rest
      | _ => []
      end
  end.

Definition write_rka_block (img : image) (block_no : Z) (block_buffer : list Z)
  : option image :=
  match rka_pack block_buffer with
  | None => None
  | Some byte_buffer =>
      Some (pwrite img byte_buffer (Z.to_nat (block_no * RK05_BLOCK_SIZE)))
  end.

Definition read_rka_block (img : image) (block_no : Z) : option (list Z) :=
  let byte_buffer :=
    pread img (Z.to_nat RK05_BLOCK_SIZE) (Z.to_nat (block_no * RK05_BLOCK_SIZE)) in
  if (length byte_buffer =? Z.to_nat RK05_BLOCK_SIZE)%nat
  then Some (rka_unpack 128 byte_buffer)
  else None.

Definition write_rkb_block (img : image) (block_no : Z) (block_buffer : list Z)
  : option image :=
  write_rka_block img (block_no + RK05_RKB_OFFSET) block_buffer.

Definition read_rkb_block (img : image) (block_no : Z) : option (list Z) :=
  read_rka_block img (block_no + RK05_RKB_OFFSET).

(** ** Bounded enumeration, used to settle bit-level facts by evaluation *)

Fixpoint below (n : nat) (P : Z -> bool) : bool :=
  match n with
  | O => true
  | S n' => P (Z.of_nat n') && below n' P
  end.

Definition word12b (w : Z) : bool := (0 <=? w) && (w <? 4096).
Definition byte8b (b : Z) : bool := (0 <=? b) && (b <? 256).

(** Sample image for the codec laws: 1032 bytes, byte [i] is [i mod 16]. *)
Definition sample_image : image :=
  map (fun i => Z.of_nat i mod 16) (seq 0 1032).

(** Sample block: word [i] is [(37 * i + 5) mod 4096]. *)
Definition sample_block : list Z :=
  map (fun i => (37 * Z.of_nat i + 5) mod 4096) (seq 0 256).

Definition block_of (r : option (list Z)) : list Z :=
  match r with Some b => b | None => [] end.

(** ** The directory in memory *)

(** A directory segment: the dirty flag and the 256 words of the block.
    The header fields of [dir_struct_t] are the words 0 to 4 and
    [file_entries] starts at word 5. *)
Record dir_block_t := mk_dir_block { dirty : bool; data : list Z }.

Definition directory_t := list dir_block_t.

Definition no_block : dir_block_t := mk_dir_block false [].

(** Word access inside a block.  The C code does not check bounds; in the
    model a read outside the block yields 0 and a write outside is dropped. *)
Definition rd (l : list Z) (off : Z) : Z :=
  if off <? 0 then 0 else nth (Z.to_nat off) l 0.

Fixpoint upd {A : Type} (n : nat) (v : A) (l : list A) : list A :=
  match l with
  | [] => []
  | h :: t => match n with
              | O => v :: t
              | S n' => h :: upd n' v t
              end
  end.

Definition wr (l : list Z) (off v : Z) : list Z :=
  if off <? 0 then l else upd (Z.to_nat off) v l.

(** A pointer to a segment is its index in the directory; [NULL] is no index. *)
Definition NULL : Z := -1.

Definition seg (d : directory_t) (i : Z) : dir_block_t :=
  if i <? 0 then no_block else nth (Z.to_nat i) d no_block.

Definition set_seg (d : directory_t) (i : Z) (s : dir_block_t) : directory_t :=
  if i <? 0 then d else upd (Z.to_nat i) s d.

Definition word (d : directory_t) (i off : Z) : Z := rd (data (seg d i)) off.

(** Store into one word of segment [i]; the dirty flag is left as it is. *)
Definition poke (d : directory_t) (i off v : Z) : directory_t :=
  set_seg d i (mk_dir_block (dirty (seg d i)) (wr (data (seg d i)) off (u16 v))).

Definition mark_dirty (d : directory_t) (i : Z) : directory_t :=
  set_seg d i (mk_dir_block true (data (seg d i))).

Definition number_files (d : directory_t) (i : Z) : Z := word d i 0.
Definition first_file_block (d : directory_t) (i : Z) : Z := word d i 1.
Definition next_segment (d : directory_t) (i : Z) : Z := word d i 2.
Definition flag_word (d : directory_t) (i : Z) : Z := word d i 3.
Definition additional_words (d : directory_t) (i : Z) : Z := word d i 4.
Definition file_entries : Z := 5.

Record cursor_t := mk_cursor {
  c_file_number : Z;
  c_next_block : Z;
  c_entry : Z;          (* word offset in the segment *)
  c_dir_block : Z       (* segment index *)
}.

Record entry_t := mk_entry {
  empty_file : bool;
  name : list Z;
  dir_block : Z;
  entry : Z;
  file_block : Z;
  file_number : Z;
  e_length : Z;            (* the field [length] *)
  e_additional_words : list Z;
  additional_count : Z
}.

(** The value of [entry_t exclude_entry = {0}], also used for a local
    [entry_t] that has not been assigned yet. *)
Definition entry_zero : entry_t :=
  mk_entry false [0; 0; 0; 0] NULL 0 0 0 0 (repeat 0 10) 0.

Definition bump_number_files (d : directory_t) (i amount : Z) : directory_t :=
  let d1 := mark_dirty d i in
  poke d1 i 0 (number_files d1 i - amount).

Definition bump_first_file_block (d : directory_t) (i amount : Z) : directory_t :=
  let d1 := mark_dirty d i in
  poke d1 i 1 (first_file_block d1 i + amount).

Definition set_next_segment (d : directory_t) (i next : Z) : directory_t :=
  let d1 := mark_dirty d i in
  poke d1 i 2 next.

Definition init_cursor (d : directory_t) : cursor_t :=
  mk_cursor 1 (first_file_block d 0) file_entries 0.

Definition overflowed_segment (d : directory_t) (c : cursor_t) : bool :=
  c_file_number c >? negate (number_files d (c_dir_block c)).

(** [valid_entry]: moves the cursor to the next segment while the current
    one is exhausted.  [None]: the chain does not end within the fuel, or
    [assert(next_segment <= DIR_LENGTH)] fails. *)
Fixpoint valid_entry (fuel : nat) (d : directory_t) (c : cursor_t)
  : option (bool * cursor_t) :=
  match fuel with
  | O => None
  | S fuel' =>
      if overflowed_segment d c then
        let next := next_segment d (c_dir_block c) in
        if next =? 0 then Some (false, c)
        else if next >? DIR_LENGTH then None
        else valid_entry fuel' d
               (mk_cursor 1 (first_file_block d (next - 1)) file_entries (next - 1))
      else Some (true, c)
  end.

(** [sizeof(name_t) / sizeof(pdp8_word_t) + 1 + negate(additional_words)],
    returned as [unsigned]. *)
Definition file_entry_length (d : directory_t) (i : Z) : Z :=
  (4 + 1 + negate (additional_words d i)) mod 2 ^ 32.

Definition entry_length (d : directory_t) (e : entry_t) : Z :=
  if empty_file e then empty_entry_length
  else file_entry_length d (dir_block e).

Definition advance_cursor (d : directory_t) (c : cursor_t) (e : entry_t)
  : cursor_t :=
  mk_cursor (u16 (c_file_number c + 1))
            (u16 (c_next_block c + e_length e))
            (c_entry c + entry_length d e)
            (c_dir_block c).

Definition restore_cursor (c : cursor_t) (e : entry_t) : cursor_t :=
  mk_cursor (file_number e) (file_block e) (entry e) (dir_block e).

(** [n] consecutive words of segment [i] from offset [off]. *)
Definition words_at (d : directory_t) (i off : Z) (n : nat) : list Z :=
  map (fun k => word d i (off + Z.of_nat k)) (seq 0 n).

(** [peek_entry]: the fields that the C code does not assign keep the
    value they have in [old]. *)
Definition peek_entry (d : directory_t) (c : cursor_t) (old : entry_t)
  : entry_t :=
  let i := c_dir_block c in
  let p := c_entry c in
  if word d i p =? 0 then
    mk_entry true (name old) i p (c_next_block c) (c_file_number c)
             (u16 (negate (word d i (p + 1))))
             (e_additional_words old) (additional_count old)
  else
    let count := u16 (negate (additional_words d i)) in
    let kept := Z.to_nat (Z.min 10 count) in
    mk_entry false (words_at d i p 4) i p (c_next_block c) (c_file_number c)
             (u16 (negate (word d i (p + 4 + count))))
             (words_at d i (p + 4) kept ++ skipn kept (e_additional_words old))
             count.

Definition get_entry (d : directory_t) (c : cursor_t) (old : entry_t)
  : cursor_t * entry_t :=
  let e := peek_entry d c old in
  (advance_cursor d c e, e).

(** Stores the words [ws] into segment [i] from offset [off] upwards. *)
Fixpoint poke_list (d : directory_t) (i off : Z) (ws : list Z) : directory_t :=
  match ws with
  | [] => d
  | w :: rest => poke_list (poke d i off w) i (off + 1) rest
  end.

Definition put_entry (d : directory_t) (e : entry_t) : directory_t :=
  let i := dir_block e in
  let d1 := mark_dirty d i in
  if empty_file e then
    poke (poke d1 i (entry e) 0) i (entry e + 1) (negate (e_length e))
  else
    let kept := Z.to_nat (Z.min 10 (additional_count e)) in
    let d2 := poke_list d1 i (entry e)
                (map (fun k => nth k (name e) 0) (seq 0 4)) in
    let d3 := poke_list d2 i (entry e + 4)
                (map (fun k => nth k (e_additional_words e) 0) (seq 0 kept)) in
    poke d3 i (entry e + 4 + additional_count e) (negate (e_length e)).

(** [shuffle_words_up]: [while (src >= last) *dst-- = *src--;] on the words
    of one block; the loop runs [src - last + 1] times. *)
Fixpoint shuffle_up_loop (n : nat) (l : list Z) (src dst : Z) : list Z :=
  match n with
  | O => l
  | S n' => shuffle_up_loop n' (wr l dst (rd l src)) (src - 1) (dst - 1)
  end.

Definition shuffle_words_up (l : list Z) (src dst last : Z) : list Z :=
  shuffle_up_loop (Z.to_nat (src - last + 1)) l src dst.

(** [shuffle_words_down]: [while (src <= last) *dst++ = *src++;]. *)
Fixpoint shuffle_down_loop (n : nat) (l : list Z) (src dst : Z) : list Z :=
  match n with
  | O => l
  | S n' => shuffle_down_loop n' (wr l dst (rd l src)) (src + 1) (dst + 1)
  end.

Definition shuffle_words_down (l : list Z) (src dst last : Z) : list Z :=
  shuffle_down_loop (Z.to_nat (last - src + 1)) l src dst.

Definition set_data (d : directory_t) (i : Z) (l : list Z) : directory_t :=
  set_seg d i (mk_dir_block (dirty (seg d i)) l).

(** [fix_segment_up]: the words from [entry.entry] to [first_byte] move up
    by [offset]; the flag word follows when it points above [entry.entry].
    [offset] is a C [unsigned], so [*flag_word + offset] is taken modulo
    [2 ^ 32]. *)
Definition fix_segment_up (d : directory_t) (e : entry_t) (offset first_byte : Z)
  : directory_t :=
  let i := dir_block e in
  let d1 := set_data d i
              (shuffle_words_up (data (seg d i)) first_byte
                                (first_byte + offset) (entry e)) in
  let flag := flag_word d1 i in
  if negb (flag =? 0) && (flag - 768 >? entry e) then
    poke d1 i 3 (if (flag + offset) mod 2 ^ 32 >? 1023 then 0
                 else (flag + offset) mod 2 ^ 32)
  else d1.

(** [fix_segment_down]: the words after the entry move down to
    [entry.entry + offset]. *)
Definition fix_segment_down (d : directory_t) (e : entry_t) (offset : Z)
  : directory_t :=
  let i := dir_block e in
  let d1 := set_data d i
              (shuffle_words_down (data (seg d i)) (entry e + entry_length d e)
                                  (entry e + offset) (OS8_BLOCK_SIZE - 1)) in
  let flag := flag_word d1 i in
  if negb (flag =? 0) && (flag - 768 >? entry e) then
    poke d1 i 3 (flag - (entry_length d1 e - offset))
  else d1.

(** One round of the [do ... while (i >= 0)] loop of [validate_directory]
    looks at segment [i]. *)
Definition segment_sane (d : directory_t) (i : Z) : bool :=
  (next_segment d i <=? 6)
  && negb (number_files d i =? 0)
  && (negate (number_files d i) <? 100)
  && (negate (additional_words d i) <? 10)
  && ((flag_word d i =? 0)
      || ((flag_word d 0 >=? 768) && (flag_word d i <=? 1023))).

Fixpoint validate_loop (fuel : nat) (d : directory_t) (i : Z) : option bool :=
  match fuel with
  | O => None
  | S fuel' =>
      if segment_sane d i then
        let i' := next_segment d i - 1 in
        if i' >=? 0 then validate_loop fuel' d i' else Some true
      else Some false
  end.

Definition validate_directory (fuel : nat) (d : directory_t) : option bool :=
  validate_loop fuel d 0.

(** [read_directory], for a block reader [read_block]: the segments on the
    chain are read into [directory]; the result is [(ok, directory)]. *)
Fixpoint read_directory_loop (fuel : nat) (read_block : Z -> option (list Z))
  (d : directory_t) (block_no : Z) : option (bool * directory_t) :=
  match fuel with
  | O => None
  | S fuel' =>
      match read_block block_no with
      | None => Some (false, d)
      | Some blk =>
          let i := block_no - FIRST_DIR_BLOCK in
          let d1 := set_seg d i (mk_dir_block false blk) in
          let next := next_segment d1 i in
          if next >? DIR_LENGTH then Some (false, d1)
          else if next =? 0 then Some (true, d1)
          else read_directory_loop fuel' read_block d1 next
      end
  end.

Definition read_directory (fuel : nat) (read_block : Z -> option (list Z))
  (d : directory_t) : option (bool * directory_t) :=
  match read_directory_loop fuel read_block d FIRST_DIR_BLOCK with
  | None => None
  | Some (false, d1) => Some (false, d1)
  | Some (true, d1) =>
      match validate_directory fuel d1 with
      | None => None
      | Some ok => Some (ok, d1)
      end
  end.

(** ** The directory engine *)

Definition set_length (e : entry_t) (len : Z) : entry_t :=
  mk_entry (empty_file e) (name e) (dir_block e) (entry e) (file_block e)
           (file_number e) len (e_additional_words e) (additional_count e).

(** [consolidate]: the body of the [while (valid_entry(&cursor))] loop acts
    on the directory, the cursor and the two local entries. *)
Definition consolidate_body (d : directory_t) (c : cursor_t)
  (e_old ne_old : entry_t) : directory_t * cursor_t * entry_t * entry_t :=
  let '(c1, e) := get_entry d c e_old in
  let ne := peek_entry d c1 ne_old in
  if empty_file e then
    if e_length e =? 0 then
      let d1 := fix_segment_down d e 0 in
      (bump_number_files d1 (dir_block e) (-1), c1, e, ne)
    else if negb (overflowed_segment d c1) && empty_file ne then
      let e' := set_length e (u16 (e_length e + e_length ne)) in
      let d1 := put_entry d e' in
      let d2 := fix_segment_down d1 ne 0 in
      let d3 := bump_number_files d2 (dir_block e') (-1) in
      (d3, restore_cursor c1 e', e', ne)
    else (d, c1, e, ne)
  else (d, c1, e, ne).

Fixpoint consolidate_loop (fuel : nat) (d : directory_t) (c : cursor_t)
  (e ne : entry_t) : option directory_t :=
  match fuel with
  | O => None
  | S fuel' =>
      match valid_entry fuel d c with
      | None => None
      | Some (false, _) => Some d
      | Some (true, c1) =>
          let '(d', c', e', ne') := consolidate_body d c1 e ne in
          consolidate_loop fuel' d' c' e' ne'
      end
  end.

Definition consolidate (fuel : nat) (d : directory_t) : option directory_t :=
  consolidate_loop fuel d (init_cursor d) entry_zero entry_zero.

(** [get_last_entry]: walks the entries of segment [i].  The loop runs once
    per entry, at most 4095 times; with no entry at all the C code leaves
    [*entry] unassigned, which is [None] here. *)
Fixpoint get_last_entry_loop (n : nat) (d : directory_t) (c : cursor_t)
  (e : option entry_t) : option entry_t :=
  match n with
  | O => e
  | S n' =>
      if overflowed_segment d c then e
      else
        let '(c1, e1) :=
          get_entry d c (match e with Some x => x | None => entry_zero end) in
        get_last_entry_loop n' d c1 (Some e1)
  end.

Definition get_last_entry (d : directory_t) (i : Z) : option entry_t :=
  get_last_entry_loop 4096 d
    (mk_cursor 1 (first_file_block d i) file_entries i) None.

(** [get_unused_ptr]: [Some (Some p)] is the pointer [p], [Some None] is
    the C [NULL]; [None] when [get_last_entry] found no entry. *)
Definition get_unused_ptr (d : directory_t) (i size : Z) : option (option Z) :=
  match get_last_entry d i with
  | None => None
  | Some e =>
      let empty_ptr := entry e + entry_length d e in
      Some (if empty_ptr + size <? OS8_BLOCK_SIZE then Some empty_ptr else None)
  end.

(** The test that makes [get_empty_entry] keep [entry] as the best so far;
    [len] is the C parameter [length]. *)
Definition better_fit (exclude_entry best e : entry_t) (len : Z) : bool :=
  (negb (dir_block e =? dir_block exclude_entry)
   || negb (file_number e =? file_number exclude_entry))
  && empty_file e
  && (e_length e >=? len)
  && ((e_length best =? 0)
      || (if len =? 0 then e_length e >? e_length best
          else e_length e <? e_length best)).

Fixpoint get_empty_entry_loop (fuel : nat) (d : directory_t)
  (exclude_entry : entry_t) (len : Z) (c : cursor_t) (e best : entry_t)
  : option entry_t :=
  match fuel with
  | O => None
  | S fuel' =>
      match valid_entry fuel d c with
      | None => None
      | Some (false, _) => Some best
      | Some (true, c1) =>
          let '(c2, e1) := get_entry d c1 e in
          get_empty_entry_loop fuel' d exclude_entry len c2 e1
            (if better_fit exclude_entry best e1 len then e1 else best)
      end
  end.

(** [get_empty_entry]: [best_entry] is what the caller's [*best_entry] held
    before the call; the result is the returned flag and [*best_entry]. *)
Definition get_empty_entry (fuel : nat) (d : directory_t)
  (exclude_entry best_entry : entry_t) (len : Z) : option (bool * entry_t) :=
  match get_empty_entry_loop fuel d exclude_entry len (init_cursor d)
          entry_zero (set_length best_entry 0) with
  | None => None
  | Some best => Some (negb (e_length best =? 0), best)
  end.

(** The entries met by the forward cursor walk
    [while (valid_entry(&cursor)) get_entry(&cursor, &entry);], in order. *)
Fixpoint entries_loop (fuel : nat) (d : directory_t) (c : cursor_t)
  (e : entry_t) : option (list entry_t) :=
  match fuel with
  | O => None
  | S fuel' =>
      match valid_entry fuel d c with
      | None => None
      | Some (false, _) => Some []
      | Some (true, c1) =>
          let '(c2, e1) := get_entry d c1 e in
          option_map (cons e1) (entries_loop fuel' d c2 e1)
      end
  end.

Definition directory_entries (fuel : nat) (d : directory_t)
  : option (list entry_t) :=
  entries_loop fuel d (init_cursor d) entry_zero.

(** The chain of [next_segment] links from segment [i] reaches the
    terminator 0 within [n] segments, with every link at most [DIR_LENGTH]. *)
Fixpoint chain_ends (n : nat) (d : directory_t) (i : Z) : bool :=
  match n with
  | O => false
  | S n' =>
      let next := next_segment d i in
      if next =? 0 then true
      else if next >? DIR_LENGTH then false
      else chain_ends n' d (next - 1)
  end.

(** Fuel that suffices for a cursor walk over a chain of at most six
    segments: a segment holds at most 4095 entries. *)
Definition walk_fuel : nat := 6 * 4097 + 4097.

(** ** Building segments for examples *)

Definition mk_segment (header entries : list Z) : dir_block_t :=
  mk_dir_block false
    (firstn 256 (header ++ entries ++ repeat 0 256)).

(** A present entry with one additional word: four name words, the date
    word and the negated length. *)
Definition file_words (n0 n1 n2 n3 date len : Z) : list Z :=
  [n0; n1; n2; n3; date; negate len].

Definition empty_words (len : Z) : list Z := [0; negate len].

(** ** Vocabulary for the allocation claims *)

(** [e] is not the excluded entry, by segment and file number. *)
Definition not_excluded (exclude_entry e : entry_t) : Prop :=
  dir_block e <> dir_block exclude_entry
  \/ file_number e <> file_number exclude_entry.

(** An empty entry, not excluded, of at least [len] blocks. *)
Definition candidate (exclude_entry : entry_t) (len : Z) (e : entry_t) : Prop :=
  not_excluded exclude_entry e /\ empty_file e = true /\ len <= e_length e.

(** A candidate of non-zero length. *)
Definition usable (exclude_entry : entry_t) (len : Z) (e : entry_t) : Prop :=
  candidate exclude_entry len e /\ e_length e <> 0.

(** [best] is at least as good a fit as [e]: largest for a request of 0,
    smallest otherwise. *)
Definition fits_best (len : Z) (best e : entry_t) : Prop :=
  if len =? 0 then e_length e <= e_length best
  else e_length best <= e_length e.

(** The allocation rule with [cand] as the set of candidates: on success the
    result is a candidate from the walk that fits best, and the call fails
    exactly when the walk has no candidate. *)
Definition allocation_rule (cand : entry_t -> Prop) (len : Z)
  (es : list entry_t) (r : bool * entry_t) : Prop :=
  (fst r = true ->
   In (snd r) es /\ cand (snd r) /\
   forall e, In e es -> cand e -> fits_best len (snd r) e)
  /\ (fst r = false <-> forall e, In e es -> ~ cand e).

(** One step of the loop of [get_empty_entry] on the best entry so far. *)
Definition pick (exclude_entry : entry_t) (len : Z) (best e : entry_t)
  : entry_t :=
  if better_fit exclude_entry best e len then e else best.

(** What the loop of [get_empty_entry] knows after the entries [pre]: either
    nothing usable was met, or [best] is the first of the best usable
    entries met. *)
Definition state_ok (exclude_entry : entry_t) (len : Z)
  (pre : list entry_t) (best : entry_t) : Prop :=
  (e_length best = 0 /\ forall e, In e pre -> ~ usable exclude_entry len e)
  \/ (usable exclude_entry len best
      /\ (forall e, In e pre -> usable exclude_entry len e ->
                    fits_best len best e)
      /\ exists p1 p2, pre = p1 ++ best :: p2
           /\ forall e, In e p1 -> candidate exclude_entry len e ->
                        e_length e <> e_length best).

Definition sample_zero_block : dir_block_t := mk_dir_block false (repeat 0 256).

(** A directory of one segment: A (3 blocks), an empty of 5, B (2 blocks),
    an empty of 5, an empty of 0, and an empty of 1452. *)
Definition sample_directory : directory_t :=
  [ mk_segment [negate 6; 7; 0; 0; negate 1]
      (file_words 64 0 0 0 0 3 ++ empty_words 5 ++ file_words 128 0 0 0 0 2
       ++ empty_words 5 ++ empty_words 0 ++ empty_words 1452);
    sample_zero_block; sample_zero_block; sample_zero_block;
    sample_zero_block; sample_zero_block ].

(** A directory of one segment that holds A (1467 blocks) and an empty
    entry of length 0. *)
Definition full_directory : directory_t :=
  [ mk_segment [negate 2; 7; 0; 0; negate 1]
      (file_words 64 0 0 0 0 1467 ++ empty_words 0);
    sample_zero_block; sample_zero_block; sample_zero_block;
    sample_zero_block; sample_zero_block ].

(** ** File names and patterns *)

Definition code (a : ascii) : Z := Z.of_nat (nat_of_ascii a).

(** C [tolower] in the C locale. *)
Definition tolower (c : Z) : Z :=
  if (65 <=? c) && (c <=? 90) then c + 32 else c.

(** A byte seen as a (signed) [char]. *)
Definition schar (c : Z) : Z := if c <? 128 then c else c - 256.

(** The six-bit code of a character, as [build_sixbit] computes it. *)
Definition sixbit (a : ascii) : Z :=
  let c := schar (tolower (code a)) in
  u16 (schar (u8 (if c <? 96 then c else c - 96))).

Fixpoint build_sixbit_loop (s : string) (name : list Z) (i : Z) : list Z :=
  match s with
  | EmptyString => name
  | String a rest =>
      if code a =? 42 (* '*' *) then build_sixbit_loop rest name i
      else if code a =? 46 (* '.' *) then build_sixbit_loop rest name 6
      else
        let c := sixbit a in
        let w := if Z.odd i then Z.lor c (rd name (i / 2))
                 else u16 (Z.shiftl c 6) in
        build_sixbit_loop rest (wr name (i / 2) w) (i + 1)
  end.

Definition build_sixbit (filename : string) : list Z :=
  build_sixbit_loop filename [0; 0; 0; 0] 0.

(** The inner [while (i <= finish)] loop of [build_mask_part]. *)
Fixpoint clear_mask (n : nat) (mask : list Z) (i : Z) : list Z :=
  match n with
  | O => mask
  | S n' =>
      clear_mask n'
        (wr mask (i / 2)
            (Z.land (rd mask (i / 2)) (if Z.odd i then 4032 else 0)))
        (i + 1)
  end.

Fixpoint build_mask_part (s : string) (mask : list Z) (i finish : Z) : list Z :=
  match s with
  | EmptyString => mask
  | String a rest =>
      if code a =? 46 then mask
      else if code a =? 42 then clear_mask (Z.to_nat (finish - i + 1)) mask i
      else build_mask_part rest mask (i + 1) finish
  end.

(** [strchr(filename, '.')], the text after the first dot. *)
Fixpoint after_dot (s : string) : option string :=
  match s with
  | EmptyString => None
  | String a rest => if code a =? 46 then Some rest else after_dot rest
  end.

Definition build_mask (filename : string) : list Z :=
  let mask := build_mask_part filename [4095; 4095; 4095; 4095] 0 5 in
  match after_dot filename with
  | Some ext => build_mask_part ext mask 6 7
  | None => mask
  end.

Record pattern_t := mk_pattern { mask : list Z; pmatch : list Z }.

Definition build_pattern (filename : string) : pattern_t :=
  mk_pattern (build_mask filename) (build_sixbit filename).

Definition pattern_match_p (name : list Z) (p : pattern_t) : bool :=
  negb (existsb
          (fun k => negb (Z.land (Z.lxor (nth k name 0) (nth k (pmatch p) 0))
                                 (nth k (mask p) 0) =? 0))
          (seq 0 4)).

(** [strstr(filename, "os8:") ? filename + 4 : filename]. *)
Fixpoint contains_os8 (s : string) : bool :=
  match s with
  | EmptyString => false
  | String _ rest => prefix "os8:"%string s || contains_os8 rest
  end.

Definition drop4 (s : string) : string :=
  match s with
  | String _ (String _ (String _ (String _ rest))) => rest
  | _ => EmptyString
  end.

Definition strip_device (filename : string) : string :=
  if contains_os8 filename then drop4 filename else filename.

(** [lookup]: the next entry from the cursor on that is present, has a
    non-zero length and matches the pattern; the result is the entry, if
    any, and the cursor. *)
Fixpoint lookup_loop (fuel : nat) (p : pattern_t) (d : directory_t)
  (c : cursor_t) : option (option entry_t * cursor_t) :=
  match fuel with
  | O => None
  | S fuel' =>
      match valid_entry fuel d c with
      | None => None
      | Some (false, c1) => Some (None, c1)
      | Some (true, c1) =>
          let '(c2, local_entry) := get_entry d c1 entry_zero in
          if negb (empty_file local_entry)
             && negb (e_length local_entry =? 0)
             && pattern_match_p (name local_entry) p
          then Some (Some local_entry, c2)
          else lookup_loop fuel' p d c2
      end
  end.

Definition lookup (fuel : nat) (filename : string) (d : directory_t)
  (c : cursor_t) : option (option entry_t * cursor_t) :=
  lookup_loop fuel (build_pattern (strip_device filename)) d c.

(** ** Insertion *)

Definition set_place (e : entry_t) (i p fb fn : Z) : entry_t :=
  mk_entry (empty_file e) (name e) i p fb fn (e_length e)
           (e_additional_words e) (additional_count e).

(** The body of the [if] that moves the last entry of [dir_block] to the
    front of [next_dir_block]; the result is the directory and [entry]. *)
Definition move_last_entry (d : directory_t) (e : entry_t)
  (dir_block_i next_dir_block next_unused_ptr : Z)
  : option (directory_t * entry_t) :=
  match get_last_entry d dir_block_i with
  | None => None
  | Some last_entry =>
      let move_entry := (file_number last_entry =? file_number e)
                        && (dir_block last_entry =? dir_block e) in
      let d1 := bump_number_files d dir_block_i (-1) in
      let d2 := bump_number_files d1 next_dir_block 1 in
      let d3 := bump_first_file_block d2 next_dir_block (- e_length last_entry) in
      let last_entry' :=
        set_place last_entry next_dir_block file_entries
                  (first_file_block d3 next_dir_block) 1 in
      let d4 := fix_segment_up d3 last_entry' (entry_length d3 last_entry')
                               next_unused_ptr in
      let d5 := put_entry d4 last_entry' in
      Some (d5, if move_entry then last_entry' else e)
  end.

(** The inner loop of [enter]: from [dir_block] along the chain to the
    first segment with room, into which the last entry of its predecessor
    moves.  The result is the directory, [entry], and [dir_block] as the
    loop leaves it. *)
Fixpoint enter_shuffle (fuel : nat) (d : directory_t) (e : entry_t)
  (min_free_length dir_block_i : Z) : option (directory_t * entry_t * Z) :=
  match fuel with
  | O => None
  | S fuel' =>
      let next := next_segment d dir_block_i in
      if next =? 0 then Some (d, e, dir_block_i)
      else if next >? DIR_LENGTH then None
      else
        let next_dir_block := next - 1 in
        match get_unused_ptr d next_dir_block min_free_length with
        | None => None
        | Some (Some next_unused_ptr) =>
            match move_last_entry d e dir_block_i next_dir_block
                                  next_unused_ptr with
            | None => None
            | Some (d', e') => Some (d', e', dir_block_i)
            end
        | Some None =>
            enter_shuffle fuel' d e min_free_length next_dir_block
        end
  end.

(** The body of [if ((index = ...) < DIR_LENGTH)]: segment [index] becomes
    the successor of [dir_block]. *)
Definition append_segment (d : directory_t) (dir_block_i index : Z)
  : option directory_t :=
  let d1 := set_next_segment d dir_block_i (index + 1) in
  let d2 := poke d1 index 0 (negate 1) in
  match get_last_entry d2 dir_block_i with
  | None => None
  | Some temp_entry =>
      let d3 := poke d2 index 1
                     (file_block temp_entry + entry_length d2 temp_entry) in
      let d4 := poke d3 index 2 0 in
      let d5 := poke d4 index 3 0 in
      let d6 := poke d5 index 4 (additional_words d5 dir_block_i) in
      let d7 := poke d6 index file_entries 0 in
      Some (poke d7 index (file_entries + 1) 0)
  end.

(** What one round of the outer loop of [enter] did. *)
Inductive enter_round :=
| Moved (d : directory_t) (e : entry_t)
| Appended (d : directory_t) (e : entry_t) (index : Z)
| Full (d : directory_t).

Definition enter_step (fuel : nat) (d : directory_t) (e : entry_t)
  (min_free_length : Z) : option enter_round :=
  match enter_shuffle fuel d e min_free_length (dir_block e) with
  | None => None
  | Some (d1, e1, dir_block_i) =>
      if next_segment d1 dir_block_i =? 0 then
        let index := u16 (dir_block_i + 1) in
        if index <? DIR_LENGTH then
          match append_segment d1 dir_block_i index with
          | None => None
          | Some d2 => Some (Appended d2 e1 index)
          end
        else Some (Full d1)
      else Some (Moved d1 e1)
  end.

(** The outer loop of [enter]: [Some (d, Some (entry, unused_ptr))] when
    the segment of [entry] has room, [Some (d, None)] for [return false]. *)
Fixpoint enter_make_room (fuel : nat) (d : directory_t) (e : entry_t)
  (min_free_length : Z) : option (directory_t * option (entry_t * Z)) :=
  match fuel with
  | O => None
  | S fuel' =>
      match get_unused_ptr d (dir_block e) min_free_length with
      | None => None
      | Some (Some unused_ptr) => Some (d, Some (e, unused_ptr))
      | Some None =>
          match enter_step fuel d e min_free_length with
          | None => None
          | Some (Moved d' e') => enter_make_room fuel' d' e' min_free_length
          | Some (Appended d' e' _) =>
              enter_make_room fuel' d' e' min_free_length
          | Some (Full d') => Some (d', None)
          end
      end
  end.

Definition set_file (e : entry_t) (nm : list Z) (count : Z) (len : Z)
  : entry_t :=
  let kept := Z.to_nat (Z.min 10 count) in
  mk_entry false nm (dir_block e) (entry e) (file_block e) (file_number e)
           len
           (repeat 0 kept ++ skipn kept (e_additional_words e))
           count.

(** The part of [enter] after the loop. *)
Definition enter_finish (fuel : nat) (filename : string) (len : Z)
  (new_entry_length : Z) (d : directory_t) (e : entry_t) (unused_ptr : Z)
  : option (bool * directory_t) :=
  match validate_directory fuel d with
  | Some true =>
      let d1 := fix_segment_up d e new_entry_length unused_ptr in
      let d2 := bump_number_files d1 (dir_block e) 1 in
      let e1 := set_file e (build_sixbit filename)
                         (u16 (negate (additional_words d2 (dir_block e))))
                         (u16 len) in
      let d3 := put_entry d2 e1 in
      let c := advance_cursor d3 (restore_cursor (init_cursor d3) e1) e1 in
      let e2 := peek_entry d3 c e1 in
      if empty_file e2 && (e_length e2 >=? len) then
        let e3 := set_length e2 (u16 (e_length e2 - len)) in
        let d4 := put_entry d3 e3 in
        match consolidate fuel d4 with
        | None => None
        | Some d5 => Some (true, d5)
        end
      else None
  | _ => None
  end.

(** The loop of [enter] followed by the rest of the function. *)
Definition enter_from (fuel : nat) (filename : string) (len : Z)
  (new_entry_length : Z) (d : directory_t) (e : entry_t)
  : option (bool * directory_t) :=
  match enter_make_room fuel d e
          ((new_entry_length + empty_entry_length) mod 2 ^ 32) with
  | None => None
  | Some (d1, None) => Some (false, d1)
  | Some (d1, Some (e1, unused_ptr)) =>
      enter_finish fuel filename len new_entry_length d1 e1 unused_ptr
  end.

Definition enter (fuel : nat) (filename : string) (len : Z)
  (d : directory_t) (e : entry_t) : option (bool * directory_t) :=
  enter_from fuel filename len (file_entry_length d (dir_block e)) d e.

(** ** Deletion and the file operations *)

Definition set_empty (e : entry_t) : entry_t :=
  mk_entry true (name e) (dir_block e) (entry e) (file_block e)
           (file_number e) (e_length e) (e_additional_words e)
           (additional_count e).

(** [delete_entry]: the result is the directory and [*entry]. *)
Definition delete_entry (d : directory_t) (e : entry_t)
  : directory_t * entry_t :=
  let d1 := fix_segment_down d e empty_entry_length in
  let e1 := set_empty e in
  (put_entry d1 e1, e1).

(** [allocate_os8_file]: the result is the returned flag, the directory and
    [*entry]; [entry0] is what [*entry] held before the call. *)
Definition allocate_os8_file (fuel : nat) (filename : string) (size : Z)
  (d : directory_t) (entry0 : entry_t)
  : option (bool * directory_t * entry_t) :=
  match lookup fuel filename d (init_cursor d) with
  | None => None
  | Some (found, _) =>
      let '(d1, exclude_entry) :=
        match found with
        | Some e => delete_entry d e
        | None => (d, entry_zero)
        end in
      match get_empty_entry fuel d1 exclude_entry entry0 size with
      | None => None
      | Some (ok, e) => Some (ok, d1, e)
      end
  end.

Definition enter_os8_file (fuel : nat) (filename : string) (size : Z)
  (d : directory_t) (e : entry_t) : option (bool * directory_t) :=
  match enter fuel filename size d e with
  | None => None
  | Some (true, d1) =>
      match consolidate fuel d1 with
      | None => None
      | Some d2 => Some (true, d2)
      end
  | Some (false, d1) => Some (false, d1)
  end.

(** ** Vocabulary for the flag-word claim *)

(** [sample_directory] with a flag word. *)
Definition flagged_directory (flag : Z) : directory_t :=
  [ mk_segment [negate 6; 7; 0; flag; negate 1]
      (file_words 64 0 0 0 0 3 ++ empty_words 5 ++ file_words 128 0 0 0 0 2
       ++ empty_words 5 ++ empty_words 0 ++ empty_words 1452);
    sample_zero_block; sample_zero_block; sample_zero_block;
    sample_zero_block; sample_zero_block ].

(** The first empty entry of [sample_directory], at word 11 of segment 0. *)
Definition sample_empty : entry_t :=
  mk_entry true [0; 0; 0; 0] 0 11 10 2 5 (repeat 0 10) 0.

(** The flag-word rule as the specification words it: a non-zero flag that
    refers to a position at or beyond the insertion point is increased by
    the shift, or cleared when the sum exceeds octal 1777. *)
Definition flag_follows_at_or_beyond : Prop :=
  forall (d : directory_t) (e : entry_t) (offset first_byte : Z),
    0 <= dir_block e < Z.of_nat (length d) ->
    length (data (seg d (dir_block e))) = 256%nat ->
    file_entries <= entry e -> 0 <= offset < 256 ->
    word12 (flag_word d (dir_block e)) ->
    flag_word d (dir_block e) <> 0 ->
    entry e <= flag_word d (dir_block e) - 768 ->
    flag_word (fix_segment_up d e offset first_byte) (dir_block e)
    = if flag_word d (dir_block e) + offset >? 1023 then 0
      else flag_word d (dir_block e) + offset.

(** The cursor at the entry B of [sample_directory], and that entry. *)
Definition sample_cursor : cursor_t := mk_cursor 3 15 13 0.

Definition sample_present : entry_t :=
  peek_entry sample_directory sample_cursor entry_zero.

(** ** Directories for the validation and consolidation examples *)

(** Two linked segments; the flag words are [flag1] and [flag2]. *)
Definition two_segment_directory (flag1 flag2 : Z) : directory_t :=
  [ mk_segment [negate 1; 7; 2; flag1; negate 1] (empty_words 10);
    mk_segment [negate 1; 17; 0; flag2; negate 1] (empty_words 1457);
    sample_zero_block; sample_zero_block; sample_zero_block;
    sample_zero_block ].

(** A block reader that serves the segments of [d] as the blocks 1 to 6. *)
Definition directory_reader (d : directory_t) (block_no : Z)
  : option (list Z) :=
  if (1 <=? block_no) && (block_no <=? 6)
  then Some (data (seg d (block_no - 1))) else None.

Definition blank_directory : directory_t := repeat sample_zero_block 6.

(** The directory that [enter] hands to [consolidate] after a one-block
    file D went into the one-block hole between A and C: A, D, an empty
    entry of length 0, C, and the empty entry of 1464 blocks. *)
Definition hole_directory : directory_t :=
  [ mk_segment [negate 5; 7; 0; 0; negate 1]
      (file_words 64 0 0 0 0 1 ++ file_words 256 0 0 0 0 1 ++ empty_words 0
       ++ file_words 192 0 0 0 0 1 ++ empty_words 1464);
    sample_zero_block; sample_zero_block; sample_zero_block;
    sample_zero_block; sample_zero_block ].

(** A, two empty entries of length 0, and an empty entry of 1466 blocks. *)
Definition two_zero_directory : directory_t :=
  [ mk_segment [negate 4; 7; 0; 0; negate 1]
      (file_words 64 0 0 0 0 1 ++ empty_words 0 ++ empty_words 0
       ++ empty_words 1466);
    sample_zero_block; sample_zero_block; sample_zero_block;
    sample_zero_block; sample_zero_block ].

(** What the walk shows of an entry: empty or not, first name word, length. *)
Definition entry_summary (e : entry_t) : bool * Z * Z :=
  (empty_file e, if empty_file e then 0 else nth 0 (name e) 0, e_length e).

Definition directory_summary (fuel : nat) (d : directory_t)
  : option (list (bool * Z * Z)) :=
  option_map (map entry_summary) (directory_entries fuel d).

(** ** Text copy, host to image *)

(** The static variables [i] and [w] of [put_os8_char]. *)
Record put_state := mk_put_state { put_i : Z; put_w0 : Z; put_w1 : Z }.

Definition put_state_init : put_state := mk_put_state 0 0 0.

(** [put_os8_char]: [t] is the temporary file as the list of its words. *)
Definition put_os8_char (st : put_state) (t : list Z) (ch : Z)
  : put_state * list Z :=
  let i := put_i st in
  let r := Z.rem i 3 in
  if r =? 0 then (mk_put_state (i + 1) ch (put_w1 st), t)
  else if r =? 1 then (mk_put_state (i + 1) (put_w0 st) ch, t)
  else
    let w0 := u16 (Z.lor (put_w0 st) (Z.shiftl (Z.land ch 240) 4)) in
    let w1 := u16 (Z.lor (put_w1 st) (Z.shiftl (Z.land ch 15) 8)) in
    (mk_put_state (i + 1) w0 w1, t ++ [w0; w1]).

(** The loop of [stream_host_text_file] over the bytes of the input; a
    byte 255 is [EOF] once it is stored in the [char c]. *)
Fixpoint text_loop (input : list Z) (ctrl_z_seen : bool) (st : put_state)
  (t : list Z) : bool * put_state * list Z :=
  match input with
  | [] => (ctrl_z_seen, st, t)
  | b :: rest =>
      let c := schar b in
      if (c =? -1) || ctrl_z_seen then (ctrl_z_seen, st, t)
      else
        let first_lf := true in
        let '(st1, t1) :=
          if (c =? 10) && first_lf then put_os8_char st t 141 else (st, t) in
        let '(st2, t2) :=
          if negb (c =? 0) then put_os8_char st1 t1 (u16 (Z.lor c 128))
          else (st1, t1) in
        text_loop rest (c =? 26) st2 t2
  end.

(** The words that [stream_host_text_file] puts into the temporary file.
    The C code tests [ctrl_z_seen] before it assigns it; [ctrl_z_seen0] is
    the value the variable happens to hold. *)
Definition stream_host_text_words (ctrl_z_seen0 : bool) (st : put_state)
  (input : list Z) : list Z :=
  let '(ctrl_z_seen, st1, t1) := text_loop input ctrl_z_seen0 st [] in
  let '(st2, t2) :=
    if negb ctrl_z_seen then put_os8_char st1 t1 154 else (st1, t1) in
  let '(st3, t3) := put_os8_char st2 t2 0 in
  snd (put_os8_char st3 t3 0).

(** *** The encoding in the words of the specification *)

(** Three characters in two words. *)
Definition pack3 (a b c : Z) : list Z :=
  [Z.lor a (Z.shiftl (Z.land c 240) 4); Z.lor b (Z.shiftl (Z.land c 15) 8)].

(** Groups of three characters, the last group padded with zeros. *)
Fixpoint pack_chars (cs : list Z) : list Z :=
  match cs with
  | a :: b :: c :: rest => pack3 a b c ++ pack_chars rest
  | [a; b] => pack3 a b 0
  | [a] => pack3 a 0 0
  | [] => []
  end.

(** What one input character contributes: a carriage return before a line
    feed, and the character with the mark bit unless it is NUL. *)
Definition emit (c : Z) : list Z :=
  (if c =? 10 then [141] else []) ++ (if c =? 0 then [] else [Z.lor c 128]).

Definition ends_with_ctrl_z (input : list Z) : bool := last input 0 =? 26.

(** The characters as the specification states them: every input character,
    and 0x9A appended unless the input ends with 0x1A. *)
Definition claimed_text_chars (input : list Z) : list Z :=
  flat_map emit input ++ (if ends_with_ctrl_z input then [] else [154]).

(** The input up to and including its first 0x1A. *)
Fixpoint upto_ctrl_z (input : list Z) : list Z :=
  match input with
  | [] => []
  | c :: rest => if c =? 26 then [c] else c :: upto_ctrl_z rest
  end.

(** The characters as the code produces them for 7-bit input: the input is
    read up to its first 0x1A, and 0x9A is appended when there is none. *)
Definition text_chars (input : list Z) : list Z :=
  flat_map emit (upto_ctrl_z input)
  ++ (if existsb (fun c => c =? 26) input then [] else [154]).

Definition seven_bit (c : Z) : Prop := 0 <= c < 128.

(** The bytes of the text [foo\nbar\n]. *)
Definition sample_text : list Z := [102; 111; 111; 10; 98; 97; 114; 10].

(** [put_os8_char] for the characters [cs], one after the other. *)
Fixpoint put_chars (st : put_state) (t : list Z) (cs : list Z)
  : put_state * list Z :=
  match cs with
  | [] => (st, t)
  | ch :: rest => let '(st1, t1) := put_os8_char st t ch in put_chars st1 t1 rest
  end.

(** ** Vocabulary for the dirty-flag claim *)

(** The shape that the C types give a directory: six segments of 256 words. *)
Definition shape (d : directory_t) : Prop :=
  List.length d = 6%nat
  /\ forall i, 0 <= i < 6 -> List.length (data (seg d i)) = 256%nat.

(** [d'] differs from [d] in segment [j] at most. *)
Definition touches (d d' : directory_t) (j : Z) : Prop :=
  forall i, i <> j -> seg d' i = seg d i.

(** Dirty tracking from [d0] to [d]: every segment is dirty, or holds the
    words it held in [d0] and is not among the segments [must] that have to
    be dirty, or is one of the [pending] segments. *)
Definition tracked (d0 : directory_t) (must : Z -> Prop) (pending : list Z)
  (d : directory_t) : Prop :=
  forall i,
    In i pending
    \/ dirty (seg d i) = true
    \/ (data (seg d i) = data (seg d0 i) /\ ~ must i).

(** [d'] and [d] hold the same words in segment [s], except for
    [next_segment]. *)
Definition agree (d d' : directory_t) (s : Z) : Prop :=
  forall off, off <> 2 -> word d' s off = word d s off.

Definition has_room (d : directory_t) (min_free_length i : Z) : bool :=
  match get_unused_ptr d i min_free_length with
  | Some (Some _) => true
  | _ => false
  end.

(** The segments that the inner loop of [enter] passes from [s] to [last]:
    each one after [s] is found without room. *)
Inductive walk (d : directory_t) (min_free_length : Z) : Z -> Z -> Prop :=
| walk_here (s : Z) : walk d min_free_length s s
| walk_next (s last : Z) :
    next_segment d s <> 0 -> next_segment d s <= DIR_LENGTH ->
    get_unused_ptr d (next_segment d s - 1) min_free_length = Some None ->
    walk d min_free_length (next_segment d s - 1) last ->
    walk d min_free_length s last.

(** The chain leads from [s] to [t] through segments without room. *)
Inductive path_to (d : directory_t) (min_free_length : Z) : Z -> Z -> Prop :=
| path_here (t : Z) : path_to d min_free_length t t
| path_next (s t : Z) :
    s <> t -> has_room d min_free_length s = false ->
    next_segment d s <> 0 -> next_segment d s <= DIR_LENGTH ->
    path_to d min_free_length (next_segment d s - 1) t ->
    path_to d min_free_length s t.

(** Segment [t] as [append_segment] leaves it: the last of the chain, one
    empty entry of length 0. *)
Definition fresh (d : directory_t) (min_free_length t : Z) : Prop :=
  next_segment d t = 0
  /\ get_unused_ptr d t min_free_length
     = Some (if 7 + min_free_length <? OS8_BLOCK_SIZE then Some 7 else None).

(** A directory whose first segment is full: 41 files of one block and an
    empty entry of 1426 blocks fill 253 of its 256 words. *)
Definition packed_directory : directory_t :=
  [ mk_segment [negate 42; 7; 0; 0; negate 1]
      (flat_map (fun k => file_words (64 * (Z.of_nat k + 1)) 0 0 0 0 1)
                (seq 0 41)
       ++ empty_words 1426);
    sample_zero_block; sample_zero_block; sample_zero_block;
    sample_zero_block; sample_zero_block ].

(** The empty entry of [packed_directory]. *)
Definition packed_empty : entry_t :=
  mk_entry true [0; 0; 0; 0] 0 251 48 42 1426 (repeat 0 10) 0.

(** [shape], decided. *)
Definition shapeb (d : directory_t) : bool :=
  (List.length d =? 6)%nat
  && forallb (fun s => (List.length (data s) =? 256)%nat) d.

(** The run of [enter] that puts a file of two blocks into
    [packed_empty]: the state after the round that appends segment 1, and
    the final directory. *)
Definition packed_appended : directory_t :=
  match enter_step 100 packed_directory packed_empty 8 with
  | Some (Appended d _ _) => d
  | _ => []
  end.

Definition packed_entered : directory_t :=
  match enter 100 "zz" 2 packed_directory packed_empty with
  | Some (_, d) => d
  | None => []
  end.

(** ** Binary copy between host and image *)

(** A block writer and a block reader ([block_io_t] together with the image
    file they act on). *)
Definition block_writer := image -> Z -> list Z -> option image.
Definition block_reader := image -> Z -> option (list Z).

(** [fread(block, 2, n, input)] on a little-endian host: up to [n] words of
    two bytes each, low byte first, and the rest of the input.  A single
    byte left at the end of the input is consumed without making a word. *)
Fixpoint fread_words (n : nat) (input : list Z) : list Z * list Z :=
  match n with
  | O => ([], input)
  | S n' =>
      match input with
      | b0 :: b1 :: rest =>
          let '(ws, r) := fread_words n' rest in
          (Z.lor b0 (Z.shiftl b1 8) :: ws, r)
      | _ => ([], [])
      end
  end.

(** [fwrite(block, 2, OS8_BLOCK_SIZE, output)] on a little-endian host. *)
Definition fwrite_words (ws : list Z) : list Z :=
  flat_map (fun w => [Z.land w 255; Z.shiftr w 8]) ws.

(** The [while ((cnt = fread(...)) > 0)] loop of [stream_host_image_file];
    the result is [None] for [return false], else the image and [block_no]. *)
Fixpoint stream_host_loop (fuel : nat) (write_block : block_writer)
  (img : image) (input : list Z) (e : entry_t) (block_no : Z)
  : option (option (image * Z)) :=
  match fuel with
  | O => None
  | S fuel' =>
      let '(ws, rest) := fread_words (Z.to_nat OS8_BLOCK_SIZE) input in
      if (Z.of_nat (List.length ws) >? 0) then
        if block_no >=? e_length e then Some None
        else
          let block :=
            ws ++ repeat 0 (Z.to_nat OS8_BLOCK_SIZE - List.length ws) in
          match write_block img (file_block e + block_no) block with
          | None => Some None
          | Some img1 =>
              stream_host_loop fuel' write_block img1 rest e (block_no + 1)
          end
      else Some (Some (img, block_no))
  end.

(** [stream_host_image_file]; [size] is the length of the host file as
    [stat] reports it.  The result is the returned flag, the directory and
    the image. *)
Definition stream_host_image_file (fuel : nat) (write_block : block_writer)
  (img : image) (input : list Z) (d : directory_t) (outputname : string)
  (size : Z) : option (bool * directory_t * image) :=
  let output_size :=
    ((size + (OS8_BLOCK_SIZE - 1) * 2) mod 2 ^ 32) / (OS8_BLOCK_SIZE * 2) in
  match allocate_os8_file fuel outputname output_size d entry_zero with
  | None => None
  | Some (false, d1, _) => Some (false, d1, img)
  | Some (true, d1, e) =>
      match stream_host_loop fuel write_block img input e 0 with
      | None => None
      | Some None => Some (false, d1, img)
      | Some (Some (img1, block_no)) =>
          match enter_os8_file fuel outputname block_no d1 e with
          | None => None
          | Some (ok, d2) => Some (ok, d2, img1)
          end
      end
  end.

(** The loop of [stream_os8_image_file]; [block_no] is a [pdp8_word_t]. *)
Fixpoint stream_os8_loop (fuel : nat) (read_block : block_reader)
  (img : image) (block_no limit : Z) (output : list Z) : option (option (list Z)) :=
  match fuel with
  | O => None
  | S fuel' =>
      if block_no <? limit then
        match read_block img block_no with
        | None => Some None
        | Some block =>
            stream_os8_loop fuel' read_block img (u16 (block_no + 1)) limit
                            (output ++ fwrite_words block)
        end
      else Some (Some output)
  end.

(** [stream_os8_image_file]: [Some (Some bytes)] are the bytes written to
    the host file when the function returns true. *)
Definition stream_os8_image_file (fuel : nat) (read_block : block_reader)
  (img : image) (e : entry_t) : option (option (list Z)) :=
  stream_os8_loop fuel read_block img (file_block e)
                  (file_block e + e_length e) [].

(** The body of the loop of [copy_os8_files] for a binary file: the first
    match of [filename] is streamed to the host.  [Some None]: no match. *)
Definition copy_os8_image_file (fuel : nat) (read_block : block_reader)
  (img : image) (d : directory_t) (filename : string)
  : option (option (list Z)) :=
  match lookup fuel filename d (init_cursor d) with
  | None => None
  | Some (None, _) => Some None
  | Some (Some e, _) => stream_os8_image_file fuel read_block img e
  end.

(** The words a host file holds: byte pairs, low byte first; a single byte
    left at the end makes no word. *)
Fixpoint host_words (input : list Z) : list Z :=
  match input with
  | b0 :: b1 :: rest => Z.lor b0 (Z.shiftl b1 8) :: host_words rest
  | _ => []
  end.

(** The number of blocks that hold [n] bytes, and [input] padded with zero
    bytes to whole blocks. *)
Definition blocks_for (n : Z) : Z :=
  (n + OS8_BLOCK_SIZE * 2 - 1) / (OS8_BLOCK_SIZE * 2).

Definition zero_padded (input : list Z) : list Z :=
  input ++ repeat 0 (Z.to_nat (blocks_for (Z.of_nat (List.length input))
                               * (OS8_BLOCK_SIZE * 2)
                               - Z.of_nat (List.length input))).

(** A device with one empty entry of 1467 blocks from block 7 on. *)
Definition fresh_directory : directory_t :=
  [ mk_segment [negate 1; 7; 0; 0; negate 1] (empty_words 1467);
    sample_zero_block; sample_zero_block; sample_zero_block;
    sample_zero_block; sample_zero_block ].

(** A directory of one segment: A (3 blocks), an empty entry of 5, B (2
    blocks), and an empty entry of 1457. *)
Definition holed_directory : directory_t :=
  [ mk_segment [negate 4; 7; 0; 0; negate 1]
      (file_words 64 0 0 0 0 3 ++ empty_words 5 ++ file_words 128 0 0 0 0 2
       ++ empty_words 1457);
    sample_zero_block; sample_zero_block; sample_zero_block;
    sample_zero_block; sample_zero_block ].

(** Host files of 600 and of 700 bytes whose words are below 4096. *)
Definition sample_host : list Z :=
  map (fun i => if Nat.even i then (7 * Z.of_nat i + 3) mod 256
                else Z.of_nat i mod 16) (seq 0 600).

Definition sample_host2 : list Z :=
  map (fun i => if Nat.even i then (5 * Z.of_nat i + 1) mod 256
                else (Z.of_nat i + 3) mod 16) (seq 0 700).

Definition copy_result (r : option (bool * directory_t * image))
  : bool * directory_t * image :=
  match r with Some x => x | None => (false, [], []) end.

Definition allocated_entry (r : option (bool * directory_t * entry_t))
  : entry_t :=
  match r with Some (_, _, e) => e | None => entry_zero end.

(** [sample_host] copied to [holed_directory] on a new image as HELLO.BN,
    and the entry that [allocate_os8_file] hands out for it. *)
Definition sample_copied : bool * directory_t * image :=
  Eval vm_compute in
    copy_result (stream_host_image_file 100 write_dsk_block [] sample_host
                   holed_directory "hello.bn" 600).

Definition sample_allocated : entry_t :=
  Eval vm_compute in
    allocated_entry (allocate_os8_file 100 "hello.bn" 2 holed_directory
                       entry_zero).

(** [sample_host2] copied over HELLO.BN after that. *)
Definition sample_replaced : bool * directory_t * image :=
  Eval vm_compute in
    copy_result (stream_host_image_file 100 write_dsk_block
                   (snd sample_copied) sample_host2 (snd (fst sample_copied))
                   "hello.bn" 700).

Definition sample_reallocated : bool * directory_t * entry_t :=
  Eval vm_compute in
    match allocate_os8_file 100 "hello.bn" 2 (snd (fst sample_copied))
                            entry_zero with
    | Some x => x
    | None => (false, [], entry_zero)
    end.

(** A host file of three bytes copied to a new image as ODD.BN, and copied
    back. *)
Definition odd_copied : bool * directory_t * image :=
  Eval vm_compute in
    copy_result (stream_host_image_file 100 write_dsk_block [] [1; 2; 3]
                   fresh_directory "odd.bn" 3).

Definition odd_copied_back : option (option (list Z)) :=
  copy_os8_image_file 100 read_dsk_block (snd odd_copied)
                      (snd (fst odd_copied)) "odd.bn".

(** The round trip on a device of [write_dsk_block] and [read_dsk_block]
    for host files of any length: whenever the copy to the image returns
    true, the copy back yields the whole blocks that start with the bytes
    of the host file. *)
Definition round_trips_every_length : Prop :=
  forall fuel img input d outputname d' img',
    stream_host_image_file fuel write_dsk_block img input d outputname
        (Z.of_nat (List.length input)) = Some (true, d', img') ->
    exists output,
      copy_os8_image_file fuel read_dsk_block img' d' outputname
        = Some (Some output)
      /\ Z.of_nat (List.length output)
         = blocks_for (Z.of_nat (List.length input)) * (OS8_BLOCK_SIZE * 2)
      /\ firstn (List.length input) output = input.

(** ** Vocabulary for the round trip through the directory *)

(** The cursor at the first entry of segment [i], as [init_cursor] and
    [valid_entry] set it. *)
Definition seg_start (d : directory_t) (i : Z) : cursor_t :=
  mk_cursor 1 (first_file_block d i) file_entries i.

(** The cursor after [get_entry]. *)
Definition step (d : directory_t) (c : cursor_t) : cursor_t :=
  fst (get_entry d c entry_zero).

(** [c'] is met from [c] by calls of [get_entry] within one segment. *)
Inductive reach (d : directory_t) : cursor_t -> cursor_t -> Prop :=
| reach_here (c : cursor_t) : reach d c c
| reach_step (c c' : cursor_t) :
    overflowed_segment d c = false -> reach d (step d c) c' -> reach d c c'.

(** The walk [while (valid_entry(&cursor)) get_entry(&cursor, &entry);]
    from [c] reads an entry at [c']. *)
Inductive visits (d : directory_t) : cursor_t -> cursor_t -> Prop :=
| visits_here (fuel : nat) (c c1 : cursor_t) :
    valid_entry fuel d c = Some (true, c1) -> visits d c c1
| visits_later (fuel : nat) (c c1 c2 : cursor_t) :
    valid_entry fuel d c = Some (true, c1) ->
    visits d (step d c1) c2 -> visits d c c2.

(** The entry at [c] gives [consolidate] nothing to do: it is not an empty
    entry of length 0, nor an empty entry followed by another one in its
    segment. *)
Definition idle_at (d : directory_t) (c : cursor_t) : bool :=
  let '(c1, e) := get_entry d c entry_zero in
  negb (empty_file e
        && ((e_length e =? 0)
            || (negb (overflowed_segment d c1)
                && empty_file (peek_entry d c1 entry_zero)))).

Fixpoint settled_loop (fuel : nat) (d : directory_t) (c : cursor_t)
  : option bool :=
  match fuel with
  | O => None
  | S fuel' =>
      match valid_entry fuel d c with
      | None => None
      | Some (false, _) => Some true
      | Some (true, c1) =>
          if idle_at d c1 then settled_loop fuel' d (step d c1)
          else Some false
      end
  end.

(** No entry of the directory gives [consolidate] anything to do. *)
Definition settled (fuel : nat) (d : directory_t) : option bool :=
  settled_loop fuel d (init_cursor d).

(** Every word of the directory has twelve bits, as the block readers
    ensure. *)
Definition words12 (d : directory_t) : Prop :=
  forall i, Forall word12 (data (seg d i)).

Definition words12b (d : directory_t) : bool :=
  forallb (fun s => forallb word12b (data s)) d.

(** The four name words as [put_entry] stores them. *)
Definition stored_name (nm : list Z) : list Z :=
  map (fun k => u16 (nth k nm 0)) (seq 0 4).

(** The cursor [c] after an entry of [el] words went in before it. *)
Definition shifted (el : Z) (c : cursor_t) : cursor_t :=
  mk_cursor (c_file_number c + 1) (c_next_block c) (c_entry c + el)
            (c_dir_block c).

(** The stages of [enter] after its loop: the words from the entry on
    moved up and the file count raised; the entry of the new file; the
    directory that [enter] hands to [consolidate]. *)
Definition enter_opened (new_entry_length : Z) (d : directory_t)
  (e : entry_t) (unused_ptr : Z) : directory_t :=
  bump_number_files (fix_segment_up d e new_entry_length unused_ptr)
                    (dir_block e) 1.

Definition enter_file_entry (filename : string) (len : Z) (d2 : directory_t)
  (e : entry_t) : entry_t :=
  set_file e (build_sixbit filename)
           (u16 (negate (additional_words d2 (dir_block e)))) (u16 len).

Definition enter_rest_entry (d3 : directory_t) (e1 : entry_t) : entry_t :=
  peek_entry d3 (advance_cursor d3 (restore_cursor (init_cursor d3) e1) e1) e1.

Definition entered_directory (filename : string) (len new_entry_length : Z)
  (d : directory_t) (e : entry_t) (unused_ptr : Z) : directory_t :=
  let d2 := enter_opened new_entry_length d e unused_ptr in
  let e1 := enter_file_entry filename len d2 e in
  let d3 := put_entry d2 e1 in
  let e2 := enter_rest_entry d3 e1 in
  put_entry d3 (set_length e2 (u16 (e_length e2 - len))).

(** Where a cursor [c] of the walk stands with respect to the entry at
    [ce]: in another segment or on the way to [ce], or behind it. *)
Definition before (d : directory_t) (ce c : cursor_t) : Prop :=
  c_dir_block c <> c_dir_block ce
  \/ (reach d (seg_start d (c_dir_block ce)) c /\ reach d c ce).

Definition after (d : directory_t) (ce c : cursor_t) : Prop :=
  reach d (step d ce) c.

(** ** File name checks and listing *)

(** C [isalpha] and [isalnum] in the C locale. *)
Definition isalpha (c : Z) : bool :=
  ((65 <=? c) && (c <=? 90)) || ((97 <=? c) && (c <=? 122)).

Definition isalnum (c : Z) : bool :=
  isalpha c || ((48 <=? c) && (c <=? 57)).

Definition char_of (c : Z) : ascii := ascii_of_nat (Z.to_nat c).

Fixpoint convert_lower (s : string) : string :=
  match s with
  | EmptyString => EmptyString
  | String a rest => String (char_of (tolower (code a))) (convert_lower rest)
  end.

(** The loop of [os8_filename_part_p]; [k] is [s - part].  The character
    that ends the string is not alphanumeric. *)
Fixpoint os8_filename_part_loop (s : string) (k length : nat) : bool :=
  if (length <=? k)%nat then true
  else
    match s with
    | EmptyString => false
    | String a rest =>
        if code a =? 42 then (k =? length - 1)%nat
        else if negb (isalnum (code a))
                || ((k =? 0)%nat && negb (isalpha (code a)))
        then false
        else os8_filename_part_loop rest (S k) length
    end.

Definition os8_filename_part_p (part : string) (length : nat) : bool :=
  os8_filename_part_loop part 0 length.

(** [strcspn(filename, ".")]. *)
Fixpoint strcspn_dot (s : string) : nat :=
  match s with
  | EmptyString => O
  | String a rest => if code a =? 46 then O else S (strcspn_dot rest)
  end.

(** [filename + n]. *)
Fixpoint string_from (n : nat) (s : string) : string :=
  match n, s with
  | O, _ => s
  | S n', String _ rest => string_from n' rest
  | S _, EmptyString => EmptyString
  end.

Definition os8_filename_p (filename : string) : bool :=
  let file_length := Z.of_nat (strcspn_dot filename) in
  let extension_length := Z.of_nat (String.length filename) - file_length in
  if negb (extension_length =? 0)
     && ((extension_length >? 3)
         || negb (os8_filename_part_p
                    (string_from (Z.to_nat (file_length + 1)) filename)
                    (Z.to_nat (extension_length - 1))))
  then false
  else if (file_length <? 1) || (file_length >? 6)
          || negb (os8_filename_part_p filename (Z.to_nat file_length))
  then false
  else true.

Definition os8_file_spec_p (spec : string) : bool :=
  prefix "os8:" spec && os8_filename_p (drop4 spec).

Fixpoint os8_contains_wildcard_p (filename : string) : bool :=
  match filename with
  | EmptyString => false
  | String a rest => (code a =? 42) || os8_contains_wildcard_p rest
  end.

Definition os8_devicename_p (devicename : string) : bool :=
  String.eqb devicename "os8:".

(** One character of [cvt_from_sixbit]. *)
Definition cvt_char (b : Z) : ascii :=
  char_of (u8 (if b <? 32 then b + 96 else b)).

(** [cvt_from_sixbit]: the characters it stores. *)
Definition cvt_from_sixbit (sixbit : Z) : string :=
  let byte1 := Z.shiftr sixbit 6 in
  let byte2 := Z.land sixbit 63 in
  let first :=
    if byte1 =? 0 then EmptyString else String (cvt_char byte1) EmptyString in
  let second :=
    if byte2 =? 0 then EmptyString else String (cvt_char byte2) EmptyString in
  (first ++ second)%string.

Definition get_filename (name : list Z) : string :=
  let extension :=
    if nth 3 name 0 =? 0 then EmptyString
    else String "."%char (cvt_from_sixbit (nth 3 name 0)) in
  (cvt_from_sixbit (nth 0 name 0) ++ cvt_from_sixbit (nth 1 name 0)
   ++ cvt_from_sixbit (nth 2 name 0) ++ extension)%string.

(** A name without the dot that may end it. *)
Fixpoint drop_last_dot (s : string) : string :=
  match s with
  | EmptyString => EmptyString
  | String a rest =>
      match rest with
      | EmptyString => if code a =? 46 then EmptyString else s
      | _ => String a (drop_last_dot rest)
      end
  end.

(** The name as a listing shows it: lower case, no dot at the end. *)
Definition listed_name (filename : string) : string :=
  convert_lower (drop_last_dot filename).

(** *** Legal names in the words of the comment in [os8_filename_p] *)

Fixpoint all_chars (p : Z -> bool) (s : string) : bool :=
  match s with
  | EmptyString => true
  | String a rest => p (code a) && all_chars p rest
  end.

(** Letters and digits, the first one a letter. *)
Definition plain_part (s : string) : Prop :=
  all_chars isalnum s = true
  /\ match s with
     | EmptyString => True
     | String a _ => isalpha (code a) = true
     end.

(** A plain part, or a plain part followed by one star. *)
Definition name_part (s : string) : Prop :=
  exists body,
    (s = body \/ s = (body ++ "*")%string) /\ plain_part body.

(** One to six characters, and after a dot at most two. *)
Definition legal_name (filename : string) : Prop :=
  exists base ext,
    (filename = base \/ filename = (base ++ "." ++ ext)%string)
    /\ name_part base /\ name_part ext
    /\ (1 <= String.length base <= 6)%nat /\ (String.length ext <= 2)%nat.

(** ** Text copy, image to host *)

(** [stream_host_text_file]: the temporary file goes to the image through
    [stream_host_image_file], with its length as [fstat] reports it. *)
Definition stream_host_text_file (fuel : nat) (write_block : block_writer)
  (ctrl_z_seen0 : bool) (st : put_state) (img : image) (input : list Z)
  (d : directory_t) (outputname : string)
  : option (bool * directory_t * image) :=
  let t := fwrite_words (stream_host_text_words ctrl_z_seen0 st input) in
  stream_host_image_file fuel write_block img t d outputname
                         (Z.of_nat (List.length t)).

(** The characters that [stream_os8_text_file] passes on. *)
Definition text_char_kept (ch : Z) : bool :=
  negb (ch =? 127) && negb (ch =? 13) && negb (ch =? 0) && negb (ch =? 26).

(** The inner loop of [stream_os8_text_file] over one block; [ptr] is
    [block_ptr - block], and the result is [cnt], [eof_p] and the output. *)
Fixpoint unpack_text_block (fuel : nat) (block : list Z) (ptr cnt : Z)
  (eof_p : bool) (output : list Z) : option (Z * bool * list Z) :=
  match fuel with
  | O => None
  | S fuel' =>
      if negb eof_p && (ptr <? OS8_BLOCK_SIZE) then
        let r := cnt mod 3 in
        let ch :=
          if r =? 0 then schar (u8 (Z.land (rd block ptr) 127))
          else if r =? 1 then schar (u8 (Z.land (rd block (ptr + 1)) 127))
          else schar (u8 (Z.lor (Z.land (Z.shiftr (rd block ptr) 4) 112)
                                (Z.shiftr (rd block (ptr + 1)) 8))) in
        let ptr1 := if (r =? 0) || (r =? 1) then ptr else ptr + 2 in
        let output1 :=
          if text_char_kept ch then output ++ [u8 ch] else output in
        unpack_text_block fuel' block ptr1 ((cnt + 1) mod 2 ^ 32)
                          (ch =? 26) output1
      else Some (cnt, eof_p, output)
  end.

(** The outer loop of [stream_os8_text_file]; [block_no] is a
    [pdp8_word_t].  No more than 384 characters come out of a block. *)
Fixpoint stream_os8_text_loop (fuel : nat) (read_block : block_reader)
  (img : image) (e : entry_t) (block_no cnt : Z) (output : list Z)
  : option (option (list Z)) :=
  match fuel with
  | O => None
  | S fuel' =>
      match read_block img block_no with
      | None => Some None
      | Some block =>
          match unpack_text_block (Z.to_nat (3 * OS8_BLOCK_SIZE)) block 0 cnt
                                  false output with
          | None => None
          | Some (cnt1, eof_p, output1) =>
              let block_no1 := u16 (block_no + 1) in
              if eof_p || (block_no1 =? file_block e + e_length e)
              then Some (Some output1)
              else stream_os8_text_loop fuel' read_block img e block_no1
                                        cnt1 output1
          end
      end
  end.

(** [stream_os8_text_file]: [Some (Some bytes)] are the characters written
    to the output when the function returns true. *)
Definition stream_os8_text_file (fuel : nat) (read_block : block_reader)
  (img : image) (e : entry_t) : option (option (list Z)) :=
  stream_os8_text_loop fuel read_block img e (file_block e) 0 [].

(** [print_os8_text_file]: the first match of [filename] is streamed to the
    standard output.  [Some None]: not found, or a block was not read. *)
Definition print_os8_text_file (fuel : nat) (read_block : block_reader)
  (img : image) (d : directory_t) (filename : string)
  : option (option (list Z)) :=
  match lookup fuel filename d (init_cursor d) with
  | None => None
  | Some (None, _) => Some None
  | Some (Some e, _) => stream_os8_text_file fuel read_block img e
  end.

(** The characters that the inner loop makes of the characters [cs] packed
    in a block. *)
Fixpoint unpack_chars (cs : list Z) (cnt : Z) (output : list Z)
  : Z * bool * list Z :=
  match cs with
  | [] => (cnt, false, output)
  | c :: rest =>
      let ch := Z.land c 127 in
      let output1 := if text_char_kept ch then output ++ [ch] else output in
      if ch =? 26 then (cnt + 1, true, output1)
      else unpack_chars rest (cnt + 1) output1
  end.

(** The text that comes back from the image: the input up to its first
    0x1A, without NUL, carriage return, rubout and the 0x1A itself. *)
Definition plain_text (input : list Z) : list Z :=
  filter text_char_kept (upto_ctrl_z input).

(** The bytes of the text with a carriage return, a NUL and a rubout in
    it, and something after the control-Z. *)
Definition sample_text2 : list Z :=
  [72; 105; 13; 10; 0; 79; 83; 47; 56; 127; 10; 26; 120; 10].

Definition sample_text_copied : bool * directory_t * image :=
  Eval vm_compute in
    copy_result (stream_host_text_file 100 write_dsk_block false
                   put_state_init [] sample_text2 holed_directory "note.tx").

Definition sample_text_allocated : entry_t :=
  Eval vm_compute in
    allocated_entry
      (allocate_os8_file 100 "note.tx"
         (((Z.of_nat (List.length
              (fwrite_words (stream_host_text_words false put_state_init
                               sample_text2)))
            + (OS8_BLOCK_SIZE - 1) * 2) mod 2 ^ 32)
          / (OS8_BLOCK_SIZE * 2))
         holed_directory entry_zero).

(** The temporary file of [stream_host_text_file] when the program has
    just started; [ctrl_z_seen0] is what the uninitialised local
    [ctrl_z_seen] holds. *)
Definition text_temp_file (ctrl_z_seen0 : bool) (input : list Z) : list Z :=
  fwrite_words (stream_host_text_words ctrl_z_seen0 put_state_init input).

(** Images in which block 1 holds [sample_block], one for each of the
    three formats. *)
Definition dsk_sample_image : image :=
  match write_dsk_block [] 1 sample_block with Some i => i | None => [] end.

Definition dectape_sample_image : image :=
  match write_dectape_block [] 1 sample_block with
  | Some i => i
  | None => []
  end.

Definition rka_sample_image : image :=
  match write_rka_block [] 1 sample_block with Some i => i | None => [] end.

(** ** Writing the directory, and new file systems *)

(** The [do ... while (block_no)] loop of [write_directory]: the result is
    the returned flag, the directory and the image. *)
Fixpoint write_directory_loop (fuel : nat) (write_block : block_writer)
  (img : image) (d : directory_t) (block_no : Z)
  : option (bool * directory_t * image) :=
  match fuel with
  | O => None
  | S fuel' =>
      let i := block_no - FIRST_DIR_BLOCK in
      let written :=
        if dirty (seg d i) then
          if next_segment d i >? DIR_LENGTH then None
          else write_block img block_no (data (seg d i))
        else Some img in
      match written with
      | None => Some (false, d, img)
      | Some img1 =>
          let d1 := set_seg d i (mk_dir_block false (data (seg d i))) in
          let next := next_segment d1 i in
          if next =? 0 then Some (true, d1, img1)
          else write_directory_loop fuel' write_block img1 d1 next
      end
  end.

Definition write_directory (fuel : nat) (write_block : block_writer)
  (img : image) (d : directory_t) : option (bool * directory_t * image) :=
  match validate_directory fuel d with
  | None => None
  | Some false => Some (false, d, img)
  | Some true => write_directory_loop fuel write_block img d FIRST_DIR_BLOCK
  end.

Inductive format_t := unknown | dectape | dsk | rk05 | tu56.

Record device_t := mk_device {
  last_block_no : Z;
  filesystem_size : Z;
  size : Z
}.

Definition OS8_DECTAPE_LENGTH : Z := 377344.

(** [get_device]; [DECTAPE_BLOCKS] is the macro
    [OS8_DECTAPE_LENGTH / (OS8_BLOCK_SIZE * 2)], written out where it
    stands.  [None]: the function returns false and leaves the device as
    it was. *)
Definition get_device (format : format_t) : option device_t :=
  match format with
  | dectape | tu56 =>
      let last := OS8_DECTAPE_LENGTH / (OS8_BLOCK_SIZE * 2) - 1 in
      Some (mk_device last
              (OS8_DECTAPE_LENGTH / (OS8_BLOCK_SIZE * 2) - FIRST_DIR_BLOCK
               - DIR_LENGTH)
              (last + 1))
  | rk05 =>
      let last := RK05_RKB_OFFSET - 1 in
      Some (mk_device last (RK05_RKB_OFFSET - FIRST_DIR_BLOCK - DIR_LENGTH)
              (last + 1))
  | _ => None
  end.

(** [zero_filesystem].  The return value of [get_device] is not looked at:
    for a format that [get_device] does not know the C code reads a device
    that was never set, and the model has no result. *)
Definition zero_filesystem (d : directory_t) (format : format_t)
  : option directory_t :=
  match get_device format with
  | None => None
  | Some device =>
      let d1 := poke d 0 0 (negate 1) in
      let d2 := poke d1 0 2 0 in
      let d3 := poke d2 0 3 0 in
      let d4 := poke d3 0 file_entries 0 in
      let d5 :=
        poke d4 0 (file_entries + 1)
             (negate (u16 ((size device - first_file_block d4 0) mod 2 ^ 32))) in
      Some (mark_dirty d5 0)
  end.

(** The directory that [create_filesystem] builds before it writes. *)
Definition created_directory (device : device_t) : directory_t :=
  let d0 := repeat (mk_dir_block false (repeat 0 (Z.to_nat OS8_BLOCK_SIZE)))
                   (Z.to_nat DIR_LENGTH) in
  let d1 := poke d0 0 0 (negate 1) in
  let d2 := poke d1 0 1 (DIR_LENGTH + 1) in
  let d3 := poke d2 0 2 0 in
  let d4 := poke d3 0 3 0 in
  let d5 := poke d4 0 4 (negate 1) in
  poke d5 0 (file_entries + 1) (negate (u16 (filesystem_size device))).

(** The loops of [create_filesystem] that write blocks, one block after
    the other until one is not written. *)
Fixpoint write_blocks (write_block : block_writer) (img : image)
  (blocks : list (Z * list Z)) : bool * image :=
  match blocks with
  | [] => (true, img)
  | (block_no, block) :: rest =>
      match write_block img block_no block with
      | None => (false, img)
      | Some img1 => write_blocks write_block img1 rest
      end
  end.

(** [create_filesystem]: the result is the returned flag, the directory
    and the image.  What the directory held before does not matter. *)
Definition create_filesystem (fuel : nat) (write_block : block_writer)
  (img : image) (format : format_t)
  : option (bool * directory_t * image) :=
  match get_device format with
  | None => None
  | Some device =>
      let d := created_directory device in
      match validate_directory fuel d with
      | None => None
      | Some false => Some (false, d, img)
      | Some true =>
          let zero_blocks :=
            map (fun k => (Z.of_nat k, data (seg d 1)))
                (seq 0 (Z.to_nat FIRST_DIR_BLOCK)) in
          let dir_blocks :=
            map (fun k => (Z.of_nat k + FIRST_DIR_BLOCK,
                           data (seg d (Z.of_nat k))))
                (seq 0 (Z.to_nat DIR_LENGTH)) in
          let last_block := [(last_block_no device, data (seg d 1))] in
          let '(ok, img1) :=
            write_blocks write_block img
                         (zero_blocks ++ dir_blocks ++ last_block) in
          Some (ok, d, img1)
      end
  end.

(** Segment [j] is on the chain of [next_segment] links that starts at
    segment [i]. *)
Inductive linked (d : directory_t) (i : Z) : Z -> Prop :=
| linked_here : linked d i i
| linked_next (j : Z) :
    next_segment d i <> 0 -> linked d (next_segment d i - 1) j ->
    linked d i j.

(** A segment as [read_directory] and [write_directory] leave it. *)
Definition clean (s : dir_block_t) : dir_block_t :=
  mk_dir_block false (data s).

(** The directory after HELLO.BN went in ([sample_copied]), written to
    the image. *)
Definition sample_written : bool * directory_t * image :=
  Eval vm_compute in
    copy_result (write_directory 100 write_dsk_block (snd sample_copied)
                   (snd (fst sample_copied))).

(** The test of [lookup] on an entry: a file that is there, of a length
    that is not 0, whose name the pattern matches. *)
Definition file_matches (p : pattern_t) (e : entry_t) : bool :=
  negb (empty_file e) && negb (e_length e =? 0) && pattern_match_p (name e) p.

(** Two entries stand for the same file of the directory. *)
Definition same_file (e e0 : entry_t) : Prop :=
  empty_file e = empty_file e0 /\ dir_block e = dir_block e0
  /\ entry e = entry e0 /\ name e = name e0
  /\ file_block e = file_block e0 /\ file_number e = file_number e0
  /\ e_length e = e_length e0.

(** The cursor [c] after the entry before it became [n] words shorter. *)
Definition moved_down (n : Z) (c : cursor_t) : cursor_t :=
  mk_cursor (c_file_number c) (c_next_block c) (c_entry c - n)
            (c_dir_block c).

(** The entry [x'] of the listing after the file with number [fn] of
    segment [i] was deleted, against the entry [x] of the listing before:
    the place in the walk, the first block and the length are the same;
    the deleted file is an empty entry, every other entry is a file or an
    empty entry as before, and a file keeps its name. *)
Definition deleted_from (i fn : Z) (x x' : entry_t) : Prop :=
  dir_block x' = dir_block x /\ file_number x' = file_number x
  /\ file_block x' = file_block x /\ e_length x' = e_length x
  /\ if (dir_block x =? i) && (file_number x =? fn)
     then empty_file x' = true
     else empty_file x' = empty_file x
          /\ (empty_file x = false -> name x' = name x).

(** The listing of [sample_directory]. *)
Definition sample_listing : list entry_t :=
  Eval vm_compute in
    match directory_entries 10 sample_directory with
    | Some es => es
    | None => []
    end.

(** *** Patterns with stars, in terms of the characters *)

(** The part of a name before its first dot, and the part behind it. *)
Fixpoint base_of (s : string) : string :=
  match s with
  | EmptyString => EmptyString
  | String a rest =>
      if code a =? 46 then EmptyString else String a (base_of rest)
  end.

Definition ext_of (s : string) : string :=
  match after_dot s with
  | Some ext => ext
  | None => EmptyString
  end.

(** A part of a pattern against a part of a name: the characters are the
    same up to the case of letters, and a star stands for the rest of the
    part, which may be empty. *)
Fixpoint part_matches (pat s : string) : bool :=
  match pat with
  | EmptyString =>
      match s with
      | EmptyString => true
      | String _ _ => false
      end
  | String a pat' =>
      if code a =? 42 then true
      else
        match s with
        | EmptyString => false
        | String b s' =>
            (tolower (code a) =? tolower (code b)) && part_matches pat' s'
        end
  end.

(** A pattern against a name: part by part.  A pattern without a dot has
    the empty extension. *)
Definition wild_matches (pat filename : string) : bool :=
  part_matches (base_of pat) (base_of filename)
  && part_matches (ext_of pat) (ext_of filename).

(** The six-bit code at place [k] of a part, 0 from a star or the end of
    the part on; whether the mask keeps place [k]; and the words that hold
    two places each. *)
Fixpoint code_at (s : string) (k : nat) : Z :=
  match s with
  | EmptyString => 0
  | String a rest =>
      if code a =? 42 then 0
      else
        match k with
        | O => sixbit a
        | S k' => code_at rest k'
        end
  end.

Fixpoint kept (s : string) (k : nat) : bool :=
  match s with
  | EmptyString => true
  | String a rest =>
      if code a =? 42 then false
      else
        match k with
        | O => true
        | S k' => kept rest k'
        end
  end.

Definition part_word (s : string) (k : nat) : Z :=
  64 * code_at s (2 * k) + code_at s (2 * k + 1).

Definition mask_word (s : string) (k : nat) : Z :=
  if kept s (2 * k) then (if kept s (2 * k + 1) then 4095 else 4032) else 0.

(** The entries that the loop
    [while (lookup(argv[i], directory, &cursor, &entry))] of
    [copy_os8_files] meets from the cursor on, in order.  The body of that
    loop copies the file and leaves the directory and the cursor alone. *)
Fixpoint lookup_all (fuel : nat) (filename : string) (d : directory_t)
  (c : cursor_t) : option (list entry_t) :=
  match fuel with
  | O => None
  | S fuel' =>
      match lookup fuel filename d c with
      | None => None
      | Some (None, _) => Some []
      | Some (Some e, c') =>
          option_map (cons e) (lookup_all fuel' filename d c')
      end
  end.

(** ** Deleting files *)

(** [delete_os8_files], the loop over the entries for one argument.
    [answers] holds what [yes_no] will read, one answer for each question;
    it is not looked at when [quiet_p] holds.  The result is the directory,
    the answers left and the count of deleted files; [None] also stands for
    a question without an answer. *)
Fixpoint delete_loop (fuel : nat) (quiet_p : bool) (p : pattern_t)
  (d : directory_t) (c : cursor_t) (e : entry_t) (answers : list bool)
  (deleted_files : Z) : option (directory_t * list bool * Z) :=
  match fuel with
  | O => None
  | S fuel' =>
      match valid_entry fuel d c with
      | None => None
      | Some (false, _) => Some (d, answers, deleted_files)
      | Some (true, c1) =>
          let e1 := peek_entry d c1 e in
          if negb (empty_file e1) && negb (e_length e1 =? 0)
             && pattern_match_p (name e1) p
          then
            match (if quiet_p then Some (true, answers)
                   else match answers with
                        | [] => None
                        | a :: rest => Some (a, rest)
                        end) with
            | None => None
            | Some (true, answers') =>
                let '(d', e2) := delete_entry d e1 in
                delete_loop fuel' quiet_p p d' (advance_cursor d' c1 e2) e2
                            answers' (deleted_files + 1)
            | Some (false, answers') =>
                delete_loop fuel' quiet_p p d (advance_cursor d c1 e1) e1
                            answers' deleted_files
            end
          else
            delete_loop fuel' quiet_p p d (advance_cursor d c1 e1) e1
                        answers deleted_files
      end
  end.

(** The [for] loop over the arguments [argv[first] .. argv[last]]. *)
Fixpoint delete_args (fuel : nat) (quiet_p : bool) (args : list string)
  (d : directory_t) (answers : list bool) (deleted_files : Z)
  : option (directory_t * list bool * Z) :=
  match args with
  | [] => Some (d, answers, deleted_files)
  | arg :: rest =>
      match delete_loop fuel quiet_p (build_pattern (strip_device arg)) d
                        (init_cursor d) entry_zero answers deleted_files with
      | None => None
      | Some (d', answers', deleted') =>
          delete_args fuel quiet_p rest d' answers' deleted'
      end
  end.

(** [delete_os8_files]: the result is the returned flag, the directory and
    the count that is printed. *)
Definition delete_os8_files (fuel : nat) (args : list string)
  (quiet_p : bool) (d : directory_t) (answers : list bool)
  : option (bool * directory_t * Z) :=
  match delete_args fuel quiet_p args d answers 0 with
  | None => None
  | Some (d1, _, deleted_files) =>
      match consolidate fuel d1 with
      | None => None
      | Some d2 => Some (true, d2, deleted_files)
      end
  end.

(** ** Rows of a listing *)

(** What a listing shows of an entry: whether it is the first entry of its
    segment, the segment, whether it is empty, the name of a file, the
    first block and the length. *)
Record row := mk_row {
  r_first : bool;
  r_seg : Z;
  r_empty : bool;
  r_name : list Z;
  r_block : Z;
  r_len : Z
}.

Definition row_of (e : entry_t) : row :=
  mk_row (file_number e =? 1) (dir_block e) (empty_file e)
         (if empty_file e then [] else name e) (file_block e) (e_length e).

(** Adjacent empty entries of one segment as one empty entry. *)
Definition merge_row (r : row) (rs : list row) : list row :=
  match rs with
  | [] => [r]
  | r' :: rest =>
      if r_empty r && r_empty r' && negb (r_first r')
      then mk_row (r_first r) (r_seg r) true [] (r_block r)
                  (r_len r + r_len r') :: rest
      else r :: rs
  end.

Fixpoint merge_rows (rs : list row) : list row :=
  match rs with
  | [] => []
  | r :: rest => merge_row r (merge_rows rest)
  end.

(** The files that a pattern matches as empty entries. *)
Definition row_matches (p : pattern_t) (r : row) : bool :=
  negb (r_empty r) && negb (r_len r =? 0) && pattern_match_p (r_name r) p.

Definition delete_row (p : pattern_t) (r : row) : row :=
  if row_matches p r
  then mk_row (r_first r) (r_seg r) true [] (r_block r) (r_len r)
  else r.

Definition total_length (rs : list row) : Z :=
  fold_right Z.add 0 (map r_len rs).

Definition no_zero_empty (rs : list row) : bool :=
  forallb (fun r => negb (r_empty r && (r_len r =? 0))) rs.

(** The entries of every segment end inside the block, and every segment
    links to a later one. *)
Definition fitsb (d : directory_t) : bool :=
  forallb (fun i =>
             (number_files d i =? 0)
             || match get_unused_ptr d i 0 with
                | Some (Some _) => true
                | _ => false
                end)
          [0; 1; 2; 3; 4; 5].

Definition ascendingb (d : directory_t) : bool :=
  forallb (fun j => (next_segment d j =? 0) || (j + 1 <? next_segment d j))
          [0; 1; 2; 3; 4; 5].

Definition fits (d : directory_t) : Prop :=
  forall i x,
    reach d (seg_start d i) x -> overflowed_segment d x = false ->
    c_entry x + entry_length d (peek_entry d x entry_zero) <= 256.

Definition ascending (d : directory_t) : Prop :=
  forall j, next_segment d j = 0 \/ j + 1 < next_segment d j.

(** The cursor [c] after [k] entries before it became one and the words
    behind them moved down by [n]. *)
Definition pulled (n k : Z) (c : cursor_t) : cursor_t :=
  mk_cursor (c_file_number c - k) (c_next_block c) (c_entry c - n)
            (c_dir_block c).

(** What a loop over the entries from the cursor [c] on leaves as it was:
    the segments before the one of [c], the words before [c] but for the
    count of files and the flag word, the first blocks and the links of
    the segments.  The entries before [c] stay entries, and so does the
    one at [c]. *)
Definition frame (c : cursor_t) (d d' : directory_t) : Prop :=
  (forall j, j < c_dir_block c -> seg d' j = seg d j)
  /\ (forall q, q < c_entry c -> q <> 0 -> q <> 3 ->
                word d' (c_dir_block c) q = word d (c_dir_block c) q)
  /\ c_file_number c - 1 <= negate (number_files d' (c_dir_block c))
  /\ (overflowed_segment d c = false -> overflowed_segment d' c = false)
  /\ (forall j, first_file_block d' j = first_file_block d j)
  /\ (forall j, next_segment d' j = next_segment d j).

(** A directory of one segment: A (3 blocks), empty entries of 5 and of 2
    blocks, B (2 blocks) and an empty entry of 1452 blocks; and its
    listing. *)
Definition adjacent_directory : directory_t :=
  [ mk_segment [negate 5; 7; 0; 0; negate 1]
      (file_words 64 0 0 0 0 3 ++ empty_words 5 ++ empty_words 2
       ++ file_words 128 0 0 0 0 2 ++ empty_words 1452);
    sample_zero_block; sample_zero_block; sample_zero_block;
    sample_zero_block; sample_zero_block ].

Definition adjacent_listing : list entry_t :=
  Eval vm_compute in
    match directory_entries 10 adjacent_directory with
    | Some es => es
    | None => []
    end.

(** The rows after the loops of [delete_os8_files] for the arguments, and
    the files that one of the arguments matches. *)
Definition delete_rows (args : list string) (rs : list row) : list row :=
  fold_left
    (fun rs arg => map (delete_row (build_pattern (strip_device arg))) rs)
    args rs.

Definition any_matches (args : list string) (r : row) : bool :=
  existsb (fun arg => row_matches (build_pattern (strip_device arg)) r) args.

(** ** Vocabulary for the walk up to one entry *)

(** What a loop that has passed the cursor [a] leaves as it was: the
    segments before the one of [a], the words before [a] but for the count
    of files and the flag word, the first blocks and the links of the
    segments; the entries before [a] stay counted. *)
Definition stays (a : cursor_t) (d d' : directory_t) : Prop :=
  (forall j, j < c_dir_block a -> seg d' j = seg d j)
  /\ (forall q, q < c_entry a -> q <> 0 -> q <> 3 ->
                word d' (c_dir_block a) q = word d (c_dir_block a) q)
  /\ c_file_number a - 1 <= negate (number_files d' (c_dir_block a))
  /\ (forall j, first_file_block d' j = first_file_block d j)
  /\ (forall j, next_segment d' j = next_segment d j).

(** The cursor [c] stands at [a] or behind it: in the segment of [a] not
    before [a], or in a later segment. *)
Definition past (a c : cursor_t) : Prop :=
  5 <= c_entry c /\ 1 <= c_file_number c
  /\ (c_dir_block a < c_dir_block c
      \/ (c_dir_block c = c_dir_block a
          /\ c_entry a <= c_entry c /\ c_file_number a <= c_file_number c)).

(** The count of files of segment [i] is a word that [bump_number_files]
    has counted down from a 12-bit one. *)
Definition count_sane (d : directory_t) (i : Z) : Prop :=
  0 <= number_files d i <= 4096.

(** The walk from [c] comes to the file at [cF], the first one that the
    pattern [p] matches, and on the way [consolidate] finds nothing to do:
    every entry is a file, or an empty entry of a length other than 0
    that is the last of its segment or stands before a file.  The number
    counts the rounds of the loop of [lookup]. *)
Inductive quiet_to (p : pattern_t) (d : directory_t) (cF : cursor_t)
  : nat -> cursor_t -> Prop :=
| quiet_last (g : nat) (c : cursor_t) :
    valid_entry (S g) d c = Some (true, cF) ->
    file_matches p (peek_entry d cF entry_zero) = true ->
    quiet_to p d cF (S g) c
| quiet_file (g : nat) (c c1 : cursor_t) :
    valid_entry (S g) d c = Some (true, c1) ->
    empty_file (peek_entry d c1 entry_zero) = false ->
    file_matches p (peek_entry d c1 entry_zero) = false ->
    quiet_to p d cF g (step d c1) ->
    quiet_to p d cF (S g) c
| quiet_empty (g : nat) (c c1 : cursor_t) :
    valid_entry (S g) d c = Some (true, c1) ->
    empty_file (peek_entry d c1 entry_zero) = true ->
    e_length (peek_entry d c1 entry_zero) <> 0 ->
    (overflowed_segment d (step d c1) = false ->
     empty_file (peek_entry d (step d c1) entry_zero) = false) ->
    quiet_to p d cF g (step d c1) ->
    quiet_to p d cF (S g) c.

(** ** Samples for the binary round trip *)

(** A host file of 2100 bytes, which fill the empty entry of 5 blocks of
    [holed_directory]; the copy of it as FIVE.BN on a new image, and the
    entry that [allocate_os8_file] hands out for it. *)
Definition sample_host5 : list Z :=
  map (fun i => if Nat.even i then (3 * Z.of_nat i + 1) mod 256
                else Z.of_nat i mod 16) (seq 0 2100).

Definition exact_copied : bool * directory_t * image :=
  Eval vm_compute in
    copy_result (stream_host_image_file 100 write_dsk_block [] sample_host5
                   holed_directory "five.bn" 2100).

Definition exact_allocated : entry_t :=
  Eval vm_compute in
    allocated_entry (allocate_os8_file 100 "five.bn" 5 holed_directory
                       entry_zero).


(** * Bit-level facts *)

Lemma below_spec (n : nat) (P : Z -> bool) :
  below n P = true -> forall z, 0 <= z < Z.of_nat n -> P z = true.
Proof.
  induction n as [|n IH]; intros Hb z Hz; [lia|].
  simpl in Hb. apply andb_true_iff in Hb as [Hn Hrest].
  destruct (Z.eq_dec z (Z.of_nat n)) as [->|Hne]; [exact Hn|].
  apply IH; [exact Hrest|lia].
Qed.

Lemma word12b_spec (w : Z) : word12b w = true <-> word12 w.
Proof. unfold word12b, word12. rewrite andb_true_iff, Z.leb_le, Z.ltb_lt. tauto. Qed.

Lemma byte8b_spec (b : Z) : byte8b b = true <-> byte8 b.
Proof. unfold byte8b, byte8. rewrite andb_true_iff, Z.leb_le, Z.ltb_lt. tauto. Qed.

Lemma Forall_word12b (l : list Z) : forallb word12b l = true -> Forall word12 l.
Proof.
  rewrite forallb_forall, Forall_forall. intros H x Hx.
  apply word12b_spec, H, Hx.
Qed.

Lemma Forall_byte8b (l : list Z) : forallb byte8b l = true -> Forall byte8 l.
Proof.
  rewrite forallb_forall, Forall_forall. intros H x Hx.
  apply byte8b_spec, H, Hx.
Qed.

Lemma word12_split (w : Z) :
  word12 w ->
  corrupted w = false /\
  byte8 (u8 (Z.land w 255)) /\ byte8 (u8 (Z.shiftr w 8)) /\
  u16 (Z.lor (u8 (Z.land w 255)) (Z.shiftl (u8 (Z.shiftr w 8)) 8)) = w.
Proof.
  intros Hw.
  assert (E : below 4096 (fun w =>
            negb (corrupted w) && byte8b (u8 (Z.land w 255))
            && byte8b (u8 (Z.shiftr w 8))
            && (u16 (Z.lor (u8 (Z.land w 255)) (Z.shiftl (u8 (Z.shiftr w 8)) 8)) =? w))
          = true) by (vm_compute; reflexivity).
  pose proof (below_spec _ _ E w Hw) as H. cbv beta in H.
  apply andb_true_iff in H as [H H4].
  apply andb_true_iff in H as [H H3].
  apply andb_true_iff in H as [H1 H2].
  apply negb_true_iff in H1. apply byte8b_spec in H2, H3. apply Z.eqb_eq in H4.
  auto.
Qed.

Lemma byte_pair_join (b0 b1 : Z) :
  byte8 b0 -> byte8 b1 ->
  corrupted (u16 (Z.lor b0 (Z.shiftl b1 8))) = false ->
  word12 (u16 (Z.lor b0 (Z.shiftl b1 8))) /\
  u8 (Z.land (u16 (Z.lor b0 (Z.shiftl b1 8))) 255) = b0 /\
  u8 (Z.shiftr (u16 (Z.lor b0 (Z.shiftl b1 8))) 8) = b1.
Proof.
  intros H0 H1.
  assert (E : below 256 (fun b0 => below 256 (fun b1 =>
            corrupted (u16 (Z.lor b0 (Z.shiftl b1 8))) ||
            (word12b (u16 (Z.lor b0 (Z.shiftl b1 8)))
             && (u8 (Z.land (u16 (Z.lor b0 (Z.shiftl b1 8))) 255) =? b0)
             && (u8 (Z.shiftr (u16 (Z.lor b0 (Z.shiftl b1 8))) 8) =? b1))))
          = true) by (vm_compute; reflexivity).
  pose proof (below_spec _ _ (below_spec _ _ E b0 H0) b1 H1) as H.
  cbv beta in H. intros Hc. rewrite Hc in H. simpl orb in H.
  apply andb_true_iff in H as [H H4].
  apply andb_true_iff in H as [H2 H3].
  apply word12b_spec in H2. apply Z.eqb_eq in H3, H4. auto.
Qed.

Ltac split_andb H :=
  repeat match type of H with
         | (_ && _) = true =>
             let H' := fresh H in apply andb_true_iff in H as [H H']
         end.

Lemma word12_nibbles (w : Z) :
  word12 w ->
  corrupted w = false /\
  (0 <= Z.land w 15 < 16) /\ (0 <= Z.shiftr w 8 < 16) /\
  u16 (Z.lor (Z.shiftl (u8 (Z.shiftr w 4)) 4) (Z.land w 15)) = w /\
  u16 (Z.lor (Z.shiftl (Z.shiftr w 8) 8) (u8 (Z.land w 255))) = w.
Proof.
  intros Hw.
  assert (E : below 4096 (fun w =>
            negb (corrupted w)
            && ((0 <=? Z.land w 15) && (Z.land w 15 <? 16))
            && ((0 <=? Z.shiftr w 8) && (Z.shiftr w 8 <? 16))
            && (u16 (Z.lor (Z.shiftl (u8 (Z.shiftr w 4)) 4) (Z.land w 15)) =? w)
            && (u16 (Z.lor (Z.shiftl (Z.shiftr w 8) 8) (u8 (Z.land w 255))) =? w))
          = true) by (vm_compute; reflexivity).
  pose proof (below_spec _ _ E w Hw) as H. cbv beta in H.
  apply andb_true_iff in H as [H H5].
  apply andb_true_iff in H as [H H4].
  apply andb_true_iff in H as [H H3].
  apply andb_true_iff in H as [H1 H2].
  apply negb_true_iff in H1.
  apply andb_true_iff in H2 as [H2a H2b].
  apply andb_true_iff in H3 as [H3a H3b].
  apply Z.eqb_eq in H4, H5. apply Z.leb_le in H2a, H3a. apply Z.ltb_lt in H2b, H3b.
  auto.
Qed.

Lemma nibble_join (a b : Z) :
  0 <= a < 16 -> 0 <= b < 16 ->
  byte8 (u8 (Z.lor (Z.shiftl a 4) b)) /\
  Z.shiftr (u8 (Z.lor (Z.shiftl a 4) b)) 4 = a /\
  Z.land (u8 (Z.lor (Z.shiftl a 4) b)) 15 = b.
Proof.
  intros Ha Hb.
  assert (E : below 16 (fun a => below 16 (fun b =>
            byte8b (u8 (Z.lor (Z.shiftl a 4) b))
            && (Z.shiftr (u8 (Z.lor (Z.shiftl a 4) b)) 4 =? a)
            && (Z.land (u8 (Z.lor (Z.shiftl a 4) b)) 15 =? b))) = true)
    by (vm_compute; reflexivity).
  pose proof (below_spec _ _ (below_spec _ _ E a Ha) b Hb) as H. cbv beta in H.
  apply andb_true_iff in H as [H H3].
  apply andb_true_iff in H as [H1 H2].
  apply byte8b_spec in H1. apply Z.eqb_eq in H2, H3. auto.
Qed.

Lemma byte_nibbles (c : Z) :
  byte8 c ->
  (0 <= Z.shiftr c 4 < 16) /\ (0 <= Z.land c 15 < 16) /\
  u8 (Z.lor (Z.shiftl (Z.shiftr c 4) 4) (Z.land c 15)) = c.
Proof.
  intros Hc.
  assert (E : below 256 (fun c =>
            ((0 <=? Z.shiftr c 4) && (Z.shiftr c 4 <? 16))
            && ((0 <=? Z.land c 15) && (Z.land c 15 <? 16))
            && (u8 (Z.lor (Z.shiftl (Z.shiftr c 4) 4) (Z.land c 15)) =? c)) = true)
    by (vm_compute; reflexivity).
  pose proof (below_spec _ _ E c Hc) as H. cbv beta in H.
  apply andb_true_iff in H as [H H3].
  apply andb_true_iff in H as [H1 H2].
  apply andb_true_iff in H1 as [H1a H1b].
  apply andb_true_iff in H2 as [H2a H2b].
  apply Z.eqb_eq in H3. apply Z.leb_le in H1a, H2a. apply Z.ltb_lt in H1b, H2b.
  auto.
Qed.

Lemma rka_high_word (c a : Z) :
  byte8 c -> 0 <= a < 16 ->
  word12 (u16 (Z.lor (Z.shiftl c 4) a)) /\
  corrupted (u16 (Z.lor (Z.shiftl c 4) a)) = false /\
  u8 (Z.shiftr (u16 (Z.lor (Z.shiftl c 4) a)) 4) = c /\
  Z.land (u16 (Z.lor (Z.shiftl c 4) a)) 15 = a.
Proof.
  intros Hc Ha.
  assert (E : below 256 (fun c => below 16 (fun a =>
            word12b (u16 (Z.lor (Z.shiftl c 4) a))
            && negb (corrupted (u16 (Z.lor (Z.shiftl c 4) a)))
            && (u8 (Z.shiftr (u16 (Z.lor (Z.shiftl c 4) a)) 4) =? c)
            && (Z.land (u16 (Z.lor (Z.shiftl c 4) a)) 15 =? a))) = true)
    by (vm_compute; reflexivity).
  pose proof (below_spec _ _ (below_spec _ _ E c Hc) a Ha) as H. cbv beta in H.
  apply andb_true_iff in H as [H H4].
  apply andb_true_iff in H as [H H3].
  apply andb_true_iff in H as [H1 H2].
  apply word12b_spec in H1. apply negb_true_iff in H2. apply Z.eqb_eq in H3, H4.
  auto.
Qed.

Lemma rka_low_word (b c : Z) :
  0 <= b < 16 -> byte8 c ->
  word12 (u16 (Z.lor (Z.shiftl b 8) c)) /\
  corrupted (u16 (Z.lor (Z.shiftl b 8) c)) = false /\
  Z.shiftr (u16 (Z.lor (Z.shiftl b 8) c)) 8 = b /\
  u8 (Z.land (u16 (Z.lor (Z.shiftl b 8) c)) 255) = c.
Proof.
  intros Hb Hc.
  assert (E : below 16 (fun b => below 256 (fun c =>
            word12b (u16 (Z.lor (Z.shiftl b 8) c))
            && negb (corrupted (u16 (Z.lor (Z.shiftl b 8) c)))
            && (Z.shiftr (u16 (Z.lor (Z.shiftl b 8) c)) 8 =? b)
            && (u8 (Z.land (u16 (Z.lor (Z.shiftl b 8) c)) 255) =? c))) = true)
    by (vm_compute; reflexivity).
  pose proof (below_spec _ _ (below_spec _ _ E b Hb) c Hc) as H. cbv beta in H.
  apply andb_true_iff in H as [H H4].
  apply andb_true_iff in H as [H H3].
  apply andb_true_iff in H as [H1 H2].
  apply word12b_spec in H1. apply negb_true_iff in H2. apply Z.eqb_eq in H3, H4.
  auto.
Qed.

(** * The image file *)

Ltac min_lia :=
  repeat match goal with
         | |- context [Nat.min ?a ?b] =>
             destruct (Nat.min_spec a b) as [[? ->]|[? ->]]
         | H : context [Nat.min ?a ?b] |- _ =>
             destruct (Nat.min_spec a b) as [[? ->]|[? ->]]
         end; lia.

Lemma pread_pwrite_prefix (img a b : list Z) (off : nat) :
  pread (pwrite img (a ++ b) off) (length a) off = a.
Proof.
  unfold pread, pwrite.
  rewrite app_assoc.
  rewrite skipn_app.
  assert (L : length (firstn off img ++ repeat 0 (off - length img)) = off).
  { rewrite length_app, length_firstn, repeat_length. min_lia. }
  rewrite L, Nat.sub_diag. rewrite skipn_all2 by lia. simpl.
  rewrite <- app_assoc. rewrite firstn_app, Nat.sub_diag, firstn_all. simpl.
  now rewrite app_nil_r.
Qed.

Lemma pread_pwrite_same (img buf : list Z) (off : nat) :
  pread (pwrite img buf off) (length buf) off = buf.
Proof.
  pose proof (pread_pwrite_prefix img buf [] off) as H.
  now rewrite app_nil_r in H.
Qed.

Lemma pread_length_full (img : list Z) (c off : nat) :
  (0 < c)%nat -> length (pread img c off) = c -> (off + c <= length img)%nat.
Proof. unfold pread. rewrite length_firstn, length_skipn. min_lia. Qed.

Lemma pread_pwrite_before (img buf : list Z) (off c off' : nat) :
  (off' + c <= off)%nat -> (off' + c <= length img)%nat ->
  pread (pwrite img buf off) c off' = pread img c off'.
Proof.
  intros H1 H2. unfold pread, pwrite.
  rewrite skipn_app, firstn_app.
  rewrite length_skipn, length_firstn.
  assert (E : (c - (Nat.min off (length img) - off') = 0)%nat) by min_lia.
  rewrite E, firstn_O, app_nil_r.
  rewrite skipn_firstn_comm, firstn_firstn.
  f_equal. min_lia.
Qed.

Lemma pread_pwrite_after (img buf : list Z) (off c off' : nat) :
  (off + length buf <= off')%nat -> (off + length buf <= length img)%nat ->
  pread (pwrite img buf off) c off' = pread img c off'.
Proof.
  intros H1 H2. unfold pread, pwrite. f_equal.
  replace (off - length img)%nat with 0%nat by lia. simpl.
  rewrite !skipn_app.
  rewrite length_firstn.
  rewrite (skipn_all2 (firstn off img)) by (rewrite length_firstn; lia).
  rewrite (skipn_all2 buf) by lia. simpl.
  rewrite skipn_skipn. f_equal. lia.
Qed.

Lemma pwrite_pread_id (img z : list Z) (c off : nat) :
  (0 < c)%nat -> length (pread img c off) = c ->
  pwrite img (pread img c off ++ z) off = pwrite img z (off + c).
Proof.
  intros Hc H. pose proof (pread_length_full _ _ _ Hc H) as L.
  unfold pwrite. rewrite length_app, H.
  replace (off - length img)%nat with 0%nat by lia.
  replace (off + c - length img)%nat with 0%nat by lia. simpl.
  rewrite <- app_assoc.
  replace (off + (c + length z))%nat with (off + c + length z)%nat by lia.
  rewrite app_assoc. f_equal.
  unfold pread.
  rewrite <- (firstn_skipn off (firstn (off + c) img)) at 1.
  rewrite firstn_firstn. replace (Nat.min off (off + c)) with off by lia.
  f_equal. rewrite skipn_firstn_comm. f_equal. lia.
Qed.

Lemma pwrite_nil (img : list Z) (off : nat) :
  (off <= length img)%nat -> pwrite img [] off = img.
Proof.
  intros H. unfold pwrite. replace (off - length img)%nat with 0%nat by lia.
  simpl. rewrite Nat.add_0_r. apply firstn_skipn.
Qed.

(** * The packing loops *)

#[local] Opaque Z.shiftl Z.shiftr Z.land Z.lor.

Lemma words_to_bytes_decode (ws : list Z) :
  Forall word12 ws ->
  exists bs, words_to_bytes ws = Some bs /\
             length bs = (2 * length ws)%nat /\
             forall rest,
               byte_buffer_to_word_buffer (length ws) (bs ++ rest) = Some ws.
Proof.
  induction 1 as [|w ws Hw _ IH].
  - exists []. cbn. auto.
  - destruct IH as (bs & E & L & D).
    destruct (word12_split w Hw) as (C & _ & _ & J).
    exists (u8 (Z.land w 255) :: u8 (Z.shiftr w 8) :: bs).
    cbn [words_to_bytes]. rewrite C, E. cbn [option_map length].
    split; [reflexivity|]. split; [lia|].
    intros rest. cbn [byte_buffer_to_word_buffer app]. rewrite J, C, D. reflexivity.
Qed.

Lemma words_to_bytes_app (a b : list Z) :
  words_to_bytes (a ++ b) =
  match words_to_bytes a, words_to_bytes b with
  | Some ba, Some bb => Some (ba ++ bb)
  | _, _ => None
  end.
Proof.
  induction a as [|w a IH]; cbn [words_to_bytes app].
  - destruct (words_to_bytes b); reflexivity.
  - destruct (corrupted w); [reflexivity|].
    rewrite IH. destruct (words_to_bytes a), (words_to_bytes b); reflexivity.
Qed.

Lemma words_to_bytes_length (ws bs : list Z) :
  words_to_bytes ws = Some bs -> length bs = (2 * length ws)%nat.
Proof.
  revert bs. induction ws as [|w ws IH]; cbn [words_to_bytes]; intros bs E.
  - injection E as <-. reflexivity.
  - destruct (corrupted w); [discriminate|].
    destruct (words_to_bytes ws) as [bs'|]; [|discriminate].
    injection E as <-. cbn [length]. rewrite (IH bs' eq_refl). lia.
Qed.

Lemma decode_words_to_bytes (n : nat) (bs ws : list Z) :
  Forall byte8 bs ->
  byte_buffer_to_word_buffer n bs = Some ws ->
  length ws = n /\ (2 * n <= length bs)%nat /\
  Forall word12 ws /\
  words_to_bytes ws = Some (firstn (2 * n) bs).
Proof.
  revert bs ws. induction n as [|n IH]; intros bs ws Hb E.
  - cbn in E. injection E as <-. cbn. repeat split; auto; lia.
  - cbn [byte_buffer_to_word_buffer] in E.
    destruct bs as [|b0 [|b1 rest]]; try discriminate.
    destruct (corrupted (u16 (Z.lor b0 (Z.shiftl b1 8)))) eqn:C; [discriminate|].
    destruct (byte_buffer_to_word_buffer n rest) as [ws'|] eqn:D; [|discriminate].
    injection E as <-.
    inversion Hb as [|? ? H0 Hb1]; subst. inversion Hb1 as [|? ? H1 Hr]; subst.
    destruct (IH rest ws' Hr D) as (L & Llen & W & Enc).
    destruct (byte_pair_join b0 b1 H0 H1 C) as (W0 & J0 & J1).
    cbn [length]. repeat split; try lia.
    + constructor; assumption.
    + cbn [words_to_bytes]. rewrite C, Enc. cbn [option_map]. rewrite J0, J1.
      replace (2 * S n)%nat with (S (S (2 * n))) by lia. reflexivity.
Qed.

Lemma rka_pack_unpack (n : nat) (ws : list Z) :
  length ws = (2 * n)%nat -> Forall word12 ws ->
  exists bs, rka_pack ws = Some bs /\ length bs = (3 * n)%nat /\
             rka_unpack n bs = ws.
Proof.
  revert ws. induction n as [|n IH]; intros ws L W.
  - destruct ws; [|discriminate]. exists []. auto.
  - destruct ws as [|w1 [|w2 rest]]; try (cbn in L; lia).
    inversion W as [|? ? H1 W1]; subst. inversion W1 as [|? ? H2 Wr]; subst.
    destruct (IH rest) as (bs & E & Lb & U); [cbn in L; lia|assumption|].
    destruct (word12_nibbles w1 H1) as (C1 & A1 & _ & J1 & _).
    destruct (word12_nibbles w2 H2) as (C2 & _ & B2 & _ & J2).
    destruct (nibble_join _ _ A1 B2) as (_ & N1 & N2).
    eexists. cbn [rka_pack]. rewrite C1, C2, E. cbn [orb option_map].
    split; [reflexivity|]. split; [cbn [length]; lia|].
    cbn [rka_unpack]. rewrite N1, N2, J1, J2, U. reflexivity.
Qed.

Lemma rka_unpack_pack (n : nat) (bs : list Z) :
  length bs = (3 * n)%nat -> Forall byte8 bs ->
  Forall word12 (rka_unpack n bs) /\ length (rka_unpack n bs) = (2 * n)%nat /\
  rka_pack (rka_unpack n bs) = Some bs.
Proof.
  revert bs. induction n as [|n IH]; intros bs L B.
  - destruct bs; [|discriminate]. cbn. auto.
  - destruct bs as [|c1 [|c2 [|c3 rest]]]; try (cbn in L; lia).
    inversion B as [|? ? H1 B1]; subst. inversion B1 as [|? ? H2 B2]; subst.
    inversion B2 as [|? ? H3 Br]; subst.
    destruct (IH rest) as (W & Lw & E); [cbn in L; lia|assumption|].
    destruct (byte_nibbles c2 H2) as (A & Bn & J).
    destruct (rka_high_word c1 _ H1 A) as (W1 & C1 & S1 & L1).
    destruct (rka_low_word _ c3 Bn H3) as (W2 & C2 & S2 & L2).
    cbn [rka_unpack]. split; [constructor; [|constructor]; assumption|].
    split; [cbn [length]; lia|].
    cbn [rka_pack]. rewrite C1, C2, E. cbn [orb option_map].
    rewrite S1, L1, S2, L2, J. reflexivity.
Qed.

Lemma Forall_pread (P : Z -> Prop) (img : list Z) (c off : nat) :
  Forall P img -> Forall P (pread img c off).
Proof.
  intros H. unfold pread. rewrite Forall_forall in *. intros x Hx.
  apply H.
  rewrite <- (firstn_skipn off img). apply in_or_app. right.
  rewrite <- (firstn_skipn c (skipn off img)). apply in_or_app. now left.
Qed.

Lemma pwrite_length (img buf : list Z) (off : nat) :
  (off + length buf <= length (pwrite img buf off))%nat.
Proof.
  unfold pwrite. rewrite !length_app, length_firstn, repeat_length. min_lia.
Qed.

Lemma dsk_write_read (img : image) (block_no : Z) (block : list Z) :
  length block = 256%nat -> Forall word12 block ->
  exists img', write_dsk_block img block_no block = Some img' /\
               read_dsk_block img' block_no = Some block.
Proof.
  intros L W. destruct (words_to_bytes_decode block W) as (bs & E & Lb & D).
  unfold write_dsk_block, read_dsk_block. rewrite E. eexists. split; [reflexivity|].
  replace (Z.to_nat (OS8_BLOCK_SIZE * 2)) with (length bs) by (rewrite Lb, L; reflexivity).
  rewrite pread_pwrite_same, Nat.eqb_refl.
  specialize (D []). rewrite app_nil_r, L in D. exact D.
Qed.

Lemma dectape_write_read (img : image) (block_no : Z) (block : list Z) :
  length block = 256%nat -> Forall word12 block ->
  exists img', write_dectape_block img block_no block = Some img' /\
               read_dectape_block img' block_no = Some block.
Proof.
  intros L W.
  destruct (words_to_bytes_decode block W) as (bs & E & Lb & D).
  rewrite <- (firstn_skipn 128 block) in E. rewrite words_to_bytes_app in E.
  destruct (words_to_bytes (firstn 128 block)) as [bs0|] eqn:E0; [|discriminate].
  destruct (words_to_bytes (skipn 128 block)) as [bs1|] eqn:E1; [|discriminate].
  injection E as <-.
  pose proof (words_to_bytes_length _ _ E0) as L0.
  pose proof (words_to_bytes_length _ _ E1) as L1.
  rewrite length_firstn, L in L0. rewrite length_skipn, L in L1.
  change (2 * Nat.min 128 256)%nat with 256%nat in L0.
  change (2 * (256 - 128))%nat with 256%nat in L1.
  unfold write_dectape_block, read_dectape_block. rewrite E0, E1.
  eexists. split; [reflexivity|].
  set (off := Z.to_nat (block_no * DECTAPE_BLOCK_SIZE * 2)).
  change (Z.to_nat OS8_BLOCK_SIZE) with 256%nat.
  change (Z.to_nat DECTAPE_BLOCK_SIZE) with 258%nat.
  pose proof (pread_pwrite_prefix img bs0 [0; 0] off) as P0. rewrite L0 in P0.
  pose proof (pread_pwrite_prefix (pwrite img (bs0 ++ [0; 0]) off) bs1 [0; 0]
                (off + 258)) as P1. rewrite L1 in P1.
  rewrite pread_pwrite_before.
  2: lia.
  2: { pose proof (pwrite_length img (bs0 ++ [0; 0]) off) as P.
       rewrite length_app in P. cbn [length] in P. lia. }
  rewrite P0, P1, L0, L1. cbn [Nat.eqb].
  specialize (D []). rewrite app_nil_r, L in D. exact D.
Qed.

Lemma rka_write_read (img : image) (block_no : Z) (block : list Z) :
  length block = 256%nat -> Forall word12 block ->
  exists img', write_rka_block img block_no block = Some img' /\
               read_rka_block img' block_no = Some block.
Proof.
  intros L W. destruct (rka_pack_unpack 128 block L W) as (bs & E & Lb & U).
  unfold write_rka_block, read_rka_block. rewrite E. eexists. split; [reflexivity|].
  replace (Z.to_nat RK05_BLOCK_SIZE) with (length bs) by (rewrite Lb; reflexivity).
  rewrite pread_pwrite_same, Nat.eqb_refl, U. reflexivity.
Qed.

Lemma dsk_read_write (img : image) (block_no : Z) (block : list Z) :
  Forall byte8 img ->
  read_dsk_block img block_no = Some block ->
  write_dsk_block img block_no block = Some img.
Proof.
  intros B R. unfold read_dsk_block in R. unfold write_dsk_block.
  set (off := Z.to_nat (block_no * OS8_BLOCK_SIZE * 2)) in *.
  change (Z.to_nat (OS8_BLOCK_SIZE * 2)) with 512%nat in R.
  change (Z.to_nat OS8_BLOCK_SIZE) with 256%nat in R.
  destruct (length (pread img 512 off) =? 512)%nat eqn:Len; [|discriminate].
  apply Nat.eqb_eq in Len.
  destruct (decode_words_to_bytes _ _ _ (Forall_pread _ _ _ _ B) R) as (_ & _ & _ & E).
  rewrite E. change (2 * 256)%nat with 512%nat. rewrite <- Len at 1.
  rewrite firstn_all.
  rewrite <- (app_nil_r (pread img 512 off)).
  rewrite pwrite_pread_id by (assumption || lia).
  rewrite pwrite_nil; [reflexivity|].
  apply pread_length_full in Len; lia.
Qed.

Lemma rka_read_write (img : image) (block_no : Z) (block : list Z) :
  Forall byte8 img ->
  read_rka_block img block_no = Some block ->
  write_rka_block img block_no block = Some img.
Proof.
  intros B R. unfold read_rka_block in R. unfold write_rka_block.
  set (off := Z.to_nat (block_no * RK05_BLOCK_SIZE)) in *.
  change (Z.to_nat RK05_BLOCK_SIZE) with 384%nat in R.
  destruct (length (pread img 384 off) =? 384)%nat eqn:Len; [|discriminate].
  apply Nat.eqb_eq in Len.
  assert (Hb : block = rka_unpack 128 (pread img 384 off)) by congruence.
  destruct (rka_unpack_pack 128 (pread img 384 off) Len (Forall_pread _ _ _ _ B))
    as (_ & _ & E).
  rewrite Hb, E.
  rewrite <- (app_nil_r (pread img 384 off)).
  rewrite pwrite_pread_id by (assumption || lia).
  rewrite pwrite_nil; [reflexivity|].
  apply pread_length_full in Len; lia.
Qed.

Lemma words_to_bytes_firstn_skipn (k : nat) (ws bs : list Z) :
  words_to_bytes ws = Some bs ->
  words_to_bytes (firstn k ws) = Some (firstn (2 * k) bs) /\
  words_to_bytes (skipn k ws) = Some (skipn (2 * k) bs).
Proof.
  intros E. pose proof E as E'.
  rewrite <- (firstn_skipn k ws) in E'. rewrite words_to_bytes_app in E'.
  destruct (words_to_bytes (firstn k ws)) as [ba|] eqn:Ea; [|discriminate].
  destruct (words_to_bytes (skipn k ws)) as [bb|] eqn:Eb; [|discriminate].
  assert (Hbs : bs = ba ++ bb) by congruence.
  pose proof (words_to_bytes_length _ _ Ea) as La.
  pose proof (words_to_bytes_length _ _ E) as L.
  rewrite length_firstn in La.
  assert (K : (2 * k <= length ba \/ length ba = length bs)%nat).
  { rewrite Hbs, length_app. pose proof (words_to_bytes_length _ _ Eb) as Lb.
    rewrite length_skipn in Lb. min_lia. }
  subst bs. split; f_equal.
  - rewrite firstn_app. destruct K as [K|K].
    + assert (K2 : length ba = (2 * k)%nat) by min_lia.
      rewrite <- K2, firstn_all, Nat.sub_diag. cbn. now rewrite app_nil_r.
    + rewrite length_app in K. assert (bb = []) by (destruct bb; [reflexivity|cbn in K; lia]).
      subst bb. rewrite firstn_nil, app_nil_r, firstn_all2; [reflexivity|min_lia].
  - rewrite skipn_app. destruct K as [K|K].
    + assert (K2 : length ba = (2 * k)%nat) by min_lia.
      rewrite <- K2, skipn_all, Nat.sub_diag. reflexivity.
    + rewrite length_app in K. assert (bb = []) by (destruct bb; [reflexivity|cbn in K; lia]).
      subst bb. rewrite skipn_nil, app_nil_r, skipn_all2; [reflexivity|min_lia].
Qed.

Lemma dectape_read_write (img : image) (block_no : Z) (block : list Z) :
  Forall byte8 img ->
  read_dectape_block img block_no = Some block ->
  write_dectape_block img block_no block =
  Some (pwrite (pwrite img [0; 0]
                  (Z.to_nat (block_no * DECTAPE_BLOCK_SIZE * 2) + 256))
               [0; 0] (Z.to_nat (block_no * DECTAPE_BLOCK_SIZE * 2) + 514)).
Proof.
  intros B R. unfold read_dectape_block in R. unfold write_dectape_block.
  set (off := Z.to_nat (block_no * DECTAPE_BLOCK_SIZE * 2)) in *.
  change (Z.to_nat OS8_BLOCK_SIZE) with 256%nat in R.
  change (Z.to_nat DECTAPE_BLOCK_SIZE) with 258%nat in *.
  destruct (length (pread img 256 off) =? 256)%nat eqn:Len0; [|discriminate].
  destruct (length (pread img 256 (off + 258)) =? 256)%nat eqn:Len1; [|discriminate].
  apply Nat.eqb_eq in Len0, Len1.
  assert (Bh : Forall byte8 (pread img 256 off ++ pread img 256 (off + 258)))
    by (apply Forall_app; split; apply Forall_pread; assumption).
  destruct (decode_words_to_bytes _ _ _ Bh R) as (_ & _ & _ & E).
  assert (X : (length (pread img 256 off ++ pread img 256 (off + 258))
               <= 2 * 256)%nat) by (rewrite length_app, Len0, Len1; lia).
  rewrite firstn_all2 in E by exact X.
  destruct (words_to_bytes_firstn_skipn 128 _ _ E) as (E0 & E1).
  rewrite E0, E1.
  change (2 * 128)%nat with 256%nat.
  rewrite firstn_app, skipn_app, Len0, Nat.sub_diag.
  rewrite <- Len0 at 1. rewrite firstn_all. rewrite firstn_O, app_nil_r.
  rewrite <- Len0 at 2. rewrite skipn_all. cbn [app]. rewrite skipn_O.
  rewrite pwrite_pread_id by (assumption || lia).
  f_equal.
  pose proof (pread_length_full img 256 (off + 258) ltac:(lia) Len1) as Lf.
  assert (P1 : pread (pwrite img [0; 0] (off + 256)) 256 (off + 258)
               = pread img 256 (off + 258)).
  { apply pread_pwrite_after; cbn [length]; lia. }
  rewrite <- P1. rewrite pwrite_pread_id.
  - f_equal. lia.
  - lia.
  - rewrite P1. exact Len1.
Qed.

(** C5 (codec round trip).  A block of 256 twelve-bit words written with
    [write_dsk_block], [write_dectape_block] or [write_rka_block] is read
    back unchanged by the reader of the same packing; and writing back the
    block that a reader decoded from an image leaves the image as it was,
    except that the DECtape writer zeroes the 129th word of both physical
    records of the block. *)
Theorem codec_round_trip (img : image) (block_no : Z) (block bd bt br : list Z) :
  length block = 256%nat -> Forall word12 block -> Forall byte8 img ->
  (exists img', write_dsk_block img block_no block = Some img' /\
                read_dsk_block img' block_no = Some block) /\
  (exists img', write_dectape_block img block_no block = Some img' /\
                read_dectape_block img' block_no = Some block) /\
  (exists img', write_rka_block img block_no block = Some img' /\
                read_rka_block img' block_no = Some block) /\
  (read_dsk_block img block_no = Some bd ->
   write_dsk_block img block_no bd = Some img) /\
  (read_rka_block img block_no = Some br ->
   write_rka_block img block_no br = Some img) /\
  (read_dectape_block img block_no = Some bt ->
   write_dectape_block img block_no bt =
   Some (pwrite (pwrite img [0; 0]
                   (Z.to_nat (block_no * DECTAPE_BLOCK_SIZE * 2) + 256))
                [0; 0] (Z.to_nat (block_no * DECTAPE_BLOCK_SIZE * 2) + 514))).
Proof.
  intros L W B.
  split; [apply dsk_write_read; assumption|].
  split; [apply dectape_write_read; assumption|].
  split; [apply rka_write_read; assumption|].
  split; [apply dsk_read_write; assumption|].
  split; [apply rka_read_write; assumption|].
  apply dectape_read_write; assumption.
Qed.

Lemma codec_round_trip_witness :
  (exists img', write_dsk_block sample_image 1 sample_block = Some img' /\
                read_dsk_block img' 1 = Some sample_block) /\
  (exists img', write_dectape_block sample_image 1 sample_block = Some img' /\
                read_dectape_block img' 1 = Some sample_block) /\
  (exists img', write_rka_block sample_image 1 sample_block = Some img' /\
                read_rka_block img' 1 = Some sample_block) /\
  write_dsk_block sample_image 1 (block_of (read_dsk_block sample_image 1))
  = Some sample_image /\
  write_rka_block sample_image 1 (block_of (read_rka_block sample_image 1))
  = Some sample_image /\
  write_dectape_block sample_image 1
    (block_of (read_dectape_block sample_image 1))
  = Some (pwrite (pwrite sample_image [0; 0] 772) [0; 0] 1030).
Proof.
  destruct (codec_round_trip sample_image 1 sample_block
              (block_of (read_dsk_block sample_image 1))
              (block_of (read_dectape_block sample_image 1))
              (block_of (read_rka_block sample_image 1)))
    as (H1 & H2 & H3 & H4 & H5 & H6).
  - reflexivity.
  - apply Forall_word12b. vm_compute. reflexivity.
  - apply Forall_byte8b. vm_compute. reflexivity.
  - split; [exact H1|]. split; [exact H2|]. split; [exact H3|].
    split; [apply H4; vm_compute; reflexivity|].
    split; [apply H5; vm_compute; reflexivity|].
    apply H6. vm_compute. reflexivity.
Defined.


(** * The cursor walk *)

(** Turns the boolean comparisons on [Z] in the context into propositions. *)
Ltac zbool :=
  repeat match goal with
         | H : context [(_ >? _)] |- _ => rewrite Z.gtb_ltb in H
         | H : context [(_ >=? _)] |- _ => rewrite Z.geb_leb in H
         | H : (_ <? _) = true |- _ => apply Z.ltb_lt in H
         | H : (_ <? _) = false |- _ => apply Z.ltb_ge in H
         | H : (_ <=? _) = true |- _ => apply Z.leb_le in H
         | H : (_ <=? _) = false |- _ => apply Z.leb_gt in H
         | H : (_ =? _) = true |- _ => apply Z.eqb_eq in H
         | H : (_ =? _) = false |- _ => apply Z.eqb_neq in H
         | H : negb _ = true |- _ => apply negb_true_iff in H
         | H : negb _ = false |- _ => apply negb_false_iff in H
         | H : (_ && _) = true |- _ => apply andb_true_iff in H; destruct H
         | H : (_ || _) = false |- _ => apply orb_false_iff in H; destruct H
         end.

Lemma negate_lt (w : Z) : negate w < 4096.
Proof.
  unfold negate. pose proof (Z.rem_bound_abs (4096 - w) 4096 ltac:(lia)). lia.
Qed.

Lemma negate_word12 (w : Z) : word12 w -> word12 (negate w).
Proof.
  unfold negate, word12. intros H.
  pose proof (Z.rem_bound_pos (4096 - w) 4096 ltac:(lia) ltac:(lia)). lia.
Qed.

Lemma negate_involutive (w : Z) : word12 w -> negate (negate w) = w.
Proof.
  unfold negate, word12. intros H.
  destruct (Z.eq_dec w 0) as [->|Hn]; [reflexivity|].
  rewrite (Z.rem_small (4096 - w)) by lia.
  rewrite Z.rem_small by lia. lia.
Qed.

Lemma u16_small (x : Z) : 0 <= x < 65536 -> u16 x = x.
Proof. intros H. unfold u16. apply Z.mod_small. exact H. Qed.

Lemma u16_range (x : Z) : 0 <= u16 x < 65536.
Proof. unfold u16. apply Z.mod_pos_bound. lia. Qed.

Lemma valid_entry_chain (n fuel : nat) (d : directory_t) (c : cursor_t) :
  chain_ends n d (c_dir_block c) = true -> (n <= fuel)%nat ->
  exists b c', valid_entry fuel d c = Some (b, c') /\
    (b = true ->
     overflowed_segment d c' = false /\
     exists n1, chain_ends n1 d (c_dir_block c') = true /\
                (n1 <= n)%nat /\
                (c' = c \/ ((n1 < n)%nat /\ c_file_number c' = 1))).
Proof.
  revert fuel c. induction n as [|n IH]; intros fuel c Hc Hf; [discriminate|].
  destruct fuel as [|fuel]; [lia|].
  cbn [valid_entry]. destruct (overflowed_segment d c) eqn:Ho.
  - cbn [chain_ends] in Hc.
    destruct (next_segment d (c_dir_block c) =? 0) eqn:E0.
    + eexists _, _. split; [reflexivity|discriminate].
    + destruct (next_segment d (c_dir_block c) >? DIR_LENGTH); [discriminate|].
      set (c1 := mk_cursor 1 _ _ _).
      destruct (IH fuel c1 Hc ltac:(lia)) as (b & c' & E & P).
      exists b, c'. split; [exact E|]. intros Hb.
      destruct (P Hb) as (Ho' & n1 & Hn1 & Hle & Hcase).
      split; [exact Ho'|]. exists n1. split; [exact Hn1|]. split; [lia|].
      right. destruct Hcase as [->|[Hlt Hfn]]; [split; [lia|reflexivity]|split; [lia|exact Hfn]].
  - eexists _, _. split; [reflexivity|]. intros _. split; [exact Ho|].
    exists (S n). auto.
Qed.

Lemma entries_loop_total (fuel n : nat) (d : directory_t) (c : cursor_t)
  (e : entry_t) :
  chain_ends n d (c_dir_block c) = true ->
  1 <= c_file_number c ->
  (n * 4097 + Z.to_nat (4097 - c_file_number c) < fuel)%nat ->
  exists es, entries_loop fuel d c e = Some es.
Proof.
  revert n c e. induction fuel as [|fuel IH]; intros n c e Hc Hfn Hm; [lia|].
  assert (Hn : (1 <= n)%nat) by (destruct n; [discriminate|lia]).
  destruct (valid_entry_chain n (S fuel) d c Hc ltac:(lia)) as (b & c1 & E & P).
  cbn [entries_loop]. rewrite E. destruct b; [|eexists; reflexivity].
  destruct (P eq_refl) as (Ho & n1 & Hn1 & Hle & Hcase).
  unfold get_entry.
  set (e1 := peek_entry d c1 e).
  assert (Hfn1 : 1 <= c_file_number c1 <= 4095).
  { unfold overflowed_segment in Ho. zbool.
    pose proof (negate_lt (number_files d (c_dir_block c1))).
    destruct Hcase as [->|[_ ->]]; lia. }
  destruct (IH n1 (advance_cursor d c1 e1) e1) as (es & Ees).
  - exact Hn1.
  - cbn [advance_cursor c_file_number]. rewrite u16_small by lia. lia.
  - cbn [advance_cursor c_file_number]. rewrite u16_small by lia.
    destruct Hcase as [->|[Hlt Hone]]; [nia|]. nia.
  - rewrite Ees. eexists. reflexivity.
Qed.

Lemma directory_entries_total (d : directory_t) (fuel : nat) :
  chain_ends 6 d 0 = true -> (walk_fuel <= fuel)%nat ->
  exists es, directory_entries fuel d = Some es.
Proof.
  intros Hc Hf. unfold directory_entries.
  apply (entries_loop_total fuel 6); [exact Hc|cbn; lia|].
  unfold walk_fuel in Hf. cbn [init_cursor c_file_number]. lia.
Qed.

(** * get_empty_entry *)

Lemma get_empty_entry_loop_fold (fuel : nat) (d : directory_t)
  (ex : entry_t) (len : Z) (c : cursor_t) (e best : entry_t) :
  get_empty_entry_loop fuel d ex len c e best =
  option_map (fun es => fold_left (pick ex len) es best)
             (entries_loop fuel d c e).
Proof.
  revert c e best. induction fuel as [|fuel IH]; intros c e best; [reflexivity|].
  cbn [get_empty_entry_loop entries_loop].
  destruct (valid_entry (S fuel) d c) as [[[] c1]|]; try reflexivity.
  destruct (get_entry d c1 e) as [c2 e1].
  rewrite IH. fold (pick ex len best e1).
  destruct (entries_loop fuel d c2 e1); reflexivity.
Qed.

Section BestFit.
Variables (ex : entry_t) (len : Z).
Hypothesis len_nonneg : 0 <= len.

Lemma better_fit_true (best e : entry_t) :
  better_fit ex best e len = true ->
  candidate ex len e /\
  (e_length best = 0 \/
   (len = 0 /\ e_length best < e_length e) \/
   (len <> 0 /\ e_length e < e_length best)).
Proof.
  unfold better_fit, candidate, not_excluded. intros H.
  apply andb_true_iff in H as [H H4].
  apply andb_true_iff in H as [H H3].
  apply andb_true_iff in H as [H1 H2].
  split.
  - split; [|split; [exact H2|zbool; lia]].
    apply orb_true_iff in H1 as [H1|H1]; zbool; auto.
  - apply orb_true_iff in H4 as [H4|H4]; [zbool; auto|].
    destruct (len =? 0) eqn:E; zbool; auto.
Qed.

Lemma better_fit_false (best e : entry_t) :
  better_fit ex best e len = false ->
  candidate ex len e ->
  e_length best <> 0 /\
  (if len =? 0 then e_length e <= e_length best
   else e_length best <= e_length e).
Proof.
  unfold better_fit, candidate, not_excluded. intros H (Hx & He & Hl).
  assert (H1 : negb (dir_block e =? dir_block ex)
               || negb (file_number e =? file_number ex) = true).
  { apply orb_true_iff. destruct Hx as [Hx|Hx]; [left|right];
      apply negb_true_iff, Z.eqb_neq; exact Hx. }
  rewrite H1, He in H. cbn [andb] in H.
  assert (H2 : (e_length e >=? len) = true) by (rewrite Z.geb_leb; apply Z.leb_le; lia).
  rewrite H2 in H. cbn [andb] in H.
  apply orb_false_iff in H as [Ha Hb]. zbool. split; [exact Ha|].
  destruct (len =? 0); zbool; lia.
Qed.

Lemma pick_step (pre : list entry_t) (best e : entry_t) :
  state_ok ex len pre best -> state_ok ex len (pre ++ [e]) (pick ex len best e).
Proof.
  intros St. unfold pick.
  destruct (better_fit ex best e len) eqn:B.
  - (* [e] becomes the best *)
    destruct (better_fit_true _ _ B) as (Hc & Hcase).
    destruct (Z.eq_dec (e_length e) 0) as [Hz|Hnz].
    + (* a zero-length entry can only replace a zero-length best *)
      assert (Hb0 : e_length best = 0).
      { destruct Hcase as [H|[[H1 H2]|[H1 H2]]]; [exact H| |].
        - destruct St as [[H _]|[[[_ [_ Hl]] Hn] _]]; [exact H|lia].
        - destruct Hc as (_ & _ & Hl). lia. }
      left. split; [exact Hz|]. intros x Hx Hux.
      apply in_app_or in Hx as [Hx|[<-|[]]].
      * destruct St as [[_ Hnone]|[[_ Hn] _]]; [|contradiction].
        exact (Hnone x Hx Hux).
      * destruct Hux as [_ Hux]. contradiction.
    + right. split; [split; assumption|]. split.
      * intros x Hx Hux. apply in_app_or in Hx as [Hx|[<-|[]]].
        -- destruct St as [[_ Hnone]|(Hub & Hfit & _)];
             [exfalso; exact (Hnone x Hx Hux)|].
           specialize (Hfit x Hx Hux). unfold fits_best in *.
           destruct Hcase as [H|[[H1 H2]|[H1 H2]]].
           ++ destruct Hub as [_ Hub]. contradiction.
           ++ subst len. cbn in *. lia.
           ++ apply Z.eqb_neq in H1. rewrite H1 in *. lia.
        -- unfold fits_best. destruct (len =? 0); lia.
      * exists pre, []. split; [reflexivity|]. intros x Hx Hcx Heq.
        destruct St as [[_ Hnone]|(Hub & Hfit & _)].
        -- apply (Hnone x Hx). split; [exact Hcx|lia].
        -- assert (Hux : usable ex len x) by (split; [exact Hcx|lia]).
           specialize (Hfit x Hx Hux). unfold fits_best in Hfit.
           destruct Hcase as [H|[[H1 H2]|[H1 H2]]].
           ++ destruct Hub as [_ Hub]. contradiction.
           ++ subst len. cbn in Hfit. lia.
           ++ apply Z.eqb_neq in H1. rewrite H1 in Hfit. lia.
  - (* [best] stays *)
    destruct St as [[Hb0 Hnone]|(Hub & Hfit & p1 & p2 & Hpre & Hfirst)].
    + left. split; [exact Hb0|]. intros x Hx Hux.
      apply in_app_or in Hx as [Hx|[<-|[]]]; [exact (Hnone x Hx Hux)|].
      destruct Hux as [Hcx _].
      destruct (better_fit_false _ _ B Hcx) as [Hnz _]. contradiction.
    + right. split; [exact Hub|]. split.
      * intros x Hx Hux. apply in_app_or in Hx as [Hx|[<-|[]]];
          [exact (Hfit x Hx Hux)|].
        destruct Hux as [Hcx _].
        destruct (better_fit_false _ _ B Hcx) as [_ Hle]. exact Hle.
      * exists p1, (p2 ++ [e]). split; [|exact Hfirst].
        rewrite Hpre, <- app_assoc. reflexivity.
Qed.

Lemma pick_fold (es pre : list entry_t) (best : entry_t) :
  state_ok ex len pre best ->
  state_ok ex len (pre ++ es) (fold_left (pick ex len) es best).
Proof.
  revert pre best. induction es as [|e es IH]; intros pre best St.
  - rewrite app_nil_r. exact St.
  - cbn [fold_left]. replace (pre ++ e :: es) with ((pre ++ [e]) ++ es)
      by (rewrite <- app_assoc; reflexivity).
    apply IH, pick_step, St.
Qed.
End BestFit.

Lemma get_empty_entry_state (d : directory_t) (ex best0 : entry_t) (len : Z)
  (fuel : nat) (es : list entry_t) :
  0 <= len ->
  directory_entries fuel d = Some es ->
  exists best,
    get_empty_entry fuel d ex best0 len
    = Some (negb (e_length best =? 0), best)
    /\ state_ok ex len es best.
Proof.
  intros Hl Hes. unfold get_empty_entry, directory_entries in *.
  rewrite get_empty_entry_loop_fold, Hes. cbn [option_map].
  eexists. split; [reflexivity|].
  apply (pick_fold ex len Hl es [] (set_length best0 0)).
  left. split; [reflexivity|]. intros e [].
Qed.

Lemma state_ok_flag (ex : entry_t) (len : Z) (es : list entry_t)
  (best : entry_t) :
  state_ok ex len es best ->
  (negb (e_length best =? 0) = true ->
   usable ex len best
   /\ (forall e, In e es -> usable ex len e -> fits_best len best e)
   /\ exists p1 p2, es = p1 ++ best :: p2
        /\ forall e, In e p1 -> candidate ex len e ->
                     e_length e <> e_length best)
  /\ (negb (e_length best =? 0) = false <->
      forall e, In e es -> ~ usable ex len e).
Proof.
  intros St. split.
  - intros Hf. zbool. destruct St as [[H0 _]|St]; [contradiction|exact St].
  - split.
    + intros Hf. zbool. destruct St as [[_ Hnone]|[[_ Hn] _]];
        [exact Hnone|contradiction].
    + intros Hnone. apply negb_false_iff, Z.eqb_eq.
      destruct St as [[H0 _]|(Hub & _ & p1 & p2 & Hes & _)]; [exact H0|].
      exfalso. apply (Hnone best); [|exact Hub].
      rewrite Hes. apply in_or_app. right. left. reflexivity.
Qed.

(** C2, amended (empty-slot allocation).  On a directory whose segment chain
    ends, [get_empty_entry] returns, among the empty entries of non-zero
    length that are not the excluded entry, one of the largest when the
    requested length is 0 and one of the smallest with length at least the
    request otherwise; it reports failure exactly when the walk meets no
    such entry. *)
Theorem get_empty_entry_best_fit (d : directory_t) (exclude_entry best0 : entry_t)
  (len : Z) (fuel : nat) :
  0 <= len -> chain_ends 6 d 0 = true -> (walk_fuel <= fuel)%nat ->
  exists es r,
    directory_entries fuel d = Some es
    /\ get_empty_entry fuel d exclude_entry best0 len = Some r
    /\ allocation_rule (usable exclude_entry len) len es r.
Proof.
  intros Hl Hc Hf.
  destruct (directory_entries_total d fuel Hc Hf) as (es & Hes).
  destruct (get_empty_entry_state d exclude_entry best0 len fuel es Hl Hes)
    as (best & Hr & St).
  exists es, (negb (e_length best =? 0), best).
  split; [exact Hes|]. split; [exact Hr|].
  destruct (state_ok_flag _ _ _ _ St) as (Htrue & Hfalse).
  unfold allocation_rule. cbn [fst snd]. split; [|exact Hfalse].
  intros Hflag. destruct (Htrue Hflag) as (Hub & Hfit & p1 & p2 & Hp & _).
  split; [|split; assumption].
  rewrite Hp. apply in_or_app. right. left. reflexivity.
Qed.

Lemma get_empty_entry_best_fit_witness :
  exists es r,
    directory_entries walk_fuel sample_directory = Some es
    /\ get_empty_entry walk_fuel sample_directory entry_zero entry_zero 4
       = Some r
    /\ allocation_rule (usable entry_zero 4) 4 es r.
Proof.
  apply (get_empty_entry_best_fit sample_directory entry_zero entry_zero 4
           walk_fuel).
  - lia.
  - vm_compute. reflexivity.
  - apply Nat.le_refl.
Defined.

(** C2 as stated fails: in [full_directory] the only empty entry has length
    0; it is a candidate for a request of length 0, yet [get_empty_entry]
    reports failure. *)
Lemma get_empty_entry_zero_length_fails :
  exists es r,
    directory_entries walk_fuel full_directory = Some es
    /\ get_empty_entry walk_fuel full_directory entry_zero entry_zero 0
       = Some r
    /\ ~ allocation_rule (candidate entry_zero 0) 0 es r.
Proof.
  eexists. eexists. split; [vm_compute; reflexivity|].
  split; [vm_compute; reflexivity|].
  intros [_ [Hfail _]]. cbn [fst] in Hfail.
  specialize (Hfail eq_refl).
  eapply Hfail.
  - right. left. reflexivity.
  - unfold candidate, not_excluded. cbn. split; [left; discriminate|].
    split; [reflexivity|lia].
Qed.

(** C10 (tie-break and zero-length exclusion).  On a directory whose
    segment chain ends, [get_empty_entry] succeeds exactly when the walk
    meets a usable entry: an empty entry of non-zero length, not excluded,
    of at least the requested length.  When it succeeds, its result is such
    an entry, it fits at least as well as every other usable entry of the
    walk, and no candidate met before it in the walk has the same length,
    so that among equally good entries the earliest is returned.  When
    every candidate of the walk has length 0 it reports failure. *)
Theorem get_empty_entry_tie_break (d : directory_t)
  (exclude_entry best0 : entry_t) (len : Z) (fuel : nat) :
  0 <= len -> chain_ends 6 d 0 = true -> (walk_fuel <= fuel)%nat ->
  exists es r,
    directory_entries fuel d = Some es
    /\ get_empty_entry fuel d exclude_entry best0 len = Some r
    /\ (fst r = true <-> exists e, In e es /\ usable exclude_entry len e)
    /\ (fst r = true ->
        usable exclude_entry len (snd r)
        /\ (forall e, In e es -> usable exclude_entry len e ->
                      fits_best len (snd r) e)
        /\ exists before after,
             es = before ++ snd r :: after
             /\ forall e, In e before -> candidate exclude_entry len e ->
                          e_length e <> e_length (snd r))
    /\ ((forall e, In e es -> candidate exclude_entry len e ->
                   e_length e = 0) ->
        fst r = false).
Proof.
  intros Hl Hc Hf.
  destruct (directory_entries_total d fuel Hc Hf) as (es & Hes).
  destruct (get_empty_entry_state d exclude_entry best0 len fuel es Hl Hes)
    as (best & Hr & St).
  exists es, (negb (e_length best =? 0), best).
  split; [exact Hes|]. split; [exact Hr|].
  destruct (state_ok_flag _ _ _ _ St) as (Htrue & Hfalse).
  cbn [fst snd]. split; [|split].
  - split.
    + intros Hflag. destruct (Htrue Hflag) as (Hub & _ & p1 & p2 & Hp & _).
      exists best. split; [|exact Hub].
      rewrite Hp. apply in_or_app. right. left. reflexivity.
    + intros (e & He & Hu).
      destruct (negb (e_length best =? 0)) eqn:Hflag; [reflexivity|].
      exfalso. apply (proj1 Hfalse eq_refl e He Hu).
  - exact Htrue.
  - intros Hzero. apply Hfalse. intros e He [Hce Hnz].
    apply Hnz, Hzero; assumption.
Qed.

Lemma get_empty_entry_tie_break_witness :
  exists es r,
    directory_entries walk_fuel sample_directory = Some es
    /\ get_empty_entry walk_fuel sample_directory entry_zero entry_zero 4
       = Some r
    /\ (fst r = true <-> exists e, In e es /\ usable entry_zero 4 e)
    /\ (fst r = true ->
        usable entry_zero 4 (snd r)
        /\ (forall e, In e es -> usable entry_zero 4 e ->
                      fits_best 4 (snd r) e)
        /\ exists before after,
             es = before ++ snd r :: after
             /\ forall e, In e before -> candidate entry_zero 4 e ->
                          e_length e <> e_length (snd r))
    /\ ((forall e, In e es -> candidate entry_zero 4 e -> e_length e = 0) ->
        fst r = false).
Proof.
  apply (get_empty_entry_tie_break sample_directory entry_zero entry_zero 4
           walk_fuel).
  - lia.
  - vm_compute. reflexivity.
  - apply Nat.le_refl.
Defined.

(** In [sample_directory] two empty entries of length 5 fit a request of 4
    blocks equally well; the one at file number 2 is returned, not the one
    at file number 4. *)
Example get_empty_entry_sample :
  option_map (fun r => (fst r, file_number (snd r), e_length (snd r)))
    (get_empty_entry walk_fuel sample_directory entry_zero entry_zero 4)
  = Some (true, 2, 5).
Proof. vm_compute. reflexivity. Qed.


(** * Words, blocks and segments *)

Lemma length_upd {A : Type} (n : nat) (v : A) (l : list A) :
  length (upd n v l) = length l.
Proof.
  revert n. induction l as [|h t IH]; intros [|n]; cbn; auto.
Qed.

Lemma nth_upd_same {A : Type} (n : nat) (v a : A) (l : list A) :
  (n < length l)%nat -> nth n (upd n v l) a = v.
Proof.
  revert n. induction l as [|h t IH]; intros [|n] H; cbn in *; try lia; auto.
  apply IH. lia.
Qed.

Lemma nth_upd_other {A : Type} (n m : nat) (v a : A) (l : list A) :
  n <> m -> nth m (upd n v l) a = nth m l a.
Proof.
  revert n m. induction l as [|h t IH]; intros [|n] [|m] H; cbn; auto; try lia.
Qed.

Lemma length_wr (l : list Z) (off v : Z) : length (wr l off v) = length l.
Proof. unfold wr. destruct (off <? 0); [reflexivity|apply length_upd]. Qed.

Lemma rd_wr_same (l : list Z) (off v : Z) :
  0 <= off < Z.of_nat (length l) -> rd (wr l off v) off = v.
Proof.
  intros H. unfold rd, wr. destruct (off <? 0) eqn:E; [zbool; lia|].
  apply nth_upd_same. lia.
Qed.

Lemma rd_wr_other (l : list Z) (off off' v : Z) :
  off <> off' -> rd (wr l off v) off' = rd l off'.
Proof.
  intros H. unfold rd, wr.
  destruct (off' <? 0) eqn:E'; [reflexivity|].
  destruct (off <? 0) eqn:E; [reflexivity|].
  apply nth_upd_other. zbool. lia.
Qed.

Lemma rd_outside (l : list Z) (off : Z) :
  Z.of_nat (length l) <= off -> rd l off = 0.
Proof.
  intros H. unfold rd. destruct (off <? 0); [reflexivity|].
  apply nth_overflow. lia.
Qed.

Lemma wr_outside (l : list Z) (off v : Z) :
  off < 0 \/ Z.of_nat (length l) <= off -> wr l off v = l.
Proof.
  intros H. unfold wr. destruct (off <? 0) eqn:E; [reflexivity|]. zbool.
  assert (Hn : (length l <= Z.to_nat off)%nat) by lia.
  clear - Hn. revert Hn. generalize (Z.to_nat off).
  induction l as [|h t IH]; intros [|n] Hn; cbn in *; try lia; auto.
  f_equal. apply IH. lia.
Qed.

Lemma length_set_seg (d : directory_t) (i : Z) (s : dir_block_t) :
  length (set_seg d i s) = length d.
Proof. unfold set_seg. destruct (i <? 0); [reflexivity|apply length_upd]. Qed.

Lemma seg_set_seg_same (d : directory_t) (i : Z) (s : dir_block_t) :
  0 <= i < Z.of_nat (length d) -> seg (set_seg d i s) i = s.
Proof.
  intros H. unfold seg, set_seg. destruct (i <? 0) eqn:E; [zbool; lia|].
  apply nth_upd_same. lia.
Qed.

Lemma seg_set_seg_other (d : directory_t) (i j : Z) (s : dir_block_t) :
  i <> j -> seg (set_seg d i s) j = seg d j.
Proof.
  intros H. unfold seg, set_seg.
  destruct (j <? 0) eqn:Ej; [reflexivity|].
  destruct (i <? 0) eqn:Ei; [reflexivity|].
  apply nth_upd_other. zbool. lia.
Qed.

Lemma seg_outside (d : directory_t) (i : Z) :
  i < 0 \/ Z.of_nat (length d) <= i -> seg d i = no_block.
Proof.
  intros H. unfold seg. destruct (i <? 0) eqn:E; [reflexivity|]. zbool.
  apply nth_overflow. lia.
Qed.

Lemma set_seg_outside (d : directory_t) (i : Z) (s : dir_block_t) :
  i < 0 \/ Z.of_nat (length d) <= i -> set_seg d i s = d.
Proof.
  intros H. unfold set_seg. destruct (i <? 0) eqn:E; [reflexivity|]. zbool.
  assert (Hn : (length d <= Z.to_nat i)%nat) by lia.
  clear - Hn. revert Hn. generalize (Z.to_nat i).
  induction d as [|h t IH]; intros [|n] Hn; cbn in *; try lia; auto.
  f_equal. apply IH. lia.
Qed.

(** A segment index is either inside the directory or outside of it. *)
Lemma seg_index_cases (d : directory_t) (i : Z) :
  0 <= i < Z.of_nat (length d) \/ (i < 0 \/ Z.of_nat (length d) <= i).
Proof. lia. Qed.

Lemma seg_set_seg (d : directory_t) (i j : Z) (s : dir_block_t) :
  seg (set_seg d i s) j =
  if (i =? j) && (0 <=? i) && (i <? Z.of_nat (length d)) then s else seg d j.
Proof.
  destruct (Z.eq_dec i j) as [<-|Hne].
  - rewrite Z.eqb_refl. cbn [andb].
    destruct (seg_index_cases d i) as [Hin|Hout].
    + rewrite seg_set_seg_same by exact Hin.
      replace (0 <=? i) with true by (symmetry; apply Z.leb_le; lia).
      replace (i <? Z.of_nat (length d)) with true
        by (symmetry; apply Z.ltb_lt; lia).
      reflexivity.
    + rewrite set_seg_outside by exact Hout.
      destruct (0 <=? i) eqn:E1; [|reflexivity].
      destruct (i <? Z.of_nat (length d)) eqn:E2; [zbool; lia|reflexivity].
  - rewrite seg_set_seg_other by exact Hne.
    replace (i =? j) with false by (symmetry; apply Z.eqb_neq; exact Hne).
    reflexivity.
Qed.

Lemma dirty_poke (d : directory_t) (i off v j : Z) :
  dirty (seg (poke d i off v) j) = dirty (seg d j).
Proof.
  unfold poke. rewrite seg_set_seg.
  destruct ((i =? j) && (0 <=? i) && (i <? Z.of_nat (length d))) eqn:E;
    [|reflexivity].
  cbn [dirty]. zbool. subst j. reflexivity.
Qed.

Lemma data_poke_other (d : directory_t) (i off v j : Z) :
  i <> j -> seg (poke d i off v) j = seg d j.
Proof. intros H. unfold poke. apply seg_set_seg_other, H. Qed.

Lemma length_poke (d : directory_t) (i off v : Z) :
  length (poke d i off v) = length d.
Proof. unfold poke. apply length_set_seg. Qed.

Lemma data_poke_same (d : directory_t) (i off v : Z) :
  data (seg (poke d i off v) i) = wr (data (seg d i)) off (u16 v).
Proof.
  unfold poke. destruct (seg_index_cases d i) as [Hin|Hout].
  - rewrite seg_set_seg_same by exact Hin. reflexivity.
  - rewrite set_seg_outside by exact Hout.
    rewrite (seg_outside d i Hout). cbn [data]. unfold wr.
    destruct (off <? 0); [reflexivity|]. destruct (Z.to_nat off); reflexivity.
Qed.

Lemma word_poke (d : directory_t) (i off v j off' : Z) :
  word (poke d i off v) j off' =
  if (i =? j) && (off =? off') && (0 <=? off)
     && (off <? Z.of_nat (length (data (seg d i))))
  then u16 v else word d j off'.
Proof.
  unfold word. destruct (Z.eq_dec i j) as [<-|Hne].
  - rewrite Z.eqb_refl, data_poke_same. cbn [andb].
    destruct (Z.eq_dec off off') as [<-|Hoff].
    + rewrite Z.eqb_refl. cbn [andb].
      destruct (0 <=? off) eqn:E1; cbn [andb].
      * destruct (off <? Z.of_nat (length (data (seg d i)))) eqn:E2.
        -- zbool. apply rd_wr_same. lia.
        -- zbool. rewrite wr_outside by lia. reflexivity.
      * zbool. rewrite wr_outside by lia. reflexivity.
    + rewrite rd_wr_other by exact Hoff.
      replace (off =? off') with false by (symmetry; apply Z.eqb_neq; exact Hoff).
      reflexivity.
  - rewrite data_poke_other by exact Hne.
    replace (i =? j) with false by (symmetry; apply Z.eqb_neq; exact Hne).
    reflexivity.
Qed.

Lemma word_poke_hit (d : directory_t) (i off v : Z) :
  0 <= off < Z.of_nat (length (data (seg d i))) ->
  word (poke d i off v) i off = u16 v.
Proof.
  intros H. rewrite word_poke, !Z.eqb_refl. cbn [andb].
  replace (0 <=? off) with true by (symmetry; apply Z.leb_le; lia).
  replace (off <? Z.of_nat (length (data (seg d i)))) with true
    by (symmetry; apply Z.ltb_lt; lia).
  reflexivity.
Qed.

Lemma word_poke_miss (d : directory_t) (i off v j off' : Z) :
  i <> j \/ off <> off' -> word (poke d i off v) j off' = word d j off'.
Proof.
  intros H. rewrite word_poke.
  destruct (i =? j) eqn:E1; [|reflexivity].
  destruct (off =? off') eqn:E2; [|reflexivity].
  zbool. lia.
Qed.

Lemma length_data_poke (d : directory_t) (i off v j : Z) :
  length (data (seg (poke d i off v) j)) = length (data (seg d j)).
Proof.
  destruct (Z.eq_dec i j) as [<-|Hne].
  - rewrite data_poke_same. apply length_wr.
  - rewrite data_poke_other by exact Hne. reflexivity.
Qed.

Lemma seg_mark_dirty_other (d : directory_t) (i j : Z) :
  i <> j -> seg (mark_dirty d i) j = seg d j.
Proof. intros H. unfold mark_dirty. apply seg_set_seg_other, H. Qed.

Lemma data_mark_dirty (d : directory_t) (i j : Z) :
  data (seg (mark_dirty d i) j) = data (seg d j).
Proof.
  unfold mark_dirty. rewrite seg_set_seg.
  destruct ((i =? j) && (0 <=? i) && (i <? Z.of_nat (length d))) eqn:E;
    [|reflexivity].
  cbn [data]. zbool. subst j. reflexivity.
Qed.

Lemma word_mark_dirty (d : directory_t) (i j off : Z) :
  word (mark_dirty d i) j off = word d j off.
Proof. unfold word. rewrite data_mark_dirty. reflexivity. Qed.

Lemma length_mark_dirty (d : directory_t) (i : Z) :
  length (mark_dirty d i) = length d.
Proof. unfold mark_dirty. apply length_set_seg. Qed.

Lemma dirty_mark_dirty_same (d : directory_t) (i : Z) :
  0 <= i < Z.of_nat (length d) -> dirty (seg (mark_dirty d i) i) = true.
Proof. intros H. unfold mark_dirty. rewrite seg_set_seg_same by exact H. reflexivity. Qed.

Lemma data_set_data_same (d : directory_t) (i : Z) (l : list Z) :
  0 <= i < Z.of_nat (length d) -> data (seg (set_data d i l) i) = l.
Proof. intros H. unfold set_data. rewrite seg_set_seg_same by exact H. reflexivity. Qed.

Lemma seg_set_data_other (d : directory_t) (i j : Z) (l : list Z) :
  i <> j -> seg (set_data d i l) j = seg d j.
Proof. intros H. unfold set_data. apply seg_set_seg_other, H. Qed.

Lemma dirty_set_data (d : directory_t) (i j : Z) (l : list Z) :
  dirty (seg (set_data d i l) j) = dirty (seg d j).
Proof.
  unfold set_data. rewrite seg_set_seg.
  destruct ((i =? j) && (0 <=? i) && (i <? Z.of_nat (length d))) eqn:E;
    [|reflexivity].
  cbn [dirty]. zbool. subst j. reflexivity.
Qed.

Lemma length_set_data (d : directory_t) (i : Z) (l : list Z) :
  length (set_data d i l) = length d.
Proof. unfold set_data. apply length_set_seg. Qed.

(** * The shuffles *)

Lemma length_shuffle_up_loop (n : nat) (l : list Z) (src dst : Z) :
  length (shuffle_up_loop n l src dst) = length l.
Proof.
  revert l src dst. induction n as [|n IH]; intros; cbn; [reflexivity|].
  rewrite IH. apply length_wr.
Qed.

Lemma length_shuffle_down_loop (n : nat) (l : list Z) (src dst : Z) :
  length (shuffle_down_loop n l src dst) = length l.
Proof.
  revert l src dst. induction n as [|n IH]; intros; cbn; [reflexivity|].
  rewrite IH. apply length_wr.
Qed.

(** The upward shuffle writes the words [dst - n + 1 .. dst] only. *)
Lemma shuffle_up_loop_outside (n : nat) (l : list Z) (src dst k : Z) :
  k <= dst - Z.of_nat n \/ dst < k ->
  rd (shuffle_up_loop n l src dst) k = rd l k.
Proof.
  revert l src dst. induction n as [|n IH]; intros l src dst H; cbn;
    [reflexivity|].
  rewrite IH by lia. apply rd_wr_other. lia.
Qed.

(** The downward shuffle writes the words [dst .. dst + n - 1] only. *)
Lemma shuffle_down_loop_outside (n : nat) (l : list Z) (src dst k : Z) :
  k < dst \/ dst + Z.of_nat n <= k ->
  rd (shuffle_down_loop n l src dst) k = rd l k.
Proof.
  revert l src dst. induction n as [|n IH]; intros l src dst H; cbn;
    [reflexivity|].
  rewrite IH by lia. apply rd_wr_other. lia.
Qed.

(** Moving down inside the block: every word of the target range takes the
    value that was [src - dst] words above it. *)
Lemma shuffle_down_loop_inside (n : nat) (l : list Z) (src dst k : Z) :
  dst < src -> 0 <= dst ->
  dst + Z.of_nat n <= Z.of_nat (length l) ->
  dst <= k < dst + Z.of_nat n ->
  rd (shuffle_down_loop n l src dst) k = rd l (k + (src - dst)).
Proof.
  revert l src dst. induction n as [|n IH]; intros l src dst Hlt H0 Hlen Hk;
    [lia|].
  cbn [shuffle_down_loop].
  destruct (Z.eq_dec k dst) as [->|Hne].
  - rewrite shuffle_down_loop_outside by lia.
    rewrite rd_wr_same by lia. f_equal. lia.
  - rewrite IH; try rewrite length_wr; try lia.
    rewrite rd_wr_other by lia. f_equal. lia.
Qed.


(** * fix_segment_up and the flag word *)

Lemma word_set_data_same (d : directory_t) (i off : Z) (l : list Z) :
  0 <= i < Z.of_nat (length d) -> word (set_data d i l) i off = rd l off.
Proof. intros H. unfold word. rewrite data_set_data_same by exact H. reflexivity. Qed.

Lemma shuffle_words_up_below (l : list Z) (src dst last k : Z) :
  k < last + (dst - src) -> rd (shuffle_words_up l src dst last) k = rd l k.
Proof.
  intros H. unfold shuffle_words_up.
  destruct (Z_lt_le_dec src last) as [Hlt|Hle].
  - replace (Z.to_nat (src - last + 1)) with 0%nat by lia. reflexivity.
  - apply shuffle_up_loop_outside. lia.
Qed.

Lemma flag_word_after_shuffle_up (d : directory_t) (e : entry_t)
  (offset first_byte : Z) :
  0 <= dir_block e < Z.of_nat (length d) ->
  file_entries <= entry e -> 0 <= offset ->
  flag_word
    (set_data d (dir_block e)
       (shuffle_words_up (data (seg d (dir_block e))) first_byte
          (first_byte + offset) (entry e))) (dir_block e)
  = flag_word d (dir_block e).
Proof.
  intros Hi He Ho. unfold flag_word. rewrite word_set_data_same by exact Hi.
  unfold word. apply shuffle_words_up_below. unfold file_entries in He. lia.
Qed.

(** C7, amended (insertion flag-word adjustment).  When [fix_segment_up]
    shifts the words of a segment up by [offset] from the insertion point
    [entry.entry], a non-zero flag word that refers to a position strictly
    beyond the insertion point is increased by [offset], or cleared to 0
    when the sum exceeds octal 1777; a flag word that is zero, or refers to
    the insertion point itself or to a position before it, is unchanged. *)
Theorem fix_segment_up_flag_word (d : directory_t) (e : entry_t)
  (offset first_byte : Z) :
  0 <= dir_block e < Z.of_nat (length d) ->
  length (data (seg d (dir_block e))) = 256%nat ->
  file_entries <= entry e -> 0 <= offset < 256 ->
  word12 (flag_word d (dir_block e)) ->
  (flag_word d (dir_block e) <> 0 ->
   entry e < flag_word d (dir_block e) - 768 ->
   flag_word (fix_segment_up d e offset first_byte) (dir_block e)
   = if flag_word d (dir_block e) + offset >? 1023 then 0
     else flag_word d (dir_block e) + offset)
  /\ (flag_word d (dir_block e) = 0
      \/ flag_word d (dir_block e) - 768 <= entry e ->
      flag_word (fix_segment_up d e offset first_byte) (dir_block e)
      = flag_word d (dir_block e)).
Proof.
  intros Hi Hlen He Ho Hw.
  pose proof (flag_word_after_shuffle_up d e offset first_byte Hi He
                ltac:(lia)) as Hflag.
  unfold fix_segment_up. rewrite Hflag.
  set (flag := flag_word d (dir_block e)) in *.
  set (d1 := set_data d (dir_block e) _) in *.
  unfold word12 in Hw. split.
  - intros Hnz Hgt.
    replace (flag =? 0) with false by (symmetry; apply Z.eqb_neq; exact Hnz).
    replace (flag - 768 >? entry e) with true
      by (symmetry; rewrite Z.gtb_ltb; apply Z.ltb_lt; exact Hgt).
    cbn [negb andb]. unfold flag_word.
    assert (Hl : length (data (seg d1 (dir_block e))) = 256%nat).
    { unfold d1. rewrite data_set_data_same by exact Hi.
      unfold shuffle_words_up. rewrite length_shuffle_up_loop. exact Hlen. }
    rewrite word_poke_hit by (rewrite Hl; lia).
    rewrite (Z.mod_small (flag + offset)) by lia.
    destruct (flag + offset >? 1023) eqn:E; [reflexivity|].
    rewrite Z.gtb_ltb in E. zbool. apply u16_small. lia.
  - intros Hcase.
    assert (E : negb (flag =? 0) && (flag - 768 >? entry e) = false).
    { destruct Hcase as [H0|Hle].
      - rewrite H0. reflexivity.
      - apply andb_false_iff. right. rewrite Z.gtb_ltb. apply Z.ltb_ge. exact Hle. }
    rewrite E. exact Hflag.
Qed.

Lemma fix_segment_up_flag_word_witness :
  (flag_word (flagged_directory 781) 0 <> 0 ->
   entry sample_empty < flag_word (flagged_directory 781) 0 - 768 ->
   flag_word (fix_segment_up (flagged_directory 781) sample_empty 6 25) 0
   = if flag_word (flagged_directory 781) 0 + 6 >? 1023 then 0
     else flag_word (flagged_directory 781) 0 + 6)
  /\ (flag_word (flagged_directory 781) 0 = 0
      \/ flag_word (flagged_directory 781) 0 - 768 <= entry sample_empty ->
      flag_word (fix_segment_up (flagged_directory 781) sample_empty 6 25) 0
      = flag_word (flagged_directory 781) 0).
Proof.
  apply (fix_segment_up_flag_word (flagged_directory 781) sample_empty 6 25).
  - split; vm_compute; [discriminate|reflexivity].
  - reflexivity.
  - vm_compute. discriminate.
  - lia.
  - split; vm_compute; [discriminate|reflexivity].
Defined.

(** With the flag word 781 (position 13, beyond the insertion point 11) the
    shift by 6 gives 787; with 779 (the insertion point itself) the flag
    word stays 779. *)
Example fix_segment_up_flag_samples :
  flag_word (fix_segment_up (flagged_directory 781) sample_empty 6 25) 0 = 787
  /\ flag_word (fix_segment_up (flagged_directory 779) sample_empty 6 25) 0 = 779
  /\ flag_word (fix_segment_up (flagged_directory 1020) sample_empty 6 25) 0 = 0.
Proof. vm_compute. auto. Qed.

(** C7 as stated fails: a flag word that refers to the insertion point
    itself is not increased. *)
Lemma flag_at_insertion_point_unchanged : ~ flag_follows_at_or_beyond.
Proof.
  intros H.
  specialize (H (flagged_directory 779) sample_empty 6 25).
  assert (E : flag_word (fix_segment_up (flagged_directory 779) sample_empty 6 25)
                        (dir_block sample_empty) = 779)
    by (vm_compute; reflexivity).
  rewrite E in H.
  assert (F : flag_word (flagged_directory 779) (dir_block sample_empty) = 779)
    by (vm_compute; reflexivity).
  rewrite F in H.
  assert (X : 779 = 785).
  { apply H.
    - split; vm_compute; [discriminate|reflexivity].
    - reflexivity.
    - vm_compute. discriminate.
    - lia.
    - unfold word12. lia.
    - lia.
    - vm_compute. discriminate. }
  discriminate X.
Qed.


(** * delete_entry *)

Lemma file_entry_length_word12 (d : directory_t) (i : Z) :
  word12 (additional_words d i) ->
  file_entry_length d i = 5 + negate (additional_words d i)
  /\ 5 <= file_entry_length d i < 4101.
Proof.
  intros H. pose proof (negate_word12 _ H) as Hn. unfold word12 in Hn.
  unfold file_entry_length.
  replace (4 + 1 + negate (additional_words d i))
    with (5 + negate (additional_words d i)) by lia.
  rewrite Z.mod_small by lia. lia.
Qed.

Lemma word_fix_segment_down (d : directory_t) (e : entry_t) (offset k : Z) :
  0 <= dir_block e < Z.of_nat (length d) ->
  k <> 3 ->
  word (fix_segment_down d e offset) (dir_block e) k
  = rd (shuffle_words_down (data (seg d (dir_block e)))
          (entry e + entry_length d e) (entry e + offset)
          (OS8_BLOCK_SIZE - 1)) k.
Proof.
  intros Hi Hk. unfold fix_segment_down.
  match goal with
  | |- context [if ?b then _ else _] => destruct b
  end.
  - rewrite word_poke_miss by (right; lia). apply word_set_data_same, Hi.
  - apply word_set_data_same, Hi.
Qed.

Lemma length_data_fix_segment_down (d : directory_t) (e : entry_t)
  (offset : Z) :
  0 <= dir_block e < Z.of_nat (length d) ->
  length (data (seg (fix_segment_down d e offset) (dir_block e)))
  = length (data (seg d (dir_block e))).
Proof.
  intros Hi. unfold fix_segment_down.
  match goal with
  | |- context [if ?b then _ else _] => destruct b
  end; try rewrite length_data_poke;
    rewrite data_set_data_same by exact Hi;
    unfold shuffle_words_down; apply length_shuffle_down_loop.
Qed.

Lemma length_fix_segment_down (d : directory_t) (e : entry_t) (offset : Z) :
  length (fix_segment_down d e offset) = length d.
Proof.
  unfold fix_segment_down.
  match goal with
  | |- context [if ?b then _ else _] => destruct b
  end; try rewrite length_poke; apply length_set_data.
Qed.

Lemma seg_fix_segment_down_other (d : directory_t) (e : entry_t)
  (offset j : Z) :
  dir_block e <> j -> seg (fix_segment_down d e offset) j = seg d j.
Proof.
  intros H. unfold fix_segment_down.
  match goal with
  | |- context [if ?b then _ else _] => destruct b
  end; try rewrite data_poke_other by exact H; apply seg_set_data_other, H.
Qed.

Lemma word_put_entry_empty (d : directory_t) (e : entry_t) (k : Z) :
  empty_file e = true ->
  0 <= entry e -> entry e + 1 < Z.of_nat (length (data (seg d (dir_block e)))) ->
  word (put_entry d e) (dir_block e) k
  = if k =? entry e then 0
    else if k =? entry e + 1 then u16 (negate (e_length e))
    else word d (dir_block e) k.
Proof.
  intros He H0 H1. unfold put_entry. rewrite He.
  assert (L : length (data (seg (mark_dirty d (dir_block e)) (dir_block e)))
              = length (data (seg d (dir_block e))))
    by (rewrite data_mark_dirty; reflexivity).
  destruct (Z.eq_dec k (entry e)) as [->|Hk0].
  - rewrite Z.eqb_refl. rewrite word_poke_miss by (right; lia).
    rewrite word_poke_hit by (rewrite L; lia). reflexivity.
  - replace (k =? entry e) with false by (symmetry; apply Z.eqb_neq; exact Hk0).
    destruct (Z.eq_dec k (entry e + 1)) as [->|Hk1].
    + rewrite Z.eqb_refl. rewrite word_poke_hit; [reflexivity|].
      rewrite length_data_poke, L. lia.
    + replace (k =? entry e + 1) with false
        by (symmetry; apply Z.eqb_neq; exact Hk1).
      rewrite !word_poke_miss by (right; lia). apply word_mark_dirty.
Qed.

Lemma seg_put_entry_other (d : directory_t) (e : entry_t) (j : Z) :
  dir_block e <> j -> seg (put_entry d e) j = seg d j.
Proof.
  intros H. unfold put_entry.
  assert (P : forall ws d0 off, seg (poke_list d0 (dir_block e) off ws) j = seg d0 j).
  { induction ws as [|w ws IH]; intros d0 off; cbn [poke_list]; [reflexivity|].
    rewrite IH. apply data_poke_other, H. }
  destruct (empty_file e).
  - rewrite !data_poke_other by exact H. apply seg_mark_dirty_other, H.
  - rewrite data_poke_other by exact H. rewrite !P. apply seg_mark_dirty_other, H.
Qed.

(** C4 (deletion frame effect).  For a present entry read at a cursor,
    [delete_entry] leaves in its place the zero flag word followed by the
    entry's own negative length word, moves every later word of the segment
    down by the entry length less 2, and changes neither [number_files] nor
    [first_file_block] of the segment, nor any other segment. *)
Theorem delete_entry_frame (d : directory_t) (c : cursor_t) (old : entry_t) :
  let e := peek_entry d c old in
  let i := c_dir_block c in
  let p := c_entry c in
  let el := entry_length d e in
  0 <= i < Z.of_nat (length d) ->
  length (data (seg d i)) = 256%nat ->
  file_entries <= p -> p + el <= 256 ->
  empty_file e = false ->
  word12 (additional_words d i) ->
  word12 (word d i (p + el - 1)) ->
  let d' := fst (delete_entry d e) in
  word d' i p = 0
  /\ word d' i (p + 1) = word d i (p + el - 1)
  /\ (forall k, p + 2 <= k < 256 - (el - 2) ->
                word d' i k = word d i (k + (el - 2)))
  /\ number_files d' i = number_files d i
  /\ first_file_block d' i = first_file_block d i
  /\ (forall j, j <> i -> seg d' j = seg d j).
Proof.
  intros e i p el Hi Hlen Hp Hfit Hne Haw Hw d'.
  assert (Hdb : dir_block e = i).
  { unfold e, peek_entry. fold i. destruct (word d i (c_entry c) =? 0); reflexivity. }
  assert (Hen : entry e = p).
  { unfold e, peek_entry. fold p. destruct (word d (c_dir_block c) p =? 0); reflexivity. }
  destruct (file_entry_length_word12 d i Haw) as (Hel & Hel5).
  assert (El : el = 5 + negate (additional_words d i)).
  { unfold el, entry_length. rewrite Hne, Hdb. exact Hel. }
  assert (Elen : e_length e = u16 (negate (word d i (p + el - 1)))).
  { unfold e, peek_entry in *. fold i p in Hne |- *.
    destruct (word d i p =? 0); [discriminate|]. cbn [e_length].
    pose proof (negate_word12 _ Haw) as Hn. unfold word12 in Hn.
    rewrite (u16_small (negate (additional_words d i))) by lia.
    do 3 f_equal. lia. }
  unfold file_entries in Hp.
  set (d1 := fix_segment_down d e empty_entry_length).
  assert (Hd' : d' = put_entry d1 (set_empty e)) by reflexivity.
  assert (L1 : length (data (seg d1 i)) = 256%nat).
  { pose proof (length_data_fix_segment_down d e empty_entry_length) as P.
    rewrite Hdb in P. unfold d1. rewrite P; assumption. }
  assert (Hput : forall k,
             word d' i k
             = if k =? p then 0
               else if k =? p + 1 then u16 (negate (e_length e))
               else word d1 i k).
  { intros k. rewrite Hd'.
    pose proof (word_put_entry_empty d1 (set_empty e) k) as P.
    cbn [set_empty empty_file entry dir_block e_length] in P.
    rewrite Hdb, Hen in P. apply P; [reflexivity|lia|rewrite L1; lia]. }
  assert (Hdown : forall k, k <> 3 ->
             word d1 i k
             = rd (shuffle_words_down (data (seg d i)) (p + el) (p + 2) 255) k).
  { intros k Hk.
    pose proof (word_fix_segment_down d e empty_entry_length k) as P.
    rewrite Hdb, Hen in P. apply P; assumption. }
  assert (Hlow : forall k, k < p + 2 -> k <> 3 -> word d1 i k = word d i k).
  { intros k Hk Hk3. rewrite Hdown by exact Hk3. unfold shuffle_words_down.
    apply shuffle_down_loop_outside. lia. }
  repeat split.
  - rewrite Hput, Z.eqb_refl. reflexivity.
  - rewrite Hput. replace (p + 1 =? p) with false by (symmetry; apply Z.eqb_neq; lia).
    rewrite Z.eqb_refl, Elen.
    pose proof (negate_word12 _ Hw) as Hn. unfold word12 in Hn.
    rewrite (u16_small (negate (word d i (p + el - 1)))) by lia.
    rewrite negate_involutive by exact Hw. apply u16_small.
    unfold word12 in Hw. lia.
  - intros k Hk. rewrite Hput.
    replace (k =? p) with false by (symmetry; apply Z.eqb_neq; lia).
    replace (k =? p + 1) with false by (symmetry; apply Z.eqb_neq; lia).
    rewrite Hdown by lia. unfold shuffle_words_down.
    rewrite shuffle_down_loop_inside; try lia.
    unfold word. f_equal. lia.
  - unfold number_files. rewrite Hput.
    replace (0 =? p) with false by (symmetry; apply Z.eqb_neq; lia).
    replace (0 =? p + 1) with false by (symmetry; apply Z.eqb_neq; lia).
    apply Hlow; lia.
  - unfold first_file_block. rewrite Hput.
    replace (1 =? p) with false by (symmetry; apply Z.eqb_neq; lia).
    replace (1 =? p + 1) with false by (symmetry; apply Z.eqb_neq; lia).
    apply Hlow; lia.
  - intros j Hj. rewrite Hd'.
    rewrite seg_put_entry_other by (cbn [set_empty dir_block]; rewrite Hdb; auto).
    unfold d1. apply seg_fix_segment_down_other. rewrite Hdb. auto.
Qed.

Lemma delete_entry_frame_witness :
  word (fst (delete_entry sample_directory sample_present)) 0 13 = 0
  /\ word (fst (delete_entry sample_directory sample_present)) 0 14
     = word sample_directory 0 18
  /\ (forall k, 15 <= k < 252 ->
                word (fst (delete_entry sample_directory sample_present)) 0 k
                = word sample_directory 0 (k + 4))
  /\ number_files (fst (delete_entry sample_directory sample_present)) 0
     = number_files sample_directory 0
  /\ first_file_block (fst (delete_entry sample_directory sample_present)) 0
     = first_file_block sample_directory 0
  /\ (forall j, j <> 0 ->
                seg (fst (delete_entry sample_directory sample_present)) j
                = seg sample_directory j).
Proof.
  apply (delete_entry_frame sample_directory sample_cursor entry_zero).
  - split; vm_compute; [discriminate|reflexivity].
  - reflexivity.
  - vm_compute. discriminate.
  - vm_compute. discriminate.
  - reflexivity.
  - split; vm_compute; [discriminate|reflexivity].
  - split; vm_compute; [discriminate|reflexivity].
Defined.

(** Deleting B from [sample_directory]: the six words of B become the two
    words of an empty entry of 2 blocks and the rest moves down by 4. *)
Example delete_entry_sample :
  firstn 24 (data (seg (fst (delete_entry sample_directory sample_present)) 0))
  = [4090; 7; 0; 0; 4095; 64; 0; 0; 0; 0; 4093; 0; 4091;
     0; 4094; 0; 4091; 0; 0; 0; 2644; 0; 0; 0].
Proof. vm_compute. reflexivity. Qed.


(** * validate_directory *)

(** C6 (directory validation on read), evaluated where the code departs
    from it.  [validate_directory] compares the flag word of segment 0, not
    of the segment under test, with octal 1400: with the flag words 01400 and
    1 in two linked segments the directory is accepted, by
    [validate_directory] and by [read_directory], although the second flag
    word is neither 0 nor in the range; with the flag words 0 and 01500 it is
    rejected although both are legal. *)
Theorem validate_directory_tests_first_flag :
  validate_directory 7 (two_segment_directory 768 1) = Some true
  /\ flag_word (two_segment_directory 768 1) 1 = 1
  /\ read_directory 7 (directory_reader (two_segment_directory 768 1))
                    blank_directory
     = Some (true, two_segment_directory 768 1)
  /\ validate_directory 7 (two_segment_directory 0 832) = Some false
  /\ read_directory 7 (directory_reader (two_segment_directory 0 832))
                    blank_directory
     = Some (false, two_segment_directory 0 832).
Proof. vm_compute. repeat split. Qed.

(** * consolidate *)

(** C3 (consolidation), evaluated where the code departs from it.  After
    removing an empty entry of length 0, [consolidate] goes on with the
    cursor that was advanced past the removed entry.  In [hole_directory]
    it then takes the third and fourth name words of C for an empty entry of
    length 0 and removes them as well: of the five entries three are left,
    and the last one is C with the length 1464 of the vanished empty entry.
    In [two_zero_directory] the second empty entry of length 0 is skipped
    and stays, next to the empty entry of 1466 blocks. *)
Theorem consolidate_skips_after_removal :
  directory_summary walk_fuel hole_directory
  = Some [(false, 64, 1); (false, 256, 1); (true, 0, 0); (false, 192, 1);
          (true, 0, 1464)]
  /\ option_map (directory_summary walk_fuel)
       (consolidate walk_fuel hole_directory)
     = Some (Some [(false, 64, 1); (false, 256, 1); (false, 192, 1464)])
  /\ directory_summary walk_fuel two_zero_directory
     = Some [(false, 64, 1); (true, 0, 0); (true, 0, 0); (true, 0, 1466)]
  /\ option_map (directory_summary walk_fuel)
       (consolidate walk_fuel two_zero_directory)
     = Some (Some [(false, 64, 1); (true, 0, 0); (true, 0, 1466)]).
Proof. vm_compute. repeat split. Qed.


(** * Text copy, host to image *)

Lemma seven_bit_char (c : Z) :
  seven_bit c ->
  schar c = c /\ u16 (Z.lor c 128) = Z.lor c 128 /\ byte8 (Z.lor c 128).
Proof.
  intros Hc.
  assert (E : below 128 (fun c =>
            (schar c =? c) && (u16 (Z.lor c 128) =? Z.lor c 128)
            && byte8b (Z.lor c 128)) = true) by (vm_compute; reflexivity).
  pose proof (below_spec _ _ E c Hc) as H. cbv beta in H.
  apply andb_true_iff in H as [H H3].
  apply andb_true_iff in H as [H1 H2].
  apply Z.eqb_eq in H1, H2. apply byte8b_spec in H3. auto.
Qed.

Lemma pack3_u16 (a c : Z) :
  byte8 a -> byte8 c ->
  u16 (Z.lor a (Z.shiftl (Z.land c 240) 4)) = Z.lor a (Z.shiftl (Z.land c 240) 4)
  /\ u16 (Z.lor a (Z.shiftl (Z.land c 15) 8)) = Z.lor a (Z.shiftl (Z.land c 15) 8).
Proof.
  intros Ha Hc.
  assert (E : below 256 (fun a => below 256 (fun c =>
            (u16 (Z.lor a (Z.shiftl (Z.land c 240) 4))
             =? Z.lor a (Z.shiftl (Z.land c 240) 4))
            && (u16 (Z.lor a (Z.shiftl (Z.land c 15) 8))
                =? Z.lor a (Z.shiftl (Z.land c 15) 8)))) = true)
    by (vm_compute; reflexivity).
  pose proof (below_spec _ _ (below_spec _ _ E a Ha) c Hc) as H. cbv beta in H.
  apply andb_true_iff in H as [H1 H2]. apply Z.eqb_eq in H1, H2. auto.
Qed.

Lemma put_chars_app (st : put_state) (t cs1 cs2 : list Z) :
  put_chars st t (cs1 ++ cs2)
  = let '(st1, t1) := put_chars st t cs1 in put_chars st1 t1 cs2.
Proof.
  revert st t. induction cs1 as [|c cs1 IH]; intros st t; [reflexivity|].
  cbn [put_chars app]. destruct (put_os8_char st t c) as [st1 t1]. apply IH.
Qed.

Lemma text_loop_stopped (input : list Z) (st : put_state) (t : list Z) :
  text_loop input true st t = (true, st, t).
Proof.
  destruct input as [|b rest]; [reflexivity|].
  cbn [text_loop]. rewrite orb_true_r. reflexivity.
Qed.

Lemma text_loop_put_chars (input : list Z) (st : put_state) (t : list Z) :
  Forall seven_bit input ->
  text_loop input false st t
  = (existsb (fun c => c =? 26) input,
     fst (put_chars st t (flat_map emit (upto_ctrl_z input))),
     snd (put_chars st t (flat_map emit (upto_ctrl_z input)))).
Proof.
  intros H. revert st t. induction H as [|b rest Hb _ IH]; intros st t;
    [reflexivity|].
  destruct (seven_bit_char b Hb) as (Hs & Hu & _).
  cbn [text_loop]. rewrite Hs, Hu.
  assert (Hn1 : (b =? -1) = false)
    by (apply Z.eqb_neq; unfold seven_bit in Hb; lia).
  rewrite Hn1. cbn [orb andb].
  assert (Hput : (let '(st1, t1) :=
                    if b =? 10 then put_os8_char st t 141 else (st, t) in
                  let '(st2, t2) :=
                    if negb (b =? 0) then put_os8_char st1 t1 (Z.lor b 128)
                    else (st1, t1) in (st2, t2))
                 = put_chars st t (emit b)).
  { unfold emit. destruct (b =? 10), (b =? 0); cbn [negb app put_chars];
      repeat match goal with
             | |- context [put_os8_char ?s ?u ?c] =>
                 destruct (put_os8_char s u c)
             end; reflexivity. }
  rewrite andb_true_r.
  destruct (if b =? 10 then put_os8_char st t 141 else (st, t)) as [st1 t1].
  destruct (if negb (b =? 0) then put_os8_char st1 t1 (Z.lor b 128)
            else (st1, t1)) as [st2 t2].
  cbn [upto_ctrl_z existsb]. destruct (b =? 26) eqn:E26.
  - rewrite text_loop_stopped. cbn [flat_map]. rewrite app_nil_r.
    rewrite <- Hput. reflexivity.
  - rewrite IH. cbn [flat_map orb]. rewrite put_chars_app, <- Hput.
    reflexivity.
Qed.

Lemma stream_host_text_words_put_chars (input : list Z) :
  Forall seven_bit input ->
  stream_host_text_words false put_state_init input
  = snd (put_chars put_state_init [] (text_chars input ++ [0; 0])).
Proof.
  intros H. unfold stream_host_text_words, text_chars.
  rewrite (text_loop_put_chars input put_state_init [] H).
  rewrite !put_chars_app.
  destruct (put_chars put_state_init [] (flat_map emit (upto_ctrl_z input)))
    as [st1 t1]. cbn [fst snd].
  destruct (existsb (fun c => c =? 26) input); cbn [negb put_chars];
    repeat match goal with
           | |- context [put_os8_char ?s ?u ?c] =>
               destruct (put_os8_char s u c)
           end; reflexivity.
Qed.

Lemma list_ind3 {A : Type} (P : list A -> Prop) :
  P [] -> (forall a, P [a]) -> (forall a b, P [a; b]) ->
  (forall a b c l, P l -> P (a :: b :: c :: l)) ->
  forall l, P l.
Proof.
  intros H0 H1 H2 H3.
  assert (G : forall l, P l /\ (forall a, P (a :: l)) /\ (forall a b, P (a :: b :: l))).
  { induction l as [|x l (IH0 & IH1 & IH2)]; [auto|].
    split; [apply IH1|]. split; [intros a; apply IH2|].
    intros a b. apply H3, IH0. }
  intros l. apply G.
Qed.

Lemma put_phase0 (st : put_state) (t : list Z) (ch : Z) :
  Z.rem (put_i st) 3 = 0 ->
  put_os8_char st t ch = (mk_put_state (put_i st + 1) ch (put_w1 st), t).
Proof. intros H. unfold put_os8_char. rewrite H. reflexivity. Qed.

Lemma put_phase1 (st : put_state) (t : list Z) (ch : Z) :
  Z.rem (put_i st) 3 = 1 ->
  put_os8_char st t ch = (mk_put_state (put_i st + 1) (put_w0 st) ch, t).
Proof. intros H. unfold put_os8_char. rewrite H. reflexivity. Qed.

Lemma put_phase2 (st : put_state) (t : list Z) (ch : Z) :
  Z.rem (put_i st) 3 = 2 ->
  put_os8_char st t ch
  = (mk_put_state (put_i st + 1)
       (u16 (Z.lor (put_w0 st) (Z.shiftl (Z.land ch 240) 4)))
       (u16 (Z.lor (put_w1 st) (Z.shiftl (Z.land ch 15) 8))),
     t ++ [u16 (Z.lor (put_w0 st) (Z.shiftl (Z.land ch 240) 4));
           u16 (Z.lor (put_w1 st) (Z.shiftl (Z.land ch 15) 8))]).
Proof. intros H. unfold put_os8_char. rewrite H. reflexivity. Qed.

Lemma put_chars_group (st : put_state) (t : list Z) (a b c : Z) :
  byte8 a -> byte8 b -> byte8 c ->
  0 <= put_i st -> Z.rem (put_i st) 3 = 0 ->
  put_chars st t [a; b; c]
  = (mk_put_state (put_i st + 3)
       (Z.lor a (Z.shiftl (Z.land c 240) 4))
       (Z.lor b (Z.shiftl (Z.land c 15) 8)),
     t ++ pack3 a b c).
Proof.
  intros Ha Hb Hc Hi Hr. cbn [put_chars].
  rewrite put_phase0 by exact Hr.
  rewrite put_phase1
    by (cbn [put_i]; Z.to_euclidean_division_equations; lia).
  rewrite put_phase2
    by (cbn [put_i]; Z.to_euclidean_division_equations; lia).
  cbn [put_i put_w0 put_w1].
  destruct (pack3_u16 a c Ha Hc) as (E1 & _).
  destruct (pack3_u16 b c Hb Hc) as (_ & E2).
  rewrite E1, E2. unfold pack3. do 2 f_equal. lia.
Qed.

Lemma put_chars_pack (cs : list Z) :
  Forall byte8 cs ->
  forall st t, 0 <= put_i st -> Z.rem (put_i st) 3 = 0 ->
  snd (put_chars st t (cs ++ [0; 0])) = t ++ pack_chars cs.
Proof.
  assert (Z0 : byte8 0) by (unfold byte8; lia).
  induction cs as [|a|a b|a b c rest IH] using list_ind3; intros Hb st t Hi Hr.
  - cbn [app put_chars]. rewrite put_phase0 by exact Hr.
    rewrite put_phase1
      by (cbn [put_i]; Z.to_euclidean_division_equations; lia).
    cbn [snd pack_chars]. now rewrite app_nil_r.
  - inversion Hb as [|? ? Ha _]; subst.
    change ([a] ++ [0; 0]) with [a; 0; 0].
    rewrite put_chars_group by assumption. reflexivity.
  - inversion Hb as [|? ? Ha Hb1]; subst. inversion Hb1 as [|? ? Hb2 _]; subst.
    change ([a; b] ++ [0; 0]) with ([a; b; 0] ++ [0]).
    rewrite put_chars_app, put_chars_group by assumption.
    cbn [put_chars]. rewrite put_phase0
      by (cbn [put_i]; Z.to_euclidean_division_equations; lia).
    reflexivity.
  - inversion Hb as [|? ? Ha Hb1]; subst. inversion Hb1 as [|? ? Hb2 Hb3]; subst.
    inversion Hb3 as [|? ? Hc Hrest]; subst.
    change ((a :: b :: c :: rest) ++ [0; 0])
      with ([a; b; c] ++ (rest ++ [0; 0])).
    rewrite put_chars_app, put_chars_group by assumption.
    rewrite IH.
    + cbn [pack_chars]. rewrite <- app_assoc. reflexivity.
    + exact Hrest.
    + cbn [put_i]. lia.
    + cbn [put_i]. Z.to_euclidean_division_equations; lia.
Qed.

Lemma emit_bytes (c : Z) : seven_bit c -> Forall byte8 (emit c).
Proof.
  intros H. destruct (seven_bit_char c H) as (_ & _ & Hb). unfold emit.
  apply Forall_app. split.
  - destruct (c =? 10); constructor; [unfold byte8; lia|constructor].
  - destruct (c =? 0); constructor; [exact Hb|constructor].
Qed.

Lemma upto_ctrl_z_Forall (P : Z -> Prop) (input : list Z) :
  Forall P input -> Forall P (upto_ctrl_z input).
Proof.
  induction 1 as [|c rest Hc _ IH]; cbn [upto_ctrl_z]; [constructor|].
  destruct (c =? 26); constructor; auto.
Qed.

Lemma text_chars_bytes (input : list Z) :
  Forall seven_bit input -> Forall byte8 (text_chars input).
Proof.
  intros H. unfold text_chars. apply Forall_app. split.
  - apply upto_ctrl_z_Forall in H. induction H as [|c rest Hc _ IH];
      cbn [flat_map]; [constructor|].
    apply Forall_app. split; [apply emit_bytes, Hc|exact IH].
  - destruct (existsb _ input); constructor; [unfold byte8; lia|constructor].
Qed.

(** The local [ctrl_z_seen] of [stream_host_text_file] is read by the loop
    test before it has been assigned.  When it happens to hold true the loop
    ends at once and nothing is written, whatever the input. *)
Lemma stream_host_text_flag_set (input : list Z) :
  stream_host_text_words true put_state_init input = [].
Proof.
  unfold stream_host_text_words.
  assert (E : text_loop input true put_state_init [] = (true, put_state_init, [])).
  { destruct input as [|b rest]; cbn [text_loop]; [reflexivity|].
    rewrite orb_true_r. reflexivity. }
  rewrite E. reflexivity.
Qed.

(** C8, amended (text copy host-to-image encoding).  For an input of 7-bit
    characters, with the static state of [put_os8_char] as it is at program
    start and with the local [ctrl_z_seen], which the loop test reads before
    the code has assigned it, holding false on entry, the words written by
    [stream_host_text_file] are the packing, three characters to two words
    with the last group padded with zeros, of: for each input character up
    to and including the first 0x1A, a 0x8D before it if it is 0x0A, and the
    character with the mark bit 0x80 unless it is NUL; followed by 0x9A when
    the input holds no 0x1A at all. *)
Theorem stream_host_text_words_encoding (ctrl_z_seen : bool)
  (input : list Z) :
  Forall seven_bit input ->
  ctrl_z_seen = false ->
  stream_host_text_words ctrl_z_seen put_state_init input
  = pack_chars (text_chars input).
Proof.
  intros H ->. rewrite stream_host_text_words_put_chars by exact H.
  rewrite put_chars_pack; [reflexivity| |cbn; lia|reflexivity].
  apply text_chars_bytes, H.
Qed.

Lemma stream_host_text_words_encoding_witness :
  stream_host_text_words false put_state_init sample_text
  = pack_chars (text_chars sample_text).
Proof.
  apply (stream_host_text_words_encoding false sample_text).
  - repeat constructor; vm_compute; discriminate || reflexivity.
  - reflexivity.
Defined.

(** The text [foo\nbar\n] becomes eleven characters, f o o CR LF b a r CR LF
    and ^Z, all with the mark bit, in eight words. *)
Example stream_host_text_sample :
  text_chars sample_text
  = [230; 239; 239; 141; 138; 226; 225; 242; 141; 138; 154]
  /\ stream_host_text_words false put_state_init sample_text
     = [3814; 4079; 3725; 650; 2273; 3570; 138; 154].
Proof. vm_compute. auto. Qed.

(** C8 as stated fails: in the input 0x1A 0x0A the line feed follows the
    control-Z.  The code stops after the 0x1A: it writes the single
    character 0x9A, with no 0x8D for the line feed and no 0x9A appended,
    where the stated rule gives 0x9A, 0x8D, 0x8A, 0x9A. *)
Lemma stream_host_text_stops_at_ctrl_z :
  claimed_text_chars [26; 10] = [154; 141; 138; 154]
  /\ stream_host_text_words false put_state_init [26; 10] = pack_chars [154]
  /\ stream_host_text_words false put_state_init [26; 10]
     <> pack_chars (claimed_text_chars [26; 10]).
Proof. vm_compute. repeat split. discriminate. Qed.


(** * Dirty tracking in enter *)

(** ** Shape and footprint of the primitive operations *)

Lemma shape_in_range (d : directory_t) (i : Z) :
  shape d -> (0 <= i < Z.of_nat (length d) <-> 0 <= i < 6).
Proof. intros [L _]. rewrite L. cbn. lia. Qed.

Lemma shape_set_seg (d : directory_t) (j : Z) (s : dir_block_t) :
  shape d -> length (data s) = 256%nat -> shape (set_seg d j s).
Proof.
  intros [L D] Hs. split; [rewrite length_set_seg; exact L|].
  intros i Hi. rewrite seg_set_seg.
  destruct ((j =? i) && (0 <=? j) && (j <? Z.of_nat (length d)));
    [exact Hs|apply D, Hi].
Qed.

Lemma shape_set_seg_same_length (d : directory_t) (j : Z) (s : dir_block_t) :
  shape d -> length (data s) = length (data (seg d j)) -> shape (set_seg d j s).
Proof.
  intros Sh Hs. destruct (seg_index_cases d j) as [Hin|Hout].
  - apply shape_set_seg; [exact Sh|]. rewrite Hs. apply Sh.
    apply (shape_in_range d j Sh), Hin.
  - rewrite set_seg_outside by exact Hout. exact Sh.
Qed.

Lemma shape_poke (d : directory_t) (i off v : Z) :
  shape d -> shape (poke d i off v).
Proof.
  intros Sh. unfold poke. apply shape_set_seg_same_length; [exact Sh|].
  cbn [data]. apply length_wr.
Qed.

Lemma shape_mark_dirty (d : directory_t) (i : Z) :
  shape d -> shape (mark_dirty d i).
Proof.
  intros Sh. unfold mark_dirty. apply shape_set_seg_same_length; [exact Sh|].
  reflexivity.
Qed.

Lemma shape_set_data (d : directory_t) (i : Z) (l : list Z) :
  shape d -> length l = length (data (seg d i)) -> shape (set_data d i l).
Proof.
  intros Sh Hl. unfold set_data. apply shape_set_seg_same_length; [exact Sh|].
  exact Hl.
Qed.

Lemma shape_poke_list (ws : list Z) (d : directory_t) (i off : Z) :
  shape d -> shape (poke_list d i off ws).
Proof.
  revert d off. induction ws as [|w ws IH]; intros d off Sh; cbn [poke_list];
    [exact Sh|]. apply IH, shape_poke, Sh.
Qed.

Lemma touches_refl (d : directory_t) (j : Z) : touches d d j.
Proof. intros i _. reflexivity. Qed.

Lemma touches_trans (d1 d2 d3 : directory_t) (j : Z) :
  touches d1 d2 j -> touches d2 d3 j -> touches d1 d3 j.
Proof. intros H1 H2 i Hi. rewrite H2, H1 by exact Hi. reflexivity. Qed.

Lemma touches_poke (d : directory_t) (i off v : Z) : touches d (poke d i off v) i.
Proof. intros j Hj. apply data_poke_other. auto. Qed.

Lemma touches_mark_dirty (d : directory_t) (i : Z) : touches d (mark_dirty d i) i.
Proof. intros j Hj. apply seg_mark_dirty_other. auto. Qed.

Lemma touches_set_data (d : directory_t) (i : Z) (l : list Z) :
  touches d (set_data d i l) i.
Proof. intros j Hj. apply seg_set_data_other. auto. Qed.

Lemma touches_poke_list (ws : list Z) (d : directory_t) (i off : Z) :
  touches d (poke_list d i off ws) i.
Proof.
  revert d off. induction ws as [|w ws IH]; intros d off; cbn [poke_list];
    [apply touches_refl|].
  eapply touches_trans; [apply touches_poke|apply IH].
Qed.

Lemma dirty_poke_list (ws : list Z) (d : directory_t) (i off j : Z) :
  dirty (seg (poke_list d i off ws) j) = dirty (seg d j).
Proof.
  revert d off. induction ws as [|w ws IH]; intros d off; cbn [poke_list];
    [reflexivity|]. rewrite IH. apply dirty_poke.
Qed.

(** The operations that mark their segment dirty. *)

Lemma bump_number_files_spec (d : directory_t) (i amount : Z) :
  shape d ->
  shape (bump_number_files d i amount)
  /\ touches d (bump_number_files d i amount) i
  /\ (0 <= i < 6 -> dirty (seg (bump_number_files d i amount) i) = true).
Proof.
  intros Sh. unfold bump_number_files. split; [|split].
  - apply shape_poke, shape_mark_dirty, Sh.
  - eapply touches_trans; [apply touches_mark_dirty|apply touches_poke].
  - intros Hi. rewrite dirty_poke. apply dirty_mark_dirty_same.
    apply (shape_in_range d i Sh), Hi.
Qed.

Lemma bump_first_file_block_spec (d : directory_t) (i amount : Z) :
  shape d ->
  shape (bump_first_file_block d i amount)
  /\ touches d (bump_first_file_block d i amount) i
  /\ (0 <= i < 6 -> dirty (seg (bump_first_file_block d i amount) i) = true).
Proof.
  intros Sh. unfold bump_first_file_block. split; [|split].
  - apply shape_poke, shape_mark_dirty, Sh.
  - eapply touches_trans; [apply touches_mark_dirty|apply touches_poke].
  - intros Hi. rewrite dirty_poke. apply dirty_mark_dirty_same.
    apply (shape_in_range d i Sh), Hi.
Qed.

Lemma set_next_segment_spec (d : directory_t) (i next : Z) :
  shape d ->
  shape (set_next_segment d i next)
  /\ touches d (set_next_segment d i next) i
  /\ (0 <= i < 6 -> dirty (seg (set_next_segment d i next) i) = true).
Proof.
  intros Sh. unfold set_next_segment. split; [|split].
  - apply shape_poke, shape_mark_dirty, Sh.
  - eapply touches_trans; [apply touches_mark_dirty|apply touches_poke].
  - intros Hi. rewrite dirty_poke. apply dirty_mark_dirty_same.
    apply (shape_in_range d i Sh), Hi.
Qed.

Lemma put_entry_spec (d : directory_t) (e : entry_t) :
  shape d ->
  shape (put_entry d e)
  /\ touches d (put_entry d e) (dir_block e)
  /\ (0 <= dir_block e < 6 -> dirty (seg (put_entry d e) (dir_block e)) = true).
Proof.
  intros Sh. unfold put_entry. destruct (empty_file e).
  - split; [|split].
    + apply shape_poke, shape_poke, shape_mark_dirty, Sh.
    + eapply touches_trans; [apply touches_mark_dirty|].
      eapply touches_trans; apply touches_poke.
    + intros Hi. rewrite !dirty_poke. apply dirty_mark_dirty_same.
      apply (shape_in_range d _ Sh), Hi.
  - split; [|split].
    + apply shape_poke, shape_poke_list, shape_poke_list, shape_mark_dirty, Sh.
    + eapply touches_trans; [apply touches_mark_dirty|].
      eapply touches_trans; [apply touches_poke_list|].
      eapply touches_trans; [apply touches_poke_list|apply touches_poke].
    + intros Hi. rewrite dirty_poke, !dirty_poke_list.
      apply dirty_mark_dirty_same. apply (shape_in_range d _ Sh), Hi.
Qed.

(** The operations that leave the dirty flags alone. *)

Lemma fix_segment_up_spec (d : directory_t) (e : entry_t) (offset first_byte : Z) :
  shape d ->
  shape (fix_segment_up d e offset first_byte)
  /\ touches d (fix_segment_up d e offset first_byte) (dir_block e).
Proof.
  intros Sh. unfold fix_segment_up.
  assert (S1 : shape (set_data d (dir_block e)
                        (shuffle_words_up (data (seg d (dir_block e))) first_byte
                           (first_byte + offset) (entry e)))).
  { apply shape_set_data; [exact Sh|]. unfold shuffle_words_up.
    apply length_shuffle_up_loop. }
  match goal with |- context [if ?b then _ else _] => destruct b end.
  - split; [apply shape_poke, S1|].
    eapply touches_trans; [apply touches_set_data|apply touches_poke].
  - split; [exact S1|apply touches_set_data].
Qed.

Lemma fix_segment_down_spec (d : directory_t) (e : entry_t) (offset : Z) :
  shape d ->
  shape (fix_segment_down d e offset)
  /\ touches d (fix_segment_down d e offset) (dir_block e).
Proof.
  intros Sh. unfold fix_segment_down.
  assert (S1 : shape (set_data d (dir_block e)
                        (shuffle_words_down (data (seg d (dir_block e)))
                           (entry e + entry_length d e) (entry e + offset)
                           (OS8_BLOCK_SIZE - 1)))).
  { apply shape_set_data; [exact Sh|]. unfold shuffle_words_down.
    apply length_shuffle_down_loop. }
  match goal with |- context [if ?b then _ else _] => destruct b end.
  - split; [apply shape_poke, S1|].
    eapply touches_trans; [apply touches_set_data|apply touches_poke].
  - split; [exact S1|apply touches_set_data].
Qed.

(** ** The tracking invariant *)

Lemma tracked_plain (d0 : directory_t) (must : Z -> Prop) (ps ps' : list Z)
  (d d' : directory_t) (j : Z) :
  tracked d0 must ps d -> touches d d' j ->
  In j ps' -> incl ps ps' ->
  tracked d0 must ps' d'.
Proof.
  intros T Hto Hj Hinc i. destruct (Z.eq_dec i j) as [->|Hne]; [left; exact Hj|].
  rewrite (Hto i Hne). destruct (T i) as [H|H]; [left; apply Hinc, H|right; exact H].
Qed.

Lemma tracked_dirty (d0 : directory_t) (must : Z -> Prop) (ps ps' : list Z)
  (d d' : directory_t) (j : Z) :
  tracked d0 must ps d -> touches d d' j ->
  dirty (seg d' j) = true ->
  (forall i, In i ps -> i = j \/ In i ps') ->
  tracked d0 must ps' d'.
Proof.
  intros T Hto Hd Hps i. destruct (Z.eq_dec i j) as [->|Hne];
    [right; left; exact Hd|].
  rewrite (Hto i Hne). destruct (T i) as [H|H]; [|right; exact H].
  destruct (Hps i H) as [->|H']; [contradiction|left; exact H'].
Qed.

Lemma tracked_weaken (d0 : directory_t) (must : Z -> Prop) (ps ps' : list Z)
  (d : directory_t) :
  tracked d0 must ps d -> incl ps ps' -> tracked d0 must ps' d.
Proof.
  intros T Hinc i. destruct (T i) as [H|H]; [left; apply Hinc, H|right; exact H].
Qed.

(** A change of segment [j] alone that leaves [j] dirty keeps the tracking. *)
Lemma tracked_op (d0 : directory_t) (must : Z -> Prop) (ps : list Z)
  (d d' : directory_t) (j : Z) :
  tracked d0 must ps d -> shape d -> shape d' -> touches d d' j ->
  (0 <= j < 6 -> dirty (seg d' j) = true) ->
  tracked d0 must ps d'.
Proof.
  intros T Sh Sh' Hto Hd.
  destruct (Z_lt_le_dec j 0) as [Hneg|Hpos];
    [|destruct (Z_lt_le_dec j 6) as [Hlt|Hge]].
  - intros i. destruct (Z.eq_dec i j) as [->|Hne]; [|rewrite (Hto i Hne); apply T].
    rewrite (seg_outside d' j) by lia.
    rewrite <- (seg_outside d j) by lia. apply T.
  - apply (tracked_dirty d0 must ps ps d d' j T Hto (Hd ltac:(lia))). auto.
  - intros i. destruct (Z.eq_dec i j) as [->|Hne]; [|rewrite (Hto i Hne); apply T].
    destruct Sh as [L _], Sh' as [L' _].
    rewrite (seg_outside d' j) by (rewrite L'; cbn; lia).
    rewrite <- (seg_outside d j) by (rewrite L; cbn; lia). apply T.
Qed.

Lemma dir_block_peek_entry (d : directory_t) (c : cursor_t) (old : entry_t) :
  dir_block (peek_entry d c old) = c_dir_block c.
Proof. unfold peek_entry. destruct (word d (c_dir_block c) (c_entry c) =? 0); reflexivity. Qed.

Lemma consolidate_body_tracked (d0 : directory_t) (must : Z -> Prop)
  (ps : list Z) (d : directory_t) (c : cursor_t) (e ne : entry_t) :
  shape d -> tracked d0 must ps d ->
  shape (fst (fst (fst (consolidate_body d c e ne))))
  /\ tracked d0 must ps (fst (fst (fst (consolidate_body d c e ne)))).
Proof.
  intros Sh T. unfold consolidate_body, get_entry.
  set (e1 := peek_entry d c e).
  set (c1 := advance_cursor d c e1).
  set (ne1 := peek_entry d c1 ne).
  assert (Hne : dir_block ne1 = dir_block e1).
  { unfold ne1, e1. rewrite !dir_block_peek_entry. reflexivity. }
  destruct (empty_file e1); [|cbn [fst]; auto].
  destruct (e_length e1 =? 0).
  - cbn [fst].
    destruct (fix_segment_down_spec d e1 0 Sh) as (S1 & T1).
    destruct (bump_number_files_spec _ (dir_block e1) (-1) S1) as (S2 & T2 & D2).
    split; [exact S2|].
    apply (tracked_op d0 must ps d _ (dir_block e1) T Sh S2);
      [eapply touches_trans; eassumption|exact D2].
  - destruct (negb (overflowed_segment d c1) && empty_file ne1); cbn [fst]; auto.
    set (e' := set_length e1 _).
    destruct (put_entry_spec d e' Sh) as (S1 & T1 & _).
    destruct (fix_segment_down_spec _ ne1 0 S1) as (S2 & T2).
    destruct (bump_number_files_spec _ (dir_block e') (-1) S2) as (S3 & T3 & D3).
    split; [exact S3|].
    apply (tracked_op d0 must ps d _ (dir_block e1) T Sh S3); [|exact D3].
    rewrite Hne in T2.
    eapply touches_trans; [exact T1|]. eapply touches_trans; [exact T2|exact T3].
Qed.

Lemma consolidate_loop_tracked (d0 : directory_t) (must : Z -> Prop)
  (ps : list Z) (fuel : nat) (d : directory_t) (c : cursor_t) (e ne : entry_t)
  (d' : directory_t) :
  shape d -> tracked d0 must ps d ->
  consolidate_loop fuel d c e ne = Some d' ->
  shape d' /\ tracked d0 must ps d'.
Proof.
  revert d c e ne. induction fuel as [|fuel IH]; intros d c e ne Sh T E;
    [discriminate|].
  cbn [consolidate_loop] in E.
  destruct (valid_entry (S fuel) d c) as [[[] c1]|]; try discriminate.
  - destruct (consolidate_body_tracked d0 must ps d c1 e ne Sh T) as (S1 & T1).
    destruct (consolidate_body d c1 e ne) as [[[d1 c2] e2] ne2].
    cbn [fst] in S1, T1. exact (IH _ _ _ _ S1 T1 E).
  - injection E as <-. auto.
Qed.

Lemma consolidate_tracked (d0 : directory_t) (must : Z -> Prop) (ps : list Z)
  (fuel : nat) (d d' : directory_t) :
  shape d -> tracked d0 must ps d -> consolidate fuel d = Some d' ->
  shape d' /\ tracked d0 must ps d'.
Proof. intros Sh T E. exact (consolidate_loop_tracked _ _ _ _ _ _ _ _ _ Sh T E). Qed.

Lemma enter_finish_tracked (d0 : directory_t) (must : Z -> Prop) (ps : list Z)
  (fuel : nat) (filename : string) (len nel : Z) (d : directory_t)
  (e : entry_t) (unused_ptr : Z) (b : bool) (d' : directory_t) :
  shape d -> tracked d0 must ps d ->
  0 <= dir_block e < 6 ->
  (forall i, In i ps -> i = dir_block e) ->
  enter_finish fuel filename len nel d e unused_ptr = Some (b, d') ->
  shape d' /\ tracked d0 must [] d'.
Proof.
  intros Sh T Hin Hps E. unfold enter_finish in E.
  destruct (validate_directory fuel d) as [[]|]; try discriminate.
  destruct (fix_segment_up_spec d e nel unused_ptr Sh) as (S1 & T1).
  set (d1 := fix_segment_up d e nel unused_ptr) in *.
  destruct (bump_number_files_spec d1 (dir_block e) 1 S1) as (S2 & T2 & D2).
  set (d2 := bump_number_files d1 (dir_block e) 1) in *.
  set (e1 := set_file e _ _ _) in *.
  destruct (put_entry_spec d2 e1 S2) as (S3 & T3 & D3).
  set (d3 := put_entry d2 e1) in *.
  set (c := advance_cursor d3 _ e1) in *.
  set (e2 := peek_entry d3 c e1) in *.
  destruct (empty_file e2 && (e_length e2 >=? len)); [|discriminate].
  set (e3 := set_length e2 _) in *.
  destruct (put_entry_spec d3 e3 S3) as (S4 & T4 & D4).
  set (d4 := put_entry d3 e3) in *.
  assert (He3 : dir_block e3 = dir_block e).
  { unfold e3, e2. cbn [set_length dir_block]. rewrite dir_block_peek_entry.
    reflexivity. }
  assert (Tr4 : tracked d0 must [] d4).
  { apply (tracked_dirty d0 must ps [] d d4 (dir_block e) T).
    - change (dir_block e1) with (dir_block e) in T3. rewrite He3 in T4.
      eapply touches_trans; [exact T1|]. eapply touches_trans; [exact T2|].
      eapply touches_trans; [exact T3|exact T4].
    - rewrite <- He3. apply D4. rewrite He3. exact Hin.
    - intros i Hi. left. apply Hps, Hi. }
  destruct (consolidate fuel d4) as [d5|] eqn:Ec; [|discriminate].
  injection E as _ <-.
  exact (consolidate_tracked d0 must [] fuel d4 d5 S4 Tr4 Ec).
Qed.

(** ** What get_unused_ptr depends on *)

Lemma words_at_agree (d d' : directory_t) (s p : Z) (n : nat) :
  agree d d' s -> 5 <= p -> words_at d' s p n = words_at d s p n.
Proof.
  intros A Hp. unfold words_at. apply map_ext_in. intros k _. apply A. lia.
Qed.

Lemma peek_entry_agree (d d' : directory_t) (c : cursor_t) (old : entry_t) :
  agree d d' (c_dir_block c) -> 5 <= c_entry c ->
  peek_entry d' c old = peek_entry d c old.
Proof.
  intros A Hp. unfold peek_entry, additional_words.
  rewrite (A (c_entry c)) by lia. rewrite (A (c_entry c + 1)) by lia.
  rewrite (A 4) by lia.
  pose proof (u16_range (negate (word d (c_dir_block c) 4))) as Hc.
  rewrite (A (c_entry c + 4 + u16 (negate (word d (c_dir_block c) 4)))) by lia.
  rewrite !(words_at_agree d d') by (assumption || lia). reflexivity.
Qed.

Lemma entry_length_agree (d d' : directory_t) (e : entry_t) :
  agree d d' (dir_block e) -> entry_length d' e = entry_length d e.
Proof.
  intros A. unfold entry_length, file_entry_length, additional_words.
  rewrite (A 4) by lia. reflexivity.
Qed.

Lemma entry_length_nonneg (d : directory_t) (e : entry_t) :
  0 <= entry_length d e.
Proof.
  unfold entry_length, file_entry_length, empty_entry_length.
  destruct (empty_file e); [lia|]. apply Z.mod_pos_bound. lia.
Qed.

Lemma get_last_entry_loop_agree (d d' : directory_t) (n : nat) (c : cursor_t)
  (acc : option entry_t) :
  agree d d' (c_dir_block c) -> 5 <= c_entry c ->
  get_last_entry_loop n d' c acc = get_last_entry_loop n d c acc.
Proof.
  revert c acc. induction n as [|n IH]; intros c acc A Hp; [reflexivity|].
  cbn [get_last_entry_loop]. unfold overflowed_segment, number_files.
  rewrite (A 0) by lia.
  destruct (c_file_number c >? negate (word d (c_dir_block c) 0)); [reflexivity|].
  unfold get_entry. rewrite (peek_entry_agree d d') by assumption.
  set (e1 := peek_entry d c _).
  assert (Hd : dir_block e1 = c_dir_block c) by apply dir_block_peek_entry.
  unfold advance_cursor. rewrite (entry_length_agree d d') by (rewrite Hd; exact A).
  apply IH; cbn [c_dir_block c_entry]; [exact A|].
  pose proof (entry_length_nonneg d e1). lia.
Qed.

Lemma get_last_entry_agree (d d' : directory_t) (s : Z) :
  agree d d' s -> get_last_entry d' s = get_last_entry d s.
Proof.
  intros A. unfold get_last_entry, first_file_block. rewrite (A 1) by lia.
  apply get_last_entry_loop_agree; cbn [c_dir_block c_entry];
    [exact A|unfold file_entries; lia].
Qed.

Lemma get_last_entry_loop_dir_block (d : directory_t) (n : nat) (c : cursor_t)
  (acc : option entry_t) (e : entry_t) :
  (forall x, acc = Some x -> dir_block x = c_dir_block c) ->
  get_last_entry_loop n d c acc = Some e -> dir_block e = c_dir_block c.
Proof.
  revert c acc. induction n as [|n IH]; intros c acc Hacc E.
  - apply Hacc, E.
  - cbn [get_last_entry_loop] in E.
    destruct (overflowed_segment d c); [apply Hacc, E|].
    unfold get_entry in E.
    apply IH in E; [exact E|]. intros x Hx. injection Hx as <-.
    cbn [advance_cursor c_dir_block]. apply dir_block_peek_entry.
Qed.

Lemma get_last_entry_dir_block (d : directory_t) (s : Z) (e : entry_t) :
  get_last_entry d s = Some e -> dir_block e = s.
Proof.
  intros E. unfold get_last_entry in E.
  apply get_last_entry_loop_dir_block in E; [exact E|]. intros x Hx. discriminate.
Qed.

Lemma get_unused_ptr_agree (d d' : directory_t) (s mf : Z) :
  agree d d' s -> get_unused_ptr d' s mf = get_unused_ptr d s mf.
Proof.
  intros A. unfold get_unused_ptr. rewrite (get_last_entry_agree d d' s A).
  destruct (get_last_entry d s) as [e|] eqn:E; [|reflexivity].
  rewrite (entry_length_agree d d') by
    (rewrite (get_last_entry_dir_block d s e E); exact A).
  reflexivity.
Qed.

Lemma agree_same_seg (d d' : directory_t) (s : Z) :
  seg d' s = seg d s -> agree d d' s.
Proof. intros H off _. unfold word. rewrite H. reflexivity. Qed.

Lemma has_room_agree (d d' : directory_t) (s mf : Z) :
  agree d d' s -> has_room d' mf s = has_room d mf s.
Proof. intros A. unfold has_room. rewrite (get_unused_ptr_agree d d' s mf A). reflexivity. Qed.

Lemma next_segment_same_seg (d d' : directory_t) (s : Z) :
  seg d' s = seg d s -> next_segment d' s = next_segment d s.
Proof. intros H. unfold next_segment, word. rewrite H. reflexivity. Qed.

Lemma get_last_entry_loop_outside (d : directory_t) (n : nat) (s fb : Z) :
  seg d s = no_block ->
  get_last_entry_loop (S n) d (mk_cursor 1 fb file_entries s) None = None.
Proof.
  intros H. cbn [get_last_entry_loop].
  unfold overflowed_segment, number_files, word. cbn [c_dir_block c_file_number].
  rewrite H. reflexivity.
Qed.

Lemma get_unused_ptr_in_range (d : directory_t) (s mf : Z) (x : option Z) :
  shape d -> get_unused_ptr d s mf = Some x -> 0 <= s < 6.
Proof.
  intros [L _] E.
  destruct (Z_lt_le_dec s 0) as [Hneg|Hpos];
    [|destruct (Z_lt_le_dec s 6) as [Hlt|Hge]; [lia|]]; exfalso;
    unfold get_unused_ptr, get_last_entry in E;
    change 4096%nat with (S 4095) in E;
    rewrite get_last_entry_loop_outside in E;
    try discriminate E; apply seg_outside; lia.
Qed.

(** ** A new segment *)

Lemma get_last_entry_loop_single (d : directory_t) (n : nat) (t fb : Z) :
  number_files d t = 4095 -> word d t 5 = 0 ->
  exists e, get_last_entry_loop (S (S n)) d (mk_cursor 1 fb file_entries t) None
            = Some e
            /\ entry e = 5 /\ empty_file e = true.
Proof.
  intros Hn H5. cbn [get_last_entry_loop]. unfold overflowed_segment at 1.
  cbn [c_file_number c_dir_block]. rewrite Hn.
  change (1 >? negate 4095) with false. cbv iota.
  unfold get_entry, peek_entry. cbn [c_dir_block c_entry]. unfold file_entries.
  rewrite H5. change (0 =? 0) with true. cbv iota.
  unfold overflowed_segment. cbn [advance_cursor c_file_number c_dir_block].
  rewrite Hn. change (u16 (1 + 1) >? negate 4095) with true. cbv iota.
  eexists. split; [reflexivity|]. split; reflexivity.
Qed.

Lemma fresh_segment (d : directory_t) (mf t : Z) :
  number_files d t = 4095 -> word d t 5 = 0 -> next_segment d t = 0 ->
  fresh d mf t.
Proof.
  intros Hn H5 Hx. split; [exact Hx|].
  unfold get_unused_ptr, get_last_entry.
  change 4096%nat with (S (S 4094)).
  destruct (get_last_entry_loop_single d 4094 t (first_file_block d t) Hn H5)
    as (e & -> & He & Hem).
  unfold entry_length. rewrite He, Hem. reflexivity.
Qed.

Lemma word_poke_in_shape (d : directory_t) (i off v : Z) :
  shape d -> 0 <= i < 6 -> 0 <= off < 256 ->
  word (poke d i off v) i off = u16 v.
Proof.
  intros [_ D] Hi Ho. apply word_poke_hit. rewrite (D i Hi). cbn. lia.
Qed.

Lemma append_segment_spec (d : directory_t) (db index mf : Z) (d' : directory_t) :
  shape d -> 0 <= db < 6 -> 0 <= index < 6 -> index <> db ->
  append_segment d db index = Some d' ->
  shape d'
  /\ (forall i, i <> db -> i <> index -> seg d' i = seg d i)
  /\ dirty (seg d' db) = true
  /\ agree d d' db
  /\ next_segment d' db = index + 1
  /\ fresh d' mf index.
Proof.
  intros Sh Hdb Hix Hne E. unfold append_segment in E.
  destruct (set_next_segment_spec d db (index + 1) Sh) as (S1 & T1 & D1).
  set (d1 := set_next_segment d db (index + 1)) in *.
  set (d2 := poke d1 index 0 (negate 1)) in *.
  destruct (get_last_entry d2 db) as [temp|]; [|discriminate].
  injection E as <-.
  set (d3 := poke d2 index 1 _).
  set (d4 := poke d3 index 2 0).
  set (d5 := poke d4 index 3 0).
  set (d6 := poke d5 index 4 _).
  set (d7 := poke d6 index file_entries 0).
  set (d8 := poke d7 index (file_entries + 1) 0).
  assert (S2 : shape d2) by apply shape_poke, S1.
  assert (S3 : shape d3) by apply shape_poke, S2.
  assert (S4 : shape d4) by apply shape_poke, S3.
  assert (S5 : shape d5) by apply shape_poke, S4.
  assert (S6 : shape d6) by apply shape_poke, S5.
  assert (S7 : shape d7) by apply shape_poke, S6.
  assert (S8 : shape d8) by apply shape_poke, S7.
  assert (Tix : forall i, i <> index -> seg d8 i = seg d1 i).
  { intros i Hi. unfold d8, d7, d6, d5, d4, d3, d2.
    rewrite !data_poke_other by auto. reflexivity. }
  split; [exact S8|]. split; [|split; [|split; [|split]]].
  - intros i H1 H2. rewrite Tix by exact H2. apply T1. exact H1.
  - rewrite Tix by auto. apply D1, Hdb.
  - intros off Ho. unfold word. rewrite Tix by auto. fold (word d1 db off).
    unfold d1, set_next_segment. rewrite word_poke_miss by (right; lia).
    apply word_mark_dirty.
  - unfold next_segment, word. rewrite Tix by auto. fold (word d1 db 2).
    unfold d1, set_next_segment.
    rewrite word_poke_in_shape; [apply u16_small; lia| |exact Hdb|lia].
    apply shape_mark_dirty, Sh.
  - apply fresh_segment.
    + unfold number_files, d8, d7, d6, d5, d4, d3, file_entries.
      rewrite !word_poke_miss by (right; lia).
      unfold d2. rewrite word_poke_in_shape by (assumption || lia). reflexivity.
    + unfold d8, file_entries. rewrite word_poke_miss by (right; lia).
      unfold d7. rewrite word_poke_in_shape by (assumption || unfold file_entries; lia).
      reflexivity.
    + unfold next_segment, d8, d7, d6, d5, file_entries.
      rewrite !word_poke_miss by (right; lia).
      unfold d4. rewrite word_poke_in_shape by (assumption || lia). reflexivity.
Qed.

(** ** Moving an entry to the next segment *)

Lemma next_segment_poke (d : directory_t) (i off v j : Z) :
  off <> 2 -> next_segment (poke d i off v) j = next_segment d j.
Proof. intros H. unfold next_segment. apply word_poke_miss. right. exact H. Qed.

Lemma next_segment_mark_dirty (d : directory_t) (i j : Z) :
  next_segment (mark_dirty d i) j = next_segment d j.
Proof. unfold next_segment. apply word_mark_dirty. Qed.

Lemma next_segment_poke_list (ws : list Z) (d : directory_t) (i off j : Z) :
  2 < off -> next_segment (poke_list d i off ws) j = next_segment d j.
Proof.
  revert d off. induction ws as [|w ws IH]; intros d off H; cbn [poke_list];
    [reflexivity|].
  rewrite IH by lia. apply next_segment_poke. lia.
Qed.

Lemma next_segment_put_entry (d : directory_t) (e : entry_t) (j : Z) :
  2 < entry e -> 0 <= additional_count e ->
  next_segment (put_entry d e) j = next_segment d j.
Proof.
  intros H Hc. unfold put_entry. destruct (empty_file e).
  - rewrite !next_segment_poke by lia. apply next_segment_mark_dirty.
  - rewrite next_segment_poke by lia. rewrite !next_segment_poke_list by lia.
    apply next_segment_mark_dirty.
Qed.

Lemma word_set_data (d : directory_t) (i j off : Z) (l : list Z) :
  rd l off = word d i off -> word (set_data d i l) j off = word d j off.
Proof.
  intros H. unfold word, set_data. rewrite seg_set_seg.
  destruct ((i =? j) && (0 <=? i) && (i <? Z.of_nat (length d))) eqn:E;
    [|reflexivity].
  cbn [data]. zbool. subst j. exact H.
Qed.

Lemma next_segment_fix_segment_up (d : directory_t) (e : entry_t)
  (offset first_byte j : Z) :
  2 < entry e -> 0 <= offset ->
  next_segment (fix_segment_up d e offset first_byte) j = next_segment d j.
Proof.
  intros H Ho. unfold fix_segment_up.
  assert (N : next_segment
                (set_data d (dir_block e)
                   (shuffle_words_up (data (seg d (dir_block e))) first_byte
                      (first_byte + offset) (entry e))) j = next_segment d j).
  { unfold next_segment. apply word_set_data. unfold word.
    apply shuffle_words_up_below. lia. }
  match goal with |- context [if ?b then _ else _] => destruct b end.
  - rewrite next_segment_poke by lia. exact N.
  - exact N.
Qed.

Lemma additional_count_get_last_entry_loop (d : directory_t) (n : nat)
  (c : cursor_t) (acc : option entry_t) (e : entry_t) :
  (forall x, acc = Some x -> 0 <= additional_count x) ->
  get_last_entry_loop n d c acc = Some e -> 0 <= additional_count e.
Proof.
  revert c acc. induction n as [|n IH]; intros c acc Hacc E.
  - apply Hacc, E.
  - cbn [get_last_entry_loop] in E.
    destruct (overflowed_segment d c); [apply Hacc, E|].
    unfold get_entry in E. apply IH in E; [exact E|].
    intros x Hx. injection Hx as <-. unfold peek_entry.
    destruct (word d (c_dir_block c) (c_entry c) =? 0); cbn [additional_count].
    + destruct acc as [a|]; [apply Hacc; reflexivity|cbn; lia].
    + apply u16_range.
Qed.

Lemma move_last_entry_spec (d : directory_t) (e : entry_t)
  (db ndb ptr : Z) (d' : directory_t) (e' : entry_t) :
  shape d -> 0 <= db < 6 -> 0 <= ndb < 6 ->
  move_last_entry d e db ndb ptr = Some (d', e') ->
  shape d'
  /\ (forall i, i <> db -> i <> ndb -> seg d' i = seg d i)
  /\ dirty (seg d' db) = true
  /\ dirty (seg d' ndb) = true
  /\ (forall j, next_segment d' j = next_segment d j).
Proof.
  intros Sh Hdb Hndb E. unfold move_last_entry in E.
  destruct (get_last_entry d db) as [last|] eqn:El; [|discriminate].
  assert (Hac : 0 <= additional_count last).
  { unfold get_last_entry in El.
    apply additional_count_get_last_entry_loop in El; [exact El|].
    intros x Hx. discriminate. }
  destruct (bump_number_files_spec d db (-1) Sh) as (S1 & T1 & D1).
  set (d1 := bump_number_files d db (-1)) in *.
  destruct (bump_number_files_spec d1 ndb 1 S1) as (S2 & T2 & D2).
  set (d2 := bump_number_files d1 ndb 1) in *.
  destruct (bump_first_file_block_spec d2 ndb (- e_length last) S2)
    as (S3 & T3 & D3).
  set (d3 := bump_first_file_block d2 ndb (- e_length last)) in *.
  set (last' := set_place last ndb file_entries (first_file_block d3 ndb) 1) in *.
  destruct (fix_segment_up_spec d3 last' (entry_length d3 last') ptr S3)
    as (S4 & T4).
  set (d4 := fix_segment_up d3 last' (entry_length d3 last') ptr) in *.
  destruct (put_entry_spec d4 last' S4) as (S5 & T5 & D5).
  set (d5 := put_entry d4 last') in *.
  injection E as <- _.
  change (dir_block last') with ndb in *.
  assert (Tn : touches d1 d5 ndb).
  { eapply touches_trans; [exact T2|]. eapply touches_trans; [exact T3|].
    eapply touches_trans; [exact T4|exact T5]. }
  split; [exact S5|]. split; [|split; [|split]].
  - intros i H1 H2. rewrite Tn by exact H2. apply T1, H1.
  - destruct (Z.eq_dec db ndb) as [->|Hne]; [apply D5, Hndb|].
    rewrite Tn by exact Hne. apply D1, Hdb.
  - apply D5, Hndb.
  - intros j. unfold d5.
    assert (He5 : 2 < entry last') by (unfold last', file_entries; cbn; lia).
    assert (Hc5 : 0 <= additional_count last') by exact Hac.
    rewrite next_segment_put_entry by assumption.
    unfold d4. rewrite next_segment_fix_segment_up
      by (try apply entry_length_nonneg; assumption).
    unfold d3, bump_first_file_block.
    rewrite next_segment_poke, next_segment_mark_dirty by lia.
    unfold d2, bump_number_files.
    rewrite next_segment_poke, next_segment_mark_dirty by lia.
    unfold d1, bump_number_files.
    rewrite next_segment_poke, next_segment_mark_dirty by lia. reflexivity.
Qed.

(** ** The inner loop *)

Lemma enter_shuffle_cases (fuel : nat) (d : directory_t) (e : entry_t)
  (mf s : Z) (d' : directory_t) (e' : entry_t) (db : Z) :
  enter_shuffle fuel d e mf s = Some (d', e', db) ->
  walk d mf s db
  /\ ((next_segment d db = 0 /\ d' = d /\ e' = e)
      \/ (next_segment d db <> 0 /\ next_segment d db <= DIR_LENGTH
          /\ exists ptr,
               get_unused_ptr d (next_segment d db - 1) mf = Some (Some ptr)
               /\ move_last_entry d e db (next_segment d db - 1) ptr
                  = Some (d', e'))).
Proof.
  revert s. induction fuel as [|fuel IH]; intros s E; [discriminate|].
  cbn [enter_shuffle] in E.
  destruct (next_segment d s =? 0) eqn:E0.
  - injection E as <- <- <-. zbool. split; [constructor|]. left. auto.
  - destruct (next_segment d s >? DIR_LENGTH) eqn:E6; [discriminate|].
    zbool.
    destruct (get_unused_ptr d (next_segment d s - 1) mf) as [[ptr|]|] eqn:Eu;
      [| |discriminate].
    + destruct (move_last_entry d e s (next_segment d s - 1) ptr)
        as [[d1 e1]|] eqn:Em; [|discriminate].
      injection E as <- <- <-. split; [constructor|]. right.
      split; [exact E0|]. split; [lia|]. exists ptr. auto.
    + destruct (IH _ E) as (W & C). split; [|exact C].
      apply walk_next; assumption.
Qed.

Lemma walk_in_range (d : directory_t) (mf s db : Z) :
  shape d -> walk d mf s db -> 0 <= s < 6 -> 0 <= db < 6.
Proof.
  intros Sh W. induction W as [s|s db H0 H6 Hu W IH]; intros Hs; [exact Hs|].
  apply IH. eapply get_unused_ptr_in_range; eassumption.
Qed.

(** The walk ends at the fresh segment [t] when it ends at all. *)
Lemma walk_ends_at (d : directory_t) (mf s db t : Z) :
  walk d mf s db -> path_to d mf s t -> next_segment d t = 0 ->
  next_segment d db = 0 -> db = t.
Proof.
  intros W. revert t. induction W as [s|s db H0 H6 Hu W IH]; intros t P Ht Hdb.
  - inversion P as [|? ? Hne _ Hn _ _]; subst; [reflexivity|contradiction].
  - inversion P as [|? ? Hne _ Hn _ P1]; subst; [contradiction|].
    apply IH; assumption.
Qed.

(** The first segment with room that the walk finds on a path to [t] is
    [t]. *)
Lemma walk_finds (d : directory_t) (mf s db t : Z) (ptr : Z) :
  walk d mf s db -> path_to d mf s t -> next_segment d t = 0 ->
  next_segment d db <> 0 ->
  get_unused_ptr d (next_segment d db - 1) mf = Some (Some ptr) ->
  next_segment d db - 1 = t /\ has_room d mf t = true.
Proof.
  intros W. revert t. induction W as [s|s db H0 H6 Hu W IH]; intros t P Ht Hdb Hr.
  - inversion P as [|? ? Hne _ Hn _ P1]; subst; [contradiction|].
    inversion P1 as [|? ? Hne1 Hroom _ _ _]; subst.
    + split; [reflexivity|]. unfold has_room. rewrite Hr. reflexivity.
    + unfold has_room in Hroom. rewrite Hr in Hroom. discriminate.
  - inversion P as [|? ? Hne _ Hn _ P1]; subst; [contradiction|].
    apply IH; assumption.
Qed.

(** After [append_segment] the walk that found no room is a path to the
    new segment. *)
Lemma path_after_append (d d' : directory_t) (mf s db index : Z) :
  walk d mf s db -> has_room d mf s = false -> next_segment d db = 0 ->
  index <> db ->
  (forall i, i <> db -> i <> index -> seg d' i = seg d i) ->
  agree d d' db -> next_segment d' db = index + 1 -> 0 <= index < 6 ->
  path_to d' mf s index.
Proof.
  intros W Hs Hdb Hne Hsame Hag Hnext Hix.
  induction W as [s|s db H0 H6 Hu W IH].
  - apply path_next.
    + auto.
    + rewrite (has_room_agree d d' s mf Hag). exact Hs.
    + rewrite Hnext. lia.
    + rewrite Hnext. unfold DIR_LENGTH. lia.
    + rewrite Hnext. replace (index + 1 - 1) with index by lia. constructor.
  - destruct (Z.eq_dec s index) as [->|Hsi]; [constructor|].
    assert (Hsdb : s <> db) by (intros ->; contradiction).
    assert (Hseg : seg d' s = seg d s) by (apply Hsame; assumption).
    apply path_next.
    + exact Hsi.
    + rewrite (has_room_agree d d' s mf (agree_same_seg d d' s Hseg)). exact Hs.
    + rewrite (next_segment_same_seg d d' s Hseg). exact H0.
    + rewrite (next_segment_same_seg d d' s Hseg). exact H6.
    + rewrite (next_segment_same_seg d d' s Hseg).
      apply IH; try assumption. unfold has_room. rewrite Hu. reflexivity.
Qed.

Lemma walk_last_roomless (d : directory_t) (mf s db : Z) :
  walk d mf s db -> s = db \/ get_unused_ptr d db mf = Some None.
Proof.
  induction 1 as [s|s db H0 H6 Hu W IH]; [left; reflexivity|].
  right. destruct IH as [<-|IH]; assumption.
Qed.

(** ** One round of the outer loop *)

Lemma enter_step_cases (fuel : nat) (d : directory_t) (e : entry_t) (mf : Z)
  (r : enter_round) :
  shape d -> get_unused_ptr d (dir_block e) mf = Some None ->
  enter_step fuel d e mf = Some r ->
  match r with
  | Moved d1 e1 =>
      exists db ptr,
        walk d mf (dir_block e) db /\ next_segment d db <> 0
        /\ get_unused_ptr d (next_segment d db - 1) mf = Some (Some ptr)
        /\ move_last_entry d e db (next_segment d db - 1) ptr = Some (d1, e1)
  | Appended d2 e2 index =>
      e2 = e
      /\ exists db,
           walk d mf (dir_block e) db /\ next_segment d db = 0
           /\ 0 <= db < 6 /\ index = db + 1 /\ index < 6
           /\ append_segment d db index = Some d2
  | Full _ => True
  end.
Proof.
  intros Sh Hu E. unfold enter_step in E.
  destruct (enter_shuffle fuel d e mf (dir_block e)) as [[[d1 e1] db]|] eqn:Es;
    [|discriminate].
  destruct (enter_shuffle_cases _ _ _ _ _ _ _ _ Es) as (W & C).
  assert (Hs : 0 <= dir_block e < 6)
    by (eapply get_unused_ptr_in_range; eassumption).
  pose proof (walk_in_range d mf _ _ Sh W Hs) as Hdb.
  destruct C as [(H0 & -> & ->)|(Hn0 & H6 & ptr & Hp & Hm)].
  - rewrite H0 in E. change (0 =? 0) with true in E. cbv iota in E.
    rewrite (u16_small (db + 1)) in E by lia.
    destruct (db + 1 <? DIR_LENGTH) eqn:El.
    + destruct (append_segment d db (db + 1)) as [d2|] eqn:Ea; [|discriminate].
      injection E as <-. split; [reflexivity|]. exists db.
      zbool. unfold DIR_LENGTH in *. repeat split; try assumption; lia.
    + injection E as <-. exact I.
  - assert (Hndb : 0 <= next_segment d db - 1 < 6)
      by (eapply get_unused_ptr_in_range; eassumption).
    destruct (move_last_entry_spec d e db _ ptr d1 e1 Sh Hdb Hndb Hm)
      as (_ & _ & _ & _ & Hnext).
    rewrite Hnext in E.
    replace (next_segment d db =? 0) with false in E
      by (symmetry; apply Z.eqb_neq; exact Hn0).
    injection E as <-. exists db, ptr. auto.
Qed.

(** What an appending round establishes. *)
Lemma appended_pending (d d2 : directory_t) (e : entry_t) (mf db index : Z) :
  shape d -> get_unused_ptr d (dir_block e) mf = Some None ->
  walk d mf (dir_block e) db -> next_segment d db = 0 ->
  0 <= db < 6 -> index = db + 1 -> index < 6 ->
  append_segment d db index = Some d2 ->
  shape d2 /\ 0 <= index < 6
  /\ path_to d2 mf (dir_block e) index /\ fresh d2 mf index
  /\ (forall d0 must, tracked d0 must [] d -> tracked d0 must [index] d2).
Proof.
  intros Sh Hu W H0 Hdb Hix Hlt Ea.
  assert (Hir : 0 <= index < 6) by lia.
  destruct (append_segment_spec d db index mf d2 Sh Hdb Hir ltac:(lia) Ea)
    as (S2 & Hsame & Hd & Hag & Hnext & Hfresh).
  split; [exact S2|]. split; [exact Hir|]. split; [|split; [exact Hfresh|]].
  - apply (path_after_append d d2 mf (dir_block e) db index); try assumption;
      try lia.
    unfold has_room. rewrite Hu. reflexivity.
  - intros d0 must T i.
    destruct (Z.eq_dec i index) as [->|Hi]; [left; left; reflexivity|].
    destruct (Z.eq_dec i db) as [->|Hi2]; [right; left; exact Hd|].
    rewrite (Hsame i Hi2 Hi). destruct (T i) as [[]|H]. right. exact H.
Qed.

(** When a fresh segment has no room, no segment on the path has, and the
    loop cannot end with a pointer. *)
Lemma make_room_doomed (fuel : nat) (d : directory_t) (e : entry_t)
  (mf t : Z) (d' : directory_t) (x : entry_t * Z) :
  OS8_BLOCK_SIZE <= 7 + mf -> shape d ->
  path_to d mf (dir_block e) t -> fresh d mf t ->
  enter_make_room fuel d e mf = Some (d', Some x) -> False.
Proof.
  intros HR. revert d e t. induction fuel as [|fuel IH];
    intros d e t Sh P [Ft Fu] E; [discriminate|].
  replace (7 + mf <? OS8_BLOCK_SIZE) with false in Fu
    by (symmetry; apply Z.ltb_ge; exact HR).
  cbn [enter_make_room] in E.
  destruct (get_unused_ptr d (dir_block e) mf) as [[ptr|]|] eqn:Eu;
    [| |discriminate].
  - inversion P as [|? ? Hne Hroom _ _ _]; subst.
    + rewrite Fu in Eu. discriminate.
    + unfold has_room in Hroom. rewrite Eu in Hroom. discriminate.
  - destruct (enter_step (S fuel) d e mf) as [r|] eqn:Es; [|discriminate].
    pose proof (enter_step_cases _ _ _ _ _ Sh Eu Es) as C.
    destruct r as [d1 e1|d2 e2 index|d1]; [| |discriminate].
    + destruct C as (db & ptr & W & Hn0 & Hp & _).
      destruct (walk_finds d mf _ db t ptr W P Ft Hn0 Hp) as (_ & Hroom).
      unfold has_room in Hroom. rewrite Fu in Hroom. discriminate.
    + destruct C as (-> & db & W & H0 & Hdb & Hix & Hlt & Ea).
      destruct (appended_pending d d2 e mf db index Sh Eu W H0 Hdb Hix Hlt Ea)
        as (S2 & _ & P2 & F2 & _).
      exact (IH d2 e index S2 P2 F2 E).
Qed.

(** The outer loop keeps the tracking; when it ends with a pointer, only the
    segment of [entry] may still be pending. *)
Lemma make_room_tracked (d0 : directory_t) (must : Z -> Prop) (mf : Z)
  (fuel : nat) (d : directory_t) (e : entry_t) (d' : directory_t)
  (e' : entry_t) (ptr : Z) :
  shape d ->
  (tracked d0 must [] d
   \/ exists t, 0 <= t < 6 /\ tracked d0 must [t] d
                /\ path_to d mf (dir_block e) t /\ fresh d mf t) ->
  enter_make_room fuel d e mf = Some (d', Some (e', ptr)) ->
  shape d' /\ 0 <= dir_block e' < 6
  /\ exists ps, tracked d0 must ps d' /\ forall i, In i ps -> i = dir_block e'.
Proof.
  revert d e. induction fuel as [|fuel IH]; intros d e Sh Inv E; [discriminate|].
  pose proof E as E'. cbn [enter_make_room] in E.
  destruct (get_unused_ptr d (dir_block e) mf) as [[p|]|] eqn:Eu;
    [| |discriminate].
  - (* the segment of [entry] has room *)
    injection E as <- <- <-. split; [exact Sh|].
    split; [eapply get_unused_ptr_in_range; eassumption|].
    destruct Inv as [T|(t & Ht & T & P & F)].
    + exists []. split; [exact T|]. intros i [].
    + exists [t]. split; [exact T|]. intros i [<-|[]].
      inversion P as [|? ? Hne Hroom _ _ _]; subst; [reflexivity|].
      unfold has_room in Hroom. rewrite Eu in Hroom. discriminate.
  - destruct (enter_step (S fuel) d e mf) as [r|] eqn:Es; [|discriminate].
    pose proof (enter_step_cases _ _ _ _ _ Sh Eu Es) as C.
    assert (Hs : 0 <= dir_block e < 6)
      by (eapply get_unused_ptr_in_range; eassumption).
    destruct r as [d1 e1|d2 e2 index|d1]; [| |discriminate].
    + (* an entry moved *)
      destruct C as (db & q & W & Hn0 & Hq & Hm).
      pose proof (walk_in_range d mf _ _ Sh W Hs) as Hdb.
      assert (Hndb : 0 <= next_segment d db - 1 < 6)
        by (eapply get_unused_ptr_in_range; eassumption).
      destruct (move_last_entry_spec d e db _ q d1 e1 Sh Hdb Hndb Hm)
        as (S1 & Hsame & Ddb & Dndb & _).
      apply (IH d1 e1 S1); [|exact E]. left.
      destruct Inv as [T|(t & Ht & T & P & F)].
      * intros i. destruct (Z.eq_dec i db) as [->|H1]; [right; left; exact Ddb|].
        destruct (Z.eq_dec i (next_segment d db - 1)) as [->|H2];
          [right; left; exact Dndb|].
        rewrite (Hsame i H1 H2). apply T.
      * destruct F as [Ft Fu].
        destruct (walk_finds d mf _ db t q W P Ft Hn0 Hq) as (Hnt & _).
        intros i. destruct (Z.eq_dec i db) as [->|H1]; [right; left; exact Ddb|].
        destruct (Z.eq_dec i (next_segment d db - 1)) as [->|H2];
          [right; left; exact Dndb|].
        rewrite (Hsame i H1 H2). destruct (T i) as [[<-|[]]|H];
          [congruence|right; exact H].
    + (* a segment was appended *)
      destruct C as (-> & db & W & H0 & Hdb & Hix & Hlt & Ea).
      destruct (appended_pending d d2 e mf db index Sh Eu W H0 Hdb Hix Hlt Ea)
        as (S2 & Hir & P2 & F2 & T2).
      destruct Inv as [T|(t & Ht & T & P & F)].
      * apply (IH d2 e S2); [|exact E]. right. exists index. auto.
      * exfalso. destruct (Z_lt_le_dec (7 + mf) OS8_BLOCK_SIZE) as [HR|HR].
        -- (* a fresh segment has room, so the walk cannot pass [t] *)
           destruct F as [Ft Fu].
           replace (7 + mf <? OS8_BLOCK_SIZE) with true in Fu
             by (symmetry; apply Z.ltb_lt; exact HR).
           assert (Hdbt : db = t) by (eapply walk_ends_at; eassumption).
           subst db.
           destruct (walk_last_roomless d mf _ _ W) as [Heq|Hnone].
           ++ rewrite Heq, Fu in Eu. discriminate.
           ++ rewrite Fu in Hnone. discriminate.
        -- exact (make_room_doomed _ _ _ _ _ _ _ HR Sh P F E').
Qed.

Lemma shapeb_spec (d : directory_t) : shapeb d = true -> shape d.
Proof.
  unfold shapeb. intros H. apply andb_true_iff in H as [HL HD].
  apply Nat.eqb_eq in HL. split; [exact HL|].
  intros i Hi. rewrite forallb_forall in HD.
  apply Nat.eqb_eq, HD. unfold seg.
  replace (i <? 0) with false by (symmetry; apply Z.ltb_ge; lia).
  apply nth_In. lia.
Qed.

(** C9 (dirty tracking of allocated segments).  On a directory of six
    256-word segments: when [enter] returns true, every segment whose words
    it changed is dirty; and when a round of its loop appends segment
    [index] and the run that goes on from there returns true, segment
    [index] is dirty. *)
Theorem enter_marks_dirty :
  (forall (fuel : nat) (filename : string) (len : Z) (d : directory_t)
          (e : entry_t) (d' : directory_t),
      shape d ->
      enter fuel filename len d e = Some (true, d') ->
      forall i, data (seg d' i) <> data (seg d i) -> dirty (seg d' i) = true)
  /\ (forall (fuel fuel' : nat) (filename : string) (len nel : Z)
             (d : directory_t) (e : entry_t) (d1 : directory_t) (e1 : entry_t)
             (index : Z) (d' : directory_t),
         shape d ->
         get_unused_ptr d (dir_block e)
           ((nel + empty_entry_length) mod 2 ^ 32) = Some None ->
         enter_step fuel d e ((nel + empty_entry_length) mod 2 ^ 32)
         = Some (Appended d1 e1 index) ->
         enter_from fuel' filename len nel d1 e1 = Some (true, d') ->
         dirty (seg d' index) = true).
Proof.
  split.
  - intros fuel filename len d e d' Sh E i Hi.
    unfold enter, enter_from in E.
    set (nel := file_entry_length d (dir_block e)) in *.
    set (mf := (nel + empty_entry_length) mod 2 ^ 32) in *.
    destruct (enter_make_room fuel d e mf) as [[d1 [[e1 ptr]|]]|] eqn:Em;
      try discriminate.
    assert (T0 : tracked d (fun _ => False) [] d)
      by (intros j; right; right; split; [reflexivity|auto]).
    destruct (make_room_tracked d (fun _ => False) mf fuel d e d1 e1 ptr Sh
                (or_introl T0) Em) as (S1 & Hr & ps & T1 & Hps).
    destruct (enter_finish_tracked _ _ _ _ _ _ _ _ _ _ _ _ S1 T1 Hr Hps E)
      as (_ & T2).
    destruct (T2 i) as [[]|[H|[H _]]]; [exact H|contradiction].
  - intros fuel fuel' filename len nel d e d1 e1 index d' Sh Hu Es E.
    set (mf := (nel + empty_entry_length) mod 2 ^ 32) in *.
    pose proof (enter_step_cases _ _ _ _ _ Sh Hu Es) as C. cbv iota beta in C.
    destruct C as (-> & db & W & H0 & Hdb & Hix & Hlt & Ea).
    destruct (appended_pending d d1 e mf db index Sh Hu W H0 Hdb Hix Hlt Ea)
      as (S1 & Hir & P1 & F1 & _).
    unfold enter_from in E. fold mf in E.
    destruct (enter_make_room fuel' d1 e mf) as [[d2 [[e2 ptr]|]]|] eqn:Em;
      try discriminate.
    assert (T0 : tracked d1 (fun i => i = index) [index] d1).
    { intros j. destruct (Z.eq_dec j index) as [->|Hj];
        [left; left; reflexivity|right; right; split; [reflexivity|exact Hj]]. }
    destruct (make_room_tracked d1 (fun i => i = index) mf fuel' d1 e d2 e2 ptr
                S1 (or_intror (ex_intro _ index
                                  (conj Hir (conj T0 (conj P1 F1))))) Em)
      as (S2 & Hr & ps & T2 & Hps).
    destruct (enter_finish_tracked _ _ _ _ _ _ _ _ _ _ _ _ S2 T2 Hr Hps E)
      as (_ & T3).
    destruct (T3 index) as [[]|[H|[_ H]]]; [exact H|]. exfalso. apply H.
    reflexivity.
Qed.

Lemma enter_marks_dirty_witness :
  (forall i, data (seg packed_entered i) <> data (seg packed_directory i) ->
             dirty (seg packed_entered i) = true)
  /\ dirty (seg packed_entered 1) = true.
Proof.
  destruct enter_marks_dirty as [A B]. split.
  - apply (A 100%nat "zz"%string 2 packed_directory packed_empty packed_entered).
    + apply shapeb_spec. vm_compute. reflexivity.
    + vm_compute. reflexivity.
  - apply (B 100%nat 100%nat "zz"%string 2 6 packed_directory packed_empty
             packed_appended packed_empty 1 packed_entered).
    + apply shapeb_spec. vm_compute. reflexivity.
    + vm_compute. reflexivity.
    + vm_compute. reflexivity.
    + vm_compute. reflexivity.
Defined.

(** In that run segment 1 is appended, the empty entry moves into it and
    the file is entered there; both segments end up dirty.  The new
    segment's [first_file_block] is 64160 where the entry's blocks start at
    48: [enter] adds [entry_length(temp_entry)], the size of the directory
    entry in words, where the length of the file in blocks is meant. *)
Example enter_appends_segment :
  map dirty packed_entered = [true; true; false; false; false; false]
  /\ next_segment packed_entered 0 = 2
  /\ first_file_block packed_entered 1 = 64160
  /\ file_block packed_empty = 48.
Proof. vm_compute. auto. Qed.


(** * Binary copy: host to image and back *)

Lemma fread_words_host_words (n : nat) :
  forall input,
    fread_words n input = (firstn n (host_words input), skipn (2 * n) input).
Proof.
  induction n as [|n IH]; intros input; [reflexivity|].
  replace (2 * S n)%nat with (S (S (2 * n))) by lia.
  destruct input as [|b0 [|b1 rest]]; try reflexivity.
  cbn [fread_words host_words firstn skipn]. rewrite IH. reflexivity.
Qed.

Lemma host_words_skipn (n : nat) :
  forall input, host_words (skipn (2 * n) input) = skipn n (host_words input).
Proof.
  induction n as [|n IH]; intros input; [reflexivity|].
  replace (2 * S n)%nat with (S (S (2 * n))) by lia.
  destruct input as [|b0 [|b1 rest]]; try reflexivity.
  cbn [skipn host_words]. apply IH.
Qed.

Lemma Forall_firstn_skipn {A : Type} (P : A -> Prop) (n : nat) (l : list A) :
  Forall P l -> Forall P (firstn n l) /\ Forall P (skipn n l).
Proof.
  intros H. rewrite <- (firstn_skipn n l) in H. now apply Forall_app in H.
Qed.

Lemma list_ind2 {A : Type} (P : list A -> Prop) :
  P [] -> (forall a, P [a]) -> (forall a b l, P l -> P (a :: b :: l)) ->
  forall l, P l.
Proof.
  intros H0 H1 H2.
  assert (G : forall l, P l /\ forall a, P (a :: l)).
  { induction l as [|x l (IH0 & IH1)]; [auto|].
    split; [apply IH1|]. intros a. apply H2, IH0. }
  intros l. apply G.
Qed.

Lemma byte_pair_split (b0 b1 : Z) :
  byte8 b0 -> byte8 b1 ->
  Z.land (Z.lor b0 (Z.shiftl b1 8)) 255 = b0 /\
  Z.shiftr (Z.lor b0 (Z.shiftl b1 8)) 8 = b1.
Proof.
  intros H0 H1.
  assert (E : below 256 (fun b0 => below 256 (fun b1 =>
            (Z.land (Z.lor b0 (Z.shiftl b1 8)) 255 =? b0)
            && (Z.shiftr (Z.lor b0 (Z.shiftl b1 8)) 8 =? b1))) = true)
    by (vm_compute; reflexivity).
  pose proof (below_spec _ _ E b0 H0) as E0. cbv beta in E0.
  pose proof (below_spec _ _ E0 b1 H1) as E1. cbv beta in E1.
  apply andb_true_iff in E1 as [Ea Eb].
  apply Z.eqb_eq in Ea, Eb. auto.
Qed.

Lemma fwrite_words_app (a b : list Z) :
  fwrite_words (a ++ b) = fwrite_words a ++ fwrite_words b.
Proof. unfold fwrite_words. apply flat_map_app. Qed.

Lemma fwrite_words_zeros (n : nat) :
  fwrite_words (repeat 0 n) = repeat 0 (2 * n).
Proof.
  induction n as [|n IH]; [reflexivity|].
  replace (2 * S n)%nat with (S (S (2 * n))) by lia.
  cbn [repeat]. change (fwrite_words (0 :: repeat 0 n))
    with (0 :: 0 :: fwrite_words (repeat 0 n)).
  now rewrite IH.
Qed.

Lemma fwrite_host_words (input : list Z) :
  Forall byte8 input -> Nat.even (List.length input) = true ->
  fwrite_words (host_words input) = input.
Proof.
  induction input as [| a | a b l IH] using list_ind2; intros HB HE.
  - reflexivity.
  - discriminate.
  - inversion HB as [|? ? Ha HB1]; subst. inversion HB1 as [|? ? Hb HB2]; subst.
    cbn [host_words]. unfold fwrite_words. cbn [flat_map app].
    destruct (byte_pair_split a b Ha Hb) as [-> ->].
    f_equal. f_equal. apply IH; [assumption|exact HE].
Qed.

Lemma length_host_words (input : list Z) :
  Nat.even (List.length input) = true ->
  (2 * List.length (host_words input) = List.length input)%nat.
Proof.
  induction input as [| a | a b l IH] using list_ind2; intros HE.
  - reflexivity.
  - discriminate.
  - cbn [host_words List.length]. specialize (IH HE). lia.
Qed.

Lemma zero_padded_length (input : list Z) :
  Z.of_nat (List.length (zero_padded input))
  = blocks_for (Z.of_nat (List.length input)) * (OS8_BLOCK_SIZE * 2).
Proof.
  unfold zero_padded, blocks_for, OS8_BLOCK_SIZE.
  rewrite length_app, repeat_length.
  set (n := Z.of_nat (List.length input)).
  assert (0 <= n) by (unfold n; lia).
  rewrite Nat2Z.inj_add. fold n.
  rewrite Z2Nat.id; [lia|].
  Z.to_euclidean_division_equations; lia.
Qed.

Lemma zero_padded_firstn (input : list Z) :
  firstn (List.length input) (zero_padded input) = input.
Proof.
  unfold zero_padded. rewrite firstn_app, Nat.sub_diag, firstn_all.
  cbn [firstn]. apply app_nil_r.
Qed.

Section Device.

Variable write_block : block_writer.
Variable read_block : block_reader.

(** A block of 256 twelve-bit words that was written is read back. *)
Hypothesis write_then_read :
  forall img n b img',
    List.length b = 256%nat -> Forall word12 b ->
    write_block img n b = Some img' -> read_block img' n = Some b.

(** Writing a block leaves the blocks before it as they read. *)
Hypothesis write_keeps_lower :
  forall img n m b img' x,
    0 <= n < m -> List.length b = 256%nat ->
    write_block img m b = Some img' ->
    read_block img n = Some x -> read_block img' n = Some x.

Lemma stream_host_loop_blocks (e : entry_t) (fuel : nat) :
  forall img input block_no img' block_no',
    Forall word12 (host_words input) ->
    0 <= file_block e + block_no ->
    stream_host_loop fuel write_block img input e block_no
      = Some (Some (img', block_no')) ->
    exists blocks,
      block_no' = block_no + Z.of_nat (List.length blocks)
      /\ (forall j, (j < List.length blocks)%nat ->
            read_block img' (file_block e + block_no + Z.of_nat j)
              = Some (nth j blocks []))
      /\ (forall n x, 0 <= n < file_block e + block_no ->
            read_block img n = Some x -> read_block img' n = Some x)
      /\ concat blocks
           = host_words input
             ++ repeat 0 (256 * List.length blocks
                          - List.length (host_words input))
      /\ Z.of_nat (List.length blocks)
           = (Z.of_nat (List.length (host_words input)) + 255) / 256.
Proof.
  induction fuel as [|fuel IH]; intros img input bn img' bn' HW Hpos Hrun;
    [discriminate|].
  cbn [stream_host_loop] in Hrun.
  rewrite fread_words_host_words in Hrun.
  change (Z.to_nat OS8_BLOCK_SIZE) with 256%nat in Hrun.
  set (hw := host_words input) in *.
  set (ws := firstn 256 hw) in *.
  assert (Lws : List.length ws = Nat.min 256 (List.length hw))
    by apply length_firstn.
  destruct (Z.of_nat (List.length ws) >? 0) eqn:Hcnt; zbool.
  - destruct (e_length e <=? bn) eqn:Hlen; [discriminate|].
    set (block := ws ++ repeat 0 (256 - List.length ws)) in *.
    destruct (write_block img (file_block e + bn) block) as [img1|] eqn:Hw;
      [|discriminate].
    assert (Lb : List.length block = 256%nat).
    { unfold block. rewrite length_app, repeat_length. lia. }
    assert (Wb : Forall word12 block).
    { unfold block. apply Forall_app. split.
      - unfold ws. now apply Forall_firstn_skipn.
      - apply Forall_forall. intros x Hx. apply repeat_spec in Hx. subst x.
        unfold word12. lia. }
    assert (HW' : Forall word12 (host_words (skipn (2 * 256) input))).
    { rewrite host_words_skipn. now apply Forall_firstn_skipn. }
    destruct (IH img1 _ (bn + 1) img' bn' HW' ltac:(lia) Hrun)
      as (blocks & Ebn & Hread & Hkeep & Hcat & Hnum).
    rewrite host_words_skipn in Hcat, Hnum. fold hw in Hcat, Hnum.
    rewrite length_skipn in Hcat, Hnum.
    exists (block :: blocks). cbn [List.length concat].
    split; [lia|]. split; [|split; [|split]].
    + intros [|j] Hj.
      * cbn [nth]. rewrite Z.add_0_r.
        apply Hkeep; [lia|].
        eapply write_then_read; eassumption.
      * cbn [nth].
        replace (file_block e + bn + Z.of_nat (S j))
          with (file_block e + (bn + 1) + Z.of_nat j) by lia.
        apply Hread. lia.
    + intros n x Hn Hx. apply Hkeep; [lia|].
      eapply write_keeps_lower; [| |exact Hw|exact Hx]; [lia|exact Lb].
    + rewrite Hcat. unfold block.
      destruct (Nat.le_gt_cases 256 (List.length hw)) as [Hge|Hlt].
      * replace (256 - List.length ws)%nat with 0%nat by lia.
        cbn [repeat]. rewrite app_nil_r, app_assoc.
        unfold ws. rewrite firstn_skipn. f_equal. f_equal. lia.
      * assert (Ews : ws = hw) by (unfold ws; apply firstn_all2; lia).
        rewrite Ews.
        rewrite (skipn_all2 hw) by lia. cbn [app].
        assert (Z.of_nat (List.length blocks) = 0).
        { rewrite Hnum.
          replace (List.length hw - 256)%nat with 0%nat by lia.
          reflexivity. }
        assert (E0 : List.length blocks = 0%nat) by lia.
        rewrite E0. rewrite <- app_assoc. f_equal.
        rewrite <- repeat_app. f_equal. lia.
    + rewrite Nat2Z.inj_succ, Hnum.
      destruct (Nat.le_gt_cases 256 (List.length hw)) as [Hge|Hlt].
      * rewrite Nat2Z.inj_sub by exact Hge.
        change (Z.of_nat 256) with 256.
        Z.to_euclidean_division_equations; lia.
      * replace (List.length hw - 256)%nat with 0%nat by lia.
        change (Z.of_nat 0) with 0.
        Z.to_euclidean_division_equations; lia.
  - inversion Hrun; subst img' bn'. clear Hrun.
    assert (E0 : List.length hw = 0%nat) by lia.
    exists []. cbn [List.length concat]. rewrite E0.
    split; [lia|]. split; [intros j Hj; cbn in Hj; lia|].
    split; [auto|]. split.
    + destruct hw; [reflexivity|discriminate].
    + reflexivity.
Qed.

Lemma stream_os8_loop_blocks (img : image) (blocks : list (list Z)) :
  forall fuel block_no output,
    (List.length blocks < fuel)%nat -> 0 <= block_no ->
    block_no + Z.of_nat (List.length blocks) < 65536 ->
    (forall j, (j < List.length blocks)%nat ->
       read_block img (block_no + Z.of_nat j) = Some (nth j blocks [])) ->
    stream_os8_loop fuel read_block img block_no
                    (block_no + Z.of_nat (List.length blocks)) output
      = Some (Some (output ++ fwrite_words (concat blocks))).
Proof.
  induction blocks as [|b blocks IH]; intros fuel bn out Hf Hbn Hlim Hread.
  - destruct fuel as [|fuel]; [cbn in Hf; lia|].
    cbn [stream_os8_loop List.length concat].
    replace (bn <? bn + Z.of_nat 0) with false by (symmetry; apply Z.ltb_ge; lia).
    now rewrite app_nil_r.
  - destruct fuel as [|fuel]; [cbn in Hf; lia|].
    cbn [List.length] in *. cbn [stream_os8_loop concat].
    replace (bn <? bn + Z.of_nat (S (List.length blocks))) with true
      by (symmetry; apply Z.ltb_lt; lia).
    pose proof (Hread 0%nat ltac:(lia)) as H0.
    cbn [nth] in H0. rewrite Z.add_0_r in H0. rewrite H0.
    assert (Eu : u16 (bn + 1) = bn + 1) by (apply u16_small; lia).
    rewrite Eu.
    replace (bn + Z.of_nat (S (List.length blocks)))
      with (bn + 1 + Z.of_nat (List.length blocks)) by lia.
    rewrite IH; [|lia|lia|lia|].
    + rewrite fwrite_words_app, app_assoc. reflexivity.
    + intros j Hj.
      replace (bn + 1 + Z.of_nat j) with (bn + Z.of_nat (S j)) by lia.
      rewrite Hread by lia. reflexivity.
Qed.


(** The two streams.  On a device whose written blocks read back, let
    [input] be a host file of an even number of bytes whose words, low byte
    first, are all below 4096.  When the copy to the image returns true and
    the directory then lists the name at the blocks that were handed out
    for it, with the number of blocks [input] fills, the copy back returns
    [input] followed by zero bytes up to whole blocks. *)
Lemma streams_round_trip :
  forall fuel fuel' img input d outputname d1 e d' img' entry' c',
    Forall byte8 input ->
    Nat.even (List.length input) = true ->
    Forall word12 (host_words input) ->
    allocate_os8_file fuel outputname
      (((Z.of_nat (List.length input) + (OS8_BLOCK_SIZE - 1) * 2) mod 2 ^ 32)
       / (OS8_BLOCK_SIZE * 2)) d entry_zero = Some (true, d1, e) ->
    stream_host_image_file fuel write_block img input d outputname
        (Z.of_nat (List.length input)) = Some (true, d', img') ->
    lookup fuel' outputname d' (init_cursor d') = Some (Some entry', c') ->
    file_block entry' = file_block e ->
    e_length entry' = blocks_for (Z.of_nat (List.length input)) ->
    0 <= file_block e ->
    file_block e + blocks_for (Z.of_nat (List.length input)) < 65536 ->
    (Z.to_nat (blocks_for (Z.of_nat (List.length input))) < fuel')%nat ->
    copy_os8_image_file fuel' read_block img' d' outputname
      = Some (Some (zero_padded input))
    /\ Z.of_nat (List.length (zero_padded input))
       = blocks_for (Z.of_nat (List.length input)) * (OS8_BLOCK_SIZE * 2)
    /\ firstn (List.length input) (zero_padded input) = input.
Proof.
  intros fuel fuel' img input d outputname d1 e d' img' entry' c'
         HB HE HW Halloc Hcopy Hlook Hfb Hlen Hpos Hlim Hfuel.
  split; [|split; [apply zero_padded_length|apply zero_padded_firstn]].
  unfold stream_host_image_file in Hcopy. rewrite Halloc in Hcopy.
  destruct (stream_host_loop fuel write_block img input e 0)
    as [[[img1 block_no]|]|] eqn:Hloop; try discriminate.
  assert (Eimg : img1 = img').
  { destruct (enter_os8_file fuel outputname block_no d1 e) as [[ok d2]|];
      [|discriminate]. congruence. }
  subst img1. clear Hcopy.
  destruct (stream_host_loop_blocks e fuel img input 0 img' block_no HW
              ltac:(lia) Hloop)
    as (blocks & _ & Hread & _ & Hcat & Hnum).
  pose proof (length_host_words input HE) as Lhw.
  set (hw := host_words input) in *.
  assert (Ek : Z.of_nat (List.length blocks)
               = blocks_for (Z.of_nat (List.length input))).
  { rewrite Hnum. unfold blocks_for, OS8_BLOCK_SIZE.
    replace (Z.of_nat (List.length input))
      with (2 * Z.of_nat (List.length hw)) by lia.
    Z.to_euclidean_division_equations; lia. }
  unfold copy_os8_image_file. rewrite Hlook.
  unfold stream_os8_image_file. rewrite Hlen, Hfb, <- Ek.
  rewrite (stream_os8_loop_blocks img' blocks); [|lia|lia|lia|].
  - cbn [app]. rewrite Hcat, fwrite_words_app, fwrite_words_zeros.
    fold hw. unfold hw at 1. rewrite (fwrite_host_words input HB HE).
    unfold zero_padded. rewrite <- Ek. do 3 f_equal.
    unfold OS8_BLOCK_SIZE. f_equal. lia.
  - intros j Hj. specialize (Hread j Hj).
    rewrite Z.add_0_r in Hread. exact Hread.
Qed.

End Device.

(** The number of blocks that [stream_host_image_file] hands to
    [enter_os8_file]. *)
Lemma stream_host_loop_count (write_block : block_writer) (e : entry_t)
  (fuel : nat) :
  forall img input block_no img' block_no',
    stream_host_loop fuel write_block img input e block_no
      = Some (Some (img', block_no')) ->
    block_no' = block_no
                + (Z.of_nat (List.length (host_words input)) + 255) / 256.
Proof.
  induction fuel as [|fuel IH]; intros img input bn img' bn' Hrun;
    [discriminate|].
  cbn [stream_host_loop] in Hrun.
  rewrite fread_words_host_words in Hrun.
  change (Z.to_nat OS8_BLOCK_SIZE) with 256%nat in Hrun.
  set (hw := host_words input) in *.
  assert (Lws : List.length (firstn 256 hw) = Nat.min 256 (List.length hw))
    by apply length_firstn.
  destruct (Z.of_nat (List.length (firstn 256 hw)) >? 0) eqn:Hcnt; zbool.
  - destruct (e_length e <=? bn); [discriminate|].
    destruct (write_block img (file_block e + bn) _) as [img1|];
      [|discriminate].
    apply IH in Hrun. rewrite host_words_skipn in Hrun. fold hw in Hrun.
    rewrite length_skipn in Hrun. rewrite Hrun.
    destruct (Nat.le_gt_cases 256 (List.length hw)) as [Hge|Hlt].
    + rewrite Nat2Z.inj_sub by exact Hge. change (Z.of_nat 256) with 256.
      Z.to_euclidean_division_equations; lia.
    + replace (List.length hw - 256)%nat with 0%nat by lia.
      change (Z.of_nat 0) with 0.
      Z.to_euclidean_division_equations; lia.
  - inversion Hrun; subst img' bn'.
    assert (E0 : List.length hw = 0%nat) by lia.
    rewrite E0. cbn. lia.
Qed.

Lemma copy_entered (write_block : block_writer) (fuel : nat) (img : image)
  (input : list Z) (d : directory_t) (outputname : string)
  (d1 : directory_t) (e : entry_t) (d' : directory_t) (img' : image) :
  Nat.even (List.length input) = true ->
  allocate_os8_file fuel outputname
    (((Z.of_nat (List.length input) + (OS8_BLOCK_SIZE - 1) * 2) mod 2 ^ 32)
     / (OS8_BLOCK_SIZE * 2)) d entry_zero = Some (true, d1, e) ->
  stream_host_image_file fuel write_block img input d outputname
      (Z.of_nat (List.length input)) = Some (true, d', img') ->
  enter_os8_file fuel outputname (blocks_for (Z.of_nat (List.length input)))
                 d1 e = Some (true, d').
Proof.
  intros HE Halloc Hcopy.
  unfold stream_host_image_file in Hcopy. rewrite Halloc in Hcopy.
  destruct (stream_host_loop fuel write_block img input e 0)
    as [[[img1 block_no]|]|] eqn:Hloop; try discriminate.
  apply stream_host_loop_count in Hloop.
  pose proof (length_host_words input HE) as Lhw.
  assert (Ek : block_no = blocks_for (Z.of_nat (List.length input))).
  { rewrite Hloop. unfold blocks_for, OS8_BLOCK_SIZE.
    replace (Z.of_nat (List.length input))
      with (2 * Z.of_nat (List.length (host_words input))) by lia.
    Z.to_euclidean_division_equations; lia. }
  rewrite Ek in Hcopy.
  destruct (enter_os8_file fuel outputname _ d1 e) as [[ok d2]|];
    [|discriminate].
  congruence.
Qed.

Lemma dsk_write_then_read (img : image) (n : Z) (b : list Z) (img' : image) :
  List.length b = 256%nat -> Forall word12 b ->
  write_dsk_block img n b = Some img' -> read_dsk_block img' n = Some b.
Proof.
  intros L W Hw.
  destruct (dsk_write_read img n b L W) as (img2 & E & R).
  congruence.
Qed.

Lemma dsk_write_keeps_lower (img : image) (n m : Z) (b : list Z)
  (img' : image) (x : list Z) :
  0 <= n < m -> List.length b = 256%nat ->
  write_dsk_block img m b = Some img' ->
  read_dsk_block img n = Some x -> read_dsk_block img' n = Some x.
Proof.
  intros Hn _ Hw Hr. unfold write_dsk_block in Hw.
  destruct (words_to_bytes b) as [bs|]; [|discriminate].
  inversion Hw; subst img'. clear Hw.
  unfold read_dsk_block in *. unfold OS8_BLOCK_SIZE in *.
  change (Z.to_nat (256 * 2)) with 512%nat in *.
  destruct (List.length (pread img 512 (Z.to_nat (n * 256 * 2))) =? 512)%nat
    eqn:E; [|discriminate].
  apply Nat.eqb_eq in E.
  assert (Hc : (0 < 512)%nat) by lia.
  pose proof (pread_length_full _ _ _ Hc E) as Hfull.
  rewrite pread_pwrite_before by lia.
  rewrite E. cbn [Nat.eqb]. exact Hr.
Qed.


(** A host file with a word of 4096 is refused by the block writer, and
    a host file of one byte gets an entry of no blocks that [lookup]
    passes over. *)
Example copy_rejects_wide_word :
  option_map (fun r => fst (fst r))
    (stream_host_image_file 100 write_dsk_block [] [0; 16] fresh_directory
       "wide.bn" 2) = Some false
  /\ match stream_host_image_file 100 write_dsk_block [] [5] fresh_directory
            "one.bn" 1 with
     | Some (ok, d, img) =>
         (ok, copy_os8_image_file 100 read_dsk_block img d "one.bn")
     | None => (false, None)
     end = (true, Some None).
Proof. vm_compute. split; reflexivity. Qed.


(** * A new file in a settled directory *)

(** ** The cursor walk *)

Lemma valid_entry_mono (f : nat) :
  forall d c r f', valid_entry f d c = Some r -> (f <= f')%nat ->
                   valid_entry f' d c = Some r.
Proof.
  induction f as [|f IH]; intros d c r f' E Hf; [discriminate|].
  destruct f' as [|f']; [lia|].
  cbn [valid_entry] in *.
  destruct (overflowed_segment d c); [|exact E].
  destruct (next_segment d (c_dir_block c) =? 0); [exact E|].
  destruct (next_segment d (c_dir_block c) >? DIR_LENGTH); [discriminate|].
  apply IH; [exact E|lia].
Qed.

Lemma valid_entry_det (f f' : nat) (d : directory_t) (c : cursor_t)
  (r r' : bool * cursor_t) :
  valid_entry f d c = Some r -> valid_entry f' d c = Some r' -> r = r'.
Proof.
  intros E E'.
  apply (valid_entry_mono f d c r (Nat.max f f')) in E; [|lia].
  apply (valid_entry_mono f' d c r' (Nat.max f f')) in E'; [|lia].
  congruence.
Qed.

Lemma valid_entry_here (f : nat) (d : directory_t) (c : cursor_t) :
  overflowed_segment d c = false -> valid_entry (S f) d c = Some (true, c).
Proof. intros H. cbn [valid_entry]. rewrite H. reflexivity. Qed.

Lemma valid_entry_true (f : nat) :
  forall d c c1, valid_entry f d c = Some (true, c1) ->
                 overflowed_segment d c1 = false.
Proof.
  induction f as [|f IH]; intros d c c1 E; [discriminate|].
  cbn [valid_entry] in E.
  destruct (overflowed_segment d c) eqn:Ho.
  - destruct (next_segment d (c_dir_block c) =? 0); [discriminate|].
    destruct (next_segment d (c_dir_block c) >? DIR_LENGTH); [discriminate|].
    eapply IH; exact E.
  - congruence.
Qed.

(** ** What [peek_entry] reads *)

Lemma empty_file_peek (d : directory_t) (c : cursor_t) (old : entry_t) :
  empty_file (peek_entry d c old) = (word d (c_dir_block c) (c_entry c) =? 0).
Proof. unfold peek_entry. now destruct (word d (c_dir_block c) (c_entry c) =? 0). Qed.

Lemma e_length_peek (d : directory_t) (c : cursor_t) (old : entry_t) :
  e_length (peek_entry d c old) =
  if word d (c_dir_block c) (c_entry c) =? 0
  then u16 (negate (word d (c_dir_block c) (c_entry c + 1)))
  else u16 (negate (word d (c_dir_block c)
                      (c_entry c + 4
                       + u16 (negate (additional_words d (c_dir_block c)))))).
Proof. unfold peek_entry. now destruct (word d (c_dir_block c) (c_entry c) =? 0). Qed.

Lemma name_peek (d : directory_t) (c : cursor_t) (old : entry_t) :
  empty_file (peek_entry d c old) = false ->
  name (peek_entry d c old) = words_at d (c_dir_block c) (c_entry c) 4.
Proof.
  unfold peek_entry.
  destruct (word d (c_dir_block c) (c_entry c) =? 0); [discriminate|reflexivity].
Qed.

Lemma place_peek (d : directory_t) (c : cursor_t) (old : entry_t) :
  entry (peek_entry d c old) = c_entry c
  /\ file_block (peek_entry d c old) = c_next_block c
  /\ file_number (peek_entry d c old) = c_file_number c.
Proof.
  unfold peek_entry.
  destruct (word d (c_dir_block c) (c_entry c) =? 0); cbn; auto.
Qed.

Lemma entry_length_peek (d : directory_t) (c : cursor_t) (old : entry_t) :
  entry_length d (peek_entry d c old) =
  if word d (c_dir_block c) (c_entry c) =? 0 then empty_entry_length
  else file_entry_length d (c_dir_block c).
Proof.
  unfold entry_length. rewrite empty_file_peek, dir_block_peek_entry.
  reflexivity.
Qed.

Lemma get_entry_step (d : directory_t) (c : cursor_t) (old : entry_t) :
  get_entry d c old = (step d c, peek_entry d c old).
Proof.
  unfold step, get_entry. cbn [fst]. unfold advance_cursor.
  rewrite !e_length_peek, !entry_length_peek. reflexivity.
Qed.

Lemma step_fields (d : directory_t) (c : cursor_t) :
  step d c =
  mk_cursor (u16 (c_file_number c + 1))
            (u16 (c_next_block c + e_length (peek_entry d c entry_zero)))
            (c_entry c + entry_length d (peek_entry d c entry_zero))
            (c_dir_block c).
Proof. reflexivity. Qed.

Lemma idle_at_eq (d : directory_t) (c : cursor_t) :
  idle_at d c =
  negb (empty_file (peek_entry d c entry_zero)
        && ((e_length (peek_entry d c entry_zero) =? 0)
            || (negb (overflowed_segment d (step d c))
                && empty_file (peek_entry d (step d c) entry_zero)))).
Proof. unfold idle_at. rewrite get_entry_step. reflexivity. Qed.

(** ** Cursors within a segment *)

Lemma reach_trans (d : directory_t) (a b c : cursor_t) :
  reach d a b -> reach d b c -> reach d a c.
Proof.
  induction 1 as [|a b Ho _ IH]; [auto|].
  intros H. apply reach_step; [exact Ho|]. apply IH, H.
Qed.

Lemma reach_snoc (d : directory_t) (a b : cursor_t) :
  reach d a b -> overflowed_segment d b = false -> reach d a (step d b).
Proof.
  intros H Ho. apply (reach_trans d a b); [exact H|].
  apply reach_step; [exact Ho|apply reach_here].
Qed.

Lemma reach_dir_block (d : directory_t) (a b : cursor_t) :
  reach d a b -> c_dir_block b = c_dir_block a.
Proof.
  induction 1 as [|a b _ _ IH]; [reflexivity|].
  rewrite IH. reflexivity.
Qed.

Lemma reach_entry (d : directory_t) (a b : cursor_t) :
  reach d a b -> c_entry a <= c_entry b.
Proof.
  induction 1 as [|a b _ _ IH]; [lia|].
  rewrite step_fields in IH. cbn [c_entry] in IH.
  pose proof (entry_length_nonneg d (peek_entry d a entry_zero)). lia.
Qed.

(** A cursor strictly before [b] holds an entry that ends at or before
    [b]. *)
Lemma reach_before (d : directory_t) (a b : cursor_t) :
  reach d a b -> a <> b ->
  overflowed_segment d a = false
  /\ reach d (step d a) b
  /\ c_entry a + entry_length d (peek_entry d a entry_zero) <= c_entry b.
Proof.
  intros H Hne. destruct H as [|a b Ho H]; [congruence|].
  split; [exact Ho|]. split; [exact H|].
  apply reach_entry in H. rewrite step_fields in H. exact H.
Qed.

Lemma reach_linear (d : directory_t) (s a b : cursor_t) :
  reach d s a -> reach d s b -> reach d a b \/ reach d b a.
Proof.
  intros Ha. revert b. induction Ha as [|s a Ho Ha IH]; intros b Hb.
  - left. exact Hb.
  - destruct Hb as [|s b _ Hb].
    + right. apply reach_step; assumption.
    + apply IH, Hb.
Qed.

Lemma cursor_eq_dec (a b : cursor_t) : {a = b} + {a <> b}.
Proof. decide equality; apply Z.eq_dec. Qed.

Lemma negate_count (w : Z) : word12 w -> 0 <= negate w < 4096.
Proof. intros H. apply negate_word12, H. Qed.

Lemma word12_rd (l : list Z) (off : Z) : Forall word12 l -> word12 (rd l off).
Proof.
  intros H. unfold rd. destruct (off <? 0); [unfold word12; lia|].
  destruct (Nat.lt_ge_cases (Z.to_nat off) (List.length l)) as [Hlt|Hge].
  - rewrite Forall_forall in H. apply H, nth_In, Hlt.
  - rewrite nth_overflow by exact Hge. unfold word12. lia.
Qed.

Lemma word12_word (d : directory_t) (i off : Z) :
  words12 d -> word12 (word d i off).
Proof. intros H. apply word12_rd, H. Qed.

Lemma words12b_spec (d : directory_t) : words12b d = true -> words12 d.
Proof.
  intros H i. unfold words12b in H. rewrite forallb_forall in H.
  unfold seg. destruct (i <? 0); [constructor|].
  destruct (Nat.lt_ge_cases (Z.to_nat i) (List.length d)) as [Hlt|Hge].
  - apply Forall_word12b, H, nth_In, Hlt.
  - rewrite nth_overflow by exact Hge. constructor.
Qed.

Lemma overflowed_count (d : directory_t) (c : cursor_t) :
  words12 d -> overflowed_segment d c = false -> c_file_number c <= 4095.
Proof.
  intros W Ho. unfold overflowed_segment in Ho. zbool.
  pose proof (negate_count _ (word12_word d (c_dir_block c) 0 W)) as H.
  unfold number_files in Ho. lia.
Qed.

Lemma reach_file_number (d : directory_t) (a b : cursor_t) :
  words12 d -> reach d a b -> 1 <= c_file_number a ->
  c_file_number a <= c_file_number b.
Proof.
  intros W H. induction H as [|a b Ho _ IH]; intros Ha; [lia|].
  pose proof (overflowed_count d a W Ho) as Hc.
  rewrite step_fields in IH. cbn [c_file_number] in IH.
  rewrite u16_small in IH by lia. lia.
Qed.

(** ** The end of the used words of a segment *)

Lemma last_entry_after (n : nat) :
  forall d c acc last,
    get_last_entry_loop n d c acc = Some last ->
    acc = Some last \/ c_entry c <= entry last.
Proof.
  induction n as [|n IH]; intros d c acc last E; [left; exact E|].
  cbn [get_last_entry_loop] in E.
  destruct (overflowed_segment d c); [left; exact E|].
  rewrite get_entry_step in E. right.
  destruct (IH _ _ _ _ E) as [H|H].
  - injection H as <-. destruct (place_peek d c
      (match acc with Some x => x | None => entry_zero end)) as (-> & _). lia.
  - rewrite step_fields in H. cbn [c_entry] in H.
    pose proof (entry_length_nonneg d (peek_entry d c entry_zero)). lia.
Qed.

Lemma last_entry_tiles (d : directory_t) (a x : cursor_t) :
  words12 d -> reach d a x ->
  forall n acc last,
    overflowed_segment d x = false ->
    1 <= c_file_number a ->
    c_file_number x - c_file_number a < Z.of_nat n ->
    get_last_entry_loop n d a acc = Some last ->
    c_entry x + entry_length d (peek_entry d x entry_zero)
      <= entry last + entry_length d last.
Proof.
  intros W H. induction H as [x|a x Ho H IH]; intros n acc last Hx Ha Hn E.
  - destruct n as [|n]; [lia|].
    cbn [get_last_entry_loop] in E. rewrite Hx, get_entry_step in E.
    destruct (last_entry_after _ _ _ _ _ E) as [Hl|Hl].
    + injection Hl as <-.
      destruct (place_peek d x
        (match acc with Some y => y | None => entry_zero end)) as (-> & _).
      rewrite !entry_length_peek. lia.
    + rewrite step_fields in Hl. cbn [c_entry] in Hl.
      pose proof (entry_length_nonneg d last). lia.
  - pose proof (overflowed_count d a W Ho) as Hc.
    assert (Hfx : c_file_number a + 1 <= c_file_number x).
    { pose proof (reach_file_number d _ _ W H) as Hf.
      rewrite step_fields in Hf. cbn [c_file_number] in Hf.
      rewrite u16_small in Hf by lia. lia. }
    destruct n as [|n]; [lia|].
    cbn [get_last_entry_loop] in E. rewrite Ho, get_entry_step in E.
    eapply (IH n); [exact Hx| | |exact E];
      rewrite step_fields; cbn [c_file_number]; rewrite u16_small by lia; lia.
Qed.

Lemma unused_ptr_tiles (d : directory_t) (i mf ptr : Z) (x : cursor_t) :
  words12 d -> get_unused_ptr d i mf = Some (Some ptr) ->
  reach d (seg_start d i) x -> overflowed_segment d x = false ->
  c_entry x + entry_length d (peek_entry d x entry_zero) <= ptr
  /\ ptr + mf < OS8_BLOCK_SIZE.
Proof.
  intros W E H Hx. unfold get_unused_ptr in E.
  destruct (get_last_entry d i) as [last|] eqn:El; [|discriminate].
  destruct (entry last + entry_length d last + mf <? OS8_BLOCK_SIZE) eqn:Hr;
    [|discriminate].
  injection E as <-. zbool. split; [|exact Hr].
  unfold get_last_entry in El.
  apply (last_entry_tiles d _ x W H 4096%nat None last Hx); [cbn; lia| |exact El].
  pose proof (overflowed_count d x W Hx). cbn [seg_start c_file_number]. lia.
Qed.

(** ** Words after the operations of [enter] *)

Lemma shuffle_up_loop_inside (n : nat) :
  forall l src dst q,
    src < dst -> dst < Z.of_nat (List.length l) ->
    0 <= src - Z.of_nat n + 1 ->
    dst - Z.of_nat n < q <= dst ->
    rd (shuffle_up_loop n l src dst) q = rd l (q - (dst - src)).
Proof.
  induction n as [|n IH]; intros l src dst q Hsd Hlen Hsrc Hq; [lia|].
  cbn [shuffle_up_loop].
  destruct (Z.eq_dec q dst) as [->|Hne].
  - rewrite shuffle_up_loop_outside by lia.
    rewrite rd_wr_same by lia. f_equal. lia.
  - rewrite IH; [| lia | rewrite length_wr; lia | lia | lia].
    rewrite rd_wr_other by lia. f_equal. lia.
Qed.

Ltac ztest :=
  repeat match goal with
         | |- context [?a =? ?b] =>
             first [ replace (a =? b) with true
                       by (symmetry; apply Z.eqb_eq; lia)
                   | replace (a =? b) with false
                       by (symmetry; apply Z.eqb_neq; lia) ]
         | |- context [?a <=? ?b] =>
             first [ replace (a <=? b) with true
                       by (symmetry; apply Z.leb_le; lia)
                   | replace (a <=? b) with false
                       by (symmetry; apply Z.leb_gt; lia) ]
         | |- context [?a <? ?b] =>
             first [ replace (a <? b) with true
                       by (symmetry; apply Z.ltb_lt; lia)
                   | replace (a <? b) with false
                       by (symmetry; apply Z.ltb_ge; lia) ]
         end; cbn [andb orb negb].

Lemma word_poke_list (ws : list Z) :
  forall d i off j q,
    0 <= off ->
    off + Z.of_nat (List.length ws)
      <= Z.of_nat (List.length (data (seg d i))) ->
    word (poke_list d i off ws) j q =
    if (i =? j) && (off <=? q) && (q <? off + Z.of_nat (List.length ws))
    then u16 (nth (Z.to_nat (q - off)) ws 0)
    else word d j q.
Proof.
  induction ws as [|w ws IH]; intros d i off j q H0 Hlen.
  - cbn [poke_list List.length].
    destruct (i =? j); cbn [andb]; [|reflexivity].
    destruct (off <=? q) eqn:E; cbn [andb]; [|reflexivity].
    zbool. now ztest.
  - cbn [poke_list List.length] in *.
    rewrite IH; [|lia|rewrite length_data_poke; lia].
    rewrite word_poke.
    destruct (Z.eq_dec i j) as [<-|Hij].
    + rewrite Z.eqb_refl. cbn [andb].
      destruct (Z.eq_dec q off) as [->|Hq].
      * ztest. rewrite Z.sub_diag. reflexivity.
      * destruct (Z_lt_le_dec q off) as [Hlt|Hge].
        -- now ztest.
        -- destruct (Z_lt_le_dec q (off + Z.of_nat (S (List.length ws))))
             as [Hin|Hout].
           ++ ztest.
              replace (Z.to_nat (q - off)) with (S (Z.to_nat (q - (off + 1))))
                by lia.
              reflexivity.
           ++ now ztest.
    + replace (i =? j) with false by (symmetry; apply Z.eqb_neq; exact Hij).
      reflexivity.
Qed.

Lemma word_bump_number_files (d : directory_t) (i amount j q : Z) :
  0 < Z.of_nat (List.length (data (seg d i))) ->
  word (bump_number_files d i amount) j q =
  if (i =? j) && (q =? 0) then u16 (word d i 0 - amount) else word d j q.
Proof.
  intros Hlen. unfold bump_number_files, number_files.
  rewrite word_poke, data_mark_dirty, !word_mark_dirty.
  destruct (i =? j); cbn [andb]; [|reflexivity].
  destruct (Z.eq_dec q 0) as [->|Hq]; now ztest.
Qed.

Lemma word_fix_segment_up (d : directory_t) (e : entry_t) (offset ptr q : Z) :
  shape d -> 0 <= dir_block e < 6 ->
  0 <= entry e <= ptr -> 0 < offset -> 3 < entry e + offset ->
  ptr + offset < 256 -> q <> 3 ->
  word (fix_segment_up d e offset ptr) (dir_block e) q =
  if (entry e + offset <=? q) && (q <=? ptr + offset)
  then word d (dir_block e) (q - offset)
  else word d (dir_block e) q.
Proof.
  intros Sh Hi Hp Ho H3 Hr Hq.
  assert (Hin : 0 <= dir_block e < Z.of_nat (List.length d))
    by (apply (shape_in_range d _ Sh), Hi).
  assert (Hlen : List.length (data (seg d (dir_block e))) = 256%nat)
    by (apply Sh, Hi).
  assert (E : word (set_data d (dir_block e)
                      (shuffle_words_up (data (seg d (dir_block e))) ptr
                         (ptr + offset) (entry e))) (dir_block e) q
              = if (entry e + offset <=? q) && (q <=? ptr + offset)
                then word d (dir_block e) (q - offset)
                else word d (dir_block e) q).
  { rewrite word_set_data_same by exact Hin. unfold shuffle_words_up, word.
    destruct (Z_lt_le_dec q (entry e + offset)) as [Hlt|Hge].
    - ztest. apply shuffle_up_loop_outside. lia.
    - destruct (Z_lt_le_dec (ptr + offset) q) as [Hgt|Hle].
      + ztest. apply shuffle_up_loop_outside. lia.
      + ztest. rewrite shuffle_up_loop_inside by lia. f_equal. lia. }
  unfold fix_segment_up.
  match goal with |- context [if ?b then _ else _] => destruct b end.
  - rewrite word_poke_miss by (right; lia). exact E.
  - exact E.
Qed.

Lemma nth_map_seq (f : nat -> Z) (n t : nat) :
  (t < n)%nat -> nth t (map f (seq 0 n)) 0 = f t.
Proof.
  intros H. rewrite (nth_indep _ 0 (f 0%nat)) by (rewrite length_map, length_seq; exact H).
  rewrite (map_nth f (seq 0 n) 0%nat t), seq_nth by exact H. reflexivity.
Qed.

Lemma word_put_entry_file (d : directory_t) (e : entry_t) (q : Z) :
  empty_file e = false -> 0 <= entry e ->
  0 <= additional_count e <= 10 ->
  entry e + 4 + additional_count e
    < Z.of_nat (List.length (data (seg d (dir_block e)))) ->
  word (put_entry d e) (dir_block e) q =
  if q =? entry e + 4 + additional_count e then u16 (negate (e_length e))
  else if (entry e + 4 <=? q) && (q <? entry e + 4 + additional_count e)
  then u16 (nth (Z.to_nat (q - (entry e + 4))) (e_additional_words e) 0)
  else if (entry e <=? q) && (q <? entry e + 4)
  then u16 (nth (Z.to_nat (q - entry e)) (name e) 0)
  else word d (dir_block e) q.
Proof.
  intros He H0 Hc Hlen. unfold put_entry. rewrite He.
  replace (Z.min 10 (additional_count e)) with (additional_count e) by lia.
  set (i := dir_block e) in *. set (p := entry e) in *.
  set (cnt := additional_count e) in *.
  assert (L0 : List.length (data (seg (mark_dirty d i) i))
               = List.length (data (seg d i)))
    by (rewrite data_mark_dirty; reflexivity).
  assert (L1 : forall ws d0 off,
             List.length (data (seg (poke_list d0 i off ws) i))
             = List.length (data (seg d0 i))).
  { induction ws as [|w ws IH]; intros d0 off; cbn [poke_list]; [reflexivity|].
    rewrite IH. apply length_data_poke. }
  rewrite word_poke.
  rewrite word_poke_list;
    [|lia|rewrite L1, L0, length_map, length_seq; lia].
  rewrite word_poke_list;
    [|lia|rewrite L0, length_map, length_seq; cbn; lia].
  rewrite word_mark_dirty.
  rewrite !length_map, !length_seq. rewrite Z2Nat.id by lia.
  rewrite Z.eqb_refl. cbn [andb].
  change (Z.of_nat 4) with 4.
  destruct (Z.eq_dec q (p + 4 + cnt)) as [->|Hq].
  - rewrite !L1, L0.
    now ztest.
  - replace (p + 4 + cnt =? q) with false by (symmetry; apply Z.eqb_neq; lia).
    replace (q =? p + 4 + cnt) with false by (symmetry; apply Z.eqb_neq; lia).
    cbn [andb].
    destruct ((p + 4 <=? q) && (q <? p + 4 + cnt)) eqn:E1.
    + zbool. rewrite nth_map_seq by lia. reflexivity.
    + destruct ((p <=? q) && (q <? p + 4)) eqn:E2; [|reflexivity].
      zbool. rewrite nth_map_seq by lia. reflexivity.
Qed.

Section Entered.

Variable d : directory_t.
Variable e : entry_t.
Variable filename : string.
Variables k ptr : Z.

Hypothesis Sh : shape d.
Hypothesis W : words12 d.
Hypothesis Hi : 0 <= dir_block e < 6.
Hypothesis Hp : 5 <= entry e.
Hypothesis Hcnt : negate (additional_words d (dir_block e)) < 10.
Hypothesis Hptr : entry e + 2 <= ptr.
Hypothesis Hroom : ptr + file_entry_length d (dir_block e) + 2 < 256.
Hypothesis Hempty : word d (dir_block e) (entry e) = 0.
Hypothesis Hk :
  0 <= k <= u16 (negate (word d (dir_block e) (entry e + 1))).

Lemma entry_width :
  file_entry_length d (dir_block e)
    = 5 + negate (additional_words d (dir_block e))
  /\ 0 <= negate (additional_words d (dir_block e)) <= 9.
Proof.
  pose proof (word12_word d (dir_block e) 4 W) as Ha.
  destruct (file_entry_length_word12 d (dir_block e) Ha) as [E _].
  pose proof (negate_count _ Ha). unfold additional_words in *. lia.
Qed.

Lemma opened_shape :
  shape (enter_opened (file_entry_length d (dir_block e)) d e ptr).
Proof.
  unfold enter_opened. apply bump_number_files_spec, fix_segment_up_spec, Sh.
Qed.

Lemma opened_other (j : Z) :
  j <> dir_block e ->
  seg (enter_opened (file_entry_length d (dir_block e)) d e ptr) j = seg d j.
Proof.
  intros Hj. unfold enter_opened.
  destruct (fix_segment_up_spec d e (file_entry_length d (dir_block e)) ptr Sh)
    as [Sh1 T1].
  destruct (bump_number_files_spec _ (dir_block e) 1 Sh1) as (_ & T2 & _).
  rewrite T2 by exact Hj. apply T1, Hj.
Qed.

Lemma opened_word (q : Z) :
  q <> 3 ->
  word (enter_opened (file_entry_length d (dir_block e)) d e ptr)
       (dir_block e) q =
  if q =? 0 then u16 (word d (dir_block e) 0 - 1)
  else if (entry e + file_entry_length d (dir_block e) <=? q)
          && (q <=? ptr + file_entry_length d (dir_block e))
       then word d (dir_block e) (q - file_entry_length d (dir_block e))
       else word d (dir_block e) q.
Proof.
  intros Hq. destruct entry_width as [Eel Hc].
  unfold enter_opened.
  destruct (fix_segment_up_spec d e (file_entry_length d (dir_block e)) ptr Sh)
    as [Sh1 _].
  rewrite word_bump_number_files
    by (destruct Sh1 as [_ L]; rewrite (L _ Hi); lia).
  rewrite Z.eqb_refl. cbn [andb].
  destruct (Z.eq_dec q 0) as [->|H0].
  - rewrite Z.eqb_refl. rewrite word_fix_segment_up by (assumption || lia).
    now ztest.
  - replace (q =? 0) with false by (symmetry; apply Z.eqb_neq; exact H0).
    apply word_fix_segment_up; assumption || lia.
Qed.

Lemma file_entry_fields :
  empty_file (enter_file_entry filename k
     (enter_opened (file_entry_length d (dir_block e)) d e ptr) e) = false
  /\ name (enter_file_entry filename k
     (enter_opened (file_entry_length d (dir_block e)) d e ptr) e)
     = build_sixbit filename
  /\ dir_block (enter_file_entry filename k
     (enter_opened (file_entry_length d (dir_block e)) d e ptr) e)
     = dir_block e
  /\ entry (enter_file_entry filename k
     (enter_opened (file_entry_length d (dir_block e)) d e ptr) e) = entry e
  /\ file_block (enter_file_entry filename k
     (enter_opened (file_entry_length d (dir_block e)) d e ptr) e)
     = file_block e
  /\ file_number (enter_file_entry filename k
     (enter_opened (file_entry_length d (dir_block e)) d e ptr) e)
     = file_number e
  /\ e_length (enter_file_entry filename k
     (enter_opened (file_entry_length d (dir_block e)) d e ptr) e) = u16 k
  /\ additional_count (enter_file_entry filename k
     (enter_opened (file_entry_length d (dir_block e)) d e ptr) e)
     = negate (additional_words d (dir_block e)).
Proof.
  destruct entry_width as [Eel Hc].
  unfold enter_file_entry, set_file.
  cbn [empty_file name dir_block entry file_block file_number e_length
       additional_count].
  repeat split. unfold additional_words at 1.
  rewrite opened_word by lia. ztest.
  apply u16_small. unfold additional_words in *. lia.
Qed.

Lemma named_word (q : Z) :
  q <> 3 ->
  word (put_entry
          (enter_opened (file_entry_length d (dir_block e)) d e ptr)
          (enter_file_entry filename k
             (enter_opened (file_entry_length d (dir_block e)) d e ptr) e))
       (dir_block e) q =
  if q =? entry e + 4 + negate (additional_words d (dir_block e))
  then u16 (negate (u16 k))
  else if (entry e + 4 <=? q)
          && (q <? entry e + 4 + negate (additional_words d (dir_block e)))
  then 0
  else if (entry e <=? q) && (q <? entry e + 4)
  then u16 (nth (Z.to_nat (q - entry e)) (build_sixbit filename) 0)
  else word (enter_opened (file_entry_length d (dir_block e)) d e ptr)
            (dir_block e) q.
Proof.
  intros Hq. destruct entry_width as [Eel Hc].
  pose proof file_entry_fields as (F1 & F2 & F3 & F4 & _ & _ & F7 & F8).
  pose proof opened_shape as [_ L2].
  set (d2 := enter_opened (file_entry_length d (dir_block e)) d e ptr) in *.
  set (e1 := enter_file_entry filename k d2 e) in *.
  rewrite <- F3 at 1.
  rewrite word_put_entry_file;
    [| exact F1 | rewrite F4; lia | rewrite F8; lia
     | rewrite F3, F4, F8, (L2 _ Hi); lia ].
  rewrite F2, F3, F4, F7, F8.
  destruct (q =? entry e + 4 + negate (additional_words d (dir_block e)));
    [reflexivity|].
  destruct ((entry e + 4 <=? q)
            && (q <? entry e + 4 + negate (additional_words d (dir_block e))))
    eqn:E; [|reflexivity].
  zbool. unfold e1, enter_file_entry, set_file. cbn [e_additional_words].
  rewrite app_nth1.
  - rewrite nth_repeat. reflexivity.
  - rewrite repeat_length. unfold additional_words at 1.
    unfold d2. rewrite opened_word by lia. ztest.
    rewrite u16_small by (unfold additional_words in *; lia).
    unfold additional_words in *. lia.
Qed.

Lemma named_other (j : Z) :
  j <> dir_block e ->
  seg (put_entry
         (enter_opened (file_entry_length d (dir_block e)) d e ptr)
         (enter_file_entry filename k
            (enter_opened (file_entry_length d (dir_block e)) d e ptr) e)) j
  = seg d j.
Proof.
  intros Hj. pose proof file_entry_fields as (_ & _ & F3 & _).
  rewrite seg_put_entry_other by (rewrite F3; lia).
  apply opened_other, Hj.
Qed.

Lemma named_shape :
  shape (put_entry
           (enter_opened (file_entry_length d (dir_block e)) d e ptr)
           (enter_file_entry filename k
              (enter_opened (file_entry_length d (dir_block e)) d e ptr) e)).
Proof. apply put_entry_spec, opened_shape. Qed.

Lemma rest_entry_fields :
  empty_file (enter_rest_entry
     (put_entry (enter_opened (file_entry_length d (dir_block e)) d e ptr)
        (enter_file_entry filename k
           (enter_opened (file_entry_length d (dir_block e)) d e ptr) e))
     (enter_file_entry filename k
        (enter_opened (file_entry_length d (dir_block e)) d e ptr) e)) = true
  /\ dir_block (enter_rest_entry
     (put_entry (enter_opened (file_entry_length d (dir_block e)) d e ptr)
        (enter_file_entry filename k
           (enter_opened (file_entry_length d (dir_block e)) d e ptr) e))
     (enter_file_entry filename k
        (enter_opened (file_entry_length d (dir_block e)) d e ptr) e))
     = dir_block e
  /\ entry (enter_rest_entry
     (put_entry (enter_opened (file_entry_length d (dir_block e)) d e ptr)
        (enter_file_entry filename k
           (enter_opened (file_entry_length d (dir_block e)) d e ptr) e))
     (enter_file_entry filename k
        (enter_opened (file_entry_length d (dir_block e)) d e ptr) e))
     = entry e + file_entry_length d (dir_block e)
  /\ e_length (enter_rest_entry
     (put_entry (enter_opened (file_entry_length d (dir_block e)) d e ptr)
        (enter_file_entry filename k
           (enter_opened (file_entry_length d (dir_block e)) d e ptr) e))
     (enter_file_entry filename k
        (enter_opened (file_entry_length d (dir_block e)) d e ptr) e))
     = u16 (negate (word d (dir_block e) (entry e + 1))).
Proof.
  destruct entry_width as [Eel Hc].
  pose proof file_entry_fields as (F1 & F2 & F3 & F4 & _ & _ & F7 & F8).
  pose proof named_word as Hw.
  set (d2 := enter_opened (file_entry_length d (dir_block e)) d e ptr) in *.
  set (e1 := enter_file_entry filename k d2 e) in *.
  set (d3 := put_entry d2 e1) in *.
  assert (Ea : additional_words d3 (dir_block e)
               = additional_words d (dir_block e)).
  { unfold additional_words. rewrite Hw by lia. ztest.
    unfold d2. rewrite opened_word by lia. now ztest. }
  assert (El : entry_length d3 e1 = file_entry_length d (dir_block e)).
  { unfold entry_length. rewrite F1, F3. unfold file_entry_length.
    rewrite Ea. reflexivity. }
  unfold enter_rest_entry.
  set (c := advance_cursor d3 (restore_cursor (init_cursor d3) e1) e1).
  assert (Ec : c_dir_block c = dir_block e /\
               c_entry c = entry e + file_entry_length d (dir_block e)).
  { unfold c, advance_cursor, restore_cursor. cbn [c_dir_block c_entry].
    rewrite F3, F4, El. auto. }
  destruct Ec as [Ec1 Ec2].
  assert (E0 : word d3 (dir_block e) (c_entry c) = 0).
  { rewrite Ec2, Hw by lia. ztest.
    unfold d2. rewrite opened_word by lia. ztest.
    rewrite <- Hempty. f_equal. lia. }
  rewrite empty_file_peek, e_length_peek, dir_block_peek_entry.
  destruct (place_peek d3 c e1) as (-> & _).
  rewrite Ec1, E0. cbn [Z.eqb].
  split; [reflexivity|]. split; [reflexivity|]. split; [exact Ec2|].
  rewrite Ec2, Hw by lia. ztest.
  unfold d2. rewrite opened_word by lia. ztest.
  do 3 f_equal. lia.
Qed.

Lemma entered_word (q : Z) :
  q <> 3 ->
  word (entered_directory filename k (file_entry_length d (dir_block e))
          d e ptr) (dir_block e) q =
  if q =? entry e + file_entry_length d (dir_block e) then 0
  else if q =? entry e + file_entry_length d (dir_block e) + 1
  then u16 (negate (u16 (u16 (negate (word d (dir_block e) (entry e + 1)))
                         - k)))
  else word (put_entry
               (enter_opened (file_entry_length d (dir_block e)) d e ptr)
               (enter_file_entry filename k
                  (enter_opened (file_entry_length d (dir_block e)) d e ptr)
                  e))
            (dir_block e) q.
Proof.
  intros Hq. destruct entry_width as [Eel Hc].
  pose proof rest_entry_fields as (R1 & R2 & R3 & R4).
  pose proof named_shape as [_ L3].
  unfold entered_directory. cbv zeta.
  set (d2 := enter_opened (file_entry_length d (dir_block e)) d e ptr) in *.
  set (e1 := enter_file_entry filename k d2 e) in *.
  set (d3 := put_entry d2 e1) in *.
  set (e2 := enter_rest_entry d3 e1) in *.
  set (e3 := set_length e2 (u16 (e_length e2 - k))).
  assert (E1 : empty_file e3 = true) by exact R1.
  assert (E2 : dir_block e3 = dir_block e) by exact R2.
  assert (E3 : entry e3 = entry e + file_entry_length d (dir_block e))
    by exact R3.
  assert (E4 : e_length e3
               = u16 (u16 (negate (word d (dir_block e) (entry e + 1))) - k))
    by (unfold e3; cbn [set_length e_length]; rewrite R4; reflexivity).
  rewrite <- E2 at 1.
  rewrite word_put_entry_empty;
    [| exact E1 | rewrite E3; lia | rewrite E2, E3, (L3 _ Hi); lia ].
  rewrite E2, E3, E4. reflexivity.
Qed.

Lemma entered_other (j : Z) :
  j <> dir_block e ->
  seg (entered_directory filename k (file_entry_length d (dir_block e))
         d e ptr) j = seg d j.
Proof.
  intros Hj. pose proof rest_entry_fields as (_ & R2 & _).
  unfold entered_directory. cbv zeta.
  rewrite seg_put_entry_other by (cbn [set_length dir_block]; rewrite R2; lia).
  apply named_other, Hj.
Qed.

Lemma entered_words :
  word (entered_directory filename k (file_entry_length d (dir_block e))
          d e ptr) (dir_block e) 0 = u16 (word d (dir_block e) 0 - 1)
  /\ (forall q, 1 <= q < entry e -> q <> 3 ->
        word (entered_directory filename k (file_entry_length d (dir_block e))
                d e ptr) (dir_block e) q = word d (dir_block e) q)
  /\ (forall t, (t < 4)%nat ->
        word (entered_directory filename k (file_entry_length d (dir_block e))
                d e ptr) (dir_block e) (entry e + Z.of_nat t)
        = u16 (nth t (build_sixbit filename) 0))
  /\ word (entered_directory filename k (file_entry_length d (dir_block e))
             d e ptr) (dir_block e)
          (entry e + 4 + negate (additional_words d (dir_block e)))
     = u16 (negate (u16 k))
  /\ word (entered_directory filename k (file_entry_length d (dir_block e))
             d e ptr) (dir_block e)
          (entry e + file_entry_length d (dir_block e)) = 0
  /\ word (entered_directory filename k (file_entry_length d (dir_block e))
             d e ptr) (dir_block e)
          (entry e + file_entry_length d (dir_block e) + 1)
     = u16 (negate (u16 (u16 (negate (word d (dir_block e) (entry e + 1)))
                         - k)))
  /\ (forall q, entry e + 2 <= q <= ptr ->
        word (entered_directory filename k (file_entry_length d (dir_block e))
                d e ptr) (dir_block e)
             (q + file_entry_length d (dir_block e))
        = word d (dir_block e) q).
Proof.
  destruct entry_width as [Eel Hc].
  repeat split.
  - rewrite entered_word, named_word, opened_word by lia. now ztest.
  - intros q Hq H3. rewrite entered_word, named_word, opened_word by lia.
    now ztest.
  - intros t Ht. rewrite entered_word, named_word by lia. ztest.
    do 2 f_equal. lia.
  - rewrite entered_word, named_word by lia. now ztest.
  - rewrite entered_word by lia. now ztest.
  - rewrite entered_word by lia. now ztest.
  - intros q Hq. rewrite entered_word, named_word, opened_word by lia.
    ztest. f_equal. lia.
Qed.

End Entered.

(** ** The walk over the directory with the new entry *)

Section Inserted.

Variables d d4 : directory_t.
Variable ce : cursor_t.
Variable nm : list Z.
Variables k ptr : Z.

Hypothesis W : words12 d.
Hypothesis Hgrid : reach d (seg_start d (c_dir_block ce)) ce.
Hypothesis Hvalid : overflowed_segment d ce = false.
Hypothesis Hnf : number_files d (c_dir_block ce) <> 0.
Hypothesis Hcount : negate (number_files d (c_dir_block ce)) < 100.
Hypothesis Hcnt : negate (additional_words d (c_dir_block ce)) < 10.
Hypothesis Hempty : word d (c_dir_block ce) (c_entry ce) = 0.
Hypothesis Hk :
  0 < k <= u16 (negate (word d (c_dir_block ce) (c_entry ce + 1))).
Hypothesis Hptr :
  get_unused_ptr d (c_dir_block ce)
    (file_entry_length d (c_dir_block ce) + 2) = Some (Some ptr).
Hypothesis Hnm : u16 (nth 0 nm 0) <> 0.

Hypothesis H0 : forall j, j <> c_dir_block ce -> seg d4 j = seg d j.
Hypothesis H1 :
  word d4 (c_dir_block ce) 0 = u16 (word d (c_dir_block ce) 0 - 1).
Hypothesis H2 :
  forall q, 1 <= q < c_entry ce -> q <> 3 ->
            word d4 (c_dir_block ce) q = word d (c_dir_block ce) q.
Hypothesis H3 :
  forall t, (t < 4)%nat ->
            word d4 (c_dir_block ce) (c_entry ce + Z.of_nat t)
            = u16 (nth t nm 0).
Hypothesis H4 :
  word d4 (c_dir_block ce)
       (c_entry ce + 4 + negate (additional_words d (c_dir_block ce)))
  = u16 (negate (u16 k)).
Hypothesis H5 :
  word d4 (c_dir_block ce)
       (c_entry ce + file_entry_length d (c_dir_block ce)) = 0.
Hypothesis H6 :
  word d4 (c_dir_block ce)
       (c_entry ce + file_entry_length d (c_dir_block ce) + 1)
  = u16 (negate (u16 (u16 (negate (word d (c_dir_block ce) (c_entry ce + 1)))
                      - k))).
Hypothesis H7 :
  forall q, c_entry ce + 2 <= q <= ptr ->
            word d4 (c_dir_block ce)
                 (q + file_entry_length d (c_dir_block ce))
            = word d (c_dir_block ce) q.

Lemma ins_width :
  file_entry_length d (c_dir_block ce)
    = 5 + negate (additional_words d (c_dir_block ce))
  /\ 0 <= negate (additional_words d (c_dir_block ce)) <= 9.
Proof.
  pose proof (word12_word d (c_dir_block ce) 4 W) as Ha.
  destruct (file_entry_length_word12 d (c_dir_block ce) Ha) as [E _].
  pose proof (negate_count _ Ha). unfold additional_words in *. lia.
Qed.

Lemma ins_place : 5 <= c_entry ce /\ 1 <= c_file_number ce <= 4095.
Proof.
  pose proof (reach_entry _ _ _ Hgrid) as He.
  pose proof (reach_file_number _ _ _ W Hgrid) as Hf.
  pose proof (overflowed_count _ _ W Hvalid).
  cbn [seg_start c_entry c_file_number] in *. unfold file_entries in He. lia.
Qed.

Lemma ins_room :
  c_entry ce + 2 <= ptr
  /\ ptr + file_entry_length d (c_dir_block ce) + 2 < 256.
Proof.
  destruct (unused_ptr_tiles d _ _ _ ce W Hptr Hgrid Hvalid) as [Ht Hr].
  rewrite entry_length_peek, Hempty in Ht. cbn [Z.eqb] in Ht.
  unfold empty_entry_length, OS8_BLOCK_SIZE in *. lia.
Qed.

Lemma ins_length :
  0 <= u16 (negate (word d (c_dir_block ce) (c_entry ce + 1))) < 4096.
Proof.
  pose proof (negate_count _ (word12_word d (c_dir_block ce) (c_entry ce + 1) W)).
  rewrite u16_small by lia. lia.
Qed.

Lemma ins_count :
  negate (number_files d4 (c_dir_block ce))
  = negate (number_files d (c_dir_block ce)) + 1.
Proof.
  unfold number_files in *. rewrite H1.
  pose proof (word12_word d (c_dir_block ce) 0 W) as Hw. unfold word12 in Hw.
  set (nf := word d (c_dir_block ce) 0) in *.
  assert (En : negate nf = 4096 - nf).
  { unfold negate. rewrite Z.rem_small by lia. reflexivity. }
  rewrite En in *.
  rewrite u16_small by lia. unfold negate. rewrite Z.rem_small by lia. lia.
Qed.

Lemma ins_header (j : Z) :
  first_file_block d4 j = first_file_block d j
  /\ next_segment d4 j = next_segment d j
  /\ additional_words d4 j = additional_words d j.
Proof.
  destruct ins_place as [Hp _].
  unfold first_file_block, next_segment, additional_words.
  destruct (Z.eq_dec j (c_dir_block ce)) as [->|Hj].
  - rewrite !H2 by lia. auto.
  - unfold word. rewrite (H0 j Hj). auto.
Qed.

Lemma ins_file_entry_length (j : Z) :
  file_entry_length d4 j = file_entry_length d j.
Proof.
  unfold file_entry_length. destruct (ins_header j) as (_ & _ & ->).
  reflexivity.
Qed.

Lemma ins_seg_start (j : Z) : seg_start d4 j = seg_start d j.
Proof. unfold seg_start. destruct (ins_header j) as (-> & _). reflexivity. Qed.

Lemma ins_overflowed_other (c : cursor_t) :
  c_dir_block c <> c_dir_block ce ->
  overflowed_segment d4 c = overflowed_segment d c.
Proof.
  intros Hj. unfold overflowed_segment, number_files, word.
  rewrite (H0 _ Hj). reflexivity.
Qed.

Lemma ins_peek_other (c : cursor_t) (old : entry_t) :
  c_dir_block c <> c_dir_block ce ->
  peek_entry d4 c old = peek_entry d c old.
Proof.
  intros Hj. unfold peek_entry, additional_words, words_at, word.
  rewrite (H0 _ Hj). reflexivity.
Qed.

(** An entry that ends at or before the new one reads as before. *)
Lemma ins_peek_before (c : cursor_t) (old : entry_t) :
  c_dir_block c = c_dir_block ce -> 5 <= c_entry c ->
  c_entry c + entry_length d (peek_entry d c entry_zero) <= c_entry ce ->
  peek_entry d4 c old = peek_entry d c old.
Proof.
  intros Hj Hc Hend. destruct ins_width as [Eel Hcn].
  rewrite entry_length_peek in Hend.
  unfold peek_entry. rewrite Hj in *.
  destruct (ins_header (c_dir_block ce)) as (_ & _ & ->).
  pose proof (Z.eqb_spec (word d (c_dir_block ce) (c_entry c)) 0) as Hz.
  unfold empty_entry_length in Hend.
  rewrite (H2 (c_entry c)) by (destruct Hz; lia).
  destruct Hz as [Hz|Hz]; cbv iota.
  - rewrite (H2 (c_entry c + 1)) by lia. reflexivity.
  - rewrite Eel in Hend.
    rewrite (u16_small (negate (additional_words d (c_dir_block ce)))) by lia.
    rewrite (H2 (c_entry c + 4 + negate (additional_words d (c_dir_block ce))))
      by lia.
    f_equal.
    + unfold words_at. apply map_ext_in. intros t Ht. apply in_seq in Ht.
      apply H2; lia.
    + f_equal. unfold words_at. apply map_ext_in. intros t Ht.
      apply in_seq in Ht. apply H2; lia.
Qed.

Lemma ins_entry_length (e1 e2 : entry_t) :
  empty_file e1 = empty_file e2 -> dir_block e1 = dir_block e2 ->
  entry_length d4 e1 = entry_length d e2.
Proof.
  intros E1 E2. unfold entry_length.
  rewrite E1, E2, ins_file_entry_length. reflexivity.
Qed.

Lemma before_valid (c : cursor_t) :
  reach d (seg_start d (c_dir_block ce)) c -> reach d c ce ->
  overflowed_segment d c = false /\ overflowed_segment d4 c = false
  /\ c_dir_block c = c_dir_block ce /\ 5 <= c_entry c.
Proof.
  intros Hg Hr.
  pose proof (reach_dir_block _ _ _ Hg) as Hd. cbn [seg_start c_dir_block] in Hd.
  pose proof (reach_file_number _ _ _ W Hg) as Hf1.
  pose proof (reach_entry _ _ _ Hg) as He.
  cbn [seg_start c_file_number c_entry] in Hf1, He. unfold file_entries in He.
  pose proof (reach_file_number _ _ _ W Hr) as Hf2.
  assert (Ho : overflowed_segment d c = false).
  { destruct Hr; [exact Hvalid|assumption]. }
  split; [exact Ho|]. split; [|split; [exact Hd|lia]].
  pose proof Hvalid as Hv.
  unfold overflowed_segment in *. rewrite Hd, ins_count.
  zbool. rewrite Z.gtb_ltb. apply Z.ltb_ge. lia.
Qed.

Lemma step_before (c : cursor_t) (old : entry_t) :
  before d ce c -> c <> ce -> overflowed_segment d c = false ->
  peek_entry d4 c old = peek_entry d c old
  /\ step d4 c = step d c
  /\ before d ce (step d c).
Proof.
  intros Hb Hne Ho.
  assert (P : forall o, peek_entry d4 c o = peek_entry d c o).
  { intros o. destruct Hb as [Hj|[Hg Hr]].
    - apply ins_peek_other, Hj.
    - destruct (before_valid c Hg Hr) as (_ & _ & Hd & Hc).
      destruct (reach_before _ _ _ Hr Hne) as (_ & _ & Hend).
      apply ins_peek_before; assumption. }
  split; [apply P|]. split.
  - rewrite !step_fields, P.
    rewrite (ins_entry_length _ (peek_entry d c entry_zero)); reflexivity.
  - destruct Hb as [Hj|[Hg Hr]].
    + left. rewrite step_fields. exact Hj.
    + right. destruct (reach_before _ _ _ Hr Hne) as (_ & Hr' & _).
      split; [apply reach_snoc; assumption|exact Hr'].
Qed.

Lemma after_place (c : cursor_t) :
  after d ce c ->
  reach d (seg_start d (c_dir_block ce)) c
  /\ c_dir_block c = c_dir_block ce
  /\ c_entry ce + 2 <= c_entry c
  /\ 1 <= c_file_number c.
Proof.
  intros Ha. unfold after in Ha. destruct ins_place as [Hp Hf].
  assert (Hg : reach d (seg_start d (c_dir_block ce)) c).
  { apply (reach_trans d _ ce); [exact Hgrid|].
    apply reach_step; [exact Hvalid|exact Ha]. }
  split; [exact Hg|].
  pose proof (reach_dir_block _ _ _ Hg) as Hd.
  pose proof (reach_file_number _ _ _ W Hg) as Hf1.
  pose proof (reach_entry _ _ _ Ha) as He.
  rewrite step_fields, entry_length_peek, Hempty in He.
  cbn [seg_start c_dir_block c_file_number c_entry Z.eqb] in *.
  unfold empty_entry_length in He. split; [exact Hd|]. split; lia.
Qed.

Lemma after_overflowed (c : cursor_t) :
  after d ce c ->
  overflowed_segment d4 (shifted (file_entry_length d (c_dir_block ce)) c)
  = overflowed_segment d c.
Proof.
  intros Ha. destruct (after_place c Ha) as (_ & Hd & _).
  unfold overflowed_segment, shifted. cbn [c_file_number c_dir_block].
  rewrite Hd, ins_count. rewrite !Z.gtb_ltb.
  destruct (negate (number_files d (c_dir_block ce)) <? c_file_number c) eqn:E;
    zbool; [apply Z.ltb_lt|apply Z.ltb_ge]; lia.
Qed.

(** An entry behind the new one is read from its new place. *)
Lemma peek_after (c : cursor_t) (old old' : entry_t) :
  after d ce c -> overflowed_segment d c = false ->
  empty_file (peek_entry d4
                (shifted (file_entry_length d (c_dir_block ce)) c) old)
  = empty_file (peek_entry d c old')
  /\ e_length (peek_entry d4
                 (shifted (file_entry_length d (c_dir_block ce)) c) old)
     = e_length (peek_entry d c old').
Proof.
  intros Ha Ho. destruct (after_place c Ha) as (Hg & Hd & Hc & _).
  destruct ins_width as [Eel Hcn].
  destruct (unused_ptr_tiles d _ _ _ c W Hptr Hg Ho) as [Ht _].
  rewrite entry_length_peek, Hd in Ht.
  rewrite !empty_file_peek, !e_length_peek.
  unfold shifted. cbn [c_dir_block c_entry]. rewrite Hd.
  destruct (ins_header (c_dir_block ce)) as (_ & _ & ->).
  pose proof (Z.eqb_spec (word d (c_dir_block ce) (c_entry c)) 0) as Hz.
  unfold empty_entry_length in Ht.
  rewrite (H7 (c_entry c)) by (destruct Hz; lia).
  split; [reflexivity|].
  destruct Hz as [Hz|Hz].
  - replace (c_entry c + file_entry_length d (c_dir_block ce) + 1)
      with (c_entry c + 1 + file_entry_length d (c_dir_block ce)) by lia.
    rewrite H7 by lia. reflexivity.
  - rewrite (u16_small (negate (additional_words d (c_dir_block ce)))) by lia.
    replace (c_entry c + file_entry_length d (c_dir_block ce) + 4
             + negate (additional_words d (c_dir_block ce)))
      with (c_entry c + 4 + negate (additional_words d (c_dir_block ce))
            + file_entry_length d (c_dir_block ce)) by lia.
    rewrite H7 by lia. reflexivity.
Qed.

Lemma step_after (c : cursor_t) :
  after d ce c -> overflowed_segment d c = false ->
  step d4 (shifted (file_entry_length d (c_dir_block ce)) c)
  = shifted (file_entry_length d (c_dir_block ce)) (step d c)
  /\ after d ce (step d c).
Proof.
  intros Ha Ho. split; [|apply reach_snoc; assumption].
  destruct (after_place c Ha) as (_ & Hd & _ & Hf).
  pose proof (overflowed_count d c W Ho) as Hc.
  destruct (peek_after c entry_zero entry_zero Ha Ho) as [E1 E2].
  rewrite !step_fields. unfold shifted at 1 5.
  cbn [c_file_number c_next_block c_entry c_dir_block].
  rewrite E2.
  rewrite (ins_entry_length _ (peek_entry d c entry_zero));
    [|exact E1|rewrite !dir_block_peek_entry; reflexivity].
  unfold shifted. cbn [c_file_number c_next_block c_entry c_dir_block].
  rewrite (u16_small (c_file_number c + 1 + 1)) by lia.
  rewrite (u16_small (c_file_number c + 1)) by lia.
  f_equal; lia.
Qed.

Lemma negate_twice (x : Z) : 0 <= x < 4096 -> u16 (negate (u16 (negate (u16 x)))) = x.
Proof.
  intros H. rewrite (u16_small x) by lia.
  pose proof (negate_count x H) as Hn.
  rewrite (u16_small (negate x)) by lia.
  rewrite negate_involutive by exact H. apply u16_small. lia.
Qed.

(** The entry of the new file, and the empty entry behind it. *)
Lemma peek_new (old : entry_t) :
  empty_file (peek_entry d4 ce old) = false
  /\ e_length (peek_entry d4 ce old) = k
  /\ name (peek_entry d4 ce old) = stored_name nm.
Proof.
  destruct ins_width as [Eel Hcn]. pose proof ins_length as HL.
  assert (E0 : word d4 (c_dir_block ce) (c_entry ce) = u16 (nth 0 nm 0)).
  { rewrite <- (H3 0%nat) by lia. f_equal. cbn. lia. }
  assert (Ez : (word d4 (c_dir_block ce) (c_entry ce) =? 0) = false).
  { apply Z.eqb_neq. rewrite E0. exact Hnm. }
  assert (Ee : empty_file (peek_entry d4 ce old) = false).
  { rewrite empty_file_peek. exact Ez. }
  split; [exact Ee|]. split.
  - rewrite e_length_peek, Ez.
    destruct (ins_header (c_dir_block ce)) as (_ & _ & ->).
    rewrite (u16_small (negate (additional_words d (c_dir_block ce)))) by lia.
    rewrite H4. apply negate_twice. lia.
  - rewrite name_peek by exact Ee. unfold words_at, stored_name.
    apply map_ext_in. intros t Ht. apply in_seq in Ht. apply H3. lia.
Qed.

Lemma step_new :
  step d4 ce =
  mk_cursor (c_file_number ce + 1) (u16 (c_next_block ce + k))
            (c_entry ce + file_entry_length d (c_dir_block ce))
            (c_dir_block ce).
Proof.
  destruct (peek_new entry_zero) as (E1 & E2 & _).
  destruct ins_place as [_ Hf].
  rewrite step_fields, E2. unfold entry_length.
  rewrite E1, dir_block_peek_entry, ins_file_entry_length.
  rewrite u16_small by lia. reflexivity.
Qed.

Lemma peek_rest (old : entry_t) :
  empty_file (peek_entry d4 (step d4 ce) old) = true
  /\ e_length (peek_entry d4 (step d4 ce) old)
     = u16 (negate (word d (c_dir_block ce) (c_entry ce + 1))) - k.
Proof.
  pose proof ins_length as HL.
  rewrite empty_file_peek, e_length_peek, step_new.
  cbn [c_dir_block c_entry]. rewrite H5. cbn [Z.eqb].
  split; [reflexivity|]. rewrite H6. apply negate_twice. lia.
Qed.

Lemma rest_valid : overflowed_segment d4 (step d4 ce) = false.
Proof.
  rewrite step_new. unfold overflowed_segment.
  cbn [c_file_number c_dir_block]. rewrite ins_count.
  pose proof Hvalid as Hv. unfold overflowed_segment in Hv. zbool.
  rewrite Z.gtb_ltb. apply Z.ltb_ge. lia.
Qed.

Lemma step_old :
  step d ce =
  mk_cursor (c_file_number ce + 1)
            (u16 (c_next_block ce
                  + u16 (negate (word d (c_dir_block ce) (c_entry ce + 1)))))
            (c_entry ce + 2) (c_dir_block ce).
Proof.
  destruct ins_place as [_ Hf].
  rewrite step_fields, e_length_peek, entry_length_peek, Hempty.
  cbn [Z.eqb]. rewrite u16_small by lia. reflexivity.
Qed.

Lemma step_rest :
  step d4 (step d4 ce)
  = shifted (file_entry_length d (c_dir_block ce)) (step d ce).
Proof.
  destruct (peek_rest entry_zero) as (E1 & E2).
  destruct ins_place as [_ Hf].
  rewrite (step_fields d4 (step d4 ce)), E2. unfold entry_length. rewrite E1.
  rewrite step_old, step_new. unfold shifted.
  cbn [c_file_number c_next_block c_entry c_dir_block].
  rewrite u16_small by lia. unfold empty_entry_length.
  f_equal; [|lia].
  unfold u16. rewrite Zplus_mod_idemp_l. f_equal. lia.
Qed.

(** [valid_entry] on the two directories. *)
Lemma valid_entry_before (f : nat) :
  forall c b c1,
    valid_entry f d c = Some (b, c1) -> before d ce c ->
    valid_entry f d4 c = Some (b, c1) /\ (b = true -> before d ce c1).
Proof.
  induction f as [|f IH]; intros c b c1 V Hb; [discriminate|].
  cbn [valid_entry] in *.
  destruct (Z.eq_dec (c_dir_block c) (c_dir_block ce)) as [Hd|Hd].
  - destruct Hb as [Hj|[Hg Hr]]; [contradiction|].
    destruct (before_valid c Hg Hr) as (Ho & Ho4 & _).
    rewrite Ho in V. rewrite Ho4. split; [exact V|].
    intros _. injection V as _ <-. right. split; assumption.
  - rewrite (ins_overflowed_other c Hd).
    destruct (ins_header (c_dir_block c)) as (_ & -> & _).
    destruct (overflowed_segment d c).
    + destruct (next_segment d (c_dir_block c) =? 0);
        [split; [exact V|]; intros Ht; injection V as <- _; discriminate|].
      destruct (next_segment d (c_dir_block c) >? DIR_LENGTH); [discriminate|].
      destruct (ins_header (next_segment d (c_dir_block c) - 1)) as (-> & _).
      apply IH; [exact V|].
      destruct (Z.eq_dec (next_segment d (c_dir_block c) - 1) (c_dir_block ce))
        as [En|En].
      * right. cbn [c_dir_block]. rewrite <- En.
        split; [apply reach_here|].
        change (reach d (seg_start d (next_segment d (c_dir_block c) - 1)) ce).
        rewrite En. exact Hgrid.
      * left. exact En.
    + split; [exact V|]. intros _. injection V as _ <-. left. exact Hd.
Qed.

Lemma valid_entry_after (f : nat) (c : cursor_t) (b : bool) (c1 : cursor_t) :
  valid_entry f d c = Some (b, c1) -> after d ce c ->
  (overflowed_segment d c = false /\ b = true /\ c1 = c
   /\ valid_entry f d4 (shifted (file_entry_length d (c_dir_block ce)) c)
      = Some (true, shifted (file_entry_length d (c_dir_block ce)) c))
  \/ (overflowed_segment d c = true
      /\ exists c1',
          valid_entry f d4 (shifted (file_entry_length d (c_dir_block ce)) c)
            = Some (b, c1')
          /\ (b = true -> c1' = c1 /\ before d ce c1)).
Proof.
  intros V Ha. destruct f as [|f]; [discriminate|].
  destruct (after_place c Ha) as (_ & Hd & _).
  pose proof (after_overflowed c Ha) as Ho4.
  cbn [valid_entry] in *. rewrite Ho4.
  replace (c_dir_block (shifted (file_entry_length d (c_dir_block ce)) c))
    with (c_dir_block c) by reflexivity.
  destruct (ins_header (c_dir_block c)) as (_ & -> & _).
  destruct (overflowed_segment d c).
  - right. split; [reflexivity|].
    destruct (next_segment d (c_dir_block c) =? 0).
    + injection V as <- <-. eexists. split; [reflexivity|]. discriminate.
    + destruct (next_segment d (c_dir_block c) >? DIR_LENGTH); [discriminate|].
      destruct (ins_header (next_segment d (c_dir_block c) - 1)) as (-> & _).
      exists c1.
      assert (Hb : before d ce
                (mk_cursor 1 (first_file_block d
                                (next_segment d (c_dir_block c) - 1))
                           file_entries (next_segment d (c_dir_block c) - 1))).
      { destruct (Z.eq_dec (next_segment d (c_dir_block c) - 1)
                           (c_dir_block ce)) as [En|En].
        - right. cbn [c_dir_block]. rewrite <- En.
          split; [apply reach_here|].
          change (reach d (seg_start d (next_segment d (c_dir_block c) - 1)) ce).
          rewrite En. exact Hgrid.
        - left. exact En. }
      destruct (valid_entry_before f _ _ _ V Hb) as [V4 Hb1].
      split; [exact V4|]. intros Ht. split; [reflexivity|apply Hb1, Ht].
  - left. injection V as <- <-. auto.
Qed.

(** [consolidate] finds as little to do as before. *)
Lemma idle_new : idle_at d4 ce = true.
Proof.
  rewrite idle_at_eq. destruct (peek_new entry_zero) as (-> & _). reflexivity.
Qed.

Lemma idle_before (c : cursor_t) :
  before d ce c -> c <> ce -> overflowed_segment d c = false ->
  idle_at d c = true -> idle_at d4 c = true.
Proof.
  intros Hb Hne Ho Hid.
  destruct (step_before c entry_zero Hb Hne Ho) as (P & S1 & Hb1).
  rewrite idle_at_eq in *. rewrite P, S1.
  destruct (empty_file (peek_entry d c entry_zero)); [|reflexivity].
  destruct (e_length (peek_entry d c entry_zero) =? 0); [discriminate|].
  cbn [andb orb negb] in *.
  destruct (cursor_eq_dec (step d c) ce) as [E|Hn1].
  - rewrite E. destruct (peek_new entry_zero) as (-> & _).
    rewrite andb_false_r. reflexivity.
  - destruct (Z.eq_dec (c_dir_block (step d c)) (c_dir_block ce)) as [Hd|Hd].
    + destruct Hb1 as [Hj|[Hg Hr]]; [contradiction|].
      destruct (before_valid _ Hg Hr) as (Ho1 & Ho4 & _).
      rewrite Ho1 in Hid. rewrite Ho4.
      destruct (step_before (step d c) entry_zero
                  (or_intror (conj Hg Hr)) Hn1 Ho1) as (-> & _).
      exact Hid.
    + rewrite (ins_overflowed_other _ Hd), (ins_peek_other _ _ Hd). exact Hid.
Qed.

(** The rest of the empty entry is not of length 0. *)
Hypothesis Hlt : k < u16 (negate (word d (c_dir_block ce) (c_entry ce + 1))).

Lemma idle_rest : idle_at d ce = true -> idle_at d4 (step d4 ce) = true.
Proof.
  intros Hid. pose proof ins_length as HL.
  rewrite idle_at_eq in *.
  destruct (peek_rest entry_zero) as (-> & ->).
  rewrite step_rest.
  assert (Ha : after d ce (step d ce)) by apply reach_here.
  rewrite (after_overflowed _ Ha).
  rewrite empty_file_peek, Hempty in Hid. cbn [Z.eqb andb] in Hid.
  replace (u16 (negate (word d (c_dir_block ce) (c_entry ce + 1))) - k =? 0)
    with false by (symmetry; apply Z.eqb_neq; lia).
  cbn [andb orb].
  destruct (overflowed_segment d (step d ce)) eqn:Ho; [reflexivity|].
  destruct (peek_after _ entry_zero entry_zero Ha Ho) as (-> & _).
  destruct (e_length (peek_entry d ce entry_zero) =? 0); [discriminate|].
  exact Hid.
Qed.

Lemma idle_after (c : cursor_t) :
  after d ce c -> overflowed_segment d c = false ->
  idle_at d c = true ->
  idle_at d4 (shifted (file_entry_length d (c_dir_block ce)) c) = true.
Proof.
  intros Ha Ho Hid. rewrite idle_at_eq in *.
  destruct (peek_after c entry_zero entry_zero Ha Ho) as (-> & ->).
  destruct (step_after c Ha Ho) as (-> & Ha1).
  rewrite (after_overflowed _ Ha1).
  destruct (empty_file (peek_entry d c entry_zero)); [|reflexivity].
  destruct (e_length (peek_entry d c entry_zero) =? 0); [discriminate|].
  cbn [andb orb negb] in *.
  destruct (overflowed_segment d (step d c)) eqn:Ho1; [reflexivity|].
  destruct (peek_after _ entry_zero entry_zero Ha1 Ho1) as (-> & _).
  exact Hid.
Qed.

Lemma settled_loop_mono (f : nat) :
  forall d0 c b f', settled_loop f d0 c = Some b -> (f <= f')%nat ->
                    settled_loop f' d0 c = Some b.
Proof.
  induction f as [|f IH]; intros d0 c b f' E Hf; [discriminate|].
  destruct f' as [|f']; [lia|].
  cbn [settled_loop] in *.
  destruct (valid_entry (S f) d0 c) as [[v c1]|] eqn:V; [|discriminate].
  rewrite (valid_entry_mono _ _ _ _ (S f') V) by lia.
  destruct v; [|exact E].
  destruct (idle_at d0 c1); [|exact E].
  apply IH; [exact E|lia].
Qed.

(** A settled directory stays settled when the file has gone in. *)
Lemma settled_sim (f : nat) :
  forall c,
    settled_loop f d c = Some true ->
    (before d ce c -> exists f', settled_loop f' d4 c = Some true)
    /\ (after d ce c ->
        exists f',
          settled_loop f' d4
            (shifted (file_entry_length d (c_dir_block ce)) c) = Some true).
Proof.
  induction f as [|f IH]; intros c Hs; [discriminate|].
  cbn [settled_loop] in Hs.
  destruct (valid_entry (S f) d c) as [[b c1]|] eqn:V; [|discriminate].
  assert (Key : forall c',
             valid_entry (S f) d4 c' = Some (true, c1) ->
             overflowed_segment d c1 = false -> before d ce c1 ->
             (if idle_at d c1 then settled_loop f d (step d c1)
              else Some false) = Some true ->
             exists F, settled_loop F d4 c' = Some true).
  { intros c' V4 Ho1 Hb1 Hs1.
    destruct (idle_at d c1) eqn:Hid; [|discriminate].
    destruct (cursor_eq_dec c1 ce) as [->|Hne].
    - destruct (IH _ Hs1) as [_ IHa].
      destruct (IHa (reach_here d (step d ce))) as [f1 Hf1].
      exists (S (S (Nat.max f f1))).
      cbn [settled_loop].
      rewrite (valid_entry_mono _ _ _ _ (S (S (Nat.max f f1))) V4) by lia.
      rewrite idle_new.
      rewrite (valid_entry_here _ _ _ rest_valid).
      rewrite (idle_rest Hid), step_rest.
      apply (settled_loop_mono f1); [exact Hf1|lia].
    - destruct (step_before c1 entry_zero Hb1 Hne Ho1) as (_ & S1 & Hb2).
      destruct (IH _ Hs1) as [IHb _].
      destruct (IHb Hb2) as [f1 Hf1].
      exists (S (Nat.max f f1)).
      cbn [settled_loop].
      rewrite (valid_entry_mono _ _ _ _ (S (Nat.max f f1)) V4) by lia.
      rewrite (idle_before c1 Hb1 Hne Ho1 Hid), S1.
      apply (settled_loop_mono f1); [exact Hf1|lia]. }
  split.
  - intros Hb. destruct (valid_entry_before _ _ _ _ V Hb) as [V4 Hb1].
    destruct b.
    + apply (Key c V4); [eapply valid_entry_true; exact V|auto|exact Hs].
    + exists (S f). cbn [settled_loop]. rewrite V4. reflexivity.
  - intros Ha.
    destruct (valid_entry_after _ _ _ _ V Ha)
      as [(Ho & -> & -> & V4)|(Ho & c1' & V4 & Hb1)].
    + destruct (idle_at d c) eqn:Hid; [|discriminate].
      destruct (step_after c Ha Ho) as (S1 & Ha1).
      destruct (IH _ Hs) as [_ IHa].
      destruct (IHa Ha1) as [f1 Hf1].
      exists (S (Nat.max f f1)).
      cbn [settled_loop].
      rewrite (valid_entry_mono _ _ _ _ (S (Nat.max f f1)) V4) by lia.
      rewrite (idle_after c Ha Ho Hid), S1.
      apply (settled_loop_mono f1); [exact Hf1|lia].
    + destruct b.
      * destruct (Hb1 eq_refl) as [-> Hb2].
        apply (Key _ V4); [eapply valid_entry_true; exact V|exact Hb2|exact Hs].
      * exists (S f). cbn [settled_loop]. rewrite V4. reflexivity.
Qed.

(** [lookup] finds the new file where it stopped at nothing before. *)
Lemma lookup_sim (pat : pattern_t) (f : nat) :
  pattern_match_p (stored_name nm) pat = true ->
  forall c cend,
    lookup_loop f pat d c = Some (None, cend) ->
    visits d c ce -> before d ce c ->
    lookup_loop f pat d4 c
    = Some (Some (peek_entry d4 ce entry_zero), step d4 ce).
Proof.
  intros Hpat. induction f as [|f IH]; intros c cend Hl Hv Hb; [discriminate|].
  cbn [lookup_loop] in *.
  destruct (valid_entry (S f) d c) as [[b c1]|] eqn:V; [|discriminate].
  destruct (valid_entry_before _ _ _ _ V Hb) as [V4 Hb1]. rewrite V4.
  destruct b.
  - pose proof (valid_entry_true _ _ _ _ V) as Ho1.
    rewrite get_entry_step in *.
    destruct (cursor_eq_dec c1 ce) as [->|Hne].
    + destruct (peek_new entry_zero) as (-> & -> & ->).
      rewrite Hpat.
      replace (k =? 0) with false by (symmetry; apply Z.eqb_neq; lia).
      reflexivity.
    + destruct (step_before c1 entry_zero (Hb1 eq_refl) Hne Ho1)
        as (-> & -> & Hb2).
      destruct (negb (empty_file (peek_entry d c1 entry_zero))
                && negb (e_length (peek_entry d c1 entry_zero) =? 0)
                && pattern_match_p (name (peek_entry d c1 entry_zero)) pat);
        [discriminate|].
      apply (IH _ cend Hl); [|exact Hb2].
      inversion Hv as [f0 x y V0|f0 x y z V0 Hv0]; subst.
      * pose proof (valid_entry_det _ _ _ _ _ _ V V0) as E.
        injection E as E. contradiction.
      * pose proof (valid_entry_det _ _ _ _ _ _ V V0) as E.
        injection E as <-. exact Hv0.
  - exfalso. inversion Hv as [f0 x y V0|f0 x y z V0 Hv0]; subst;
      pose proof (valid_entry_det _ _ _ _ _ _ V V0) as E; discriminate.
Qed.

End Inserted.

(** ** The walks of the directory engine *)

Lemma empty_entry_visits (f : nat) :
  forall d ex len c e0 best b,
    get_empty_entry_loop f d ex len c e0 best = Some b ->
    b = best
    \/ exists c1 old,
        visits d c c1 /\ b = peek_entry d c1 old
        /\ empty_file b = true /\ len <= e_length b.
Proof.
  induction f as [|f IH]; intros d ex len c e0 best b E; [discriminate|].
  cbn [get_empty_entry_loop] in E.
  destruct (valid_entry (S f) d c) as [[[] c1]|] eqn:V; try discriminate.
  - rewrite get_entry_step in E.
    destruct (IH _ _ _ _ _ _ _ E) as [Hb|(c2 & old & Hv & Hb)].
    + destruct (better_fit ex best (peek_entry d c1 e0) len) eqn:Hbf.
      * right. exists c1, e0. split; [eapply visits_here; exact V|].
        split; [exact Hb|]. subst b. unfold better_fit in Hbf.
        apply andb_true_iff in Hbf as [Hbf _].
        apply andb_true_iff in Hbf as [Hbf Hl].
        apply andb_true_iff in Hbf as [_ He].
        split; [exact He|]. rewrite Z.geb_leb in Hl. apply Z.leb_le, Hl.
      * left. exact Hb.
    + right. exists c2, old. split; [|exact Hb].
      eapply visits_later; [exact V|exact Hv].
  - left. congruence.
Qed.

Lemma visits_valid (d : directory_t) (c c1 : cursor_t) :
  visits d c c1 -> overflowed_segment d c1 = false.
Proof.
  induction 1 as [f c c1 V|f c c1 c2 V _ IH]; [|exact IH].
  eapply valid_entry_true; exact V.
Qed.

Lemma valid_entry_grid (d : directory_t) (f : nat) :
  forall c c1,
    valid_entry f d c = Some (true, c1) ->
    reach d (seg_start d (c_dir_block c)) c ->
    reach d (seg_start d (c_dir_block c1)) c1.
Proof.
  induction f as [|f IH]; intros c c1 V Hg; [discriminate|].
  cbn [valid_entry] in V.
  destruct (overflowed_segment d c).
  - destruct (next_segment d (c_dir_block c) =? 0); [discriminate|].
    destruct (next_segment d (c_dir_block c) >? DIR_LENGTH); [discriminate|].
    apply (IH _ _ V). apply reach_here.
  - injection V as <-. exact Hg.
Qed.

Lemma visits_grid (d : directory_t) (c c1 : cursor_t) :
  visits d c c1 ->
  reach d (seg_start d (c_dir_block c)) c ->
  reach d (seg_start d (c_dir_block c1)) c1.
Proof.
  induction 1 as [f c c1 V|f c c1 c2 V _ IH]; intros Hg.
  - eapply valid_entry_grid; eassumption.
  - apply IH.
    pose proof (valid_entry_grid d f c c1 V Hg) as Hg1.
    pose proof (valid_entry_true _ _ _ _ V) as Ho.
    apply (reach_snoc d _ c1 Hg1 Ho).
Qed.

Lemma valid_entry_validated (d : directory_t) (f : nat) :
  words12 d ->
  forall c b c1 fv,
    valid_entry f d c = Some (b, c1) ->
    validate_loop fv d (c_dir_block c) = Some true ->
    0 <= c_dir_block c < 6 ->
    exists fv', validate_loop fv' d (c_dir_block c1) = Some true
                /\ 0 <= c_dir_block c1 < 6.
Proof.
  intros W. induction f as [|f IH]; intros c b c1 fv V Hv Hr; [discriminate|].
  cbn [valid_entry] in V.
  destruct (overflowed_segment d c).
  - destruct (next_segment d (c_dir_block c) =? 0) eqn:E0;
      [injection V as _ <-; eauto|].
    destruct (next_segment d (c_dir_block c) >? DIR_LENGTH) eqn:E6;
      [discriminate|].
    destruct fv as [|fv]; [discriminate|].
    cbn [validate_loop] in Hv.
    destruct (segment_sane d (c_dir_block c)); [|discriminate].
    pose proof (word12_word d (c_dir_block c) 2 W) as Hn.
    unfold word12 in Hn. fold (next_segment d (c_dir_block c)) in Hn.
    zbool. unfold DIR_LENGTH in *.
    replace (0 <=? next_segment d (c_dir_block c) - 1) with true in Hv
      by (symmetry; apply Z.leb_le; lia).
    apply (IH _ _ _ fv V); cbn [c_dir_block]; [exact Hv|lia].
  - injection V as _ <-. eauto.
Qed.

Lemma visits_validated (d : directory_t) (c c1 : cursor_t) :
  words12 d -> visits d c c1 ->
  forall fv,
    validate_loop fv d (c_dir_block c) = Some true ->
    0 <= c_dir_block c < 6 ->
    segment_sane d (c_dir_block c1) = true /\ 0 <= c_dir_block c1 < 6.
Proof.
  intros W H. induction H as [f c c1 V|f c c1 c2 V _ IH]; intros fv Hv Hr.
  - destruct (valid_entry_validated d f W _ _ _ _ V Hv Hr) as (fv' & Hv' & Hr').
    split; [|exact Hr'].
    destruct fv' as [|fv']; [discriminate|]. cbn [validate_loop] in Hv'.
    destruct (segment_sane d (c_dir_block c1)); [reflexivity|discriminate].
  - destruct (valid_entry_validated d f W _ _ _ _ V Hv Hr) as (fv' & Hv' & Hr').
    apply (IH fv'); rewrite step_fields; cbn [c_dir_block]; assumption.
Qed.

(** [consolidate] leaves a settled directory as it is. *)
Lemma consolidate_settled (f : nat) :
  forall d c e ne d' f',
    consolidate_loop f d c e ne = Some d' ->
    settled_loop f' d c = Some true -> d' = d.
Proof.
  induction f as [|f IH]; intros d c e ne d' f' E Hs; [discriminate|].
  destruct f' as [|f']; [discriminate|].
  cbn [consolidate_loop settled_loop] in *.
  destruct (valid_entry (S f) d c) as [[b c1]|] eqn:V; [|discriminate].
  destruct (valid_entry (S f') d c) as [[b' c1']|] eqn:V'; [|discriminate].
  pose proof (valid_entry_det _ _ _ _ _ _ V V') as Ed. injection Ed as <- <-.
  destruct b; [|congruence].
  destruct (idle_at d c1) eqn:Hid; [|discriminate].
  rewrite idle_at_eq in Hid.
  unfold consolidate_body in E. rewrite get_entry_step in E.
  rewrite !empty_file_peek, !e_length_peek in Hid.
  rewrite !empty_file_peek, !e_length_peek in E.
  destruct (word d (c_dir_block c1) (c_entry c1) =? 0).
  - destruct (u16 (negate (word d (c_dir_block c1) (c_entry c1 + 1))) =? 0);
      [discriminate|].
    cbn [andb orb negb] in Hid. apply negb_true_iff in Hid.
    rewrite Hid in E. apply (IH _ _ _ _ _ f' E Hs).
  - apply (IH _ _ _ _ _ f' E Hs).
Qed.

Lemma enter_finish_entered (fuel : nat) (filename : string)
  (len nel : Z) (d : directory_t) (e : entry_t) (ptr : Z) (d5 : directory_t) :
  enter_finish fuel filename len nel d e ptr = Some (true, d5) ->
  validate_directory fuel d = Some true
  /\ consolidate fuel (entered_directory filename len nel d e ptr) = Some d5.
Proof.
  unfold enter_finish, entered_directory, enter_opened, enter_file_entry,
    enter_rest_entry. cbv zeta.
  destruct (validate_directory fuel d) as [[|]|]; try discriminate.
  match goal with |- context [if ?b then _ else _] => destruct b end;
    [|discriminate].
  match goal with |- context [consolidate fuel ?x] =>
    destruct (consolidate fuel x) as [d6|] end; [|discriminate].
  intros E. injection E as <-. auto.
Qed.

Lemma reach_next_block (d : directory_t) (a b : cursor_t) :
  reach d a b -> 0 <= c_next_block a -> 0 <= c_next_block b.
Proof.
  induction 1 as [|a b _ _ IH]; intros Ha; [exact Ha|].
  apply IH. rewrite step_fields. cbn [c_next_block]. apply u16_range.
Qed.

Lemma consolidate_settled_directory (fuel f' : nat) (d d' : directory_t) :
  consolidate fuel d = Some d' -> settled f' d = Some true -> d' = d.
Proof. unfold consolidate, settled. apply consolidate_settled. Qed.

Lemma enter_with_room (fuel : nat) (filename : string) (k : Z)
  (d : directory_t) (e : entry_t) (ptr : Z) (r : bool * directory_t) :
  get_unused_ptr d (dir_block e)
    ((file_entry_length d (dir_block e) + empty_entry_length) mod 2 ^ 32)
    = Some (Some ptr) ->
  enter fuel filename k d e = Some r ->
  enter_finish fuel filename k (file_entry_length d (dir_block e)) d e ptr
    = Some r.
Proof.
  intros Hptr Hent. unfold enter, enter_from in Hent.
  destruct fuel as [|fuel]; [discriminate|].
  cbn [enter_make_room] in Hent. rewrite Hptr in Hent. exact Hent.
Qed.

Lemma validated_segment (fuel : nat) (d : directory_t) (c : cursor_t) :
  words12 d -> validate_directory fuel d = Some true ->
  visits d (init_cursor d) c ->
  segment_sane d (c_dir_block c) = true /\ 0 <= c_dir_block c < 6.
Proof.
  intros W Hval Hv. unfold validate_directory in Hval.
  apply (visits_validated d _ _ W Hv fuel Hval). cbn. lia.
Qed.

(** A new file in a settled directory whose segment has room is listed at
    the blocks of the empty entry it went into. *)
Lemma entered_listed (fuel fs : nat) (filename : string) (size k : Z)
  (d : directory_t) (e : entry_t) (cend : cursor_t) (d' : directory_t) :
  shape d -> words12 d ->
  settled fs d = Some true ->
  lookup fuel filename d (init_cursor d) = Some (None, cend) ->
  u16 (nth 0 (build_sixbit filename) 0) <> 0 ->
  pattern_match_p (stored_name (build_sixbit filename))
                  (build_pattern (strip_device filename)) = true ->
  get_empty_entry fuel d entry_zero entry_zero size = Some (true, e) ->
  has_room d ((file_entry_length d (dir_block e) + empty_entry_length)
              mod 2 ^ 32) (dir_block e) = true ->
  0 < k < e_length e ->
  enter_os8_file fuel filename k d e = Some (true, d') ->
  exists x c,
    lookup fuel filename d' (init_cursor d') = Some (Some x, c)
    /\ file_block x = file_block e /\ e_length x = k /\ 0 <= file_block e.
Proof.
  intros Sh W Hset Hfresh Hn0 Hpat Hget Hroom Hk Henter.
  (* the empty entry is one that the walk reads *)
  unfold get_empty_entry in Hget.
  destruct (get_empty_entry_loop fuel d entry_zero size (init_cursor d)
              entry_zero (set_length entry_zero 0)) as [best|] eqn:Hloop;
    [|discriminate].
  injection Hget as _ ->.
  destruct (empty_entry_visits _ _ _ _ _ _ _ _ Hloop)
    as [->|(ce & old & Hv & -> & Hemp & _)];
    [cbn [set_length e_length] in Hk; lia|].
  rewrite dir_block_peek_entry in *.
  destruct (place_peek d ce old) as (Een & Efb & Efn).
  assert (Hempty : word d (c_dir_block ce) (c_entry ce) = 0).
  { rewrite empty_file_peek in Hemp. apply Z.eqb_eq, Hemp. }
  assert (El : e_length (peek_entry d ce old)
               = u16 (negate (word d (c_dir_block ce) (c_entry ce + 1)))).
  { rewrite e_length_peek, Hempty. reflexivity. }
  rewrite El in Hk.
  assert (Hk' : 0 < k
                <= u16 (negate (word d (c_dir_block ce) (c_entry ce + 1))))
    by lia.
  assert (Hlt : k < u16 (negate (word d (c_dir_block ce) (c_entry ce + 1))))
    by lia.
  pose proof (visits_valid _ _ _ Hv) as Hvalid.
  pose proof (visits_grid _ _ _ Hv (reach_here d (seg_start d 0))) as Hgrid.
  (* what enter did *)
  unfold enter_os8_file in Henter.
  destruct (enter fuel filename k d (peek_entry d ce old)) as [[[|] d5]|]
    eqn:Hent; try discriminate.
  destruct (consolidate fuel d5) as [d6|] eqn:Hc2; [|discriminate].
  injection Henter as <-.
  unfold has_room in Hroom.
  destruct (get_unused_ptr d (c_dir_block ce)
              ((file_entry_length d (c_dir_block ce) + empty_entry_length)
               mod 2 ^ 32)) as [[ptr|]|] eqn:Hptr; try discriminate.
  assert (Hfin : enter_finish fuel filename k
                   (file_entry_length d (c_dir_block ce)) d
                   (peek_entry d ce old) ptr = Some (true, d5)).
  { rewrite <- (dir_block_peek_entry d ce old).
    apply enter_with_room; [|exact Hent].
    rewrite dir_block_peek_entry. exact Hptr. }
  destruct (enter_finish_entered _ _ _ _ _ _ _ _ Hfin) as [Hval Hc1].
  (* the segment of the entry is a sane one *)
  destruct (validated_segment fuel d ce W Hval Hv) as [Hsane Hi].
  unfold segment_sane in Hsane.
  apply andb_true_iff in Hsane as [Hsane _].
  apply andb_true_iff in Hsane as [Hsane Hcnt].
  apply andb_true_iff in Hsane as [Hsane Hcount].
  apply andb_true_iff in Hsane as [_ Hnf].
  apply negb_true_iff in Hnf. zbool.
  destruct (ins_width d ce W Hcnt) as [Eel Hcn].
  unfold empty_entry_length in Hptr.
  change (2 ^ 32) with 4294967296 in Hptr.
  rewrite Z.mod_small in Hptr by lia.
  destruct (ins_room d ce ptr W Hgrid Hvalid Hempty Hptr) as [Hp2 Hr2].
  destruct (ins_place d ce W Hgrid Hvalid) as [Hp5 Hfn].
  (* the words of the directory that enter leaves *)
  set (e := peek_entry d ce old) in *.
  assert (Edb : dir_block e = c_dir_block ce) by apply dir_block_peek_entry.
  assert (Hwords := entered_words d e filename k ptr Sh W).
  assert (Hother := entered_other d e filename k ptr Sh W).
  rewrite Edb, Een in Hwords, Hother.
  specialize (Hwords Hi Hp5 Hcnt Hp2 Hr2 Hempty).
  specialize (Hother Hi Hp5 Hcnt Hp2 Hr2 Hempty).
  destruct Hwords as (K1 & K2 & K3 & K4 & K5 & K6 & K7).
  set (d4 := entered_directory filename k
               (file_entry_length d (c_dir_block ce)) d e ptr) in *.
  assert (Einit : init_cursor d4 = init_cursor d)
    by apply (ins_seg_start d d4 ce W Hgrid Hvalid Hother K2 0).
  assert (Hn0' : u16 (nth 0 (build_sixbit filename) 0) <> 0) by exact Hn0.
  assert (Hb0 : before d ce (init_cursor d)).
  { destruct (Z.eq_dec 0 (c_dir_block ce)) as [E0|E0].
    - right. rewrite <- E0 in *. split; [apply reach_here|exact Hgrid].
    - left. exact E0. }
  (* both runs of consolidate leave it alone *)
  assert (Hset4 : exists f4, settled_loop f4 d4 (init_cursor d) = Some true).
  { eapply (settled_sim d d4 ce (build_sixbit filename) k ptr);
      try eassumption. }
  destruct Hset4 as [f4 Hset4]. rewrite <- Einit in Hset4.
  fold (settled f4 d4) in Hset4.
  assert (E5 : d5 = d4)
    by (apply (consolidate_settled_directory _ _ _ _ Hc1 Hset4)).
  subst d5.
  assert (E6 : d6 = d4)
    by (apply (consolidate_settled_directory _ _ _ _ Hc2 Hset4)).
  subst d6.
  (* lookup stops at the new entry *)
  unfold lookup in *. rewrite Einit.
  assert (Hl4 : lookup_loop fuel (build_pattern (strip_device filename))
                  d4 (init_cursor d)
                = Some (Some (peek_entry d4 ce entry_zero), step d4 ce)).
  { eapply (lookup_sim d d4 ce (build_sixbit filename) k ptr);
      try eassumption. }
  rewrite Hl4.
  eexists _, _. split; [reflexivity|].
  destruct (peek_new d d4 ce (build_sixbit filename) k W Hgrid Hvalid Hcnt Hk'
              Hn0 Hother K2 K3 K4 entry_zero) as (_ & Ek & _).
  destruct (place_peek d4 ce entry_zero) as (_ & Efb4 & _).
  rewrite Efb4, Efb. split; [reflexivity|]. split; [exact Ek|].
  apply (reach_next_block d _ ce Hgrid). cbn [seg_start c_next_block].
  unfold first_file_block. apply (word12_word d _ 1 W).
Qed.


(** * File names *)

Lemma code_range (a : ascii) : 0 <= code a < 256.
Proof. unfold code. pose proof (nat_ascii_bounded a). lia. Qed.

Lemma char_of_code (a : ascii) : char_of (code a) = a.
Proof. unfold char_of, code. rewrite Nat2Z.id. apply ascii_nat_embedding. Qed.

Lemma code_char_of (c : Z) : 0 <= c < 256 -> code (char_of c) = c.
Proof.
  intros H. unfold char_of, code. rewrite nat_ascii_embedding by lia. lia.
Qed.

Lemma code_inj (a b : ascii) : code a = code b -> a = b.
Proof. intros H. rewrite <- (char_of_code a), H. apply char_of_code. Qed.

(** What the checks and the six-bit code make of a letter or digit. *)
Lemma alnum_char (a : ascii) :
  isalnum (code a) = true ->
  1 <= sixbit a <= 63
  /\ cvt_char (sixbit a) = char_of (tolower (code a))
  /\ (code a =? 42) = false /\ (code a =? 46) = false
  /\ (code a =? 58) = false.
Proof.
  pose proof (code_range a) as Hc. unfold sixbit.
  generalize dependent (code a). intros c Hc Ha.
  assert (E : below 256
    (fun c =>
       implb (isalnum c)
         (let s := let c0 := schar (tolower c) in
                   u16 (schar (u8 (if c0 <? 96 then c0 else c0 - 96))) in
          (1 <=? s) && (s <=? 63)
          && Ascii.eqb (cvt_char s) (char_of (tolower c))
          && negb (c =? 42) && negb (c =? 46) && negb (c =? 58))) = true)
    by (vm_compute; reflexivity).
  pose proof (below_spec _ _ E c Hc) as H. cbv beta in H.
  rewrite Ha in H. cbn [implb] in H.
  cbv zeta in H. rewrite !andb_true_iff, !negb_true_iff in H.
  destruct H as (((((A1 & A2) & A3) & A4) & A5) & A6).
  apply Z.leb_le in A1, A2. apply Ascii.eqb_eq in A3. auto.
Qed.

(** Lower case changes neither the six-bit code nor what is a star or a
    dot. *)
Lemma lower_char (a : ascii) :
  sixbit (char_of (tolower (code a))) = sixbit a
  /\ (code (char_of (tolower (code a))) =? 42) = (code a =? 42)
  /\ (code (char_of (tolower (code a))) =? 46) = (code a =? 46).
Proof.
  pose proof (code_range a) as Hc. unfold sixbit.
  assert (Ht : 0 <= tolower (code a) < 256).
  { unfold tolower. destruct (_ && _) eqn:E; [|lia].
    apply andb_true_iff in E as [E1 E2]. lia. }
  rewrite !code_char_of by exact Ht.
  generalize dependent (code a). intros c Hc _.
  assert (E : below 256
    (fun c =>
       (let f := fun c => let c0 := schar (tolower c) in
                   u16 (schar (u8 (if c0 <? 96 then c0 else c0 - 96))) in
        (f (tolower c) =? f c)
        && Bool.eqb (tolower c =? 42) (c =? 42)
        && Bool.eqb (tolower c =? 46) (c =? 46))) = true)
    by (vm_compute; reflexivity).
  pose proof (below_spec _ _ E c Hc) as H. cbv beta zeta in H.
  rewrite !andb_true_iff in H. destruct H as ((A1 & A2) & A3).
  apply Z.eqb_eq in A1. apply Bool.eqb_prop in A2, A3. auto.
Qed.

(** Two six-bit codes in a word. *)
Lemma sixbit_pair (s1 s2 : Z) :
  1 <= s1 <= 63 -> 0 <= s2 <= 63 ->
  Z.shiftr (Z.lor s2 (u16 (Z.shiftl s1 6))) 6 = s1
  /\ Z.land (Z.lor s2 (u16 (Z.shiftl s1 6))) 63 = s2
  /\ 0 < Z.lor s2 (u16 (Z.shiftl s1 6)) < 4096.
Proof.
  intros H1 H2.
  assert (E : below 64 (fun s1 => below 64 (fun s2 =>
     implb (1 <=? s1)
       (let w := Z.lor s2 (u16 (Z.shiftl s1 6)) in
        (Z.shiftr w 6 =? s1) && (Z.land w 63 =? s2)
        && (0 <? w) && (w <? 4096)))) = true)
    by (vm_compute; reflexivity).
  pose proof (below_spec _ _ E s1 ltac:(lia)) as E1. cbv beta in E1.
  pose proof (below_spec _ _ E1 s2 ltac:(lia)) as E2. cbv beta zeta in E2.
  replace (1 <=? s1) with true in E2 by (symmetry; apply Z.leb_le; lia).
  cbn [implb] in E2.
  rewrite !andb_true_iff in E2. destruct E2 as (((A1 & A2) & A3) & A4).
  apply Z.eqb_eq in A1, A2. apply Z.ltb_lt in A3, A4. auto.
Qed.

Lemma cvt_from_sixbit_pair (a b : ascii) :
  isalnum (code a) = true -> isalnum (code b) = true ->
  cvt_from_sixbit (Z.lor (sixbit b) (u16 (Z.shiftl (sixbit a) 6)))
  = String (char_of (tolower (code a)))
      (String (char_of (tolower (code b))) EmptyString).
Proof.
  intros Ha Hb.
  destruct (alnum_char a Ha) as (Ra & Ca & _).
  destruct (alnum_char b Hb) as (Rb & Cb & _).
  destruct (sixbit_pair (sixbit a) (sixbit b) Ra ltac:(lia)) as (E1 & E2 & _).
  unfold cvt_from_sixbit. rewrite E1, E2.
  replace (sixbit a =? 0) with false by (symmetry; apply Z.eqb_neq; lia).
  replace (sixbit b =? 0) with false by (symmetry; apply Z.eqb_neq; lia).
  rewrite Ca, Cb. reflexivity.
Qed.

Lemma cvt_from_sixbit_single (a : ascii) :
  isalnum (code a) = true ->
  cvt_from_sixbit (u16 (Z.shiftl (sixbit a) 6))
  = String (char_of (tolower (code a))) EmptyString.
Proof.
  intros Ha. destruct (alnum_char a Ha) as (Ra & Ca & _).
  destruct (sixbit_pair (sixbit a) 0 Ra ltac:(lia)) as (E1 & E2 & _).
  rewrite Z.lor_0_l in E1, E2.
  unfold cvt_from_sixbit. rewrite E1, E2.
  replace (sixbit a =? 0) with false by (symmetry; apply Z.eqb_neq; lia).
  rewrite Ca. reflexivity.
Qed.

Lemma sixbit_pair_word (a b : ascii) :
  isalnum (code a) = true -> isalnum (code b) = true ->
  0 < Z.lor (sixbit b) (u16 (Z.shiftl (sixbit a) 6)) < 4096.
Proof.
  intros Ha Hb.
  destruct (alnum_char a Ha) as (Ra & _). destruct (alnum_char b Hb) as (Rb & _).
  apply (sixbit_pair (sixbit a) (sixbit b) Ra ltac:(lia)).
Qed.

Lemma sixbit_single_word (a : ascii) :
  isalnum (code a) = true -> 0 < u16 (Z.shiftl (sixbit a) 6) < 4096.
Proof.
  intros Ha. destruct (alnum_char a Ha) as (Ra & _).
  destruct (sixbit_pair (sixbit a) 0 Ra ltac:(lia)) as (_ & _ & E).
  rewrite Z.lor_0_l in E. exact E.
Qed.

Lemma build_sixbit_loop_alnum (a : ascii) (rest : string) (name : list Z)
  (i : Z) :
  isalnum (code a) = true ->
  build_sixbit_loop (String a rest) name i
  = build_sixbit_loop rest
      (wr name (i / 2)
          (if Z.odd i then Z.lor (sixbit a) (rd name (i / 2))
           else u16 (Z.shiftl (sixbit a) 6)))
      (i + 1).
Proof.
  intros Ha. destruct (alnum_char a Ha) as (_ & _ & E1 & E2 & _).
  cbn [build_sixbit_loop]. rewrite E1, E2. reflexivity.
Qed.

Lemma build_sixbit_loop_dot (rest : string) (name : list Z) (i : Z) :
  build_sixbit_loop (String "."%char rest) name i
  = build_sixbit_loop rest name 6.
Proof. reflexivity. Qed.
Lemma all_chars_cons (p : Z -> bool) (a : ascii) (s : string) :
  all_chars p (String a s) = true -> p (code a) = true /\ all_chars p s = true.
Proof. cbn [all_chars]. apply andb_true_iff. Qed.

Lemma alnum_not_dot (a : ascii) :
  isalnum (code a) = true -> (code a =? 46) = false.
Proof. intros Ha. apply (alnum_char a Ha). Qed.

Lemma sixbit_pair_eqb (a b : ascii) :
  isalnum (code a) = true -> isalnum (code b) = true ->
  (Z.lor (sixbit b) (u16 (Z.shiftl (sixbit a) 6)) =? 0) = false.
Proof.
  intros Ha Hb. pose proof (sixbit_pair_word a b Ha Hb). apply Z.eqb_neq. lia.
Qed.

Lemma sixbit_single_eqb (a : ascii) :
  isalnum (code a) = true -> (u16 (Z.shiftl (sixbit a) 6) =? 0) = false.
Proof.
  intros Ha. pose proof (sixbit_single_word a Ha). apply Z.eqb_neq. lia.
Qed.

Ltac name_chars :=
  repeat match goal with
         | H : all_chars _ (String _ _) = true |- _ =>
             apply all_chars_cons in H; destruct H as [? H]
         end.

Ltac sixbit_run :=
  unfold build_sixbit;
  repeat first [ rewrite build_sixbit_loop_dot
               | rewrite build_sixbit_loop_alnum by assumption ];
  cbn [build_sixbit_loop];
  cbn;
  repeat match goal with
         | |- context [Pos.to_nat ?p] =>
             let v := eval vm_compute in (Pos.to_nat p) in
             change (Pos.to_nat p) with v
         end;
  cbn [upd nth].

Ltac sixbit_words :=
  repeat first [ rewrite cvt_from_sixbit_pair by assumption
               | rewrite cvt_from_sixbit_single by assumption
               | rewrite sixbit_pair_eqb by assumption
               | rewrite sixbit_single_eqb by assumption
               | rewrite alnum_not_dot by assumption ].

Ltac sixbit_range :=
  match goal with
  | |- word12 0 => unfold word12; lia
  | |- word12 (Z.lor _ _) =>
      unfold word12;
      match goal with
      | |- _ <= Z.lor (sixbit ?b) (u16 (Z.shiftl (sixbit ?a) 6)) < _ =>
          pose proof (sixbit_pair_word a b ltac:(assumption) ltac:(assumption));
          lia
      end
  | |- word12 (u16 (Z.shiftl (sixbit ?a) 6)) =>
      unfold word12; pose proof (sixbit_single_word a ltac:(assumption)); lia
  end.

Ltac sixbit_case :=
  name_chars; cbn [append]; sixbit_run;
  change (code "."%char =? 46) with true;
  unfold get_filename, listed_name; cbn [nth drop_last_dot convert_lower];
  change (cvt_from_sixbit 0) with EmptyString;
  change (0 =? 0) with true;
  change (code "."%char =? 46) with true;
  sixbit_words; cbn [append convert_lower];
  change (char_of (tolower (code "."%char))) with "."%char;
  split; [reflexivity|];
  split; [repeat (apply Forall_cons; [sixbit_range|]); apply Forall_nil|];
  split; [reflexivity|];
  match goal with
  | |- Z.lor (sixbit ?b) (u16 (Z.shiftl (sixbit ?a) 6)) <> 0 =>
      pose proof (sixbit_pair_word a b ltac:(assumption) ltac:(assumption));
      lia
  | |- u16 (Z.shiftl (sixbit ?a) 6) <> 0 =>
      pose proof (sixbit_single_word a ltac:(assumption)); lia
  end.

Lemma plain_name_sixbit (base ext : string) (dotted : bool) :
  all_chars isalnum base = true -> all_chars isalnum ext = true ->
  (1 <= String.length base <= 6)%nat -> (String.length ext <= 2)%nat ->
  let n := if dotted then (base ++ "." ++ ext)%string else base in
  get_filename (build_sixbit n) = listed_name n
  /\ Forall word12 (build_sixbit n)
  /\ List.length (build_sixbit n) = 4%nat
  /\ nth 0 (build_sixbit n) 0 <> 0.
Proof.
  intros Hb He Lb Le.
  destruct base as [|b1 [|b2 [|b3 [|b4 [|b5 [|b6 [|b7 base]]]]]]];
    cbn [String.length] in Lb; try lia;
    (destruct ext as [|e1 [|e2 [|e3 ext]]]; cbn [String.length] in Le;
     try lia);
    destruct dotted; sixbit_case.
Qed.

(** ** The legal names *)

Lemma length_append (a b : string) :
  String.length (a ++ b) = (String.length a + String.length b)%nat.
Proof. induction a as [|c a IH]; cbn; [reflexivity|now rewrite IH]. Qed.

Lemma append_nil_r (a : string) : (a ++ "")%string = a.
Proof. induction a as [|c a IH]; cbn; [reflexivity|now rewrite IH]. Qed.

Lemma append_assoc (a b c : string) :
  ((a ++ b) ++ c)%string = (a ++ b ++ c)%string.
Proof. induction a as [|x a IH]; cbn; [reflexivity|now rewrite IH]. Qed.

Lemma string_from_append (a b : string) :
  string_from (String.length a) (a ++ b) = b.
Proof. induction a as [|c a IH]; cbn; [reflexivity|exact IH]. Qed.

Lemma all_chars_append (p : Z -> bool) (a b : string) :
  all_chars p (a ++ b) = all_chars p a && all_chars p b.
Proof.
  induction a as [|c a IH]; cbn; [reflexivity|].
  now rewrite IH, andb_assoc.
Qed.

Lemma all_chars_weaken (p q : Z -> bool) (s : string) :
  (forall c, p c = true -> q c = true) ->
  all_chars p s = true -> all_chars q s = true.
Proof.
  intros Hpq. induction s as [|a s IH]; cbn; [reflexivity|].
  rewrite !andb_true_iff. intros [H1 H2]. auto.
Qed.

Lemma strcspn_dot_plain (base rest : string) :
  all_chars (fun c => negb (c =? 46)) base = true ->
  strcspn_dot (base ++ rest) = (String.length base + strcspn_dot rest)%nat.
Proof.
  induction base as [|a base IH]; cbn; [reflexivity|].
  rewrite andb_true_iff, negb_true_iff. intros [H1 H2].
  rewrite H1, IH by exact H2. reflexivity.
Qed.

Lemma strcspn_dot_rest (p rest : string) :
  String.length p = strcspn_dot (p ++ rest) ->
  rest = EmptyString \/ exists ext, rest = String "."%char ext.
Proof.
  induction p as [|a p IH]; cbn.
  - destruct rest as [|b rest]; [auto|]. cbn.
    destruct (Z.eqb_spec (code b) 46) as [E|E]; [|discriminate].
    intros _. right. exists rest. f_equal. apply code_inj. exact E.
  - destruct (code a =? 46); [discriminate|].
    intros H. apply IH. congruence.
Qed.

(** The shape of a part that the loop of [os8_filename_part_p] accepts. *)
Lemma part_loop_sound (s : string) :
  forall k len,
    os8_filename_part_loop s k len = true ->
    exists p rest body,
      s = (p ++ rest)%string /\ String.length p = (len - k)%nat
      /\ (p = body \/ p = (body ++ "*")%string)
      /\ all_chars isalnum body = true
      /\ (k = O -> match body with
                   | EmptyString => True
                   | String a _ => isalpha (code a) = true
                   end).
Proof.
  induction s as [|a s IH]; intros k len H.
  - exists EmptyString, EmptyString, EmptyString.
    cbn in H. destruct (Nat.leb_spec len k); [|discriminate].
    cbn. repeat split; auto. lia.
  - cbn [os8_filename_part_loop] in H.
    destruct (Nat.leb_spec len k) as [Hle|Hlt].
    { exists EmptyString, (String a s), EmptyString.
      cbn. repeat split; auto. lia. }
    destruct (Z.eqb_spec (code a) 42) as [E|E].
    { apply Nat.eqb_eq in H.
      exists (String a EmptyString), s, EmptyString. cbn.
      repeat split; auto; [lia|]. right. f_equal. apply code_inj. exact E. }
    destruct (negb (isalnum (code a)) || _) eqn:B; [discriminate|].
    apply orb_false_iff in B as [B1 B2]. apply negb_false_iff in B1.
    destruct (IH _ _ H) as (p & rest & body & -> & L & Hp & Hb & _).
    exists (String a p), rest, (String a body). cbn.
    split; [reflexivity|]. split; [lia|].
    split; [destruct Hp as [->| ->]; auto|].
    split; [now rewrite B1, Hb|].
    intros ->. cbn in B2. now apply negb_false_iff in B2.
Qed.

Lemma part_loop_complete (body rest : string) (star : bool) :
  forall k,
    all_chars isalnum body = true ->
    (k = O -> match body with
              | EmptyString => True
              | String a _ => isalpha (code a) = true
              end) ->
    os8_filename_part_loop
      (body ++ (if star then "*" else "") ++ rest) k
      (k + String.length body + (if star then 1 else 0)) = true.
Proof.
  induction body as [|a body IH]; intros k Hb Hk.
  - destruct star; cbn [append String.length].
    + cbn [os8_filename_part_loop].
      destruct (Nat.leb_spec (k + 0 + 1) k); [lia|].
      change (code "*"%char =? 42) with true. cbv iota.
      apply Nat.eqb_eq. lia.
    + destruct rest; cbn [os8_filename_part_loop];
        destruct (Nat.leb_spec (k + 0 + 0) k); auto; lia.
  - cbn [append String.length os8_filename_part_loop].
    cbn [all_chars] in Hb. apply andb_true_iff in Hb as [Ha Hb].
    destruct (Nat.leb_spec (k + S (String.length body)
                            + (if star then 1 else 0)) k); [lia|].
    destruct (alnum_char a Ha) as (_ & _ & E & _). rewrite E, Ha.
    cbn [negb orb].
    replace ((k =? 0)%nat && negb (isalpha (code a))) with false.
    + replace (k + S (String.length body) + (if star then 1 else 0))%nat
        with (S k + String.length body + (if star then 1 else 0))%nat by lia.
      apply IH; [exact Hb|discriminate].
    + symmetry. destruct k; [|reflexivity]. cbn. rewrite Hk; reflexivity.
Qed.

Lemma name_part_accepted (s rest : string) :
  name_part s ->
  os8_filename_part_p (s ++ rest) (String.length s) = true.
Proof.
  intros (body & Hs & Hb & Ha). unfold os8_filename_part_p.
  destruct Hs as [->| ->].
  - pose proof (part_loop_complete body rest false O Hb (fun _ => Ha)) as H.
    cbn [append] in H. rewrite Nat.add_0_r in H. exact H.
  - pose proof (part_loop_complete body rest true O Hb (fun _ => Ha)) as H.
    rewrite append_assoc, length_append. cbn [String.length append] in *.
    exact H.
Qed.

Lemma part_accepted_name (s : string) (len : nat) :
  os8_filename_part_p s len = true ->
  exists p rest,
    s = (p ++ rest)%string /\ String.length p = len /\ name_part p.
Proof.
  intros H. unfold os8_filename_part_p in H.
  destruct (part_loop_sound _ _ _ H) as (p & rest & body & E & L & Hp & Hb & Ha).
  exists p, rest. split; [exact E|]. split; [lia|].
  exists body. split; [destruct Hp; auto|].
  split; [exact Hb|exact (Ha eq_refl)].
Qed.

Lemma name_part_no_dot (s : string) :
  name_part s -> all_chars (fun c => negb (c =? 46)) s = true.
Proof.
  intros (body & Hs & Hb & _).
  assert (H : all_chars (fun c => negb (c =? 46)) body = true).
  { apply (all_chars_weaken isalnum); [|exact Hb].
    intros c Hc. apply negb_true_iff.
    unfold isalnum, isalpha in Hc. lia. }
  destruct Hs as [->| ->]; [exact H|].
  rewrite all_chars_append, H. reflexivity.
Qed.

Lemma legal_name_accepted (filename : string) :
  legal_name filename -> os8_filename_p filename = true.
Proof.
  intros (base & ext & Hn & Hb & He & Lb & Le).
  pose proof (name_part_no_dot base Hb) as Nb.
  unfold os8_filename_p. destruct Hn as [->| ->].
  - pose proof (strcspn_dot_plain base EmptyString Nb) as E.
    rewrite append_nil_r in E. cbn [strcspn_dot] in E. rewrite E.
    rewrite Nat.add_0_r, Z.sub_diag. cbn [Z.eqb negb andb].
    rewrite Nat2Z.id.
    pose proof (name_part_accepted base EmptyString Hb) as P.
    rewrite append_nil_r in P. rewrite P.
    replace (Z.of_nat (String.length base) <? 1) with false
      by (symmetry; apply Z.ltb_ge; lia).
    replace (Z.of_nat (String.length base) >? 6) with false
      by (symmetry; rewrite Z.gtb_ltb; apply Z.ltb_ge; lia).
    reflexivity.
  - rewrite (strcspn_dot_plain base _ Nb). cbn [append strcspn_dot].
    change (code "."%char =? 46) with true. cbv iota.
    rewrite Nat.add_0_r, length_append. cbn [String.length].
    replace (Z.of_nat (String.length base + S (String.length ext))
             - Z.of_nat (String.length base))
      with (Z.of_nat (String.length ext) + 1) by lia.
    replace (Z.of_nat (String.length ext) + 1 - 1)
      with (Z.of_nat (String.length ext)) by lia.
    rewrite Nat2Z.id.
    replace (Z.to_nat (Z.of_nat (String.length base) + 1))
      with (String.length base + 1)%nat by lia.
    assert (F : string_from (String.length base + 1)
                  (base ++ String "."%char ext) = ext).
    { clear. induction base as [|c base IH]; cbn; [reflexivity|exact IH]. }
    rewrite F.
    pose proof (name_part_accepted ext EmptyString He) as P.
    rewrite append_nil_r in P. rewrite P.
    rewrite Nat2Z.id, (name_part_accepted base _ Hb).
    replace (Z.of_nat (String.length ext) + 1 >? 3) with false
      by (symmetry; rewrite Z.gtb_ltb; apply Z.ltb_ge; lia).
    replace (Z.of_nat (String.length base) <? 1) with false
      by (symmetry; apply Z.ltb_ge; lia).
    replace (Z.of_nat (String.length base) >? 6) with false
      by (symmetry; rewrite Z.gtb_ltb; apply Z.ltb_ge; lia).
    cbn [negb andb orb]. rewrite andb_false_r. reflexivity.
Qed.

Lemma accepted_legal_name (filename : string) :
  os8_filename_p filename = true -> legal_name filename.
Proof.
  unfold os8_filename_p. intros H.
  destruct (negb (_ =? 0) && _) eqn:A; [discriminate|].
  destruct ((_ <? 1) || _ || _) eqn:B; [discriminate|]. clear H.
  apply orb_false_iff in B as [B B3]. apply orb_false_iff in B as [B1 B2].
  apply negb_false_iff in B3. rewrite Nat2Z.id in B3.
  apply Z.ltb_ge in B1. rewrite Z.gtb_ltb in B2. apply Z.ltb_ge in B2.
  destruct (part_accepted_name _ _ B3) as (base & rest & E & Lb & Hb).
  assert (Empty : name_part EmptyString).
  { exists EmptyString. split; [auto|]. split; [reflexivity|exact I]. }
  assert (Hr : String.length base = strcspn_dot (base ++ rest)) by congruence.
  destruct (strcspn_dot_rest _ _ Hr) as [->|(ext & ->)].
  - rewrite append_nil_r in E. subst filename.
    exists base, EmptyString. cbn. repeat split; auto; lia.
  - exists base, ext.
    rewrite E, length_append, <- E, <- Lb in A. cbn [String.length] in A.
    replace (Z.of_nat (String.length base + S (String.length ext))
             - Z.of_nat (String.length base))
      with (Z.of_nat (String.length ext) + 1) in A by lia.
    replace (Z.of_nat (String.length ext) + 1 =? 0) with false in A
      by (symmetry; apply Z.eqb_neq; lia).
    cbn [negb andb] in A. apply orb_false_iff in A as [A1 A2].
    rewrite Z.gtb_ltb in A1. apply Z.ltb_ge in A1.
    apply negb_false_iff in A2.
    replace (Z.of_nat (String.length ext) + 1 - 1)
      with (Z.of_nat (String.length ext)) in A2 by lia.
    rewrite Nat2Z.id in A2.
    replace (Z.to_nat (Z.of_nat (String.length base) + 1))
      with (String.length base + 1)%nat in A2 by lia.
    assert (F : string_from (String.length base + 1)
                  (base ++ String "."%char ext) = ext).
    { clear. induction base as [|c base IH]; cbn; [reflexivity|exact IH]. }
    rewrite E, F in A2.
    destruct (part_accepted_name _ _ A2) as (p2 & r2 & E2 & L2 & H2).
    assert (r2 = EmptyString).
    { pose proof (length_append p2 r2) as L. rewrite <- E2 in L.
      destruct r2; [reflexivity|]. cbn [String.length] in L. lia. }
    subst r2. rewrite append_nil_r in E2. subst p2.
    split; [right; exact E|]. repeat split; auto; lia.
Qed.
Lemma wildcard_append (a b : string) :
  os8_contains_wildcard_p (a ++ b)
  = os8_contains_wildcard_p a || os8_contains_wildcard_p b.
Proof.
  induction a as [|c a IH]; cbn; [reflexivity|].
  now rewrite IH, orb_assoc.
Qed.

Lemma name_part_plain (s : string) :
  name_part s -> os8_contains_wildcard_p s = false ->
  all_chars isalnum s = true.
Proof.
  intros (body & [->| ->] & Hb & _) Hw; [exact Hb|].
  rewrite wildcard_append in Hw. apply orb_false_iff in Hw as [_ Hw].
  discriminate.
Qed.

(** A legal name without a star: letters and digits, and maybe a dot. *)
Lemma legal_plain (filename : string) :
  os8_filename_p filename = true ->
  os8_contains_wildcard_p filename = false ->
  exists base ext (dotted : bool),
    filename = (if dotted then base ++ "." ++ ext else base)%string
    /\ all_chars isalnum base = true /\ all_chars isalnum ext = true
    /\ (1 <= String.length base <= 6)%nat /\ (String.length ext <= 2)%nat.
Proof.
  intros Hp Hw.
  destruct (accepted_legal_name _ Hp) as (base & ext & Hn & Hb & He & Lb & Le).
  destruct Hn as [->| ->].
  - exists base, EmptyString, false.
    cbn [String.length]. repeat split; try lia; try reflexivity.
    apply name_part_plain; assumption.
  - rewrite !wildcard_append in Hw.
    apply orb_false_iff in Hw as [W1 W2]. apply orb_false_iff in W2 as [_ W2].
    exists base, ext, true. repeat split; try lia;
      apply name_part_plain; assumption.
Qed.

Lemma legal_sixbit (filename : string) :
  os8_filename_p filename = true ->
  os8_contains_wildcard_p filename = false ->
  get_filename (build_sixbit filename) = listed_name filename
  /\ Forall word12 (build_sixbit filename)
  /\ List.length (build_sixbit filename) = 4%nat
  /\ nth 0 (build_sixbit filename) 0 <> 0.
Proof.
  intros Hp Hw.
  destruct (legal_plain _ Hp Hw) as (base & ext & dotted & -> & Hb & He & Lb & Le).
  apply (plain_name_sixbit base ext dotted Hb He Lb Le).
Qed.

(** Lower case and a dot at the end make no difference to the six-bit
    name. *)
Lemma build_sixbit_loop_lower (s : string) :
  forall name i,
    build_sixbit_loop (convert_lower s) name i = build_sixbit_loop s name i.
Proof.
  induction s as [|a s IH]; intros name i; [reflexivity|].
  cbn [convert_lower build_sixbit_loop].
  destruct (lower_char a) as (E1 & E2 & E3). rewrite E1, E2, E3, !IH.
  reflexivity.
Qed.

Lemma build_sixbit_loop_drop (s : string) :
  forall name i,
    build_sixbit_loop (drop_last_dot s) name i = build_sixbit_loop s name i.
Proof.
  induction s as [|a s IH]; intros name i; [reflexivity|].
  cbn [drop_last_dot]. destruct s as [|b s].
  - destruct (code a =? 46) eqn:E; [|reflexivity].
    cbn [build_sixbit_loop]. rewrite E.
    destruct (code a =? 42); reflexivity.
  - cbn [build_sixbit_loop] in *. rewrite !IH. reflexivity.
Qed.

Lemma build_sixbit_listed (s : string) :
  build_sixbit (listed_name s) = build_sixbit s.
Proof.
  unfold build_sixbit, listed_name.
  rewrite build_sixbit_loop_lower. apply build_sixbit_loop_drop.
Qed.

Lemma build_mask_part_plain (s : string) :
  forall mask i finish,
    os8_contains_wildcard_p s = false ->
    build_mask_part s mask i finish = mask.
Proof.
  induction s as [|a s IH]; intros mask i finish H; [reflexivity|].
  cbn [os8_contains_wildcard_p] in H. apply orb_false_iff in H as [H1 H2].
  cbn [build_mask_part]. rewrite H1.
  destruct (code a =? 46); [reflexivity|]. apply IH, H2.
Qed.

Lemma after_dot_plain (s ext : string) :
  os8_contains_wildcard_p s = false -> after_dot s = Some ext ->
  os8_contains_wildcard_p ext = false.
Proof.
  induction s as [|a s IH]; cbn; [discriminate|].
  intros H. apply orb_false_iff in H as [H1 H2].
  destruct (code a =? 46); [congruence|auto].
Qed.

Lemma build_mask_plain (s : string) :
  os8_contains_wildcard_p s = false ->
  build_mask s = [4095; 4095; 4095; 4095].
Proof.
  intros H. unfold build_mask. rewrite build_mask_part_plain by exact H.
  destruct (after_dot s) as [ext|] eqn:E; [|reflexivity].
  apply build_mask_part_plain. apply (after_dot_plain s ext H E).
Qed.

Lemma contains_os8_colon (s : string) :
  all_chars (fun c => negb (c =? 58)) s = true -> contains_os8 s = false.
Proof.
  induction s as [|a s IH]; [reflexivity|].
  intros H. cbn [contains_os8]. rewrite IH.
  2:{ cbn [all_chars] in H. apply andb_true_iff in H. tauto. }
  rewrite orb_false_r.
  destruct a as [[|] [|] [|] [|] [|] [|] [|] [|]]; try reflexivity.
  destruct s as [|b s]; [reflexivity|].
  destruct b as [[|] [|] [|] [|] [|] [|] [|] [|]]; try reflexivity.
  destruct s as [|c s]; [reflexivity|].
  destruct c as [[|] [|] [|] [|] [|] [|] [|] [|]]; try reflexivity.
  destruct s as [|e s]; [reflexivity|].
  destruct e as [[|] [|] [|] [|] [|] [|] [|] [|]]; try reflexivity.
  cbn in H. discriminate.
Qed.

Lemma strip_device_legal (filename : string) :
  os8_filename_p filename = true -> strip_device filename = filename.
Proof.
  intros Hp. unfold strip_device. rewrite contains_os8_colon; [reflexivity|].
  destruct (accepted_legal_name _ Hp) as (base & ext & Hn & Hb & He & _).
  assert (P : forall s, name_part s ->
                all_chars (fun c => negb (c =? 58)) s = true).
  { intros s (body & Hs & Hbody & _).
    assert (H : all_chars (fun c => negb (c =? 58)) body = true).
    { apply (all_chars_weaken isalnum); [|exact Hbody].
      intros c Hc. apply negb_true_iff.
      unfold isalnum, isalpha in Hc. lia. }
    destruct Hs as [->| ->]; [exact H|].
    rewrite all_chars_append, H. reflexivity. }
  destruct Hn as [->| ->]; [apply P, Hb|].
  rewrite !all_chars_append, (P _ Hb), (P _ He). reflexivity.
Qed.

Lemma xor_mask_eqb (a b : Z) :
  word12 a -> word12 b ->
  (Z.land (Z.lxor a b) 4095 =? 0) = (a =? b).
Proof.
  intros Ha Hb. unfold word12 in *.
  assert (M : forall x, 0 <= x < 4096 -> Z.land x 4095 = x).
  { intros x Hx. change 4095 with (Z.ones 12).
    rewrite Z.land_ones by lia. apply Z.mod_small. exact Hx. }
  assert (X : Z.land (Z.lxor a b) 4095 = Z.lxor a b).
  { apply Z.bits_inj'. intros n Hn.
    rewrite Z.land_spec, !Z.lxor_spec.
    rewrite <- (M a Ha) at 1 2. rewrite <- (M b Hb) at 1 2.
    rewrite !Z.land_spec.
    destruct (Z.testbit a n), (Z.testbit b n), (Z.testbit 4095 n);
      reflexivity. }
  rewrite X.
  destruct (Z.eqb_spec a b) as [->|N].
  - rewrite Z.lxor_nilpotent. reflexivity.
  - apply Z.eqb_neq. intros E. apply N, Z.lxor_eq, E.
Qed.

Lemma pattern_match_p_full (name w : list Z) :
  List.length name = 4%nat -> List.length w = 4%nat ->
  Forall word12 name -> Forall word12 w ->
  (pattern_match_p name (mk_pattern [4095; 4095; 4095; 4095] w) = true
   <-> name = w).
Proof.
  intros Ln Lw Hn Hw.
  destruct name as [|n0 [|n1 [|n2 [|n3 [|]]]]]; try discriminate.
  destruct w as [|w0 [|w1 [|w2 [|w3 [|]]]]]; try discriminate.
  repeat match goal with
         | H : Forall _ (_ :: _) |- _ => inversion H; clear H; subst
         end.
  unfold pattern_match_p. cbn [seq existsb nth mask pmatch].
  rewrite !xor_mask_eqb by assumption.
  rewrite orb_false_r, negb_true_iff, !orb_false_iff, !negb_false_iff,
    !Z.eqb_eq.
  split; [intros (-> & -> & -> & ->); reflexivity|].
  intros E. injection E as -> -> -> ->. auto.
Qed.

Lemma stored_name_word12 (nm : list Z) :
  List.length nm = 4%nat -> Forall word12 nm -> stored_name nm = nm.
Proof.
  intros L H.
  destruct nm as [|n0 [|n1 [|n2 [|n3 [|]]]]]; try discriminate.
  repeat match goal with
         | H : Forall _ (_ :: _) |- _ => inversion H; clear H; subst
         end.
  unfold stored_name, word12 in *. cbn [seq map nth].
  rewrite !u16_small by lia. reflexivity.
Qed.

Lemma pattern_same_name (n m : string) :
  os8_filename_p n = true -> os8_contains_wildcard_p n = false ->
  os8_filename_p m = true -> os8_contains_wildcard_p m = false ->
  (pattern_match_p (stored_name (build_sixbit n))
                   (build_pattern (strip_device m)) = true
   <-> listed_name n = listed_name m).
Proof.
  intros Hn Wn Hm Wm.
  destruct (legal_sixbit n Hn Wn) as (Gn & W12n & Ln & _).
  destruct (legal_sixbit m Hm Wm) as (Gm & W12m & Lm & _).
  rewrite strip_device_legal by exact Hm.
  rewrite stored_name_word12 by assumption.
  unfold build_pattern. rewrite build_mask_plain by exact Wm.
  rewrite pattern_match_p_full by assumption.
  split.
  - intros E. rewrite <- Gn, <- Gm, E. reflexivity.
  - intros E. rewrite <- (build_sixbit_listed n), <- (build_sixbit_listed m), E.
    reflexivity.
Qed.

(** X1 (os8_filename_p).  The names that [os8_filename_p] accepts are
    exactly these: one to six characters, then possibly a dot and at most
    two more characters, where each of the two parts consists of letters and
    digits, starts with a letter, and may end in one star (a part may also
    be the star alone).  So an extension must start with a letter, and a
    name may end in a dot. *)
Theorem os8_filename_p_accepts_legal_names (filename : string) :
  os8_filename_p filename = true <-> legal_name filename.
Proof.
  split; [apply accepted_legal_name|apply legal_name_accepted].
Qed.

(** X2 (build_sixbit, get_filename).  For every name that
    [os8_filename_p] accepts and that holds no star, the name read back by
    [get_filename] from the four words of [build_sixbit] is the name in
    lower case, without the dot when it ends in one. *)
Theorem get_filename_of_build_sixbit (filename : string) :
  os8_filename_p filename = true ->
  os8_contains_wildcard_p filename = false ->
  get_filename (build_sixbit filename) = listed_name filename.
Proof. intros Hp Hw. apply (legal_sixbit filename Hp Hw). Qed.

Lemma get_filename_of_build_sixbit_witness :
  get_filename (build_sixbit "Pip8.Sv") = "pip8.sv"%string.
Proof.
  apply (get_filename_of_build_sixbit "Pip8.Sv"); reflexivity.
Defined.

(** X3 (build_pattern, pattern_match_p).  For names [n] and [m] that
    [os8_filename_p] accepts and that hold no star, the pattern built from
    [m] matches the stored six-bit name of [n] exactly when the two names
    are the same up to the case of letters and a dot at the end. *)
Theorem pattern_matches_same_name (n m : string) :
  os8_filename_p n = true -> os8_contains_wildcard_p n = false ->
  os8_filename_p m = true -> os8_contains_wildcard_p m = false ->
  (pattern_match_p (stored_name (build_sixbit n))
                   (build_pattern (strip_device m)) = true
   <-> listed_name n = listed_name m).
Proof. apply pattern_same_name. Qed.

Lemma pattern_matches_same_name_witness :
  pattern_match_p (stored_name (build_sixbit "Pip8.Sv"))
                  (build_pattern (strip_device "PIP8.sv")) = true
  <-> listed_name "Pip8.Sv" = listed_name "PIP8.sv".
Proof.
  apply (pattern_matches_same_name "Pip8.Sv" "PIP8.sv"); reflexivity.
Defined.


(** * Text copy: image to host, and the round trip *)

(** Three characters out of the two words they were packed in. *)
Lemma unpack_group (a b c : Z) :
  byte8 a -> byte8 b -> byte8 c ->
  schar (u8 (Z.land (Z.lor a (Z.shiftl (Z.land c 240) 4)) 127))
  = Z.land a 127
  /\ schar (u8 (Z.land (Z.lor b (Z.shiftl (Z.land c 15) 8)) 127))
     = Z.land b 127
  /\ schar (u8 (Z.lor
                  (Z.land (Z.shiftr (Z.lor a (Z.shiftl (Z.land c 240) 4)) 4)
                          112)
                  (Z.shiftr (Z.lor b (Z.shiftl (Z.land c 15) 8)) 8)))
     = Z.land c 127.
Proof.
  intros Ha Hb Hc.
  assert (E1 : below 256 (fun a => below 256 (fun c =>
     (schar (u8 (Z.land (Z.lor a (Z.shiftl (Z.land c 240) 4)) 127))
      =? Z.land a 127)
     && (Z.land (Z.shiftr (Z.lor a (Z.shiftl (Z.land c 240) 4)) 4) 112
         =? Z.land c 112))) = true) by (vm_compute; reflexivity).
  assert (E2 : below 256 (fun b => below 256 (fun c =>
     (schar (u8 (Z.land (Z.lor b (Z.shiftl (Z.land c 15) 8)) 127))
      =? Z.land b 127)
     && (Z.shiftr (Z.lor b (Z.shiftl (Z.land c 15) 8)) 8
         =? Z.land c 15))) = true) by (vm_compute; reflexivity).
  assert (E3 : below 256 (fun c =>
     schar (u8 (Z.lor (Z.land c 112) (Z.land c 15))) =? Z.land c 127) = true)
    by (vm_compute; reflexivity).
  pose proof (below_spec _ _ (below_spec _ _ E1 a Ha) c Hc) as H1.
  pose proof (below_spec _ _ (below_spec _ _ E2 b Hb) c Hc) as H2.
  pose proof (below_spec _ _ E3 c Hc) as H3. cbv beta in H1, H2, H3.
  apply andb_true_iff in H1 as [A1 A2]. apply andb_true_iff in H2 as [B1 B2].
  apply Z.eqb_eq in A1, A2, B1, B2, H3.
  rewrite A2, B2. auto.
Qed.

Lemma low_seven (c : Z) :
  byte8 c -> 0 <= Z.land c 127 < 128 /\ u8 (Z.land c 127) = Z.land c 127.
Proof.
  intros Hc.
  assert (E : below 256 (fun c =>
     (0 <=? Z.land c 127) && (Z.land c 127 <? 128)
     && (u8 (Z.land c 127) =? Z.land c 127)) = true)
    by (vm_compute; reflexivity).
  pose proof (below_spec _ _ E c Hc) as H. cbv beta in H.
  rewrite !andb_true_iff in H. destruct H as ((A1 & A2) & A3).
  apply Z.leb_le in A1. apply Z.ltb_lt in A2. apply Z.eqb_eq in A3. auto.
Qed.

Lemma pack3_word12 (a b c : Z) :
  byte8 a -> byte8 b -> byte8 c -> Forall word12 (pack3 a b c).
Proof.
  intros Ha Hb Hc.
  assert (E : below 256 (fun a => below 256 (fun c =>
     word12b (Z.lor a (Z.shiftl (Z.land c 240) 4))
     && word12b (Z.lor a (Z.shiftl (Z.land c 15) 8)))) = true)
    by (vm_compute; reflexivity).
  pose proof (below_spec _ _ (below_spec _ _ E a Ha) c Hc) as H1.
  pose proof (below_spec _ _ (below_spec _ _ E b Hb) c Hc) as H2.
  cbv beta in H1, H2.
  apply andb_true_iff in H1 as [A1 _]. apply andb_true_iff in H2 as [_ B2].
  apply word12b_spec in A1, B2. unfold pack3.
  apply Forall_cons; [exact A1|apply Forall_cons; [exact B2|constructor]].
Qed.

Lemma pack_chars_word12 (cs : list Z) :
  Forall byte8 cs -> Forall word12 (pack_chars cs).
Proof.
  assert (Z0 : byte8 0) by (unfold byte8; lia).
  induction cs as [|a|a b|a b c rest IH] using list_ind3; intros H.
  - constructor.
  - inversion H; subst. apply pack3_word12; assumption.
  - inversion H as [|? ? Ha H1]; subst. inversion H1; subst.
    apply pack3_word12; assumption.
  - inversion H as [|? ? Ha H1]; subst. inversion H1 as [|? ? Hb H2]; subst.
    inversion H2 as [|? ? Hc H3]; subst.
    cbn [pack_chars]. apply Forall_app. split; [|apply IH, H3].
    apply pack3_word12; assumption.
Qed.

Lemma host_words_fwrite_words (ws : list Z) :
  Forall word12 ws -> host_words (fwrite_words ws) = ws.
Proof.
  induction 1 as [|w ws Hw _ IH]; [reflexivity|].
  change (fwrite_words (w :: ws))
    with (Z.land w 255 :: Z.shiftr w 8 :: fwrite_words ws).
  cbn [host_words]. rewrite IH. f_equal.
  assert (E : below 4096 (fun w =>
     Z.lor (Z.land w 255) (Z.shiftl (Z.shiftr w 8) 8) =? w) = true)
    by (vm_compute; reflexivity).
  apply Z.eqb_eq, (below_spec _ _ E w Hw).
Qed.

Lemma fwrite_words_bytes (ws : list Z) :
  Forall word12 ws ->
  Forall byte8 (fwrite_words ws)
  /\ List.length (fwrite_words ws) = (2 * List.length ws)%nat.
Proof.
  induction 1 as [|w ws Hw _ (IH1 & IH2)]; [split; [constructor|reflexivity]|].
  change (fwrite_words (w :: ws))
    with (Z.land w 255 :: Z.shiftr w 8 :: fwrite_words ws).
  assert (E : below 4096 (fun w =>
     byte8b (Z.land w 255) && byte8b (Z.shiftr w 8)) = true)
    by (vm_compute; reflexivity).
  pose proof (below_spec _ _ E w Hw) as H. cbv beta in H.
  apply andb_true_iff in H as [A B]. apply byte8b_spec in A, B.
  split; [|cbn [List.length]; lia].
  apply Forall_cons; [exact A|apply Forall_cons; [exact B|exact IH1]].
Qed.

(** ** The inner loop *)

Lemma unpack_chars_plain (cs : list Z) :
  forall cnt output,
    Forall (fun c => Z.land c 127 <> 26) cs ->
    unpack_chars cs cnt output
    = (cnt + Z.of_nat (List.length cs), false,
       output ++ filter text_char_kept (map (fun c => Z.land c 127) cs)).
Proof.
  induction cs as [|c cs IH]; intros cnt output H.
  - cbn. rewrite Z.add_0_r, app_nil_r. reflexivity.
  - inversion H as [|? ? Hc Hcs]; subst.
    cbn [unpack_chars map filter List.length].
    replace (Z.land c 127 =? 26) with false
      by (symmetry; apply Z.eqb_neq; exact Hc).
    rewrite IH by exact Hcs.
    f_equal; [f_equal; lia|].
    destruct (text_char_kept (Z.land c 127)); [|reflexivity].
    rewrite <- app_assoc. reflexivity.
Qed.

Lemma unpack_chars_ctrl_z (body rest : list Z) :
  forall cnt output,
    Forall (fun c => Z.land c 127 <> 26) body ->
    unpack_chars (body ++ 154 :: rest) cnt output
    = (cnt + Z.of_nat (List.length body) + 1, true,
       output ++ filter text_char_kept (map (fun c => Z.land c 127) body)).
Proof.
  induction body as [|c body IH]; intros cnt output H.
  - cbn [app unpack_chars List.length map filter].
    change (Z.land 154 127) with 26 || change (Z.land 154 127 =? 26) with true.
    rewrite Z.add_0_r, app_nil_r.
    replace (Z.land 154 127) with 26 by (vm_compute; reflexivity).
    reflexivity.
  - inversion H as [|? ? Hc Hcs]; subst.
    cbn [app unpack_chars map filter List.length].
    replace (Z.land c 127 =? 26) with false
      by (symmetry; apply Z.eqb_neq; exact Hc).
    rewrite IH by exact Hcs.
    f_equal; [f_equal; lia|].
    destruct (text_char_kept (Z.land c 127)); [|reflexivity].
    rewrite <- app_assoc. reflexivity.
Qed.

Lemma rd_app_at (pre ws : list Z) (k : nat) :
  rd (pre ++ ws) (Z.of_nat (List.length pre) + Z.of_nat k) = nth k ws 0.
Proof.
  unfold rd.
  replace (Z.of_nat (List.length pre) + Z.of_nat k <? 0) with false
    by (symmetry; apply Z.ltb_ge; lia).
  replace (Z.to_nat (Z.of_nat (List.length pre) + Z.of_nat k))
    with (List.length pre + k)%nat by lia.
  rewrite app_nth2 by lia. f_equal. lia.
Qed.

(** One turn of the inner loop. *)
Lemma unpack_text_block_step (fuel : nat) (block : list Z) (ptr cnt : Z)
  (output : list Z) :
  ptr < 256 -> 0 <= cnt -> cnt + 1 < 2 ^ 32 ->
  unpack_text_block (S fuel) block ptr cnt false output
  = let r := cnt mod 3 in
    let ch :=
      if r =? 0 then schar (u8 (Z.land (rd block ptr) 127))
      else if r =? 1 then schar (u8 (Z.land (rd block (ptr + 1)) 127))
      else schar (u8 (Z.lor (Z.land (Z.shiftr (rd block ptr) 4) 112)
                            (Z.shiftr (rd block (ptr + 1)) 8))) in
    unpack_text_block fuel block
      (if (r =? 0) || (r =? 1) then ptr else ptr + 2) (cnt + 1) (ch =? 26)
      (if text_char_kept ch then output ++ [u8 ch] else output).
Proof.
  intros Hp Hc Hc1. cbn [unpack_text_block negb andb].
  replace (ptr <? OS8_BLOCK_SIZE) with true
    by (symmetry; apply Z.ltb_lt; unfold OS8_BLOCK_SIZE; lia).
  rewrite (Z.mod_small (cnt + 1)) by lia. reflexivity.
Qed.

Lemma unpack_text_block_eof (fuel : nat) (block : list Z) (ptr cnt : Z)
  (output : list Z) :
  unpack_text_block (S fuel) block ptr cnt true output
  = Some (cnt, true, output).
Proof. reflexivity. Qed.

Lemma unpack_text_block_chars (chars : list Z) :
  forall pre fuel cnt output block k,
    block = pre ++ pack_chars chars -> List.length block = 256%nat ->
    List.length chars = (3 * k)%nat ->
    Forall byte8 chars -> 0 <= cnt -> cnt mod 3 = 0 ->
    cnt + Z.of_nat (List.length chars) < 2 ^ 32 ->
    (List.length chars < fuel)%nat ->
    unpack_text_block fuel block (Z.of_nat (List.length pre)) cnt false output
    = Some (unpack_chars chars cnt output).
Proof.
  induction chars as [|a|a b|a b c rest IH] using list_ind3;
    intros pre fuel cnt output block k Eb Lb Lm HB Hc Hr Hlim Hf;
    try (cbn [List.length] in Lm; lia).
  - destruct fuel as [|fuel]; [cbn in Hf; lia|].
    cbn [pack_chars] in Eb. rewrite app_nil_r in Eb. subst block.
    cbn [unpack_text_block unpack_chars negb andb]. rewrite Lb.
    reflexivity.
  - inversion HB as [|? ? Ha H1]; subst. inversion H1 as [|? ? Hb H2]; subst.
    inversion H2 as [|? ? Hcc H3]; subst. clear HB H1 H2.
    cbn [List.length] in *.
    destruct fuel as [|[|[|fuel]]]; try lia.
    assert (Lp : Z.of_nat (List.length pre) + 2 <= 256).
    { rewrite length_app in Lb. cbn [pack_chars pack3 app List.length] in Lb.
      lia. }
    assert (R0 : rd (pre ++ pack_chars (a :: b :: c :: rest))
                    (Z.of_nat (List.length pre))
                 = Z.lor a (Z.shiftl (Z.land c 240) 4)).
    { pose proof (rd_app_at pre (pack_chars (a :: b :: c :: rest)) 0) as R.
      rewrite Z.add_0_r in R. exact R. }
    assert (R1 : rd (pre ++ pack_chars (a :: b :: c :: rest))
                    (Z.of_nat (List.length pre) + 1)
                 = Z.lor b (Z.shiftl (Z.land c 15) 8)).
    { exact (rd_app_at pre (pack_chars (a :: b :: c :: rest)) 1). }
    destruct (unpack_group a b c Ha Hb Hcc) as (G0 & G1 & G2).
    destruct (low_seven a Ha) as (_ & Ua). destruct (low_seven b Hb) as (_ & Ub).
    destruct (low_seven c Hcc) as (_ & Uc).
    change (2 ^ 32) with 4294967296 in *.
    (* first character *)
    rewrite unpack_text_block_step by (change (2 ^ 32) with 4294967296; lia).
    cbv zeta. rewrite Hr. cbn [Z.eqb orb]. rewrite R0, G0, Ua.
    cbn [unpack_chars].
    destruct (Z.land a 127 =? 26) eqn:Za;
      [rewrite unpack_text_block_eof; reflexivity|].
    (* second character *)
    rewrite unpack_text_block_step by (change (2 ^ 32) with 4294967296; lia).
    cbv zeta.
    replace ((cnt + 1) mod 3) with 1
      by (Z.to_euclidean_division_equations; lia).
    change (1 =? 0) with false. change (1 =? 1) with true.
    cbn [orb]. cbv iota. rewrite R1, G1, Ub.
    destruct (Z.land b 127 =? 26) eqn:Zb;
      [rewrite unpack_text_block_eof; reflexivity|].
    (* third character *)
    rewrite unpack_text_block_step by (change (2 ^ 32) with 4294967296; lia).
    cbv zeta.
    replace ((cnt + 1 + 1) mod 3) with 2
      by (Z.to_euclidean_division_equations; lia).
    change (2 =? 0) with false. change (2 =? 1) with false.
    cbn [orb]. cbv iota. rewrite R0, R1, G2, Uc.
    destruct (Z.land c 127 =? 26) eqn:Zc.
    { destruct fuel; [lia|]. rewrite unpack_text_block_eof. reflexivity. }
    replace (Z.of_nat (List.length pre) + 2)
      with (Z.of_nat (List.length (pre ++ pack3 a b c)))
      by (rewrite length_app; cbn [pack3 List.length]; lia).
    apply (IH (pre ++ pack3 a b c) fuel _ _ _ (k - 1)%nat).
    + cbn [pack_chars]. rewrite <- app_assoc. reflexivity.
    + exact Lb.
    + lia.
    + exact H3.
    + lia.
    + Z.to_euclidean_division_equations; lia.
    + change (2 ^ 32) with 4294967296. lia.
    + lia.
Qed.

(** ** Packed characters in blocks *)

Lemma pack_chars_app3 (k : nat) :
  forall a b,
    List.length a = (3 * k)%nat ->
    pack_chars (a ++ b) = pack_chars a ++ pack_chars b
    /\ List.length (pack_chars a) = (2 * k)%nat.
Proof.
  induction k as [|k IH]; intros a b L.
  - destruct a; [split; reflexivity|cbn in L; lia].
  - destruct a as [|x [|y [|z a]]]; cbn [List.length] in L; try lia.
    destruct (IH a b ltac:(lia)) as (E1 & E2).
    change ((x :: y :: z :: a) ++ b) with (x :: y :: z :: (a ++ b)).
    cbn [pack_chars]. rewrite E1, <- app_assoc, length_app, E2.
    split; [reflexivity|]. cbn [pack3 List.length]. lia.
Qed.

Lemma pack_chars_zeros (k : nat) :
  pack_chars (repeat 0 (3 * k)) = repeat 0 (2 * k).
Proof.
  induction k as [|k IH]; [reflexivity|].
  replace (3 * S k)%nat with (S (S (S (3 * k)))) by lia.
  replace (2 * S k)%nat with (S (S (2 * k))) by lia.
  cbn [repeat pack_chars]. rewrite IH. reflexivity.
Qed.

(** The zero characters that fill the last group. *)
Lemma pack_chars_pad (cs : list Z) :
  exists p k,
    pack_chars (cs ++ repeat 0 p) = pack_chars cs
    /\ List.length (cs ++ repeat 0 p) = (3 * k)%nat.
Proof.
  induction cs as [|a|a b|a b c rest IH] using list_ind3.
  - exists 0%nat, 0%nat. split; reflexivity.
  - exists 2%nat, 1%nat. split; reflexivity.
  - exists 1%nat, 1%nat. split; reflexivity.
  - destruct IH as (p & k & E & L). exists p, (S k).
    change ((a :: b :: c :: rest) ++ repeat 0 p)
      with (a :: b :: c :: (rest ++ repeat 0 p)).
    cbn [pack_chars List.length]. rewrite E, L. split; [reflexivity|lia].
Qed.

Lemma app_same_length {A : Type} (a c : list A) :
  forall b d,
    List.length a = List.length c -> a ++ b = c ++ d -> a = c /\ b = d.
Proof.
  revert c. induction a as [|x a IH]; intros [|y c] b d L E;
    try discriminate; [auto|].
  cbn in L, E. injection E as -> E.
  destruct (IH c b d ltac:(lia) E) as [-> ->]. auto.
Qed.

(** The text between the marks: what [stream_host_text_file] packs ends in
    the one 0x9A, and stripped of the mark bit and of the characters that
    [stream_os8_text_file] drops it is the plain text. *)
Lemma text_chars_body (input : list Z) :
  Forall seven_bit input ->
  exists body,
    text_chars input = body ++ [154]
    /\ Forall byte8 body
    /\ Forall (fun c => Z.land c 127 <> 26) body
    /\ filter text_char_kept (map (fun c => Z.land c 127) body)
       = plain_text input.
Proof.
  assert (M : forall c, seven_bit c -> Z.land (Z.lor c 128) 127 = c).
  { intros c Hc.
    assert (E : below 128 (fun c => Z.land (Z.lor c 128) 127 =? c) = true)
      by (vm_compute; reflexivity).
    apply Z.eqb_eq, (below_spec _ _ E c Hc). }
  induction 1 as [|c rest Hc Hrest (body & E & HB & HZ & HP)].
  - exists []. repeat split; constructor.
  - unfold text_chars, plain_text in *.
    cbn [upto_ctrl_z existsb].
    destruct (Z.eqb_spec c 26) as [->|Hne].
    + exists []. cbn [orb]. repeat split; constructor.
    + cbn [orb flat_map filter]. rewrite <- app_assoc, E.
      exists (emit c ++ body). rewrite <- app_assoc.
      split; [reflexivity|].
      split; [apply Forall_app; split; [apply emit_bytes, Hc|exact HB]|].
      assert (K13 : Z.land 141 127 = 13) by (vm_compute; reflexivity).
      split.
      * apply Forall_app. split; [|exact HZ]. unfold emit.
        apply Forall_app. split.
        -- destruct (c =? 10); constructor; [rewrite K13; lia|constructor].
        -- destruct (c =? 0); constructor; [rewrite M by exact Hc; exact Hne|].
           constructor.
      * rewrite map_app, filter_app, HP. f_equal. unfold emit.
        destruct (Z.eqb_spec c 10) as [->|N10].
        -- reflexivity.
        -- destruct (Z.eqb_spec c 0) as [->|N0]; [reflexivity|].
           cbn [app map filter]. rewrite M by exact Hc.
           destruct (text_char_kept c); reflexivity.
Qed.

Lemma text_words_pack (input : list Z) :
  Forall seven_bit input ->
  stream_host_text_words false put_state_init input
  = pack_chars (text_chars input).
Proof.
  intros H. rewrite stream_host_text_words_put_chars by exact H.
  rewrite put_chars_pack; [reflexivity| |cbn; lia|reflexivity].
  apply text_chars_bytes, H.
Qed.

Section TextDevice.

Variable write_block : block_writer.
Variable read_block : block_reader.

(** A block of 256 twelve-bit words that was written is read back. *)
Hypothesis write_then_read :
  forall img n b img',
    List.length b = 256%nat -> Forall word12 b ->
    write_block img n b = Some img' -> read_block img' n = Some b.

(** Writing a block leaves the blocks before it as they read. *)
Hypothesis write_keeps_lower :
  forall img n m b img' x,
    0 <= n < m -> List.length b = 256%nat ->
    write_block img m b = Some img' ->
    read_block img n = Some x -> read_block img' n = Some x.

(** A block that is read has 256 words. *)
Hypothesis read_length :
  forall img n b, read_block img n = Some b -> List.length b = 256%nat.

Lemma text_loop_blocks (img : image) (e : entry_t) (blocks : list (list Z)) :
  forall body rest fuel bn cnt out,
    Forall (fun b => List.length b = 256%nat) blocks ->
    concat blocks = pack_chars (body ++ 154 :: rest) ->
    List.length (body ++ 154 :: rest) = (384 * List.length blocks)%nat ->
    Forall byte8 body -> Forall byte8 rest ->
    Forall (fun c => Z.land c 127 <> 26) body ->
    (List.length blocks <= fuel)%nat -> 0 <= bn ->
    bn + Z.of_nat (List.length blocks) < 65536 ->
    0 <= cnt -> cnt mod 3 = 0 ->
    cnt + 384 * Z.of_nat (List.length blocks) < 2 ^ 32 ->
    (forall j, (j < List.length blocks)%nat ->
       read_block img (bn + Z.of_nat j) = Some (nth j blocks [])) ->
    file_block e + e_length e = bn + Z.of_nat (List.length blocks) ->
    stream_os8_text_loop fuel read_block img e bn cnt out
    = Some (Some (out ++ filter text_char_kept
                           (map (fun c => Z.land c 127) body))).
Proof.
  induction blocks as [|b blocks IH];
    intros body rest fuel bn cnt out HL Hcat Hlen HB HR HZ Hf Hbn Hlim Hc Hr
           Hcl Hread Hend.
  - rewrite length_app in Hlen. cbn in Hlen. lia.
  - destruct fuel as [|fuel]; [cbn in Hf; lia|].
    cbn [List.length] in *.
    cbn [stream_os8_text_loop].
    pose proof (Hread 0%nat ltac:(lia)) as R0. rewrite Z.add_0_r in R0.
    cbn [nth] in R0. rewrite R0.
    inversion HL as [|? ? Lb HL']; subst.
    set (chars := body ++ 154 :: rest) in *.
    assert (HBc : Forall byte8 chars).
    { unfold chars. apply Forall_app. split; [exact HB|].
      constructor; [unfold byte8; lia|exact HR]. }
    assert (L1 : List.length (firstn 384 chars) = (3 * 128)%nat).
    { rewrite length_firstn. lia. }
    destruct (pack_chars_app3 128 (firstn 384 chars) (skipn 384 chars) L1)
      as (Epk & Lpk).
    rewrite firstn_skipn in Epk. rewrite Epk in Hcat. cbn [concat] in Hcat.
    assert (Lsame : List.length b
                    = List.length (pack_chars (firstn 384 chars))) by lia.
    destruct (app_same_length _ _ _ _ Lsame Hcat) as [Eb Hcat'].
    change (Z.to_nat (3 * OS8_BLOCK_SIZE)) with 768%nat.
    change 0 with (Z.of_nat (@List.length Z [])) at 1.
    rewrite (unpack_text_block_chars (firstn 384 chars) [] 768 cnt out b 128);
      [|exact Eb|exact Lb|exact L1|now apply Forall_firstn_skipn|exact Hc
       |exact Hr|rewrite L1; change (2 ^ 32) with 4294967296 in *; lia
       |rewrite L1; lia].
    destruct (Nat.lt_ge_cases (List.length body) 384) as [Hlt|Hge].
    + assert (E1 : firstn 384 chars
                   = body ++ 154 :: firstn (383 - List.length body) rest).
      { unfold chars. rewrite firstn_app, firstn_all2 by lia. f_equal.
        replace (384 - List.length body)%nat
          with (S (383 - List.length body)) by lia.
        reflexivity. }
      rewrite E1, unpack_chars_ctrl_z by exact HZ.
      cbn [orb]. reflexivity.
    + assert (E1 : firstn 384 chars = firstn 384 body).
      { unfold chars. rewrite firstn_app.
        replace (384 - List.length body)%nat with 0%nat by lia.
        cbn [firstn]. apply app_nil_r. }
      assert (E2 : skipn 384 chars = skipn 384 body ++ 154 :: rest).
      { unfold chars. rewrite skipn_app.
        replace (384 - List.length body)%nat with 0%nat by lia.
        reflexivity. }
      destruct (Forall_firstn_skipn _ 384 body HZ) as (HZ1 & HZ2).
      destruct (Forall_firstn_skipn _ 384 body HB) as (HB1 & HB2).
      rewrite E1, unpack_chars_plain by exact HZ1.
      assert (L2 : List.length (skipn 384 chars)
                   = (384 * List.length blocks)%nat).
      { rewrite length_skipn. lia. }
      assert (Lf : List.length (firstn 384 body) = 384%nat).
      { rewrite length_firstn. lia. }
      assert (Hne : (1 <= List.length blocks)%nat).
      { rewrite E2, length_app in L2. cbn [List.length] in L2. lia. }
      rewrite Lf. cbn [orb].
      rewrite (u16_small (bn + 1)) by lia.
      replace (bn + 1 =? file_block e + e_length e) with false
        by (symmetry; apply Z.eqb_neq; lia).
      rewrite E2 in Hcat', L2.
      rewrite (IH (skipn 384 body) rest fuel (bn + 1) (cnt + Z.of_nat 384)
                  _ HL' Hcat' L2 HB2 HR HZ2); try lia.
      * rewrite <- app_assoc, <- filter_app, <- map_app, firstn_skipn.
        reflexivity.
      * change (Z.of_nat 384) with 384.
        Z.to_euclidean_division_equations; lia.
      * intros j Hj.
        replace (bn + 1 + Z.of_nat j) with (bn + Z.of_nat (S j)) by lia.
        rewrite Hread by lia. reflexivity.
Qed.

(** X4 (stream_host_text_file, put_os8_char, stream_os8_text_file,
    print_os8_text_file).  The text round trip.  On a device whose written
    blocks read back, let a host text of 7-bit characters be copied to the
    image by [stream_host_text_file] with result true, the static state of
    [put_os8_char] being as at program start and the local [ctrl_z_seen],
    which the loop test reads before the code has assigned it, holding
    false on entry.  Whenever the directory then lists the name at the
    blocks that were handed out for it, with the number of blocks the
    packed text fills, [print_os8_text_file] returns true and prints the
    text up to its first 0x1A without that 0x1A and without every NUL,
    carriage return and rubout: the carriage returns of the host text are
    lost, and so is everything after a 0x1A. *)
Theorem text_round_trip :
  forall ctrl_z_seen fuel fuel' img input d outputname d1 e d' img' entry' c',
    ctrl_z_seen = false ->
    Forall seven_bit input ->
    allocate_os8_file fuel outputname
      (((Z.of_nat (List.length (text_temp_file ctrl_z_seen input))
         + (OS8_BLOCK_SIZE - 1) * 2) mod 2 ^ 32)
       / (OS8_BLOCK_SIZE * 2)) d entry_zero = Some (true, d1, e) ->
    stream_host_text_file fuel write_block ctrl_z_seen put_state_init img
                          input d outputname = Some (true, d', img') ->
    lookup fuel' outputname d' (init_cursor d') = Some (Some entry', c') ->
    file_block entry' = file_block e ->
    e_length entry'
      = blocks_for (Z.of_nat (List.length (text_temp_file ctrl_z_seen input))) ->
    0 <= file_block e ->
    file_block e
      + blocks_for (Z.of_nat (List.length (text_temp_file ctrl_z_seen input))) < 65536 ->
    (Z.to_nat (blocks_for (Z.of_nat (List.length (text_temp_file ctrl_z_seen input))))
     <= fuel')%nat ->
    print_os8_text_file fuel' read_block img' d' outputname
    = Some (Some (plain_text input)).
Proof.
  intros ctrl_z_seen fuel fuel' img input d outputname d1 e d' img' entry' c'
         -> H7 Halloc Hcopy Hlook Hfb Hlen Hpos Hlim Hfuel.
  unfold stream_host_text_file in Hcopy.
  fold (text_temp_file false input) in Hcopy.
  unfold stream_host_image_file in Hcopy. rewrite Halloc in Hcopy.
  destruct (stream_host_loop fuel write_block img (text_temp_file false input) e 0)
    as [[[img1 block_no]|]|] eqn:Hloop; try discriminate.
  assert (Eimg : img1 = img').
  { destruct (enter_os8_file fuel outputname block_no d1 e) as [[ok d2]|];
      [|discriminate]. congruence. }
  subst img1. clear Hcopy.
  (* the words of the temporary file *)
  destruct (text_chars_body input H7) as (body & Ebody & HB & HZ & HP).
  assert (HBc : Forall byte8 (body ++ [154])).
  { apply Forall_app. split; [exact HB|].
    constructor; [unfold byte8; lia|constructor]. }
  assert (Ews : stream_host_text_words false put_state_init input
                = pack_chars (body ++ [154])).
  { rewrite text_words_pack by exact H7. now rewrite Ebody. }
  assert (W12 : Forall word12 (pack_chars (body ++ [154])))
    by (apply pack_chars_word12, HBc).
  assert (Ehw : host_words (text_temp_file false input)
                = pack_chars (body ++ [154])).
  { unfold text_temp_file. rewrite Ews. apply host_words_fwrite_words, W12. }
  assert (Lt : List.length (text_temp_file false input)
               = Nat.mul 2 (List.length (pack_chars (body ++ [154])))).
  { unfold text_temp_file. rewrite Ews. apply fwrite_words_bytes, W12. }
  assert (HW : Forall word12 (host_words (text_temp_file false input)))
    by (rewrite Ehw; exact W12).
  assert (Hpos0 : 0 <= file_block e + 0) by lia.
  destruct (stream_host_loop_blocks write_block read_block write_then_read
              write_keeps_lower e fuel img (text_temp_file false input) 0 img'
              block_no HW Hpos0 Hloop)
    as (blocks & _ & Hread & _ & Hcat & Hnum).
  rewrite Ehw in Hcat, Hnum.
  destruct (pack_chars_pad (body ++ [154])) as (p & k & Epad & Lpad).
  destruct (pack_chars_app3 k ((body ++ [154]) ++ repeat 0 p) [] Lpad)
    as (_ & Lk).
  rewrite Epad in Lk.
  assert (Ek : Z.of_nat (List.length blocks)
               = blocks_for (Z.of_nat (List.length (text_temp_file false input)))).
  { rewrite Hnum, Lt, Lk. unfold blocks_for, OS8_BLOCK_SIZE.
    Z.to_euclidean_division_equations; lia. }
  assert (Hk : (k <= 128 * List.length blocks)%nat).
  { rewrite Lk in Hnum. Z.to_euclidean_division_equations; lia. }
  set (m := (128 * List.length blocks - k)%nat).
  assert (Hcat' : concat blocks
                  = pack_chars (body ++ 154 :: (repeat 0 p ++ repeat 0 (3 * m)))).
  { rewrite Hcat, Lk.
    replace (256 * List.length blocks - 2 * k)%nat with (2 * m)%nat
      by (unfold m; lia).
    rewrite <- Epad, <- pack_chars_zeros.
    destruct (pack_chars_app3 k ((body ++ [154]) ++ repeat 0 p)
                (repeat 0 (3 * m)) Lpad) as (<- & _).
    f_equal. rewrite <- !app_assoc. reflexivity. }
  assert (HL : Forall (fun b => List.length b = 256%nat) blocks).
  { apply Forall_forall. intros b Hb.
    destruct (In_nth _ _ [] Hb) as (j & Hj & <-).
    apply (read_length img' (file_block e + 0 + Z.of_nat j)).
    apply Hread, Hj. }
  unfold print_os8_text_file. rewrite Hlook.
  unfold stream_os8_text_file. rewrite <- HP, Hfb.
  change (filter text_char_kept (map (fun c => Z.land c 127) body))
    with ([] ++ filter text_char_kept (map (fun c => Z.land c 127) body)).
  apply (text_loop_blocks img' entry' blocks body
           (repeat 0 p ++ repeat 0 (3 * m))); try assumption; try lia.
  - rewrite !length_app in Lpad. cbn [List.length] in Lpad.
    rewrite repeat_length in Lpad.
    rewrite length_app. cbn [List.length].
    rewrite length_app, !repeat_length. unfold m. lia.
  - apply Forall_app. split; apply Forall_forall; intros x Hx;
      apply repeat_spec in Hx; subst x; unfold byte8; lia.
  - reflexivity.
  - intros j Hj. specialize (Hread j Hj). rewrite Z.add_0_r in Hread.
    exact Hread.
Qed.

End TextDevice.

Lemma byte_buffer_to_word_buffer_length (n : nat) :
  forall bs ws,
    byte_buffer_to_word_buffer n bs = Some ws -> List.length ws = n.
Proof.
  induction n as [|n IH]; intros bs ws H.
  - cbn in H. injection H as <-. reflexivity.
  - cbn [byte_buffer_to_word_buffer] in H.
    destruct bs as [|b0 [|b1 rest]]; try discriminate.
    destruct (corrupted _); [discriminate|].
    destruct (byte_buffer_to_word_buffer n rest) as [ws'|] eqn:E;
      [|discriminate].
    cbn in H. injection H as <-. cbn [List.length]. f_equal.
    apply (IH rest ws' E).
Qed.

Lemma dsk_read_length (img : image) (n : Z) (b : list Z) :
  read_dsk_block img n = Some b -> List.length b = 256%nat.
Proof.
  unfold read_dsk_block. destruct (_ =? _)%nat; [|discriminate].
  apply byte_buffer_to_word_buffer_length.
Qed.

Lemma text_round_trip_witness :
  print_os8_text_file 100 read_dsk_block (snd sample_text_copied)
    (snd (fst sample_text_copied)) "note.tx"
  = Some (Some (plain_text sample_text2)).
Proof.
  eapply (text_round_trip write_dsk_block read_dsk_block
            dsk_write_then_read dsk_write_keeps_lower dsk_read_length
            false 100 100 [] sample_text2 holed_directory "note.tx"
            holed_directory sample_text_allocated).
  - reflexivity.
  - apply Forall_forall. intros x Hx. unfold seven_bit.
    repeat (destruct Hx as [<-|Hx]; [lia|]). destruct Hx.
  - vm_compute. reflexivity.
  - vm_compute. reflexivity.
  - vm_compute. reflexivity.
  - vm_compute. reflexivity.
  - vm_compute. reflexivity.
  - vm_compute. discriminate.
  - vm_compute. reflexivity.
  - vm_compute. lia.
Defined.


(** * Block codecs: what a write leaves alone, and what it refuses *)

Lemma pread_pwrite_other (img buf : list Z) (off c off' : nat) :
  (0 < c)%nat -> List.length (pread img c off') = c ->
  (off' + c <= off)%nat \/ (off + List.length buf <= off')%nat ->
  pread (pwrite img buf off) c off' = pread img c off'.
Proof.
  intros Hc L H. pose proof (pread_length_full _ _ _ Hc L) as Hfull.
  destruct H as [H|H].
  - apply pread_pwrite_before; assumption.
  - apply pread_pwrite_after; lia.
Qed.

Lemma rka_pack_length (n : nat) :
  forall ws bs,
    List.length ws = (2 * n)%nat -> rka_pack ws = Some bs ->
    List.length bs = (3 * n)%nat.
Proof.
  induction n as [|n IH]; intros ws bs L E.
  - destruct ws; [|discriminate]. cbn in E. injection E as <-. reflexivity.
  - destruct ws as [|w1 [|w2 rest]]; try (cbn in L; lia).
    cbn [rka_pack] in E. destruct (corrupted w1 || corrupted w2); [discriminate|].
    destruct (rka_pack rest) as [bs'|] eqn:E'; [|discriminate].
    cbn in E. injection E as <-. cbn [List.length] in *.
    rewrite (IH rest bs'); [lia|lia|exact E'].
Qed.

Lemma dsk_write_keeps_other (img : image) (n m : Z) (b : list Z)
  (img' : image) (x : list Z) :
  0 <= n -> 0 <= m -> n <> m -> List.length b = 256%nat ->
  write_dsk_block img m b = Some img' ->
  read_dsk_block img n = Some x -> read_dsk_block img' n = Some x.
Proof.
  intros Hn Hm Hne L Hw Hr. unfold write_dsk_block in Hw.
  destruct (words_to_bytes b) as [bs|] eqn:E; [|discriminate].
  apply words_to_bytes_length in E. rewrite L in E.
  injection Hw as <-.
  unfold read_dsk_block in *. unfold OS8_BLOCK_SIZE in *.
  change (Z.to_nat (256 * 2)) with 512%nat in *.
  destruct (List.length (pread img 512 (Z.to_nat (n * 256 * 2))) =? 512)%nat
    eqn:F; [|discriminate].
  apply Nat.eqb_eq in F.
  rewrite pread_pwrite_other; [rewrite F; exact Hr|lia|exact F|lia].
Qed.

Lemma rka_write_keeps_other (img : image) (n m : Z) (b : list Z)
  (img' : image) (x : list Z) :
  0 <= n -> 0 <= m -> n <> m -> List.length b = 256%nat ->
  write_rka_block img m b = Some img' ->
  read_rka_block img n = Some x -> read_rka_block img' n = Some x.
Proof.
  intros Hn Hm Hne L Hw Hr. unfold write_rka_block in Hw.
  destruct (rka_pack b) as [bs|] eqn:E; [|discriminate].
  apply (rka_pack_length 128) in E; [|exact L].
  injection Hw as <-.
  unfold read_rka_block in *. unfold RK05_BLOCK_SIZE in *.
  change (Z.to_nat 384) with 384%nat in *.
  destruct (List.length (pread img 384 (Z.to_nat (n * 384))) =? 384)%nat
    eqn:F; [|discriminate].
  apply Nat.eqb_eq in F.
  rewrite pread_pwrite_other; [rewrite F; exact Hr|lia|exact F|lia].
Qed.

Lemma dectape_write_keeps_other (img : image) (n m : Z) (b : list Z)
  (img' : image) (x : list Z) :
  0 <= n -> 0 <= m -> n <> m -> List.length b = 256%nat ->
  write_dectape_block img m b = Some img' ->
  read_dectape_block img n = Some x -> read_dectape_block img' n = Some x.
Proof.
  intros Hn Hm Hne L Hw Hr. unfold write_dectape_block in Hw.
  destruct (words_to_bytes (firstn 128 b)) as [r0|] eqn:E0; [|discriminate].
  destruct (words_to_bytes (skipn 128 b)) as [r1|] eqn:E1; [|discriminate].
  apply words_to_bytes_length in E0, E1.
  rewrite length_firstn in E0. rewrite length_skipn in E1. rewrite L in E0, E1.
  injection Hw as <-.
  unfold read_dectape_block in *.
  unfold DECTAPE_BLOCK_SIZE, OS8_BLOCK_SIZE in *.
  change (Z.to_nat 256) with 256%nat in *.
  change (Z.to_nat 258) with 258%nat in *.
  set (on := Z.to_nat (n * 258 * 2)) in *.
  set (om := Z.to_nat (m * 258 * 2)) in *.
  assert (Hoff : (on + 516 <= om)%nat \/ (om + 516 <= on)%nat)
    by (unfold on, om; lia).
  destruct (List.length (pread img 256 on) =? 256)%nat eqn:F0; [|discriminate].
  destruct (List.length (pread img 256 (on + 258)) =? 256)%nat eqn:F1;
    [|discriminate].
  apply Nat.eqb_eq in F0, F1.
  set (img1 := pwrite img (r0 ++ [0; 0]) om) in *.
  assert (L0 : List.length (r0 ++ [0; 0]) = 258%nat)
    by (rewrite length_app; cbn [List.length]; lia).
  assert (L1 : List.length (r1 ++ [0; 0]) = 258%nat)
    by (rewrite length_app; cbn [List.length]; lia).
  assert (A0 : pread img1 256 on = pread img 256 on).
  { unfold img1. apply pread_pwrite_other; [lia|exact F0|lia]. }
  assert (A1 : pread img1 256 (on + 258) = pread img 256 (on + 258)).
  { unfold img1. apply pread_pwrite_other; [lia|exact F1|lia]. }
  rewrite !pread_pwrite_other; rewrite ?A0, ?A1, ?F0, ?F1; try lia.
  exact Hr.
Qed.

Lemma words_to_bytes_refused (ws : list Z) :
  words_to_bytes ws = None <-> existsb corrupted ws = true.
Proof.
  induction ws as [|w ws IH]; cbn [words_to_bytes existsb].
  - split; discriminate.
  - destruct (corrupted w); [tauto|]. cbn [orb]. rewrite <- IH.
    destruct (words_to_bytes ws); cbn; split; congruence.
Qed.

Lemma rka_pack_refused (n : nat) :
  forall ws,
    List.length ws = (2 * n)%nat ->
    (rka_pack ws = None <-> existsb corrupted ws = true).
Proof.
  induction n as [|n IH]; intros ws L.
  - destruct ws; [|discriminate]. cbn. split; discriminate.
  - destruct ws as [|w1 [|w2 rest]]; try (cbn in L; lia).
    cbn [rka_pack existsb]. rewrite orb_assoc.
    destruct (corrupted w1 || corrupted w2); [tauto|]. cbn [orb].
    rewrite <- (IH rest) by (cbn in L; lia).
    destruct (rka_pack rest); cbn; split; congruence.
Qed.

(** X5 (write_dsk_block, write_dectape_block, write_rka_block and their
    readers).  For block numbers below 65536, whose byte offsets fit the
    32-bit [unsigned] the code computes them in, a write of block [m]
    leaves every other block as it reads: whatever block [n <> m] could be
    read before is read with the same words afterwards, in each of the
    three image formats. *)
Theorem write_block_keeps_other_blocks (img : image) (n m : Z)
  (b x : list Z) :
  0 <= n < 65536 -> 0 <= m < 65536 -> n <> m -> List.length b = 256%nat ->
  (forall img', write_dsk_block img m b = Some img' ->
     read_dsk_block img n = Some x -> read_dsk_block img' n = Some x)
  /\ (forall img', write_dectape_block img m b = Some img' ->
        read_dectape_block img n = Some x ->
        read_dectape_block img' n = Some x)
  /\ (forall img', write_rka_block img m b = Some img' ->
        read_rka_block img n = Some x -> read_rka_block img' n = Some x).
Proof.
  intros Hn Hm Hne L. split; [|split]; intros img'.
  - apply dsk_write_keeps_other; solve [assumption|lia].
  - apply dectape_write_keeps_other; solve [assumption|lia].
  - apply rka_write_keeps_other; solve [assumption|lia].
Qed.

(** Block 1 holds [sample_block] in each of the three sample images; it
    still does after block 3 was written. *)
Lemma write_block_keeps_other_blocks_witness :
  (exists img', write_dsk_block dsk_sample_image 3 (repeat 7 256) = Some img'
                /\ read_dsk_block img' 1 = Some sample_block)
  /\ (exists img', write_dectape_block dectape_sample_image 3 (repeat 7 256)
                   = Some img'
                   /\ read_dectape_block img' 1 = Some sample_block)
  /\ (exists img', write_rka_block rka_sample_image 3 (repeat 7 256)
                   = Some img'
                   /\ read_rka_block img' 1 = Some sample_block).
Proof.
  split; [|split]; eexists; (split; [vm_compute; reflexivity|]).
  - apply (write_block_keeps_other_blocks dsk_sample_image 1 3
             (repeat 7 256) sample_block);
      try lia; vm_compute; reflexivity.
  - apply (write_block_keeps_other_blocks dectape_sample_image 1 3
             (repeat 7 256) sample_block);
      try lia; vm_compute; reflexivity.
  - apply (write_block_keeps_other_blocks rka_sample_image 1 3
             (repeat 7 256) sample_block);
      try lia; vm_compute; reflexivity.
Defined.

(** X6 (write_dsk_block, write_dectape_block, write_rka_block).  With a
    [pwrite] that writes all its bytes, each of the three block writers
    returns false for a block of 256 words exactly when one of the words
    has a bit above the twelfth. *)
Theorem write_block_refuses_wide_words (img : image) (n : Z) (b : list Z) :
  List.length b = 256%nat ->
  (write_dsk_block img n b = None <-> existsb corrupted b = true)
  /\ (write_dectape_block img n b = None <-> existsb corrupted b = true)
  /\ (write_rka_block img n b = None <-> existsb corrupted b = true).
Proof.
  intros L. split; [|split].
  - unfold write_dsk_block. rewrite <- words_to_bytes_refused.
    destruct (words_to_bytes b); split; congruence.
  - unfold write_dectape_block.
    replace (existsb corrupted b)
      with (existsb corrupted (firstn 128 b ++ skipn 128 b))
      by (now rewrite firstn_skipn).
    rewrite existsb_app, orb_true_iff, <- !words_to_bytes_refused.
    destruct (words_to_bytes (firstn 128 b)) as [r0|];
      destruct (words_to_bytes (skipn 128 b)) as [r1|];
      split; intros H; auto; try discriminate;
      destruct H; discriminate.
  - unfold write_rka_block. rewrite <- (rka_pack_refused 128 b L).
    destruct (rka_pack b); split; congruence.
Qed.

Lemma write_block_refuses_wide_words_witness :
  (write_dsk_block [] 2 (4096 :: repeat 0 255) = None
   <-> existsb corrupted (4096 :: repeat 0 255) = true)
  /\ (write_dectape_block [] 2 (4096 :: repeat 0 255) = None
      <-> existsb corrupted (4096 :: repeat 0 255) = true)
  /\ (write_rka_block [] 2 (4096 :: repeat 0 255) = None
      <-> existsb corrupted (4096 :: repeat 0 255) = true).
Proof.
  apply (write_block_refuses_wide_words [] 2 (4096 :: repeat 0 255)).
  reflexivity.
Defined.




(** * The directory on the image *)

Lemma validated_chain_ends (fuel : nat) (d : directory_t) :
  words12 d ->
  forall i, validate_loop fuel d i = Some true -> chain_ends fuel d i = true.
Proof.
  intros W. induction fuel as [|fuel IH]; intros i H; [discriminate|].
  cbn [validate_loop chain_ends] in *.
  destruct (segment_sane d i) eqn:S; [|discriminate].
  unfold segment_sane in S. rewrite !andb_true_iff in S.
  destruct S as ((((S1 & _) & _) & _) & _). apply Z.leb_le in S1.
  pose proof (word12_word d i 2 W) as R. fold (next_segment d i) in R.
  unfold word12 in R. unfold DIR_LENGTH.
  rewrite Z.geb_leb in H. rewrite Z.gtb_ltb.
  destruct (Z.leb_spec 0 (next_segment d i - 1)) as [G|G].
  - replace (next_segment d i =? 0) with false
      by (symmetry; apply Z.eqb_neq; lia).
    replace (6 <? next_segment d i) with false
      by (symmetry; apply Z.ltb_ge; lia).
    apply IH, H.
  - replace (next_segment d i =? 0) with true
      by (symmetry; apply Z.eqb_eq; lia).
    reflexivity.
Qed.

Lemma chain_ends_cases (n : nat) (d : directory_t) (i : Z) :
  words12 d -> chain_ends n d i = true ->
  exists n', n = S n'
    /\ (next_segment d i = 0
        \/ (1 <= next_segment d i <= 6
            /\ chain_ends n' d (next_segment d i - 1) = true)).
Proof.
  intros W H. destruct n as [|n]; [discriminate|]. exists n.
  split; [reflexivity|]. cbn [chain_ends] in H.
  pose proof (word12_word d i 2 W) as R. fold (next_segment d i) in R.
  unfold word12 in R. unfold DIR_LENGTH in H. rewrite Z.gtb_ltb in H.
  destruct (Z.eqb_spec (next_segment d i) 0) as [E|E]; [auto|].
  destruct (Z.ltb_spec 6 (next_segment d i)); [discriminate|].
  right. split; [lia|exact H].
Qed.

Lemma linked_in_range (d : directory_t) (i j : Z) :
  words12 d -> linked d i j ->
  forall n, chain_ends n d i = true -> 0 <= i < 6 -> 0 <= j < 6.
Proof.
  intros W. induction 1 as [|i j Hn _ IH]; intros n Hc Hi; [exact Hi|].
  destruct (chain_ends_cases n d i W Hc) as (n' & _ & [E|(R & Hc')]);
    [contradiction|].
  apply (IH n' Hc'). lia.
Qed.

Lemma next_segment_same_data (d d' : directory_t) (i : Z) :
  data (seg d' i) = data (seg d i) -> next_segment d' i = next_segment d i.
Proof. intros E. unfold next_segment, word. now rewrite E. Qed.

Lemma segment_sane_same_data (d d' : directory_t) (i : Z) :
  data (seg d' i) = data (seg d i) -> data (seg d' 0) = data (seg d 0) ->
  segment_sane d' i = segment_sane d i.
Proof.
  intros E E0. unfold segment_sane, next_segment, number_files,
    additional_words, flag_word, word. now rewrite E, E0.
Qed.

Lemma validate_loop_same_data (fuel : nat) (d d' : directory_t) :
  data (seg d' 0) = data (seg d 0) ->
  forall i,
    (forall j, linked d i j -> data (seg d' j) = data (seg d j)) ->
    validate_loop fuel d' i = validate_loop fuel d i.
Proof.
  intros E0. induction fuel as [|fuel IH]; intros i H; [reflexivity|].
  cbn [validate_loop].
  rewrite (segment_sane_same_data d d' i (H i (linked_here d i)) E0).
  rewrite (next_segment_same_data d d' i (H i (linked_here d i))).
  destruct (segment_sane d i); [|reflexivity].
  rewrite Z.geb_leb.
  destruct (Z.leb_spec 0 (next_segment d i - 1)) as [G|G]; [|reflexivity].
  apply IH. intros j Hj. apply H. apply linked_next; [lia|exact Hj].
Qed.

Section DirectoryDevice.

Variable write_block : block_writer.
Variable read_block : block_reader.

(** A block of 256 twelve-bit words that was written is read back. *)
Hypothesis write_then_read :
  forall img n b img',
    List.length b = 256%nat -> Forall word12 b ->
    write_block img n b = Some img' -> read_block img' n = Some b.

(** Writing a block leaves the other blocks as they read. *)
Hypothesis write_keeps_other :
  forall img n m b img' x,
    0 <= n -> 0 <= m -> n <> m -> List.length b = 256%nat ->
    write_block img m b = Some img' ->
    read_block img n = Some x -> read_block img' n = Some x.

Lemma write_loop_synced (P : Z -> Prop) (d : directory_t) :
  shape d -> words12 d ->
  forall fuel n img dcur i d' img',
    chain_ends n d i = true -> 0 <= i < 6 ->
    List.length dcur = 6%nat ->
    (forall j, data (seg dcur j) = data (seg d j)) ->
    (forall j, 0 <= j -> P j -> dirty (seg dcur j) = false ->
       read_block img (j + 1) = Some (data (seg d j))) ->
    write_directory_loop fuel write_block img dcur (i + 1)
      = Some (true, d', img') ->
    List.length d' = 6%nat
    /\ (forall j, data (seg d' j) = data (seg d j))
    /\ (forall j, 0 <= j -> P j -> dirty (seg d' j) = false ->
          read_block img' (j + 1) = Some (data (seg d j)))
    /\ (forall j, linked d i j -> seg d' j = clean (seg d j))
    /\ (forall j, seg d' j = seg dcur j \/ linked d i j).
Proof.
  intros Sh W. induction fuel as [|fuel IH];
    intros n img dcur i d' img' Hc Hi L Hdata Hinv Hrun; [discriminate|].
  cbn [write_directory_loop] in Hrun.
  replace (i + 1 - FIRST_DIR_BLOCK) with i in Hrun
    by (unfold FIRST_DIR_BLOCK; lia).
  pose proof (next_segment_same_data d dcur i (Hdata i)) as En.
  destruct (chain_ends_cases n d i W Hc) as (n' & -> & Hnext).
  assert (Hle : (next_segment dcur i >? DIR_LENGTH) = false).
  { rewrite En, Z.gtb_ltb. apply Z.ltb_ge. unfold DIR_LENGTH.
    destruct Hnext as [E|(R & _)]; lia. }
  rewrite Hle in Hrun.
  set (d1 := set_seg dcur i (mk_dir_block false (data (seg dcur i)))) in *.
  assert (Hs1 : seg d1 i = clean (seg d i)).
  { unfold d1. rewrite seg_set_seg_same by lia. unfold clean.
    now rewrite Hdata. }
  assert (Ho1 : forall j, j <> i -> seg d1 j = seg dcur j).
  { intros j Hj. unfold d1. apply seg_set_seg_other. auto. }
  assert (L1 : List.length d1 = 6%nat)
    by (unfold d1; rewrite length_set_seg; exact L).
  assert (Hdata1 : forall j, data (seg d1 j) = data (seg d j)).
  { intros j. destruct (Z.eq_dec j i) as [->|Hj];
      [rewrite Hs1; reflexivity|rewrite Ho1 by exact Hj; apply Hdata]. }
  assert (En1 : next_segment d1 i = next_segment d i)
    by (apply next_segment_same_data, Hdata1).
  rewrite En1 in Hrun.
  assert (Hrun' : exists img1,
             (forall j, 0 <= j -> P j -> dirty (seg d1 j) = false ->
                read_block img1 (j + 1) = Some (data (seg d j)))
             /\ (if next_segment d i =? 0 then Some (true, d1, img1)
                 else write_directory_loop fuel write_block img1 d1
                        (next_segment d i)) = Some (true, d', img')).
  { destruct (dirty (seg dcur i)) eqn:Hd.
    - destruct (write_block img (i + 1) (data (seg dcur i))) as [img1|] eqn:Hw;
        [|discriminate].
      exists img1. split; [|exact Hrun].
      rewrite Hdata in Hw.
      intros j Hj HP Hcl. destruct (Z.eq_dec j i) as [->|Hne].
      + apply (write_then_read img (i + 1) _ img1); [apply Sh, Hi|apply W|].
        exact Hw.
      + rewrite Ho1 in Hcl by exact Hne.
        apply (write_keeps_other img (j + 1) (i + 1) (data (seg d i)) img1);
          try lia; [apply Sh, Hi|exact Hw|]. apply Hinv; assumption.
    - exists img. split; [|exact Hrun].
      intros j Hj HP Hcl. destruct (Z.eq_dec j i) as [->|Hne].
      + apply Hinv; assumption.
      + rewrite Ho1 in Hcl by exact Hne. apply Hinv; assumption. }
  clear Hrun. destruct Hrun' as (img1 & Hinv1 & Hrun).
  destruct Hnext as [E|(R & Hc')].
  - rewrite E in Hrun. cbn in Hrun. injection Hrun as <- <-.
    split; [exact L1|]. split; [exact Hdata1|]. split; [exact Hinv1|].
    split.
    + intros j Hj. inversion Hj; subst; [exact Hs1|contradiction].
    + intros j. destruct (Z.eq_dec j i) as [->|Hne];
        [right; constructor|left; apply Ho1, Hne].
  - replace (next_segment d i =? 0) with false in Hrun
      by (symmetry; apply Z.eqb_neq; lia).
    replace (next_segment d i) with (next_segment d i - 1 + 1) in Hrun at 1
      by lia.
    destruct (IH n' img1 d1 (next_segment d i - 1) d' img' Hc' ltac:(lia) L1
                Hdata1 Hinv1 Hrun) as (L' & Hdata' & Hinv' & Hlinked & Hrest).
    split; [exact L'|]. split; [exact Hdata'|]. split; [exact Hinv'|].
    split.
    + intros j Hj. inversion Hj; subst.
      * destruct (Hrest j) as [Es|Hl]; [rewrite Es; exact Hs1|].
        apply Hlinked, Hl.
      * apply Hlinked. assumption.
    + intros j. destruct (Hrest j) as [Es|Hl].
      * destruct (Z.eq_dec j i) as [->|Hne]; [right; constructor|].
        left. rewrite Es. apply Ho1, Hne.
      * right. apply linked_next; [lia|exact Hl].
Qed.

Lemma read_loop_chain (img : image) (d : directory_t) :
  words12 d ->
  forall n fuel dcur i,
    chain_ends n d i = true -> (n <= fuel)%nat -> 0 <= i < 6 ->
    List.length dcur = 6%nat ->
    (forall j, linked d i j -> read_block img (j + 1) = Some (data (seg d j))) ->
    exists d'',
      read_directory_loop fuel (read_block img) dcur (i + 1) = Some (true, d'')
      /\ List.length d'' = 6%nat
      /\ (forall j, linked d i j -> seg d'' j = clean (seg d j))
      /\ (forall j, seg d'' j = seg dcur j \/ linked d i j).
Proof.
  intros W. induction n as [|n IH]; intros fuel dcur i Hc Hf Hi L Hread;
    [discriminate|].
  destruct fuel as [|fuel]; [lia|].
  cbn [read_directory_loop]. rewrite (Hread i (linked_here d i)).
  replace (i + 1 - FIRST_DIR_BLOCK) with i by (unfold FIRST_DIR_BLOCK; lia).
  set (d1 := set_seg dcur i (mk_dir_block false (data (seg d i)))).
  assert (Hs1 : seg d1 i = clean (seg d i))
    by (unfold d1; rewrite seg_set_seg_same by lia; reflexivity).
  assert (Ho1 : forall j, j <> i -> seg d1 j = seg dcur j).
  { intros j Hj. unfold d1. apply seg_set_seg_other. auto. }
  assert (L1 : List.length d1 = 6%nat)
    by (unfold d1; rewrite length_set_seg; exact L).
  assert (En1 : next_segment d1 i = next_segment d i).
  { apply next_segment_same_data. rewrite Hs1. reflexivity. }
  rewrite En1.
  destruct (chain_ends_cases (S n) d i W Hc) as (n' & En & Hnext).
  injection En as <-.
  unfold DIR_LENGTH. rewrite Z.gtb_ltb.
  destruct Hnext as [E|(R & Hc')].
  - rewrite E. cbn. exists d1. split; [reflexivity|]. split; [exact L1|].
    split.
    + intros j Hj. inversion Hj; subst; [exact Hs1|contradiction].
    + intros j. destruct (Z.eq_dec j i) as [->|Hne];
        [right; constructor|left; apply Ho1, Hne].
  - replace (6 <? next_segment d i) with false
      by (symmetry; apply Z.ltb_ge; lia).
    replace (next_segment d i =? 0) with false
      by (symmetry; apply Z.eqb_neq; lia).
    destruct (IH fuel d1 (next_segment d i - 1) Hc' ltac:(lia) ltac:(lia) L1)
      as (d'' & Hrun & L' & Hlinked & Hrest).
    { intros j Hj. apply Hread. apply linked_next; [lia|exact Hj]. }
    replace (next_segment d i - 1 + 1) with (next_segment d i) in Hrun by lia.
    exists d''. split; [exact Hrun|]. split; [exact L'|]. split.
    + intros j Hj. inversion Hj; subst.
      * destruct (Hrest j) as [Es|Hl]; [rewrite Es; exact Hs1|].
        apply Hlinked, Hl.
      * apply Hlinked. assumption.
    + intros j. destruct (Hrest j) as [Es|Hl].
      * destruct (Z.eq_dec j i) as [->|Hne]; [right; constructor|].
        left. rewrite Es. apply Ho1, Hne.
      * right. apply linked_next; [lia|exact Hl].
Qed.

(** X8 (write_directory, read_directory).  The directory that is written
    is the directory that is read.  Let the directory have six segments of
    256 twelve-bit words, and let every segment on its chain that is not
    dirty be on the image already.  When [write_directory] returns true,
    [read_directory] from the new image returns true as well, and in the
    directory it fills every segment on the chain holds the words of the
    written directory and is not dirty, as in the directory that
    [write_directory] leaves in memory; the segments off the chain are
    untouched by both. *)
Theorem write_directory_read_back :
  forall fuel img d d' img' d0,
    shape d -> words12 d -> List.length d0 = 6%nat ->
    (forall j, linked d 0 j -> dirty (seg d j) = false ->
       read_block img (j + 1) = Some (data (seg d j))) ->
    write_directory fuel write_block img d = Some (true, d', img') ->
    exists d'',
      read_directory fuel (read_block img') d0 = Some (true, d'')
      /\ (forall j, linked d 0 j ->
            seg d'' j = clean (seg d j) /\ seg d' j = clean (seg d j))
      /\ (forall j, ~ linked d 0 j ->
            seg d'' j = seg d0 j /\ seg d' j = seg d j).
Proof.
  intros fuel img d d' img' d0 Sh W L0 Hsync Hrun.
  unfold write_directory in Hrun.
  destruct (validate_directory fuel d) as [[|]|] eqn:Hval; try discriminate.
  - unfold validate_directory in Hval.
    pose proof (validated_chain_ends fuel d W 0 Hval) as Hc.
    destruct (write_loop_synced (linked d 0) d Sh W fuel fuel img d 0 d' img'
                Hc ltac:(lia) (proj1 Sh) (fun j => eq_refl))
      as (L' & Hdata' & Hinv' & Hlinked & Hrest); [|exact Hrun|].
    { intros j Hj HP Hcl. apply Hsync; assumption. }
    destruct (read_loop_chain img' d W fuel fuel d0 0 Hc (Nat.le_refl _)
                ltac:(lia) L0) as (d'' & Hread & L'' & Hl'' & Hr'').
    { intros j Hj.
      pose proof (linked_in_range d 0 j W Hj fuel Hc ltac:(lia)) as Rj.
      apply Hinv'; [lia|exact Hj|]. rewrite (Hlinked j Hj). reflexivity. }
    exists d''. unfold read_directory.
    change (read_directory_loop fuel (read_block img') d0 FIRST_DIR_BLOCK)
      with (read_directory_loop fuel (read_block img') d0 (0 + 1)).
    rewrite Hread. unfold validate_directory.
    rewrite (validate_loop_same_data fuel d d''), Hval.
    + split; [reflexivity|]. split.
      * intros j Hj. split; [apply Hl'', Hj|apply Hlinked, Hj].
      * intros j Hj. split.
        -- destruct (Hr'' j) as [E|Hl]; [exact E|contradiction].
        -- destruct (Hrest j) as [E|Hl]; [exact E|contradiction].
    + rewrite (Hl'' 0 (linked_here d 0)). reflexivity.
    + intros j Hj. rewrite (Hl'' j Hj). reflexivity.
Qed.

End DirectoryDevice.

Lemma write_directory_read_back_witness :
  exists d'',
    read_directory 100 (read_dsk_block (snd sample_written)) blank_directory
      = Some (true, d'')
    /\ (forall j, linked (snd (fst sample_copied)) 0 j ->
          seg d'' j = clean (seg (snd (fst sample_copied)) j)
          /\ seg (snd (fst sample_written)) j
             = clean (seg (snd (fst sample_copied)) j))
    /\ (forall j, ~ linked (snd (fst sample_copied)) 0 j ->
          seg d'' j = seg blank_directory j
          /\ seg (snd (fst sample_written)) j
             = seg (snd (fst sample_copied)) j).
Proof.
  apply (write_directory_read_back write_dsk_block read_dsk_block
           dsk_write_then_read dsk_write_keeps_other 100 (snd sample_copied)
           (snd (fst sample_copied)) (snd (fst sample_written))
           (snd sample_written) blank_directory).
  - apply shapeb_spec. vm_compute. reflexivity.
  - apply words12b_spec. vm_compute. reflexivity.
  - reflexivity.
  - intros j Hj Hd. inversion Hj; subst.
    + vm_compute in Hd. discriminate.
    + exfalso. apply H. vm_compute. reflexivity.
  - vm_compute. reflexivity.
Defined.

(** ** A directory of one empty entry *)

Lemma single_empty_entry (d : directory_t) (fuel : nat) :
  number_files d 0 = 4095 -> next_segment d 0 = 0 -> word d 0 5 = 0 ->
  (2 <= fuel)%nat ->
  let e := peek_entry d (init_cursor d) entry_zero in
  directory_entries fuel d = Some [e]
  /\ empty_file e = true
  /\ file_block e = first_file_block d 0
  /\ e_length e = u16 (negate (word d 0 6)).
Proof.
  intros Hn Hx H5 Hf.
  destruct fuel as [|fuel]; [lia|].
  assert (N1 : negate 4095 = 1) by reflexivity.
  assert (V0 : valid_entry (S fuel) d (init_cursor d)
               = Some (true, init_cursor d)).
  { cbn [valid_entry]. unfold overflowed_segment, init_cursor.
    cbn [c_file_number c_dir_block]. rewrite Hn, N1. reflexivity. }
  assert (V1 : forall f, valid_entry (S f) d (step d (init_cursor d))
                         = Some (false, step d (init_cursor d))).
  { intros f. cbn [valid_entry]. unfold overflowed_segment.
    rewrite step_fields. cbn [c_file_number c_dir_block init_cursor].
    rewrite Hn, N1, Hx. reflexivity. }
  split; [|split; [|split]].
  - unfold directory_entries. cbn [entries_loop]. rewrite V0.
    rewrite get_entry_step.
    destruct fuel as [|fuel]; [lia|].
    cbn [entries_loop]. rewrite V1. reflexivity.
  - rewrite empty_file_peek. cbn [init_cursor c_dir_block c_entry].
    unfold file_entries. rewrite H5. reflexivity.
  - apply place_peek.
  - rewrite e_length_peek. cbn [init_cursor c_dir_block c_entry].
    unfold file_entries. rewrite H5. reflexivity.
Qed.

Lemma negate_twice_small (x : Z) :
  0 <= x < 4096 -> u16 (negate (u16 (negate (u16 x)))) = x.
Proof.
  intros H.
  assert (E : below 4096 (fun x => u16 (negate (u16 (negate (u16 x)))) =? x)
              = true) by (vm_compute; reflexivity).
  apply Z.eqb_eq, (below_spec _ _ E x H).
Qed.

(** X9 (zero_filesystem, get_device).  For a DECtape or RK05 device,
    [zero_filesystem] leaves a directory of one segment that holds a single
    empty entry: it starts at the first file block of the old directory and
    runs to the end of the device, all files are gone, the first segment is
    dirty, and the other segments are as before.  The directory is still
    valid when the segment's count of additional words was. *)
Theorem zero_filesystem_one_empty (d : directory_t) (format : format_t)
  (device : device_t) (fuel : nat) :
  get_device format = Some device -> shape d ->
  0 <= first_file_block d 0 <= size device -> (2 <= fuel)%nat ->
  exists d' e,
    zero_filesystem d format = Some d'
    /\ dirty (seg d' 0) = true
    /\ (forall j, j <> 0 -> seg d' j = seg d j)
    /\ directory_entries fuel d' = Some [e]
    /\ empty_file e = true
    /\ file_block e = first_file_block d 0
    /\ e_length e = size device - first_file_block d 0
    /\ (negate (additional_words d 0) < 10 ->
        validate_directory fuel d' = Some true).
Proof.
  intros Hdev Sh Hf Hfuel. unfold zero_filesystem. rewrite Hdev.
  set (d1 := poke d 0 0 (negate 1)).
  set (d2 := poke d1 0 2 0). set (d3 := poke d2 0 3 0).
  set (d4 := poke d3 0 file_entries 0).
  set (v := negate (u16 ((size device - first_file_block d4 0) mod 2 ^ 32))).
  set (d5 := poke d4 0 (file_entries + 1) v).
  assert (L : List.length (data (seg d 0)) = 256%nat) by (apply Sh; lia).
  assert (L1 : List.length (data (seg d1 0)) = 256%nat)
    by (unfold d1; rewrite length_data_poke; exact L).
  assert (L2 : List.length (data (seg d2 0)) = 256%nat)
    by (unfold d2; rewrite length_data_poke; exact L1).
  assert (L3 : List.length (data (seg d3 0)) = 256%nat)
    by (unfold d3; rewrite length_data_poke; exact L2).
  assert (L4 : List.length (data (seg d4 0)) = 256%nat)
    by (unfold d4; rewrite length_data_poke; exact L3).
  assert (W0 : word (mark_dirty d5 0) 0 0 = 4095).
  { rewrite word_mark_dirty. unfold d5, d4, d3, d2.
    rewrite !word_poke_miss by (unfold file_entries; lia).
    unfold d1. rewrite word_poke_hit by (rewrite L; lia).
    reflexivity. }
  assert (W1 : word (mark_dirty d5 0) 0 1 = word d 0 1).
  { rewrite word_mark_dirty. unfold d5, d4, d3, d2, d1.
    rewrite !word_poke_miss by (unfold file_entries; lia). reflexivity. }
  assert (W2 : word (mark_dirty d5 0) 0 2 = 0).
  { rewrite word_mark_dirty. unfold d5, d4, d3.
    rewrite !word_poke_miss by (unfold file_entries; lia).
    unfold d2. rewrite word_poke_hit by (rewrite L1; lia). reflexivity. }
  assert (W3 : word (mark_dirty d5 0) 0 3 = 0).
  { rewrite word_mark_dirty. unfold d5, d4.
    rewrite !word_poke_miss by (unfold file_entries; lia).
    unfold d3. rewrite word_poke_hit by (rewrite L2; lia). reflexivity. }
  assert (W4 : word (mark_dirty d5 0) 0 4 = word d 0 4).
  { rewrite word_mark_dirty. unfold d5, d4, d3, d2, d1.
    rewrite !word_poke_miss by (unfold file_entries; lia). reflexivity. }
  assert (W5 : word (mark_dirty d5 0) 0 5 = 0).
  { rewrite word_mark_dirty. unfold d5.
    rewrite !word_poke_miss by (unfold file_entries; lia).
    unfold d4. rewrite word_poke_hit by (rewrite L3; unfold file_entries; lia).
    reflexivity. }
  assert (W6 : word (mark_dirty d5 0) 0 6 = u16 v).
  { rewrite word_mark_dirty. unfold d5.
    rewrite word_poke_hit by (rewrite L4; unfold file_entries; lia).
    reflexivity. }
  assert (F4 : first_file_block d4 0 = first_file_block d 0).
  { unfold first_file_block, d4, d3, d2, d1.
    rewrite !word_poke_miss by (unfold file_entries; lia). reflexivity. }
  assert (Hsize : size device = 737 \/ size device = 3248).
  { destruct format; try discriminate; injection Hdev as <-;
      vm_compute; auto. }
  destruct (single_empty_entry (mark_dirty d5 0) fuel W0 W2 W5 Hfuel)
    as (He & Hempty & Hfb & Hlen).
  exists (mark_dirty d5 0),
         (peek_entry (mark_dirty d5 0) (init_cursor (mark_dirty d5 0))
                     entry_zero).
  split; [reflexivity|].
  split; [apply dirty_mark_dirty_same; unfold d5, d4, d3, d2, d1;
          rewrite !length_poke, (proj1 Sh); lia|].
  split.
  { intros j Hj. rewrite seg_mark_dirty_other by auto.
    unfold d5, d4, d3, d2, d1. rewrite !data_poke_other by auto.
    reflexivity. }
  split; [exact He|]. split; [exact Hempty|].
  split; [rewrite Hfb; exact W1|].
  split.
  - rewrite Hlen, W6. unfold v. rewrite F4.
    rewrite Z.mod_small by (change (2 ^ 32) with 4294967296; lia).
    apply negate_twice_small. lia.
  - intros Ha. destruct fuel as [|fuel]; [lia|].
    unfold validate_directory. cbn [validate_loop].
    unfold segment_sane, next_segment, number_files, additional_words,
      flag_word.
    rewrite W0, W2, W3, W4. fold (additional_words d 0).
    replace (negate (additional_words d 0) <? 10) with true
      by (symmetry; apply Z.ltb_lt; exact Ha).
    reflexivity.
Qed.

Lemma zero_filesystem_one_empty_witness :
  exists d' e,
    zero_filesystem holed_directory dectape = Some d'
    /\ dirty (seg d' 0) = true
    /\ (forall j, j <> 0 -> seg d' j = seg holed_directory j)
    /\ directory_entries 10 d' = Some [e]
    /\ empty_file e = true
    /\ file_block e = first_file_block holed_directory 0
    /\ e_length e = 737 - first_file_block holed_directory 0
    /\ (negate (additional_words holed_directory 0) < 10 ->
        validate_directory 10 d' = Some true).
Proof.
  apply (zero_filesystem_one_empty holed_directory dectape
           (mk_device 736 730 737) 10).
  - reflexivity.
  - apply shapeb_spec. vm_compute. reflexivity.
  - vm_compute. split; discriminate.
  - lia.
Defined.

Section NewFileSystem.

Variable write_block : block_writer.
Variable read_block : block_reader.

(** A block of 256 twelve-bit words that was written is read back. *)
Hypothesis write_then_read :
  forall img n b img',
    List.length b = 256%nat -> Forall word12 b ->
    write_block img n b = Some img' -> read_block img' n = Some b.

(** Writing a block leaves the other blocks as they read. *)
Hypothesis write_keeps_other :
  forall img n m b img' x,
    0 <= n -> 0 <= m -> n <> m -> List.length b = 256%nat ->
    write_block img m b = Some img' ->
    read_block img n = Some x -> read_block img' n = Some x.

Lemma write_blocks_keep (blocks : list (Z * list Z)) :
  forall img img' n x,
    Forall (fun nb => 0 <= fst nb /\ List.length (snd nb) = 256%nat) blocks ->
    write_blocks write_block img blocks = (true, img') ->
    0 <= n -> ~ In n (map fst blocks) ->
    read_block img n = Some x -> read_block img' n = Some x.
Proof.
  induction blocks as [|[m b] blocks IH]; intros img img' n x HF Hw Hn Hnot Hr.
  - cbn in Hw. injection Hw as <-. exact Hr.
  - cbn [write_blocks] in Hw. inversion HF as [|? ? (Hm & Lb) HF']; subst.
    cbn [fst snd] in *.
    destruct (write_block img m b) as [img1|] eqn:E; [|discriminate].
    apply (IH img1 img' n x HF' Hw Hn).
    + intros Hin. apply Hnot. cbn. auto.
    + apply (write_keeps_other img n m b img1 x); try assumption.
      intros ->. apply Hnot. cbn. auto.
Qed.

Lemma write_blocks_read (blocks : list (Z * list Z)) :
  forall img img' n b,
    NoDup (map fst blocks) ->
    Forall (fun nb => 0 <= fst nb /\ List.length (snd nb) = 256%nat) blocks ->
    Forall (fun nb => Forall word12 (snd nb)) blocks ->
    write_blocks write_block img blocks = (true, img') ->
    In (n, b) blocks -> read_block img' n = Some b.
Proof.
  induction blocks as [|[m c] blocks IH]; intros img img' n b ND HF HW Hw Hin;
    [contradiction|].
  cbn [write_blocks] in Hw.
  inversion HF as [|? ? (Hm & Lc) HF']; subst.
  inversion HW as [|? ? Wc HW']; subst.
  inversion ND as [|? ? Hnot ND']; subst.
  cbn [fst snd map] in *.
  destruct (write_block img m c) as [img1|] eqn:E; [|discriminate].
  destruct Hin as [Heq|Hin].
  - injection Heq as -> ->.
    apply (write_blocks_keep blocks img1 img' n b HF' Hw Hm Hnot).
    apply (write_then_read img n b img1 Lc Wc E).
  - apply (IH img1 img' n b ND' HF' HW' Hw Hin).
Qed.

Lemma created_read_back (device : device_t) (fuel : nat) (img : image)
  (d' : directory_t) (img' : image) (d0 : directory_t) :
  shapeb (created_directory device) = true ->
  words12b (created_directory device) = true ->
  segment_sane (created_directory device) 0 = true ->
  next_segment (created_directory device) 0 = 0 ->
  number_files (created_directory device) 0 = 4095 ->
  word (created_directory device) 0 5 = 0 ->
  first_file_block (created_directory device) 0 = 7 ->
  u16 (negate (word (created_directory device) 0 6))
    = filesystem_size device ->
  data (seg (created_directory device) 1) = repeat 0 256 ->
  7 <= last_block_no device ->
  match validate_directory fuel (created_directory device) with
  | None => None
  | Some false => Some (false, created_directory device, img)
  | Some true =>
      let '(ok, img1) :=
        write_blocks write_block img
          (map (fun k => (Z.of_nat k, data (seg (created_directory device) 1)))
               (seq 0 (Z.to_nat FIRST_DIR_BLOCK))
           ++ map (fun k => (Z.of_nat k + FIRST_DIR_BLOCK,
                             data (seg (created_directory device)
                                       (Z.of_nat k))))
                  (seq 0 (Z.to_nat DIR_LENGTH))
           ++ [(last_block_no device,
                data (seg (created_directory device) 1))]) in
      Some (ok, created_directory device, img1)
  end = Some (true, d', img') ->
  List.length d0 = 6%nat ->
  d' = created_directory device
  /\ read_block img' 0 = Some (repeat 0 256)
  /\ read_block img' (last_block_no device) = Some (repeat 0 256)
  /\ exists d'' e,
       read_directory fuel (read_block img') d0 = Some (true, d'')
       /\ seg d'' 0 = seg d' 0
       /\ (forall j, j <> 0 -> seg d'' j = seg d0 j)
       /\ (forall fuel', (2 <= fuel')%nat ->
             directory_entries fuel' d'' = Some [e])
       /\ empty_file e = true
       /\ file_block e = 7
       /\ e_length e = filesystem_size device.
Proof.
  set (D := created_directory device).
  intros Sb Wb Hsane Hnext Hnum H5 Hffb Hlen Hz Hlast Hrun L0.
  pose proof (shapeb_spec D Sb) as Sh. pose proof (words12b_spec D Wb) as W.
  destruct fuel as [|fuel]; [discriminate|].
  assert (Hval : validate_directory (S fuel) D = Some true).
  { unfold validate_directory. cbn [validate_loop]. rewrite Hsane, Hnext.
    reflexivity. }
  rewrite Hval in Hrun.
  change (Z.to_nat FIRST_DIR_BLOCK) with 1%nat in Hrun.
  change (Z.to_nat DIR_LENGTH) with 6%nat in Hrun.
  cbn [seq map app] in Hrun. unfold FIRST_DIR_BLOCK in Hrun.
  cbn [Z.of_nat Pos.of_succ_nat Pos.succ Z.add Pos.add] in Hrun.
  match type of Hrun with
  | (let '(ok, img1) := write_blocks write_block img ?l in _) = _ =>
      set (blocks := l) in *
  end.
  destruct (write_blocks write_block img blocks) as [ok img1] eqn:Hw.
  injection Hrun as -> <- ->.
  assert (ND : NoDup (map fst blocks)).
  { unfold blocks. cbn [map fst].
    repeat (constructor; [cbn [In]; lia|]). constructor. }
  assert (HF : Forall (fun nb => 0 <= fst nb /\ List.length (snd nb) = 256%nat)
                 blocks).
  { unfold blocks.
    repeat (constructor; [cbn [fst snd]; split; [lia|apply Sh; lia]|]).
    constructor. }
  assert (HW : Forall (fun nb => Forall word12 (snd nb)) blocks).
  { unfold blocks. repeat (constructor; [cbn [snd]; apply W|]). constructor. }
  assert (R0 : read_block img' 0 = Some (repeat 0 256)).
  { rewrite <- Hz.
    apply (write_blocks_read blocks img img' 0 _ ND HF HW Hw).
    unfold blocks. cbn [In]. auto. }
  assert (R1 : read_block img' 1 = Some (data (seg D 0))).
  { apply (write_blocks_read blocks img img' 1 _ ND HF HW Hw).
    unfold blocks. cbn [In]. auto. }
  assert (RL : read_block img' (last_block_no device) = Some (repeat 0 256)).
  { rewrite <- Hz.
    apply (write_blocks_read blocks img img' _ _ ND HF HW Hw).
    unfold blocks. cbn [In]. auto 10. }
  split; [reflexivity|]. split; [exact R0|]. split; [exact RL|].
  set (d'' := set_seg d0 0 (mk_dir_block false (data (seg D 0)))).
  assert (S0 : seg d'' 0 = seg D 0).
  { unfold d''. rewrite seg_set_seg_same by lia.
    destruct (seg D 0) as [dirty0 data0] eqn:E. cbn [data]. f_equal.
    assert (Hd : dirty (seg D 0) = false) by (unfold D; reflexivity).
    rewrite E in Hd. cbn in Hd. congruence. }
  assert (Ew : forall off, word d'' 0 off = word D 0 off)
    by (intros off; unfold word; rewrite S0; reflexivity).
  assert (Hnum'' : number_files d'' 0 = 4095)
    by (unfold number_files; rewrite Ew; exact Hnum).
  assert (Hnext'' : next_segment d'' 0 = 0)
    by (unfold next_segment; rewrite Ew; exact Hnext).
  assert (H5'' : word d'' 0 5 = 0) by (rewrite Ew; exact H5).
  destruct (single_empty_entry d'' 2 Hnum'' Hnext'' H5'' (Nat.le_refl 2))
    as (_ & Hempty & Hfb & Hel).
  exists d'', (peek_entry d'' (init_cursor d'') entry_zero).
  split.
  { unfold read_directory. cbn [read_directory_loop].
    change FIRST_DIR_BLOCK with 1. rewrite R1.
    change (1 - 1) with 0. fold d''.
    rewrite Hnext''.
    change (0 >? DIR_LENGTH) with false. change (0 =? 0) with true.
    cbv iota.
    unfold validate_directory. cbn [validate_loop].
    rewrite (segment_sane_same_data D d'' 0) by (rewrite S0; reflexivity).
    rewrite Hsane, Hnext''. reflexivity. }
  split; [exact S0|].
  split; [intros j Hj; unfold d''; apply seg_set_seg_other; auto|].
  split.
  { intros fuel' Hf'.
    apply (single_empty_entry d'' fuel' Hnum'' Hnext'' H5'' Hf'). }
  split; [exact Hempty|].
  split; [rewrite Hfb; unfold first_file_block; rewrite Ew; exact Hffb|].
  rewrite Hel, Ew. exact Hlen.
Qed.

(** A block of 256 twelve-bit words is written. *)
Hypothesis write_succeeds :
  forall img n b,
    0 <= n -> List.length b = 256%nat -> Forall word12 b ->
    exists img', write_block img n b = Some img'.

Lemma write_blocks_succeed (blocks : list (Z * list Z)) :
  forall img,
    Forall (fun nb => 0 <= fst nb /\ List.length (snd nb) = 256%nat) blocks ->
    Forall (fun nb => Forall word12 (snd nb)) blocks ->
    exists img', write_blocks write_block img blocks = (true, img').
Proof.
  induction blocks as [|[m c] blocks IH]; intros img HF HW.
  - exists img. reflexivity.
  - inversion HF as [|? ? (Hm & Lc) HF']; subst.
    inversion HW as [|? ? Wc HW']; subst. cbn [fst snd] in *.
    destruct (write_succeeds img m c Hm Lc Wc) as (img1 & E).
    cbn [write_blocks]. rewrite E. apply IH; assumption.
Qed.

Lemma created_written (device : device_t) (fuel : nat) (img : image) :
  shapeb (created_directory device) = true ->
  words12b (created_directory device) = true ->
  segment_sane (created_directory device) 0 = true ->
  next_segment (created_directory device) 0 = 0 ->
  0 <= last_block_no device -> (1 <= fuel)%nat ->
  exists img',
    match validate_directory fuel (created_directory device) with
    | None => None
    | Some false => Some (false, created_directory device, img)
    | Some true =>
        let '(ok, img1) :=
          write_blocks write_block img
            (map (fun k => (Z.of_nat k,
                            data (seg (created_directory device) 1)))
                 (seq 0 (Z.to_nat FIRST_DIR_BLOCK))
             ++ map (fun k => (Z.of_nat k + FIRST_DIR_BLOCK,
                               data (seg (created_directory device)
                                         (Z.of_nat k))))
                    (seq 0 (Z.to_nat DIR_LENGTH))
             ++ [(last_block_no device,
                  data (seg (created_directory device) 1))]) in
        Some (ok, created_directory device, img1)
    end = Some (true, created_directory device, img').
Proof.
  set (D := created_directory device).
  intros Sb Wb Hsane Hnext Hlast Hfuel.
  pose proof (shapeb_spec D Sb) as Sh. pose proof (words12b_spec D Wb) as W.
  destruct fuel as [|fuel]; [lia|].
  assert (Hval : validate_directory (S fuel) D = Some true).
  { unfold validate_directory. cbn [validate_loop]. rewrite Hsane, Hnext.
    reflexivity. }
  rewrite Hval.
  change (Z.to_nat FIRST_DIR_BLOCK) with 1%nat.
  change (Z.to_nat DIR_LENGTH) with 6%nat.
  cbn [seq map app]. unfold FIRST_DIR_BLOCK.
  cbn [Z.of_nat Pos.of_succ_nat Pos.succ Z.add Pos.add].
  match goal with
  | |- exists _, (let '(ok, img1) := write_blocks write_block img ?l in _) = _ =>
      destruct (write_blocks_succeed l img) as (img' & E)
  end.
  - repeat (constructor; [cbn [fst snd]; split; [lia|apply Sh; lia]|]).
    constructor.
  - repeat (constructor; [cbn [snd]; apply W|]). constructor.
  - exists img'. rewrite E. reflexivity.
Qed.

(** X10 (create_filesystem, get_device).  On a device that takes every
    block of 256 twelve-bit words, reads back what was written and leaves
    the other blocks alone, [create_filesystem] for a DECtape or an RK05
    returns true.  Afterwards block 0 and the last block of the device read
    as zeros, and [read_directory] returns true with a first segment that
    is the one created: the directory lists a single empty entry, which
    starts at block 7 and has the length of the file system (730 blocks on
    a DECtape, 3241 on an RK05). *)
Theorem create_filesystem_read_back (fuel : nat) (img : image)
  (format : format_t) (device : device_t) (d0 : directory_t) :
  get_device format = Some device -> (1 <= fuel)%nat ->
  List.length d0 = 6%nat ->
  exists d' img' d'' e,
    create_filesystem fuel write_block img format = Some (true, d', img')
    /\ read_block img' 0 = Some (repeat 0 256)
    /\ read_block img' (last_block_no device) = Some (repeat 0 256)
    /\ read_directory fuel (read_block img') d0 = Some (true, d'')
    /\ seg d'' 0 = seg d' 0
    /\ (forall j, j <> 0 -> seg d'' j = seg d0 j)
    /\ (forall fuel', (2 <= fuel')%nat ->
          directory_entries fuel' d'' = Some [e])
    /\ empty_file e = true
    /\ file_block e = 7
    /\ e_length e = filesystem_size device.
Proof.
  intros Hdev Hfuel L0. unfold create_filesystem. rewrite Hdev.
  assert (Hdev' := Hdev).
  destruct format; try discriminate; injection Hdev' as <-;
    match goal with
    | |- context [created_directory ?dev] =>
        destruct (created_written dev fuel img) as (img' & Hrun);
        [vm_compute; reflexivity|vm_compute; reflexivity
        |vm_compute; reflexivity|vm_compute; reflexivity
        |vm_compute; discriminate|exact Hfuel|];
        destruct (created_read_back dev fuel img (created_directory dev)
                                    img' d0) as
          (_ & R0 & RL & d'' & e & Hread & Hs & Ho & He & Hempty & Hfb & Hlen);
        [vm_compute; reflexivity|vm_compute; reflexivity
        |vm_compute; reflexivity|vm_compute; reflexivity
        |vm_compute; reflexivity|vm_compute; reflexivity
        |vm_compute; reflexivity|vm_compute; reflexivity
        |vm_compute; reflexivity|vm_compute; discriminate|exact Hrun
        |exact L0|];
        exists (created_directory dev), img', d'', e;
        split; [exact Hrun|];
        repeat (split; [eassumption|]); assumption
    end.
Qed.

End NewFileSystem.

Lemma rka_write_then_read (img : image) (n : Z) (b : list Z) (img' : image) :
  List.length b = 256%nat -> Forall word12 b ->
  write_rka_block img n b = Some img' -> read_rka_block img' n = Some b.
Proof.
  intros L W Hw. destruct (rka_write_read img n b L W) as (img2 & E & R).
  congruence.
Qed.

Lemma rka_write_succeeds (img : image) (n : Z) (b : list Z) :
  0 <= n -> List.length b = 256%nat -> Forall word12 b ->
  exists img', write_rka_block img n b = Some img'.
Proof.
  intros _ L W. destruct (rka_write_read img n b L W) as (img2 & E & _).
  eauto.
Qed.

Lemma create_filesystem_read_back_witness :
  exists d' img' d'' e,
    create_filesystem 10 write_rka_block [] rk05 = Some (true, d', img')
    /\ read_rka_block img' 0 = Some (repeat 0 256)
    /\ read_rka_block img' 3247 = Some (repeat 0 256)
    /\ read_directory 10 (read_rka_block img') blank_directory
       = Some (true, d'')
    /\ seg d'' 0 = seg d' 0
    /\ (forall j, j <> 0 -> seg d'' j = seg blank_directory j)
    /\ (forall fuel', (2 <= fuel')%nat ->
          directory_entries fuel' d'' = Some [e])
    /\ empty_file e = true
    /\ file_block e = 7
    /\ e_length e = 3241.
Proof.
  apply (create_filesystem_read_back write_rka_block read_rka_block
           rka_write_then_read rka_write_keeps_other rka_write_succeeds
           10 [] rk05 (mk_device 3247 3241 3248) blank_directory).
  - reflexivity.
  - lia.
  - reflexivity.
Defined.


(** * The directory engine: consolidate, lookup, enter and the shuffles *)

Lemma consolidate_loop_settled (f : nat) :
  forall d c e ne,
    settled_loop f d c = Some true -> consolidate_loop f d c e ne = Some d.
Proof.
  induction f as [|f IH]; intros d c e ne Hs; [discriminate|].
  cbn [consolidate_loop settled_loop] in *.
  destruct (valid_entry (S f) d c) as [[[|] c1]|] eqn:V; try discriminate;
    [|reflexivity].
  destruct (idle_at d c1) eqn:Hid; [|discriminate].
  rewrite idle_at_eq in Hid.
  unfold consolidate_body. rewrite get_entry_step.
  rewrite !empty_file_peek, !e_length_peek in Hid.
  rewrite !empty_file_peek, !e_length_peek.
  destruct (word d (c_dir_block c1) (c_entry c1) =? 0).
  - destruct (u16 (negate (word d (c_dir_block c1) (c_entry c1 + 1))) =? 0);
      [discriminate|].
    cbn [andb orb negb] in Hid. apply negb_true_iff in Hid.
    rewrite Hid. apply IH, Hs.
  - apply IH, Hs.
Qed.

(** X11 (consolidate).  A directory in which no empty entry has the length
    0 and no empty entry is followed by another one in its segment is left
    by [consolidate] exactly as it is: no word and no dirty flag changes. *)
Theorem consolidate_keeps_settled (fuel : nat) (d : directory_t) :
  settled fuel d = Some true -> consolidate fuel d = Some d.
Proof. unfold settled, consolidate. apply consolidate_loop_settled. Qed.

Lemma consolidate_keeps_settled_witness :
  consolidate 100 holed_directory = Some holed_directory.
Proof.
  apply (consolidate_keeps_settled 100 holed_directory).
  vm_compute. reflexivity.
Defined.

(** ** lookup finds the first match of the listing *)

Lemma file_matches_peek (d : directory_t) (c : cursor_t) (p : pattern_t)
  (old old' : entry_t) :
  file_matches p (peek_entry d c old) = file_matches p (peek_entry d c old').
Proof.
  unfold file_matches. rewrite !empty_file_peek, !e_length_peek.
  destruct (word d (c_dir_block c) (c_entry c) =? 0) eqn:E; [reflexivity|].
  rewrite !name_peek by (rewrite empty_file_peek; exact E). reflexivity.
Qed.

Lemma same_file_peek (d : directory_t) (c : cursor_t) (old old' : entry_t) :
  empty_file (peek_entry d c old) = false ->
  same_file (peek_entry d c old) (peek_entry d c old').
Proof.
  intros E. unfold same_file.
  rewrite !dir_block_peek_entry, !empty_file_peek, !e_length_peek.
  destruct (place_peek d c old) as (-> & -> & ->).
  destruct (place_peek d c old') as (-> & -> & ->).
  rewrite (name_peek d c old E).
  rewrite name_peek
    by (rewrite empty_file_peek in *; exact E).
  repeat split; reflexivity.
Qed.

Lemma lookup_loop_first_listed (p : pattern_t) (d : directory_t) (fuel : nat) :
  forall c old es,
    entries_loop fuel d c old = Some es ->
    exists r c',
      lookup_loop fuel p d c = Some (r, c')
      /\ match find (file_matches p) es with
         | Some e0 => exists e, r = Some e /\ same_file e e0
         | None => r = None
         end.
Proof.
  induction fuel as [|fuel IH]; intros c old es H; [discriminate|].
  cbn [entries_loop lookup_loop] in *.
  destruct (valid_entry (S fuel) d c) as [[[|] c1]|] eqn:V; try discriminate.
  - rewrite get_entry_step in *.
    destruct (entries_loop fuel d (step d c1) (peek_entry d c1 old))
      as [es'|] eqn:E; [|discriminate].
    cbn in H. injection H as <-. cbn [find].
    rewrite (file_matches_peek d c1 p old entry_zero).
    fold (file_matches p (peek_entry d c1 entry_zero)).
    destruct (file_matches p (peek_entry d c1 entry_zero)) eqn:M.
    + eexists _, _. split; [reflexivity|].
      exists (peek_entry d c1 entry_zero). split; [reflexivity|].
      apply same_file_peek. unfold file_matches in M.
      destruct (empty_file (peek_entry d c1 entry_zero));
        [discriminate|reflexivity].
    + apply (IH _ _ _ E).
  - injection H as <-. eexists _, _. split; [reflexivity|]. reflexivity.
Qed.

(** X12 (lookup).  Whenever the walk over the directory ends, [lookup] from
    the start of the directory returns, and what it returns is the first
    entry of the listing that is a file, has a length other than 0 and a
    name that the pattern of the file name matches; it finds nothing
    exactly when the listing has no such entry. *)
Theorem lookup_finds_first_listed (fuel : nat) (filename : string)
  (d : directory_t) (es : list entry_t) :
  directory_entries fuel d = Some es ->
  exists r c',
    lookup fuel filename d (init_cursor d) = Some (r, c')
    /\ match find (file_matches (build_pattern (strip_device filename))) es
       with
       | Some e0 => exists e, r = Some e /\ same_file e e0
       | None => r = None
       end.
Proof.
  unfold directory_entries, lookup. apply lookup_loop_first_listed.
Qed.

Lemma lookup_finds_first_listed_witness :
  exists r c',
    lookup 100 "os8:hello.bn" (snd (fst sample_copied))
           (init_cursor (snd (fst sample_copied))) = Some (r, c')
    /\ match find (file_matches (build_pattern (strip_device "os8:hello.bn")))
                  (match directory_entries 100 (snd (fst sample_copied)) with
                   | Some es => es
                   | None => []
                   end)
       with
       | Some e0 => exists e, r = Some e /\ same_file e e0
       | None => r = None
       end.
Proof.
  apply (lookup_finds_first_listed 100 "os8:hello.bn"
           (snd (fst sample_copied))).
  vm_compute. reflexivity.
Defined.

(** X13 (enter_os8_file, enter, lookup).  Insert, then look up.  Let the
    name be one that [os8_filename_p] accepts, without a star, and not yet
    in the directory; let the directory have 12-bit words and give
    [consolidate] nothing to do; let [get_empty_entry] hand out an empty
    entry that is longer than the [k > 0] blocks asked for, in a segment
    with room for one more entry.  When [enter_os8_file] returns true,
    [lookup] finds the name in the new directory, at the first block of the
    empty entry and with the length [k]. *)
Theorem new_file_is_found (fuel fs : nat) (filename : string) (size k : Z)
  (d : directory_t) (e : entry_t) (cend : cursor_t) (d' : directory_t) :
  os8_filename_p filename = true ->
  os8_contains_wildcard_p filename = false ->
  shape d -> words12 d -> settled fs d = Some true ->
  lookup fuel filename d (init_cursor d) = Some (None, cend) ->
  get_empty_entry fuel d entry_zero entry_zero size = Some (true, e) ->
  has_room d ((file_entry_length d (dir_block e) + empty_entry_length)
              mod 2 ^ 32) (dir_block e) = true ->
  0 < k < e_length e ->
  enter_os8_file fuel filename k d e = Some (true, d') ->
  exists x c,
    lookup fuel filename d' (init_cursor d') = Some (Some x, c)
    /\ file_block x = file_block e /\ e_length x = k.
Proof.
  intros Hp Hw Sh W Hset Hfresh Hget Hroom Hk Henter.
  destruct (legal_sixbit filename Hp Hw) as (_ & W12 & L4 & Hn0).
  assert (Hfirst : u16 (nth 0 (build_sixbit filename) 0) <> 0).
  { destruct (build_sixbit filename) as [|w0 ws]; [discriminate|].
    inversion W12 as [|? ? Hw0 _]; subst. cbn [nth] in *.
    unfold word12 in Hw0. rewrite u16_small by lia. exact Hn0. }
  assert (Hself : pattern_match_p (stored_name (build_sixbit filename))
                    (build_pattern (strip_device filename)) = true).
  { apply (pattern_same_name filename filename Hp Hw Hp Hw). reflexivity. }
  destruct (entered_listed fuel fs filename size k d e cend d' Sh W Hset
              Hfresh Hfirst Hself Hget Hroom Hk Henter)
    as (x & c & Hlook & Hfb & Hlen & _).
  exists x, c. auto.
Qed.

Lemma new_file_is_found_witness :
  exists x c,
    lookup 100 "hello.bn" (snd (fst sample_copied))
           (init_cursor (snd (fst sample_copied))) = Some (Some x, c)
    /\ file_block x = file_block sample_allocated /\ e_length x = 2.
Proof.
  eapply (new_file_is_found 100 100 "hello.bn" 2 2 holed_directory
            sample_allocated _ (snd (fst sample_copied))).
  - reflexivity.
  - reflexivity.
  - apply shapeb_spec. vm_compute. reflexivity.
  - apply words12b_spec. vm_compute. reflexivity.
  - vm_compute. reflexivity.
  - vm_compute. reflexivity.
  - vm_compute. reflexivity.
  - vm_compute. reflexivity.
  - vm_compute. split; reflexivity.
  - vm_compute. reflexivity.
Defined.

(** ** The shuffles *)

(** X14 (shuffle_words_down).  [shuffle_words_down] with the target below
    the source moves the words [src .. last] of a block down to [dst ..]
    correctly although the two ranges overlap: each word of the target
    range gets the old content of the word [src - dst] places above it, and
    every other word of the block keeps its content. *)
Theorem shuffle_words_down_moves (l : list Z) (src dst last k : Z) :
  0 <= dst < src -> last < Z.of_nat (List.length l) ->
  rd (shuffle_words_down l src dst last) k
  = if (dst <=? k) && (k <=? dst + (last - src))
    then rd l (k + (src - dst)) else rd l k.
Proof.
  intros Hd Hl. unfold shuffle_words_down.
  destruct (Z_lt_le_dec last src) as [Hlt|Hle].
  - replace (Z.to_nat (last - src + 1)) with 0%nat by lia.
    cbn [shuffle_down_loop].
    replace ((dst <=? k) && (k <=? dst + (last - src))) with false;
      [reflexivity|].
    symmetry. apply andb_false_iff.
    destruct (Z.leb_spec dst k); [right; apply Z.leb_gt; lia|left; reflexivity].
  - destruct (Z.leb_spec dst k) as [H1|H1]; cbn [andb].
    + destruct (Z.leb_spec k (dst + (last - src))) as [H2|H2].
      * apply shuffle_down_loop_inside; lia.
      * apply shuffle_down_loop_outside. lia.
    + apply shuffle_down_loop_outside. lia.
Qed.

Lemma shuffle_words_down_moves_witness :
  rd (shuffle_words_down [10; 11; 12; 13; 14; 15; 16; 17] 4 2 7) 3
  = if (2 <=? 3) && (3 <=? 2 + (7 - 4))
    then rd [10; 11; 12; 13; 14; 15; 16; 17] (3 + (4 - 2))
    else rd [10; 11; 12; 13; 14; 15; 16; 17] 3.
Proof.
  apply (shuffle_words_down_moves [10; 11; 12; 13; 14; 15; 16; 17] 4 2 7 3);
    cbn; lia.
Defined.

(** X15 (shuffle_words_up).  [shuffle_words_up] with the target above the
    source moves the words [last .. src] of a block up to [.. dst]
    correctly although the two ranges overlap: each word of the target
    range gets the old content of the word [dst - src] places below it, and
    every other word of the block keeps its content. *)
Theorem shuffle_words_up_moves (l : list Z) (src dst last k : Z) :
  src < dst -> 0 <= last -> dst < Z.of_nat (List.length l) ->
  rd (shuffle_words_up l src dst last) k
  = if (last + (dst - src) <=? k) && (k <=? dst)
    then rd l (k - (dst - src)) else rd l k.
Proof.
  intros Hd H0 Hl. unfold shuffle_words_up.
  destruct (Z_lt_le_dec src last) as [Hlt|Hle].
  - replace (Z.to_nat (src - last + 1)) with 0%nat by lia.
    cbn [shuffle_up_loop].
    replace ((last + (dst - src) <=? k) && (k <=? dst)) with false;
      [reflexivity|].
    symmetry. apply andb_false_iff.
    destruct (Z.leb_spec k dst); [left; apply Z.leb_gt; lia|right; reflexivity].
  - destruct (Z.leb_spec (last + (dst - src)) k) as [H1|H1]; cbn [andb].
    + destruct (Z.leb_spec k dst) as [H2|H2].
      * apply shuffle_up_loop_inside; lia.
      * apply shuffle_up_loop_outside. lia.
    + apply shuffle_up_loop_outside. lia.
Qed.

Lemma shuffle_words_up_moves_witness :
  rd (shuffle_words_up [10; 11; 12; 13; 14; 15; 16; 17] 4 6 2) 5
  = if (2 + (6 - 4) <=? 5) && (5 <=? 6)
    then rd [10; 11; 12; 13; 14; 15; 16; 17] (5 - (6 - 4))
    else rd [10; 11; 12; 13; 14; 15; 16; 17] 5.
Proof.
  apply (shuffle_words_up_moves [10; 11; 12; 13; 14; 15; 16; 17] 4 6 2 5);
    cbn; lia.
Defined.


(** * The listing after a deletion *)

Lemma valid_entry_range (f : nat) :
  forall d c b c1,
    words12 d -> valid_entry f d c = Some (b, c1) ->
    0 <= c_dir_block c < 6 -> 0 <= c_dir_block c1 < 6.
Proof.
  induction f as [|f IH]; intros d c b c1 W V Hr; [discriminate|].
  cbn [valid_entry] in V.
  destruct (overflowed_segment d c).
  - destruct (next_segment d (c_dir_block c) =? 0) eqn:E0;
      [injection V as _ <-; exact Hr|].
    destruct (next_segment d (c_dir_block c) >? DIR_LENGTH) eqn:E6;
      [discriminate|].
    apply (IH _ _ _ _ W V). cbn [c_dir_block].
    pose proof (word12_word d (c_dir_block c) 2 W) as Hn.
    unfold word12 in Hn. fold (next_segment d (c_dir_block c)) in Hn.
    zbool. unfold DIR_LENGTH in *. lia.
  - injection V as _ <-. exact Hr.
Qed.

Lemma visits_range (d : directory_t) (c c1 : cursor_t) :
  words12 d -> visits d c c1 ->
  0 <= c_dir_block c < 6 -> 0 <= c_dir_block c1 < 6.
Proof.
  intros W H. induction H as [f c c1 V|f c c1 c2 V _ IH]; intros Hr.
  - eapply valid_entry_range; eassumption.
  - apply IH. rewrite step_fields. cbn [c_dir_block].
    eapply valid_entry_range; eassumption.
Qed.

(** The words of the directory after [delete_entry] at a file entry that
    lies inside its block. *)
Lemma deleted_words (d : directory_t) (c : cursor_t) (old : entry_t) :
  shape d -> words12 d ->
  0 <= c_dir_block c < 6 -> file_entries <= c_entry c ->
  c_entry c + file_entry_length d (c_dir_block c) <= 256 ->
  word d (c_dir_block c) (c_entry c) <> 0 ->
  (forall j, j <> c_dir_block c ->
             seg (fst (delete_entry d (peek_entry d c old))) j = seg d j)
  /\ (forall q, q < c_entry c -> q <> 3 ->
                word (fst (delete_entry d (peek_entry d c old)))
                     (c_dir_block c) q
                = word d (c_dir_block c) q)
  /\ word (fst (delete_entry d (peek_entry d c old)))
          (c_dir_block c) (c_entry c) = 0
  /\ word (fst (delete_entry d (peek_entry d c old)))
          (c_dir_block c) (c_entry c + 1)
     = word d (c_dir_block c)
            (c_entry c + file_entry_length d (c_dir_block c) - 1)
  /\ (forall q, c_entry c + file_entry_length d (c_dir_block c) <= q < 256 ->
                word (fst (delete_entry d (peek_entry d c old)))
                     (c_dir_block c)
                     (q - (file_entry_length d (c_dir_block c) - 2))
                = word d (c_dir_block c) q).
Proof.
  intros [Hl Hs] W Hi Hp Hfit Hfile.
  set (i := c_dir_block c) in *. set (p := c_entry c) in *.
  set (e := peek_entry d c old).
  pose proof (word12_word d i 4 W) as Haw.
  fold (additional_words d i) in Haw.
  destruct (file_entry_length_word12 d i Haw) as (Hel & Hel5).
  set (el := file_entry_length d i) in *.
  assert (Hdb : dir_block e = i) by apply dir_block_peek_entry.
  assert (Hen : entry e = p) by apply place_peek.
  assert (Hne : empty_file e = false).
  { unfold e. rewrite empty_file_peek. apply Z.eqb_neq. exact Hfile. }
  assert (Eel : entry_length d e = el).
  { unfold entry_length. rewrite Hne, Hdb. reflexivity. }
  pose proof (negate_word12 _ Haw) as Hn. unfold word12 in Hn.
  assert (Elen : e_length e = u16 (negate (word d i (p + el - 1)))).
  { unfold e. rewrite e_length_peek. fold i p.
    replace (word d i p =? 0) with false by (symmetry; apply Z.eqb_neq; exact Hfile).
    rewrite (u16_small (negate (additional_words d i))) by lia.
    do 3 f_equal. lia. }
  unfold file_entries in Hp.
  set (d1 := fix_segment_down d e empty_entry_length).
  assert (Hd' : fst (delete_entry d e) = put_entry d1 (set_empty e))
    by reflexivity.
  assert (Hlen : length (data (seg d i)) = 256%nat) by (apply Hs; exact Hi).
  assert (Hid : 0 <= i < Z.of_nat (length d)) by (rewrite Hl; cbn; lia).
  assert (L1 : length (data (seg d1 i)) = 256%nat).
  { pose proof (length_data_fix_segment_down d e empty_entry_length) as P.
    rewrite Hdb in P. unfold d1. rewrite P; assumption. }
  assert (Hput : forall k,
             word (fst (delete_entry d e)) i k
             = if k =? p then 0
               else if k =? p + 1 then u16 (negate (e_length e))
               else word d1 i k).
  { intros k. rewrite Hd'.
    pose proof (word_put_entry_empty d1 (set_empty e) k) as P.
    cbn [set_empty empty_file entry dir_block e_length] in P.
    rewrite Hdb, Hen in P. apply P; [reflexivity|lia|rewrite L1; lia]. }
  assert (Hdown : forall k, k <> 3 ->
             word d1 i k
             = rd (shuffle_words_down (data (seg d i)) (p + el) (p + 2) 255) k).
  { intros k Hk.
    pose proof (word_fix_segment_down d e empty_entry_length k) as P.
    rewrite Hdb, Hen, Eel in P. apply P; assumption. }
  split; [|split; [|split; [|split]]].
  - intros j Hj. rewrite Hd'.
    rewrite seg_put_entry_other by (cbn [set_empty dir_block]; rewrite Hdb; auto).
    unfold d1. apply seg_fix_segment_down_other. rewrite Hdb. auto.
  - intros q Hq Hq3. rewrite Hput.
    replace (q =? p) with false by (symmetry; apply Z.eqb_neq; lia).
    replace (q =? p + 1) with false by (symmetry; apply Z.eqb_neq; lia).
    rewrite Hdown by exact Hq3. unfold shuffle_words_down.
    apply shuffle_down_loop_outside. lia.
  - rewrite Hput, Z.eqb_refl. reflexivity.
  - rewrite Hput.
    replace (p + 1 =? p) with false by (symmetry; apply Z.eqb_neq; lia).
    rewrite Z.eqb_refl, Elen.
    pose proof (word12_word d i (p + el - 1) W) as Hw.
    pose proof (negate_word12 _ Hw) as Hnw. unfold word12 in Hnw.
    rewrite (u16_small (negate (word d i (p + el - 1)))) by lia.
    rewrite negate_involutive by exact Hw. apply u16_small.
    unfold word12 in Hw. lia.
  - intros q Hq. rewrite Hput.
    replace (q - (el - 2) =? p) with false by (symmetry; apply Z.eqb_neq; lia).
    replace (q - (el - 2) =? p + 1) with false
      by (symmetry; apply Z.eqb_neq; lia).
    rewrite Hdown by lia. unfold shuffle_words_down.
    rewrite shuffle_down_loop_inside; try lia.
    unfold word. f_equal. lia.
Qed.

(** ** The walk over the directory before and after the deletion *)

Section Deleted.

Variables d d' : directory_t.
Variable ce : cursor_t.
Variable ptr : Z.

Hypothesis W : words12 d.
Hypothesis Hgrid : reach d (seg_start d (c_dir_block ce)) ce.
Hypothesis Hvalid : overflowed_segment d ce = false.
Hypothesis Hfile : word d (c_dir_block ce) (c_entry ce) <> 0.
Hypothesis Hptr : get_unused_ptr d (c_dir_block ce) 0 = Some (Some ptr).

Hypothesis D0 : forall j, j <> c_dir_block ce -> seg d' j = seg d j.
Hypothesis D1 :
  forall q, q < c_entry ce -> q <> 3 ->
            word d' (c_dir_block ce) q = word d (c_dir_block ce) q.
Hypothesis D2 : word d' (c_dir_block ce) (c_entry ce) = 0.
Hypothesis D3 :
  word d' (c_dir_block ce) (c_entry ce + 1)
  = word d (c_dir_block ce)
         (c_entry ce + file_entry_length d (c_dir_block ce) - 1).
Hypothesis D4 :
  forall q, c_entry ce + file_entry_length d (c_dir_block ce) <= q < 256 ->
            word d' (c_dir_block ce)
                 (q - (file_entry_length d (c_dir_block ce) - 2))
            = word d (c_dir_block ce) q.

Lemma del_width :
  file_entry_length d (c_dir_block ce)
    = 5 + negate (additional_words d (c_dir_block ce))
  /\ 0 <= negate (additional_words d (c_dir_block ce)) < 4096.
Proof.
  pose proof (word12_word d (c_dir_block ce) 4 W) as Ha.
  destruct (file_entry_length_word12 d (c_dir_block ce) Ha) as [E _].
  pose proof (negate_count _ Ha). unfold additional_words in *. lia.
Qed.

Lemma del_place : 5 <= c_entry ce /\ 1 <= c_file_number ce <= 4095.
Proof.
  pose proof (reach_entry _ _ _ Hgrid) as He.
  pose proof (reach_file_number _ _ _ W Hgrid) as Hf.
  pose proof (overflowed_count _ _ W Hvalid).
  cbn [seg_start c_entry c_file_number] in *. unfold file_entries in He. lia.
Qed.

Lemma del_file : (word d (c_dir_block ce) (c_entry ce) =? 0) = false.
Proof. apply Z.eqb_neq. exact Hfile. Qed.

Lemma del_room :
  c_entry ce + file_entry_length d (c_dir_block ce) <= ptr /\ ptr < 256.
Proof.
  destruct (unused_ptr_tiles d _ _ _ ce W Hptr Hgrid Hvalid) as [Ht Hr].
  rewrite entry_length_peek, del_file in Ht.
  unfold OS8_BLOCK_SIZE in *. lia.
Qed.

Lemma del_header (j : Z) :
  number_files d' j = number_files d j
  /\ first_file_block d' j = first_file_block d j
  /\ next_segment d' j = next_segment d j
  /\ additional_words d' j = additional_words d j.
Proof.
  destruct del_place as [Hp _].
  unfold number_files, first_file_block, next_segment, additional_words.
  destruct (Z.eq_dec j (c_dir_block ce)) as [->|Hj].
  - rewrite !D1 by lia. auto.
  - unfold word. rewrite (D0 j Hj). auto.
Qed.

Lemma del_file_entry_length (j : Z) :
  file_entry_length d' j = file_entry_length d j.
Proof.
  unfold file_entry_length. destruct (del_header j) as (_ & _ & _ & ->).
  reflexivity.
Qed.

Lemma del_entry_length (e1 e2 : entry_t) :
  empty_file e1 = empty_file e2 -> dir_block e1 = dir_block e2 ->
  entry_length d' e1 = entry_length d e2.
Proof.
  intros E1 E2. unfold entry_length.
  rewrite E1, E2, del_file_entry_length. reflexivity.
Qed.

Lemma del_overflowed (c : cursor_t) :
  overflowed_segment d' c = overflowed_segment d c.
Proof.
  unfold overflowed_segment.
  destruct (del_header (c_dir_block c)) as (-> & _). reflexivity.
Qed.

(** [valid_entry] reads the first three words of the segments only. *)
Lemma del_valid_entry (f : nat) :
  forall c, valid_entry f d' c = valid_entry f d c.
Proof.
  induction f as [|f IH]; intros c; [reflexivity|].
  cbn [valid_entry]. rewrite del_overflowed.
  destruct (del_header (c_dir_block c)) as (_ & _ & -> & _).
  destruct (del_header (next_segment d (c_dir_block c) - 1)) as (_ & -> & _).
  rewrite IH. reflexivity.
Qed.

Lemma del_peek_other (c : cursor_t) (old : entry_t) :
  c_dir_block c <> c_dir_block ce ->
  peek_entry d' c old = peek_entry d c old.
Proof.
  intros Hj. unfold peek_entry, additional_words, words_at, word.
  rewrite (D0 _ Hj). reflexivity.
Qed.

(** An entry that ends at or before the deleted one reads as before. *)
Lemma del_peek_before (c : cursor_t) (old : entry_t) :
  c_dir_block c = c_dir_block ce -> 5 <= c_entry c ->
  c_entry c + entry_length d (peek_entry d c entry_zero) <= c_entry ce ->
  peek_entry d' c old = peek_entry d c old.
Proof.
  intros Hj Hc Hend. destruct del_width as [Eel Hcn].
  rewrite entry_length_peek in Hend.
  unfold peek_entry. rewrite Hj in *.
  destruct (del_header (c_dir_block ce)) as (_ & _ & _ & ->).
  pose proof (Z.eqb_spec (word d (c_dir_block ce) (c_entry c)) 0) as Hz.
  unfold empty_entry_length in Hend.
  rewrite (D1 (c_entry c)) by (destruct Hz; lia).
  destruct Hz as [Hz|Hz]; cbv iota.
  - rewrite (D1 (c_entry c + 1)) by lia. reflexivity.
  - rewrite Eel in Hend.
    rewrite (u16_small (negate (additional_words d (c_dir_block ce)))) by lia.
    rewrite (D1 (c_entry c + 4 + negate (additional_words d (c_dir_block ce))))
      by lia.
    f_equal.
    + unfold words_at. apply map_ext_in. intros t Ht. apply in_seq in Ht.
      apply D1; lia.
    + f_equal. unfold words_at. apply map_ext_in. intros t Ht.
      apply in_seq in Ht. apply D1; lia.
Qed.

Lemma del_on_way (c : cursor_t) :
  reach d (seg_start d (c_dir_block ce)) c -> reach d c ce ->
  overflowed_segment d c = false
  /\ c_dir_block c = c_dir_block ce /\ 5 <= c_entry c
  /\ (c <> ce -> c_file_number c < c_file_number ce).
Proof.
  intros Hg Hr.
  pose proof (reach_dir_block _ _ _ Hg) as Hd. cbn [seg_start c_dir_block] in Hd.
  pose proof (reach_file_number _ _ _ W Hg) as Hf1.
  pose proof (reach_entry _ _ _ Hg) as He.
  cbn [seg_start c_file_number c_entry] in Hf1, He. unfold file_entries in He.
  assert (Ho : overflowed_segment d c = false).
  { destruct Hr; [exact Hvalid|assumption]. }
  split; [exact Ho|]. split; [exact Hd|]. split; [lia|].
  intros Hne. destruct (reach_before _ _ _ Hr Hne) as (_ & Hr' & _).
  pose proof (overflowed_count d c W Ho) as Hc.
  apply (reach_file_number _ _ _ W) in Hr';
    rewrite step_fields in *; cbn [c_file_number] in *;
    rewrite u16_small in * by lia; lia.
Qed.

Lemma del_step_before (c : cursor_t) :
  before d ce c -> c <> ce -> overflowed_segment d c = false ->
  (forall old, peek_entry d' c old = peek_entry d c old)
  /\ step d' c = step d c
  /\ before d ce (step d c)
  /\ (c_dir_block c =? c_dir_block ce) && (c_file_number c =? c_file_number ce)
     = false.
Proof.
  intros Hb Hne Ho.
  assert (P : forall o, peek_entry d' c o = peek_entry d c o).
  { intros o. destruct Hb as [Hj|[Hg Hr]].
    - apply del_peek_other, Hj.
    - destruct (del_on_way c Hg Hr) as (_ & Hd & Hc & _).
      destruct (reach_before _ _ _ Hr Hne) as (_ & _ & Hend).
      apply del_peek_before; assumption. }
  split; [apply P|]. split; [|split].
  - rewrite !step_fields, P.
    rewrite (del_entry_length _ (peek_entry d c entry_zero)); reflexivity.
  - destruct Hb as [Hj|[Hg Hr]].
    + left. rewrite step_fields. exact Hj.
    + right. destruct (reach_before _ _ _ Hr Hne) as (_ & Hr' & _).
      split; [apply reach_snoc; assumption|exact Hr'].
  - apply andb_false_iff. destruct Hb as [Hj|[Hg Hr]].
    + left. apply Z.eqb_neq. exact Hj.
    + right. apply Z.eqb_neq.
      destruct (del_on_way c Hg Hr) as (_ & _ & _ & Hf).
      specialize (Hf Hne). lia.
Qed.

(** The deleted entry is an empty entry of the length of the file. *)
Lemma del_peek_at (old old' : entry_t) :
  empty_file (peek_entry d' ce old) = true
  /\ e_length (peek_entry d' ce old) = e_length (peek_entry d ce old').
Proof.
  destruct del_width as [Eel Hcn].
  rewrite empty_file_peek, !e_length_peek, D2, del_file, D3, Z.eqb_refl.
  split; [reflexivity|].
  rewrite (u16_small (negate (additional_words d (c_dir_block ce)))) by lia.
  do 3 f_equal. lia.
Qed.

Lemma del_step_at :
  step d' ce
  = moved_down (file_entry_length d (c_dir_block ce) - 2) (step d ce).
Proof.
  destruct (del_peek_at entry_zero entry_zero) as [E1 E2].
  rewrite !step_fields, E2. unfold moved_down.
  cbn [c_file_number c_next_block c_entry c_dir_block].
  unfold entry_length at 1. rewrite E1.
  rewrite entry_length_peek, del_file.
  unfold empty_entry_length. f_equal. lia.
Qed.

Lemma del_after_place (c : cursor_t) :
  after d ce c ->
  reach d (seg_start d (c_dir_block ce)) c
  /\ c_dir_block c = c_dir_block ce
  /\ c_entry ce + file_entry_length d (c_dir_block ce) <= c_entry c
  /\ c_file_number ce < c_file_number c.
Proof.
  intros Ha. unfold after in Ha. destruct del_place as [Hp Hf].
  assert (Hg : reach d (seg_start d (c_dir_block ce)) c).
  { apply (reach_trans d _ ce); [exact Hgrid|].
    apply reach_step; [exact Hvalid|exact Ha]. }
  split; [exact Hg|].
  pose proof (reach_dir_block _ _ _ Hg) as Hd.
  pose proof (reach_entry _ _ _ Ha) as He.
  rewrite step_fields, entry_length_peek, del_file in He.
  cbn [seg_start c_dir_block c_entry] in *.
  split; [exact Hd|]. split; [exact He|].
  apply (reach_file_number _ _ _ W) in Ha;
    rewrite step_fields in *; cbn [c_file_number] in *;
    rewrite u16_small in * by lia; lia.
Qed.

(** An entry behind the deleted one is read from its new place. *)
Lemma del_peek_after (c : cursor_t) (old old' : entry_t) :
  after d ce c -> overflowed_segment d c = false ->
  empty_file (peek_entry d'
                (moved_down (file_entry_length d (c_dir_block ce) - 2) c) old)
  = empty_file (peek_entry d c old')
  /\ e_length (peek_entry d'
                 (moved_down (file_entry_length d (c_dir_block ce) - 2) c) old)
     = e_length (peek_entry d c old')
  /\ (empty_file (peek_entry d c old') = false ->
      name (peek_entry d'
              (moved_down (file_entry_length d (c_dir_block ce) - 2) c) old)
      = name (peek_entry d c old')).
Proof.
  intros Ha Ho. destruct (del_after_place c Ha) as (Hg & Hd & Hc & _).
  destruct del_width as [Eel Hcn]. destruct del_room as [_ Hr].
  destruct (unused_ptr_tiles d _ _ _ c W Hptr Hg Ho) as [Ht _].
  rewrite entry_length_peek, Hd in Ht.
  assert (E0 : empty_file (peek_entry d'
                 (moved_down (file_entry_length d (c_dir_block ce) - 2) c) old)
               = empty_file (peek_entry d c old')).
  { rewrite !empty_file_peek. unfold moved_down. cbn [c_dir_block c_entry].
    rewrite Hd. rewrite (D4 (c_entry c)); [reflexivity|].
    revert Ht. unfold empty_entry_length.
    destruct (word d (c_dir_block ce) (c_entry c) =? 0); lia. }
  split; [exact E0|]. split.
  - rewrite !e_length_peek. unfold moved_down. cbn [c_dir_block c_entry].
    rewrite Hd.
    destruct (del_header (c_dir_block ce)) as (_ & _ & _ & ->).
    pose proof (Z.eqb_spec (word d (c_dir_block ce) (c_entry c)) 0) as Hz.
    unfold empty_entry_length in Ht.
    rewrite (D4 (c_entry c)) by (destruct Hz; lia).
    destruct Hz as [Hz|Hz].
    + replace (c_entry c - (file_entry_length d (c_dir_block ce) - 2) + 1)
        with (c_entry c + 1 - (file_entry_length d (c_dir_block ce) - 2))
        by lia.
      rewrite D4 by lia. reflexivity.
    + rewrite (u16_small (negate (additional_words d (c_dir_block ce))))
        by lia.
      replace (c_entry c - (file_entry_length d (c_dir_block ce) - 2) + 4
               + negate (additional_words d (c_dir_block ce)))
        with (c_entry c + 4 + negate (additional_words d (c_dir_block ce))
              - (file_entry_length d (c_dir_block ce) - 2)) by lia.
      rewrite D4 by lia. reflexivity.
  - intros Hf. rewrite !name_peek; [|exact Hf|rewrite E0; exact Hf].
    rewrite empty_file_peek in Hf. rewrite Hd in Hf. rewrite Hf in Ht.
    unfold moved_down. cbn [c_dir_block c_entry]. rewrite Hd.
    unfold words_at. apply map_ext_in. intros t Hin. apply in_seq in Hin.
    replace (c_entry c - (file_entry_length d (c_dir_block ce) - 2)
             + Z.of_nat t)
      with (c_entry c + Z.of_nat t
            - (file_entry_length d (c_dir_block ce) - 2)) by lia.
    apply D4. lia.
Qed.

Lemma del_step_after (c : cursor_t) :
  after d ce c -> overflowed_segment d c = false ->
  step d' (moved_down (file_entry_length d (c_dir_block ce) - 2) c)
  = moved_down (file_entry_length d (c_dir_block ce) - 2) (step d c)
  /\ after d ce (step d c).
Proof.
  intros Ha Ho. split; [|apply reach_snoc; assumption].
  destruct (del_peek_after c entry_zero entry_zero Ha Ho) as (E1 & E2 & _).
  rewrite !step_fields, E2.
  rewrite (del_entry_length _ (peek_entry d c entry_zero));
    [|exact E1|rewrite !dir_block_peek_entry; reflexivity].
  unfold moved_down. cbn [c_file_number c_next_block c_entry c_dir_block].
  f_equal. lia.
Qed.

Lemma del_start_before (j : Z) : before d ce (seg_start d j).
Proof.
  destruct (Z.eq_dec j (c_dir_block ce)) as [->|Hj].
  - right. split; [apply reach_here|exact Hgrid].
  - left. exact Hj.
Qed.

Lemma del_valid_before (f : nat) :
  forall c c1,
    valid_entry f d c = Some (true, c1) -> before d ce c -> before d ce c1.
Proof.
  induction f as [|f IH]; intros c c1 V Hb; [discriminate|].
  cbn [valid_entry] in V.
  destruct (overflowed_segment d c).
  - destruct (next_segment d (c_dir_block c) =? 0); [discriminate|].
    destruct (next_segment d (c_dir_block c) >? DIR_LENGTH); [discriminate|].
    apply (IH _ _ V).
    apply (del_start_before (next_segment d (c_dir_block c) - 1)).
  - injection V as <-. exact Hb.
Qed.

Lemma del_valid_after (f : nat) (c : cursor_t) (b : bool) (c1 : cursor_t) :
  valid_entry f d c = Some (b, c1) -> after d ce c ->
  (overflowed_segment d c = false /\ b = true /\ c1 = c
   /\ valid_entry f d'
        (moved_down (file_entry_length d (c_dir_block ce) - 2) c)
      = Some (true,
              moved_down (file_entry_length d (c_dir_block ce) - 2) c))
  \/ (overflowed_segment d c = true
      /\ exists c1',
          valid_entry f d'
            (moved_down (file_entry_length d (c_dir_block ce) - 2) c)
          = Some (b, c1')
          /\ (b = true -> c1' = c1 /\ before d ce c1)).
Proof.
  intros V Ha. destruct f as [|f]; [discriminate|].
  rewrite del_valid_entry.
  assert (Ho : overflowed_segment d
                 (moved_down (file_entry_length d (c_dir_block ce) - 2) c)
               = overflowed_segment d c) by reflexivity.
  cbn [valid_entry] in *. rewrite Ho.
  replace (c_dir_block
             (moved_down (file_entry_length d (c_dir_block ce) - 2) c))
    with (c_dir_block c) by reflexivity.
  destruct (overflowed_segment d c).
  - right. split; [reflexivity|].
    destruct (next_segment d (c_dir_block c) =? 0).
    + injection V as <- <-. eexists. split; [reflexivity|discriminate].
    + destruct (next_segment d (c_dir_block c) >? DIR_LENGTH); [discriminate|].
      exists c1. split; [exact V|]. intros ->. split; [reflexivity|].
      apply (del_valid_before _ _ _ V).
      apply (del_start_before (next_segment d (c_dir_block c) - 1)).
  - left. injection V as <- <-. auto.
Qed.

(** The two walks meet the same entries, the deleted file as an empty
    entry. *)
Lemma del_entries_sim (f : nat) :
  forall c c' e e' es,
    (before d ce c /\ c' = c)
    \/ (after d ce c
        /\ c' = moved_down (file_entry_length d (c_dir_block ce) - 2) c) ->
    entries_loop f d c e = Some es ->
    exists es',
      entries_loop f d' c' e' = Some es'
      /\ Forall2 (deleted_from (c_dir_block ce) (c_file_number ce)) es es'.
Proof.
  induction f as [|f IH]; intros c c' e e' es R E; [discriminate|].
  assert (Hcont : forall c1,
            before d ce c1 -> overflowed_segment d c1 = false ->
            option_map (cons (peek_entry d c1 e))
              (entries_loop f d (step d c1) (peek_entry d c1 e)) = Some es ->
            exists es',
              option_map (cons (peek_entry d' c1 e'))
                (entries_loop f d' (step d' c1) (peek_entry d' c1 e'))
              = Some es'
              /\ Forall2 (deleted_from (c_dir_block ce) (c_file_number ce))
                         es es').
  { intros c1 Hb Ho E1.
    destruct (entries_loop f d (step d c1) (peek_entry d c1 e))
      as [es1|] eqn:E2; [|discriminate].
    injection E1 as <-.
    destruct (cursor_eq_dec c1 ce) as [->|Hne].
    - destruct (IH (step d ce) (step d' ce) (peek_entry d ce e)
                   (peek_entry d' ce e') es1) as (es1' & E3 & F);
        [right; split; [apply reach_here|apply del_step_at]|exact E2|].
      rewrite E3. eexists. split; [reflexivity|].
      apply Forall2_cons; [|exact F].
      destruct (del_peek_at e' e) as [P1 P2].
      destruct (place_peek d ce e) as (_ & P3 & P4).
      destruct (place_peek d' ce e') as (_ & P5 & P6).
      unfold deleted_from. rewrite !dir_block_peek_entry, P3, P4, P5, P6, P2.
      rewrite !Z.eqb_refl. cbn [andb]. auto.
    - destruct (del_step_before c1 Hb Hne Ho) as (P & S & Hb2 & Hc).
      destruct (IH (step d c1) (step d c1) (peek_entry d c1 e)
                   (peek_entry d c1 e') es1) as (es1' & E3 & F);
        [left; split; [exact Hb2|reflexivity]|exact E2|].
      rewrite S, P, E3. eexists. split; [reflexivity|].
      apply Forall2_cons; [|exact F].
      destruct (place_peek d c1 e) as (_ & P3 & P4).
      destruct (place_peek d c1 e') as (_ & P5 & P6).
      unfold deleted_from. rewrite !dir_block_peek_entry, P3, P4, P5, P6, Hc.
      rewrite !e_length_peek, !empty_file_peek.
      repeat split. intros Hf.
      rewrite !name_peek; [reflexivity| |]; rewrite empty_file_peek; exact Hf. }
  cbn [entries_loop] in *.
  destruct (valid_entry (S f) d c) as [[b c1]|] eqn:V; [|discriminate].
  destruct R as [[Hb ->]|[Ha ->]].
  - rewrite del_valid_entry, V. destruct b.
    + rewrite get_entry_step in *.
      apply Hcont; [|eapply valid_entry_true; exact V|exact E].
      apply (del_valid_before _ _ _ V Hb).
    + injection E as <-. exists []. split; [reflexivity|apply Forall2_nil].
  - destruct (del_valid_after _ _ _ _ V Ha)
      as [(Ho & -> & -> & V')|(Ho & c1' & V' & Hb1)]; rewrite V'.
    + rewrite get_entry_step in *.
      destruct (entries_loop f d (step d c) (peek_entry d c e))
        as [es1|] eqn:E2; [|discriminate].
      injection E as <-.
      destruct (del_step_after c Ha Ho) as [S Ha2].
      destruct (IH (step d c)
                   (moved_down (file_entry_length d (c_dir_block ce) - 2)
                               (step d c))
                   (peek_entry d c e)
                   (peek_entry d'
                      (moved_down (file_entry_length d (c_dir_block ce) - 2) c)
                      e') es1) as (es1' & E3 & F);
        [right; split; [exact Ha2|reflexivity]|exact E2|].
      rewrite S, E3. eexists. split; [reflexivity|].
      apply Forall2_cons; [|exact F].
      destruct (del_peek_after c e' e Ha Ho) as (Q1 & Q2 & Q3).
      destruct (del_after_place c Ha) as (_ & _ & _ & Hfn).
      destruct (place_peek d c e) as (_ & P3 & P4).
      destruct (place_peek d'
                  (moved_down (file_entry_length d (c_dir_block ce) - 2) c) e')
        as (_ & P5 & P6).
      unfold deleted_from. rewrite !dir_block_peek_entry, P3, P4, P5, P6, Q2.
      replace (c_file_number c =? c_file_number ce) with false
        by (symmetry; apply Z.eqb_neq; lia).
      rewrite andb_false_r. cbn [moved_down c_dir_block c_file_number
                                 c_next_block].
      repeat split; assumption.
    + destruct b.
      * destruct (Hb1 eq_refl) as [-> Hb2]. rewrite get_entry_step in *.
        apply Hcont; [exact Hb2| |exact E].
        eapply valid_entry_true; exact V.
      * injection E as <-. exists []. split; [reflexivity|apply Forall2_nil].
Qed.

End Deleted.

(** X16 (delete_entry).  In a directory of six segments of 256 twelve-bit
    words, let the walk from the start of the directory meet a file entry
    whose segment holds its entries inside the block.  After
    [delete_entry] on that entry the walk ends as before and lists as many
    entries, each with the first block and the length it had: the deleted
    file is now an empty entry, and every other entry is a file or an
    empty entry as before, a file with the name it had. *)
Theorem delete_entry_listing (fuel : nat) (d : directory_t) (ce : cursor_t)
  (old : entry_t) (ptr : Z) (es : list entry_t) :
  shape d -> words12 d ->
  visits d (init_cursor d) ce ->
  empty_file (peek_entry d ce old) = false ->
  get_unused_ptr d (c_dir_block ce) 0 = Some (Some ptr) ->
  directory_entries fuel d = Some es ->
  exists es',
    directory_entries fuel (fst (delete_entry d (peek_entry d ce old)))
    = Some es'
    /\ Forall2 (deleted_from (c_dir_block ce) (c_file_number ce)) es es'.
Proof.
  intros Sh W Hv Hf Hptr E.
  assert (Hgrid : reach d (seg_start d (c_dir_block ce)) ce).
  { apply (visits_grid d (init_cursor d)); [exact Hv|apply reach_here]. }
  pose proof (visits_valid _ _ _ Hv) as Hvalid.
  assert (Hi : 0 <= c_dir_block ce < 6).
  { apply (visits_range d (init_cursor d)); [exact W|exact Hv|cbn; lia]. }
  assert (Hfile : word d (c_dir_block ce) (c_entry ce) <> 0).
  { rewrite empty_file_peek in Hf. apply Z.eqb_neq. exact Hf. }
  assert (Hp : file_entries <= c_entry ce).
  { apply reach_entry in Hgrid. exact Hgrid. }
  assert (Hfit : c_entry ce + file_entry_length d (c_dir_block ce) <= 256).
  { destruct (unused_ptr_tiles d _ _ _ ce W Hptr Hgrid Hvalid) as [Ht Hr].
    rewrite entry_length_peek in Ht.
    replace (word d (c_dir_block ce) (c_entry ce) =? 0) with false in Ht
      by (symmetry; apply Z.eqb_neq; exact Hfile).
    unfold OS8_BLOCK_SIZE in Hr. lia. }
  destruct (deleted_words d ce old Sh W Hi Hp Hfit Hfile)
    as (D0 & D1 & D2 & D3 & D4).
  unfold directory_entries in *.
  apply (del_entries_sim d _ ce ptr W Hgrid Hvalid Hfile Hptr D0 D1 D2 D3 D4
           fuel (init_cursor d) _ entry_zero entry_zero es); [|exact E].
  left. split; [apply (del_start_before d ce Hgrid 0)|].
  unfold init_cursor.
  destruct (del_header d _ ce W Hgrid Hvalid D0 D1 0) as (_ & -> & _).
  reflexivity.
Qed.

Lemma delete_entry_listing_witness :
  exists es',
    directory_entries 10
      (fst (delete_entry sample_directory
              (peek_entry sample_directory sample_cursor entry_zero)))
    = Some es'
    /\ Forall2 (deleted_from 0 3) sample_listing es'.
Proof.
  apply (delete_entry_listing 10 sample_directory sample_cursor entry_zero 25
           sample_listing).
  - apply shapeb_spec. reflexivity.
  - apply words12b_spec. reflexivity.
  - apply (visits_later _ 1 _ (mk_cursor 1 7 5 0)); [reflexivity|].
    apply (visits_later _ 1 _ (mk_cursor 2 10 11 0)); [reflexivity|].
    apply (visits_here _ 1). reflexivity.
  - reflexivity.
  - reflexivity.
  - reflexivity.
Defined.

(** Deleting B from [sample_directory]: the listing before and after, as
    (empty, first block, length). *)
Example delete_entry_listing_sample :
  map (fun e => (empty_file e, file_block e, e_length e)) sample_listing
  = [(false, 7, 3); (true, 10, 5); (false, 15, 2); (true, 17, 5);
     (true, 22, 0); (true, 22, 1452)]
  /\ option_map (map (fun e => (empty_file e, file_block e, e_length e)))
       (directory_entries 10
          (fst (delete_entry sample_directory sample_present)))
     = Some [(false, 7, 3); (true, 10, 5); (true, 15, 2); (true, 17, 5);
             (true, 22, 0); (true, 22, 1452)].
Proof. split; vm_compute; reflexivity. Qed.


(** * Patterns with stars *)

(** ** Two six-bit codes in a word, and the three masks *)

Lemma pair_codes (a b : Z) :
  0 <= a <= 63 -> 0 <= b <= 63 ->
  Z.lor b (u16 (Z.shiftl a 6)) = 64 * a + b
  /\ u16 (Z.shiftl a 6) = 64 * a
  /\ Z.land (64 * a + b) 4095 = 64 * a + b
  /\ Z.land (64 * a + b) 4032 = 64 * a.
Proof.
  intros Ha Hb.
  assert (E : below 64 (fun a => below 64 (fun b =>
     (Z.lor b (u16 (Z.shiftl a 6)) =? 64 * a + b)
     && (u16 (Z.shiftl a 6) =? 64 * a)
     && (Z.land (64 * a + b) 4095 =? 64 * a + b)
     && (Z.land (64 * a + b) 4032 =? 64 * a))) = true)
    by (vm_compute; reflexivity).
  pose proof (below_spec _ _ E a ltac:(lia)) as E1. cbv beta in E1.
  pose proof (below_spec _ _ E1 b ltac:(lia)) as E2. cbv beta in E2.
  rewrite !andb_true_iff, !Z.eqb_eq in E2. tauto.
Qed.

Lemma xor_land_eqb (x y m : Z) :
  (Z.land (Z.lxor x y) m =? 0) = (Z.land x m =? Z.land y m).
Proof.
  assert (X : Z.land (Z.lxor x y) m = Z.lxor (Z.land x m) (Z.land y m)).
  { apply Z.bits_inj'. intros n Hn.
    rewrite Z.land_spec, !Z.lxor_spec, !Z.land_spec.
    destruct (Z.testbit x n), (Z.testbit y n), (Z.testbit m n); reflexivity. }
  rewrite X.
  destruct (Z.eqb_spec (Z.land x m) (Z.land y m)) as [->|N].
  - rewrite Z.lxor_nilpotent. reflexivity.
  - apply Z.eqb_neq. intros E. apply N, Z.lxor_eq, E.
Qed.

(** The test of [pattern_match_p] on one word. *)
Lemma word_test (a b c d : Z) (k0 k1 : bool) :
  0 <= a <= 63 -> 0 <= b <= 63 -> 0 <= c <= 63 -> 0 <= d <= 63 ->
  (k1 = true -> k0 = true) ->
  (Z.land (Z.lxor (64 * a + b) (64 * c + d))
          (if k0 then (if k1 then 4095 else 4032) else 0) =? 0)
  = (negb k0 || (a =? c)) && (negb k1 || (b =? d)).
Proof.
  intros Ha Hb Hc Hd Hk. rewrite xor_land_eqb.
  destruct (pair_codes a b Ha Hb) as (_ & _ & A1 & A2).
  destruct (pair_codes c d Hc Hd) as (_ & _ & C1 & C2).
  destruct k0, k1; cbn [negb orb andb].
  - rewrite A1, C1.
    destruct (Z.eqb_spec a c), (Z.eqb_spec b d), (Z.eqb_spec (64 * a + b) (64 * c + d));
      cbn [andb]; try reflexivity; lia.
  - rewrite A2, C2, andb_true_r.
    destruct (Z.eqb_spec a c), (Z.eqb_spec (64 * a) (64 * c));
      try reflexivity; lia.
  - discriminate (Hk eq_refl).
  - rewrite !Z.land_0_r. reflexivity.
Qed.

(** ** The places of a part *)

Lemma code_at_nil (k : nat) : code_at EmptyString k = 0.
Proof. reflexivity. Qed.

Lemma code_at_star (rest : string) (k : nat) :
  code_at (String "*"%char rest) k = 0.
Proof. reflexivity. Qed.

Lemma alnum_not_star (a : ascii) :
  isalnum (code a) = true -> (code a =? 42) = false.
Proof. intros Ha. apply (alnum_char a Ha). Qed.

Lemma code_at_here (a : ascii) (rest : string) :
  isalnum (code a) = true -> code_at (String a rest) 0 = sixbit a.
Proof. intros Ha. cbn [code_at]. rewrite alnum_not_star by exact Ha. reflexivity. Qed.

Lemma code_at_next (a : ascii) (rest : string) (k : nat) :
  isalnum (code a) = true -> code_at (String a rest) (S k) = code_at rest k.
Proof. intros Ha. cbn [code_at]. rewrite alnum_not_star by exact Ha. reflexivity. Qed.

Lemma kept_nil (k : nat) : kept EmptyString k = true.
Proof. reflexivity. Qed.

Lemma kept_star (rest : string) (k : nat) :
  kept (String "*"%char rest) k = false.
Proof. reflexivity. Qed.

Lemma kept_here (a : ascii) (rest : string) :
  isalnum (code a) = true -> kept (String a rest) 0 = true.
Proof. intros Ha. cbn [kept]. rewrite alnum_not_star by exact Ha. reflexivity. Qed.

Lemma kept_next (a : ascii) (rest : string) (k : nat) :
  isalnum (code a) = true -> kept (String a rest) (S k) = kept rest k.
Proof. intros Ha. cbn [kept]. rewrite alnum_not_star by exact Ha. reflexivity. Qed.

(** The characters of a part of a pattern: letters, digits and stars. *)
Lemma code_at_range (s : string) :
  forall k,
    all_chars (fun c => isalnum c || (c =? 42)) s = true ->
    0 <= code_at s k <= 63.
Proof.
  induction s as [|a s IH]; intros k H; [cbn; lia|].
  cbn [all_chars] in H. apply andb_true_iff in H as [Ha Hs].
  cbn [code_at]. destruct (code a =? 42) eqn:E; [lia|].
  rewrite orb_false_r in Ha.
  destruct k as [|k]; [|apply IH, Hs].
  pose proof (alnum_char a Ha). lia.
Qed.

Lemma kept_before (s : string) :
  forall k, kept s (S k) = true -> kept s k = true.
Proof.
  induction s as [|a s IH]; intros k H; [reflexivity|].
  cbn [kept] in *. destruct (code a =? 42); [discriminate|].
  destruct k as [|k]; [reflexivity|]. apply IH, H.
Qed.

Lemma part_word_range (s : string) (k : nat) :
  all_chars (fun c => isalnum c || (c =? 42)) s = true ->
  0 <= part_word s k < 4096.
Proof.
  intros H. unfold part_word.
  pose proof (code_at_range s (2 * k) H).
  pose proof (code_at_range s (2 * k + 1) H). lia.
Qed.

(** ** The words of [build_sixbit] and [build_mask] *)

Lemma build_sixbit_loop_star (rest : string) (name : list Z) (i : Z) :
  build_sixbit_loop (String "*"%char rest) name i
  = build_sixbit_loop rest name i.
Proof. reflexivity. Qed.

Lemma build_mask_part_alnum (a : ascii) (rest : string) (mask : list Z)
  (i finish : Z) :
  isalnum (code a) = true ->
  build_mask_part (String a rest) mask i finish
  = build_mask_part rest mask (i + 1) finish.
Proof.
  intros Ha. cbn [build_mask_part].
  rewrite alnum_not_dot, alnum_not_star by exact Ha. reflexivity.
Qed.

Lemma build_mask_part_star (rest : string) (mask : list Z) (i finish : Z) :
  build_mask_part (String "*"%char rest) mask i finish
  = clear_mask (Z.to_nat (finish - i + 1)) mask i.
Proof. reflexivity. Qed.

Lemma build_mask_part_dot (rest : string) (mask : list Z) (i finish : Z) :
  build_mask_part (String "."%char rest) mask i finish = mask.
Proof. reflexivity. Qed.

(** A part: letters and digits, and maybe a star behind them. *)
Ltac part_shapes body star n :=
  let rec go b k :=
    lazymatch k with
    | O => destruct b as [|? ?]; [|cbn [String.length] in *; destruct star; lia]
    | S ?k' =>
        let c := fresh "c" in
        let b' := fresh "b" in
        destruct b as [|c b']; [|go b' k']
    end in
  go body n.

Ltac alnum_facts :=
  name_chars;
  repeat match goal with
         | H : isalnum (code ?a) = true |- _ =>
             lazymatch goal with
             | _ : 1 <= sixbit a <= 63 |- _ => fail
             | _ => let R := fresh "R" in
                    pose proof (proj1 (alnum_char a H)) as R
             end
         end.

Ltac pair_words :=
  repeat match goal with
         | |- context [Z.lor (sixbit ?b) (u16 (Z.shiftl (sixbit ?a) 6))] =>
             rewrite (proj1 (pair_codes (sixbit a) (sixbit b)
                               ltac:(lia) ltac:(lia)))
         | |- context [u16 (Z.shiftl (sixbit ?a) 6)] =>
             rewrite (proj1 (proj2 (pair_codes (sixbit a) 0
                                      ltac:(lia) ltac:(lia))))
         end.

Ltac part_places :=
  unfold part_word, mask_word; cbn [Nat.mul Nat.add];
  repeat first [ rewrite code_at_here by assumption
               | rewrite code_at_next by assumption
               | rewrite code_at_star
               | rewrite code_at_nil
               | rewrite kept_here by assumption
               | rewrite kept_next by assumption
               | rewrite kept_star
               | rewrite kept_nil ].

Ltac sixbit_steps :=
  cbn [append];
  repeat first [ rewrite build_sixbit_loop_star
               | rewrite build_sixbit_loop_alnum by assumption ];
  cbn [Z.odd Z.add Z.div Pos.add Pos.succ];
  repeat match goal with
         | |- context [?i / 2] =>
             let v := eval vm_compute in (i / 2) in
             change (i / 2) with v
         end;
  cbn [wr rd Z.ltb Z.compare Z.to_nat nth upd];
  repeat match goal with
         | |- context [Pos.to_nat ?p] =>
             let v := eval vm_compute in (Pos.to_nat p) in
             change (Pos.to_nat p) with v
         end;
  cbn [upd nth].

Lemma sixbit_base (body rest : string) (star : bool) :
  all_chars isalnum body = true ->
  (String.length body + (if star then 1 else 0) <= 6)%nat ->
  exists i,
    build_sixbit_loop ((body ++ (if star then "*" else "")) ++ rest)
                      [0; 0; 0; 0] 0
    = build_sixbit_loop rest
        [part_word (body ++ (if star then "*" else "")) 0;
         part_word (body ++ (if star then "*" else "")) 1;
         part_word (body ++ (if star then "*" else "")) 2; 0] i.
Proof.
  intros Hb Hl.
  part_shapes body star 6%nat; destruct star; cbn [String.length] in Hl;
    try lia; alnum_facts; sixbit_steps; part_places; pair_words;
    eexists; repeat (f_equal; try lia).
Qed.

Lemma sixbit_ext (body : string) (star : bool) (w0 w1 w2 : Z) :
  all_chars isalnum body = true ->
  (String.length body + (if star then 1 else 0) <= 2)%nat ->
  build_sixbit_loop (body ++ (if star then "*" else "")) [w0; w1; w2; 0] 6
  = [w0; w1; w2; part_word (body ++ (if star then "*" else "")) 0].
Proof.
  intros Hb Hl.
  part_shapes body star 2%nat; destruct star; cbn [String.length] in Hl;
    try lia; alnum_facts; sixbit_steps; part_places; pair_words;
    cbn [build_sixbit_loop]; repeat (f_equal; try lia).
Qed.

Ltac mask_steps :=
  cbn [append];
  repeat first [ rewrite build_mask_part_alnum by assumption
               | rewrite build_mask_part_star
               | rewrite build_mask_part_dot ];
  cbn [build_mask_part].

Lemma mask_base (body rest : string) (star : bool) :
  all_chars isalnum body = true ->
  (String.length body + (if star then 1 else 0) <= 6)%nat ->
  rest = EmptyString \/ (exists ext, rest = String "."%char ext) ->
  build_mask_part ((body ++ (if star then "*" else "")) ++ rest)
                  [4095; 4095; 4095; 4095] 0 5
  = [mask_word (body ++ (if star then "*" else "")) 0;
     mask_word (body ++ (if star then "*" else "")) 1;
     mask_word (body ++ (if star then "*" else "")) 2; 4095].
Proof.
  intros Hb Hl Hr.
  part_shapes body star 6%nat; destruct star; cbn [String.length] in Hl;
    try lia; alnum_facts; destruct Hr as [->|[ext ->]];
    mask_steps; part_places; vm_compute; reflexivity.
Qed.

Lemma mask_ext (body : string) (star : bool) (m0 m1 m2 : Z) :
  all_chars isalnum body = true ->
  (String.length body + (if star then 1 else 0) <= 2)%nat ->
  build_mask_part (body ++ (if star then "*" else "")) [m0; m1; m2; 4095] 6 7
  = [m0; m1; m2; mask_word (body ++ (if star then "*" else "")) 0].
Proof.
  intros Hb Hl.
  part_shapes body star 2%nat; destruct star; cbn [String.length] in Hl;
    try lia; alnum_facts; mask_steps; part_places;
    cbn [Z.sub Z.add Z.opp Z.pos_sub Pos.add Pos.succ Z.to_nat Pos.to_nat
         Pos.iter_op Nat.add clear_mask Z.odd Z.div];
    repeat match goal with
           | |- context [?i / 2] =>
               let v := eval vm_compute in (i / 2) in
               change (i / 2) with v
           end;
    cbn [wr rd Z.ltb Z.compare Z.to_nat nth upd];
    repeat match goal with
           | |- context [Pos.to_nat ?p] =>
               let v := eval vm_compute in (Pos.to_nat p) in
               change (Pos.to_nat p) with v
           end;
    cbn [upd nth];
    repeat match goal with
           | |- context [Z.land 4095 ?m] =>
               let v := eval vm_compute in (Z.land 4095 m) in
               change (Z.land 4095 m) with v
           | |- context [Z.land 4032 ?m] =>
               let v := eval vm_compute in (Z.land 4032 m) in
               change (Z.land 4032 m) with v
           end;
    reflexivity.
Qed.

(** ** Places and characters *)

Lemma sixbit_same_letter (a b : ascii) :
  isalnum (code a) = true -> isalnum (code b) = true ->
  (sixbit b =? sixbit a) = (tolower (code a) =? tolower (code b)).
Proof.
  pose proof (code_range a) as Ha. pose proof (code_range b) as Hb.
  unfold sixbit. generalize dependent (code b). generalize dependent (code a).
  intros x Hx y Hy Ax Ay.
  assert (E : below 256 (fun x => below 256 (fun y =>
     implb (isalnum x && isalnum y)
       (let f := fun c => let c0 := schar (tolower c) in
                   u16 (schar (u8 (if c0 <? 96 then c0 else c0 - 96))) in
        Bool.eqb (f y =? f x) (tolower x =? tolower y)))) = true)
    by (vm_compute; reflexivity).
  pose proof (below_spec _ _ E x Hx) as E1. cbv beta in E1.
  pose proof (below_spec _ _ E1 y Hy) as E2. cbv beta zeta in E2.
  rewrite Ax, Ay in E2. cbn [andb implb] in E2.
  apply Bool.eqb_prop in E2. exact E2.
Qed.

Lemma forallb_same {A : Type} (f g : A -> bool) (l : list A) :
  (forall x, f x = g x) -> forallb f l = forallb g l.
Proof.
  intros H. induction l as [|x l IH]; cbn; [reflexivity|].
  rewrite H, IH. reflexivity.
Qed.

Lemma forallb_seq_next (f : nat -> bool) (n : nat) :
  forall a, forallb f (seq (S a) n) = forallb (fun k => f (S k)) (seq a n).
Proof.
  induction n as [|n IH]; intros a; cbn; [reflexivity|].
  rewrite IH. reflexivity.
Qed.

Lemma forallb_true {A : Type} (l : list A) : forallb (fun _ => true) l = true.
Proof. induction l as [|x l IH]; cbn; auto. Qed.

(** The places that the mask keeps hold the same codes exactly when the
    part of the pattern matches the part of the name. *)
Lemma places_match (pat : string) :
  forall s K,
    all_chars (fun c => isalnum c || (c =? 42)) pat = true ->
    all_chars isalnum s = true ->
    (String.length pat <= K)%nat -> (String.length s <= K)%nat ->
    forallb (fun k => negb (kept pat k) || (code_at s k =? code_at pat k))
            (seq 0 K)
    = part_matches pat s.
Proof.
  induction pat as [|a pat IH]; intros s K Hp Hs Lp Ls.
  - cbn [kept code_at part_matches negb orb]. destruct s as [|b s].
    + cbn [code_at]. apply forallb_true.
    + cbn [String.length] in Ls. destruct K as [|K]; [lia|].
      apply all_chars_cons in Hs as [Hb _].
      cbn [seq forallb]. rewrite code_at_here by exact Hb.
      pose proof (alnum_char b Hb) as (Rb & _).
      replace (sixbit b =? 0) with false by (symmetry; apply Z.eqb_neq; lia).
      reflexivity.
  - cbn [all_chars] in Hp. apply andb_true_iff in Hp as [Ha Hp].
    cbn [part_matches]. destruct (code a =? 42) eqn:E.
    + rewrite (forallb_same _ (fun _ => true)); [apply forallb_true|].
      intros k. cbn [kept]. rewrite E. reflexivity.
    + rewrite orb_false_r in Ha. cbn [String.length] in Lp.
      destruct K as [|K]; [lia|].
      pose proof (alnum_char a Ha) as (Ra & _).
      cbn [seq forallb]. rewrite forallb_seq_next.
      rewrite kept_here, code_at_here by exact Ha. cbn [negb orb].
      destruct s as [|b s].
      * rewrite code_at_nil.
        replace (0 =? sixbit a) with false by (symmetry; apply Z.eqb_neq; lia).
        reflexivity.
      * apply all_chars_cons in Hs as [Hb Hs]. cbn [String.length] in Ls.
        rewrite code_at_here by exact Hb.
        rewrite sixbit_same_letter by assumption. f_equal.
        rewrite <- (IH s K Hp Hs) by lia.
        apply forallb_same. intros k.
        rewrite kept_next, !code_at_next by assumption. reflexivity.
Qed.

Lemma part_test (s pat : string) (k : nat) :
  all_chars isalnum s = true ->
  all_chars (fun c => isalnum c || (c =? 42)) pat = true ->
  (Z.land (Z.lxor (part_word s k) (part_word pat k)) (mask_word pat k) =? 0)
  = (negb (kept pat (2 * k)) || (code_at s (2 * k) =? code_at pat (2 * k)))
    && (negb (kept pat (2 * k + 1))
        || (code_at s (2 * k + 1) =? code_at pat (2 * k + 1))).
Proof.
  intros Hs Hp.
  assert (Hs' : all_chars (fun c => isalnum c || (c =? 42)) s = true).
  { apply (all_chars_weaken isalnum); [|exact Hs].
    intros c Hc. rewrite Hc. reflexivity. }
  unfold part_word, mask_word.
  apply word_test; try apply code_at_range; try assumption.
  replace (2 * k + 1)%nat with (S (2 * k)) by lia. apply kept_before.
Qed.

(** ** The parts of a legal name *)

Lemma split_at_dot (b e : string) :
  all_chars (fun c => negb (c =? 46)) b = true ->
  base_of (b ++ String "."%char e) = b
  /\ after_dot (b ++ String "."%char e) = Some e
  /\ base_of b = b /\ after_dot b = None.
Proof.
  induction b as [|a b IH]; intros H.
  - cbn. auto.
  - cbn [all_chars] in H. apply andb_true_iff in H as [Ha Hb].
    apply negb_true_iff in Ha. destruct (IH Hb) as (E1 & E2 & E3 & E4).
    cbn [append base_of after_dot]. rewrite Ha, E1, E2, E3, E4. auto.
Qed.

Lemma name_part_body (s : string) :
  name_part s ->
  exists body (star : bool),
    s = (body ++ (if star then "*" else ""))%string
    /\ all_chars isalnum body = true.
Proof.
  intros (body & [->| ->] & Hb & _).
  - exists body, false. rewrite append_nil_r. auto.
  - exists body, true. auto.
Qed.

Lemma part_chars (body : string) (star : bool) :
  all_chars isalnum body = true ->
  all_chars (fun c => isalnum c || (c =? 42))
            (body ++ (if star then "*" else "")) = true.
Proof.
  intros H. rewrite all_chars_append.
  rewrite (all_chars_weaken isalnum _ body); [|intros c Hc; rewrite Hc; reflexivity|exact H].
  destruct star; reflexivity.
Qed.

(** The words of the name and of the mask of a legal name, and its
    parts. *)
Lemma legal_words (m : string) :
  os8_filename_p m = true ->
  exists b e,
    build_sixbit m = [part_word b 0; part_word b 1; part_word b 2;
                      part_word e 0]
    /\ build_mask m = [mask_word b 0; mask_word b 1; mask_word b 2;
                       mask_word e 0]
    /\ base_of m = b /\ ext_of m = e
    /\ all_chars (fun c => isalnum c || (c =? 42)) b = true
    /\ all_chars (fun c => isalnum c || (c =? 42)) e = true
    /\ (String.length b <= 6)%nat /\ (String.length e <= 2)%nat
    /\ (os8_contains_wildcard_p m = false ->
        all_chars isalnum b = true /\ all_chars isalnum e = true).
Proof.
  intros Hm.
  destruct (accepted_legal_name _ Hm) as (base & ext & Hn & Hb & He & Lb & Le).
  pose proof (name_part_no_dot base Hb) as Nb.
  destruct (split_at_dot base ext Nb) as (S1 & S2 & S3 & S4).
  destruct (name_part_body base Hb) as (bb & bs & Eb & Ab).
  destruct (name_part_body ext He) as (eb & es & Ee & Ae).
  assert (Lbb : (String.length bb + (if bs then 1 else 0) <= 6)%nat).
  { rewrite Eb, length_append in Lb. destruct bs; cbn in Lb; lia. }
  assert (Leb : (String.length eb + (if es then 1 else 0) <= 2)%nat).
  { rewrite Ee, length_append in Le. destruct es; cbn in Le; lia. }
  destruct Hn as [->| ->].
  - exists base, EmptyString. unfold build_sixbit, build_mask, ext_of.
    rewrite S3, S4.
    destruct (sixbit_base bb EmptyString bs Ab Lbb) as (i & E).
    rewrite <- Eb, append_nil_r in E. rewrite E.
    pose proof (mask_base bb EmptyString bs Ab Lbb (or_introl eq_refl)) as M.
    rewrite <- Eb, append_nil_r in M. rewrite M.
    split; [reflexivity|]. split; [reflexivity|].
    split; [reflexivity|]. split; [reflexivity|].
    split; [rewrite Eb; apply part_chars, Ab|].
    split; [reflexivity|]. split; [lia|]. split; [cbn; lia|].
    intros Hw. split; [|reflexivity]. apply name_part_plain; assumption.
  - exists base, ext. unfold build_sixbit, build_mask, ext_of.
    change (base ++ "." ++ ext)%string with (base ++ String "."%char ext)%string.
    rewrite S1, S2.
    destruct (sixbit_base bb (String "."%char ext) bs Ab Lbb) as (i & E).
    rewrite <- Eb in E. rewrite E, build_sixbit_loop_dot.
    pose proof (mask_base bb (String "."%char ext) bs Ab Lbb
                  (or_intror (ex_intro _ ext eq_refl))) as M.
    rewrite <- Eb in M. rewrite M.
    rewrite Ee at 1 3. rewrite sixbit_ext, mask_ext by assumption.
    rewrite <- Ee.
    split; [reflexivity|]. split; [reflexivity|].
    split; [reflexivity|]. split; [reflexivity|].
    split; [rewrite Eb; apply part_chars, Ab|].
    split; [rewrite Ee; apply part_chars, Ae|].
    split; [lia|]. split; [lia|].
    intros Hw. rewrite !wildcard_append in Hw.
    apply orb_false_iff in Hw as [W1 W2]. apply orb_false_iff in W2 as [_ W2].
    split; apply name_part_plain; assumption.
Qed.

Lemma pattern_wild (n m : string) :
  os8_filename_p n = true -> os8_contains_wildcard_p n = false ->
  os8_filename_p m = true ->
  pattern_match_p (stored_name (build_sixbit n))
                  (build_pattern (strip_device m))
  = wild_matches m n.
Proof.
  intros Hn Wn Hm.
  destruct (legal_words n Hn)
    as (nb & ne & Sn & _ & Bn & En & Cnb & Cne & Lnb & Lne & Pn).
  destruct (Pn Wn) as [Anb Ane].
  destruct (legal_words m Hm)
    as (mb & me & Sm & Mm & Bm & Em & Cmb & Cme & Lmb & Lme & _).
  rewrite strip_device_legal by exact Hm.
  unfold build_pattern, wild_matches. rewrite Sn, Sm, Mm, Bn, Bm, En, Em.
  unfold stored_name, pattern_match_p.
  cbn [seq map existsb nth mask pmatch].
  rewrite !u16_small
    by (match goal with
        | |- _ <= part_word ?s ?k < _ =>
            pose proof (part_word_range s k ltac:(assumption)); lia
        end).
  rewrite !part_test by assumption.
  rewrite <- (places_match mb nb 6 Cmb Anb Lmb Lnb).
  rewrite <- (places_match me ne 2 Cme Ane Lme Lne).
  cbn [seq forallb Nat.mul Nat.add].
  rewrite orb_false_r, !negb_orb, !negb_involutive, !andb_true_r, !andb_assoc.
  reflexivity.
Qed.

(** X17 (build_mask, build_pattern, pattern_match_p).  For a stored name
    [n] without a star and a pattern [m], both accepted by
    [os8_filename_p], [pattern_match_p] decides whether the name and the
    extension of [n] each match the part of [m]: character by character
    without regard to the case of letters, a star at the end of a part
    standing for any rest.  A pattern without a dot only matches names
    without an extension. *)
Theorem pattern_matches_wildcards (n m : string) :
  os8_filename_p n = true -> os8_contains_wildcard_p n = false ->
  os8_filename_p m = true ->
  pattern_match_p (stored_name (build_sixbit n))
                  (build_pattern (strip_device m))
  = wild_matches m n.
Proof. apply pattern_wild. Qed.

Lemma pattern_matches_wildcards_witness :
  pattern_match_p (stored_name (build_sixbit "Pip8.Sv"))
                  (build_pattern (strip_device "pi*.*"))
  = wild_matches "pi*.*" "Pip8.Sv".
Proof.
  apply (pattern_matches_wildcards "Pip8.Sv" "pi*.*"); reflexivity.
Defined.

(** Patterns against the name PIP8.SV: a star in the name does not stand
    for the extension. *)
Example wild_matches_samples :
  map (fun m => wild_matches m "pip8.sv")
      ["pi*.*"; "*.sv"; "pip8.s*"; "pip8.*"; "*"; "pip8"; "pip*"; "pip9.*";
       "p*.bn"]%string
  = [true; true; true; true; false; false; false; false; false].
Proof. vm_compute. reflexivity. Qed.


(** * Looking up again *)

(** [lookup] stops at the first match from the cursor on and hands back
    the cursor behind it. *)
Lemma lookup_loop_split (p : pattern_t) (d : directory_t) (f0 : nat) :
  forall c old es f,
    entries_loop f0 d c old = Some es -> (f0 <= f)%nat ->
    (exists e e0 c' pre rest f1 old',
        lookup_loop f p d c = Some (Some e, c')
        /\ es = pre ++ e0 :: rest
        /\ same_file e e0 /\ file_matches p e0 = true
        /\ filter (file_matches p) pre = []
        /\ entries_loop f1 d c' old' = Some rest /\ (f1 < f0)%nat)
    \/ (exists c',
           lookup_loop f p d c = Some (None, c')
           /\ filter (file_matches p) es = []).
Proof.
  induction f0 as [|f0 IH]; intros c old es f H Hf; [discriminate|].
  destruct f as [|f]; [lia|].
  cbn [entries_loop lookup_loop] in *.
  destruct (valid_entry (S f0) d c) as [[b c1]|] eqn:V; [|discriminate].
  rewrite (valid_entry_mono _ _ _ _ (S f) V) by lia.
  destruct b.
  - rewrite get_entry_step in *.
    destruct (entries_loop f0 d (step d c1) (peek_entry d c1 old))
      as [es'|] eqn:E; [|discriminate].
    cbn in H. injection H as <-.
    fold (file_matches p (peek_entry d c1 entry_zero)).
    destruct (file_matches p (peek_entry d c1 entry_zero)) eqn:M.
    + left.
      exists (peek_entry d c1 entry_zero), (peek_entry d c1 old), (step d c1),
        [], es', f0, (peek_entry d c1 old).
      split; [reflexivity|]. split; [reflexivity|].
      split.
      { apply same_file_peek. unfold file_matches in M.
        destruct (empty_file (peek_entry d c1 entry_zero));
          [discriminate|reflexivity]. }
      split; [rewrite (file_matches_peek d c1 p old entry_zero); exact M|].
      split; [reflexivity|]. split; [exact E|lia].
    + destruct (IH _ _ _ f E ltac:(lia))
        as [(e & e0 & c' & pre & rest & f1 & old' & L & Es & Sf & Me & Fp & Er
             & Hf1)|(c' & L & Fe)].
      * left. exists e, e0, c', (peek_entry d c1 old :: pre), rest, f1, old'.
        split; [exact L|]. split; [rewrite Es; reflexivity|].
        split; [exact Sf|]. split; [exact Me|].
        split; [|split; [exact Er|lia]].
        cbn [filter]. rewrite (file_matches_peek d c1 p old entry_zero), M.
        exact Fp.
      * right. exists c'. split; [exact L|].
        cbn [filter]. rewrite (file_matches_peek d c1 p old entry_zero), M.
        exact Fe.
  - injection H as <-. right. exists c1. split; reflexivity.
Qed.

Lemma lookup_all_matches (filename : string) (d : directory_t) (fuel : nat) :
  forall f0 c old es,
    (f0 <= fuel)%nat -> entries_loop f0 d c old = Some es ->
    exists found,
      lookup_all fuel filename d c = Some found
      /\ Forall2 same_file found
           (filter (file_matches (build_pattern (strip_device filename))) es).
Proof.
  induction fuel as [|fuel IH]; intros f0 c old es Hf H.
  - destruct f0; [discriminate|lia].
  - cbn [lookup_all]. unfold lookup.
    destruct (lookup_loop_split (build_pattern (strip_device filename)) d f0
                c old es (S fuel) H Hf)
      as [(e & e0 & c' & pre & rest & f1 & old' & L & Es & Sf & Me & Fp & Er
           & Hf1)|(c' & L & Fe)]; rewrite L.
    + destruct (IH f1 c' old' rest ltac:(lia) Er) as (found & A & F).
      rewrite A. exists (e :: found). split; [reflexivity|].
      rewrite Es, filter_app, Fp. cbn [app filter]. rewrite Me.
      apply Forall2_cons; assumption.
    + exists []. split; [reflexivity|]. rewrite Fe. apply Forall2_nil.
Qed.

(** X18 (lookup, copy_os8_files).  Whenever the walk over the directory
    ends, the loop of [copy_os8_files] that calls [lookup] again and again
    with the cursor of the call before ends too, and the entries it finds
    are, in the order of the listing, exactly the files of the listing that
    have a length other than 0 and a name the pattern matches. *)
Theorem lookup_all_lists_matches (fuel : nat) (filename : string)
  (d : directory_t) (es : list entry_t) :
  directory_entries fuel d = Some es ->
  exists found,
    lookup_all fuel filename d (init_cursor d) = Some found
    /\ Forall2 same_file found
         (filter (file_matches (build_pattern (strip_device filename))) es).
Proof.
  intros H. apply (lookup_all_matches filename d fuel fuel _ entry_zero es);
    [lia|exact H].
Qed.

Lemma lookup_all_lists_matches_witness :
  exists found,
    lookup_all 10 "os8:*.*" sample_directory (init_cursor sample_directory)
    = Some found
    /\ Forall2 same_file found
         (filter (file_matches (build_pattern (strip_device "os8:*.*")))
                 sample_listing).
Proof.
  apply (lookup_all_lists_matches 10 "os8:*.*" sample_directory
           sample_listing).
  reflexivity.
Defined.


(** * Entries that become one empty entry *)

(** ** Cursors of one segment *)

Lemma grid_place (d : directory_t) (i : Z) (c : cursor_t) :
  words12 d -> reach d (seg_start d i) c ->
  c_dir_block c = i /\ 5 <= c_entry c /\ 1 <= c_file_number c
  /\ c_file_number c - 1 <= negate (number_files d i).
Proof.
  intros W H.
  pose proof (reach_dir_block _ _ _ H) as Hd.
  pose proof (reach_entry _ _ _ H) as He.
  pose proof (reach_file_number _ _ _ W H) as Hf.
  cbn [seg_start c_dir_block c_entry c_file_number] in *.
  unfold file_entries in He.
  split; [exact Hd|]. split; [exact He|]. split; [lia|].
  pose proof (negate_count _ (word12_word d i 0 W)) as Hc.
  fold (number_files d i) in Hc.
  assert (G : forall a b, reach d a b -> c_dir_block a = i ->
                1 <= c_file_number a ->
                c_file_number a - 1 <= negate (number_files d i) ->
                c_file_number b - 1 <= negate (number_files d i)).
  { clear - W Hc. intros a b R.
    induction R as [|a b Ho _ IH]; intros Ha H1 Hn; [exact Hn|].
    pose proof (overflowed_count d a W Ho).
    unfold overflowed_segment in Ho. rewrite Ha in Ho. zbool.
    apply IH; rewrite step_fields; cbn [c_dir_block c_file_number];
      try rewrite u16_small by lia; try assumption; lia. }
  apply (G _ _ H); cbn [seg_start c_dir_block c_file_number];
    [reflexivity|lia|lia].
Qed.

(** A walk inside a segment only reads that segment. *)
Lemma peek_entry_same_seg (d d2 : directory_t) (c : cursor_t) (old : entry_t) :
  seg d2 (c_dir_block c) = seg d (c_dir_block c) ->
  peek_entry d2 c old = peek_entry d c old.
Proof.
  intros H. unfold peek_entry, additional_words, words_at, word.
  rewrite H. reflexivity.
Qed.

Lemma step_same_seg (d d2 : directory_t) (c : cursor_t) :
  seg d2 (c_dir_block c) = seg d (c_dir_block c) -> step d2 c = step d c.
Proof.
  intros H. rewrite !step_fields, (peek_entry_same_seg d d2 c _ H).
  unfold entry_length, file_entry_length, additional_words, word.
  rewrite dir_block_peek_entry, H. reflexivity.
Qed.

Lemma overflowed_same_seg (d d2 : directory_t) (c : cursor_t) :
  seg d2 (c_dir_block c) = seg d (c_dir_block c) ->
  overflowed_segment d2 c = overflowed_segment d c.
Proof.
  intros H. unfold overflowed_segment, number_files, word. rewrite H.
  reflexivity.
Qed.

Lemma reach_same_seg (d d2 : directory_t) (a x : cursor_t) :
  seg d2 (c_dir_block a) = seg d (c_dir_block a) ->
  reach d2 a x -> reach d a x.
Proof.
  intros H R. induction R as [|a x Ho R IH]; [apply reach_here|].
  apply reach_step.
  - rewrite <- (overflowed_same_seg d d2 a H). exact Ho.
  - rewrite <- (step_same_seg d d2 a H). apply IH.
    rewrite step_fields. exact H.
Qed.

Lemma entry_length_same_seg (d d2 : directory_t) (e : entry_t) :
  seg d2 (dir_block e) = seg d (dir_block e) ->
  entry_length d2 e = entry_length d e.
Proof.
  intros H. unfold entry_length, file_entry_length, additional_words, word.
  rewrite H. reflexivity.
Qed.

(** What a row shows of the entry at a cursor. *)
Lemma row_of_peek (d : directory_t) (c : cursor_t) (old : entry_t) :
  row_of (peek_entry d c old)
  = mk_row (c_file_number c =? 1) (c_dir_block c)
           (word d (c_dir_block c) (c_entry c) =? 0)
           (if word d (c_dir_block c) (c_entry c) =? 0 then []
            else words_at d (c_dir_block c) (c_entry c) 4)
           (c_next_block c) (e_length (peek_entry d c entry_zero)).
Proof.
  unfold row_of. rewrite dir_block_peek_entry, empty_file_peek.
  destruct (place_peek d c old) as (_ & -> & ->).
  rewrite (e_length_peek d c old), (e_length_peek d c entry_zero).
  destruct (word d (c_dir_block c) (c_entry c) =? 0) eqn:E; [reflexivity|].
  rewrite name_peek by (rewrite empty_file_peek; exact E). reflexivity.
Qed.

(** ** The walk before and after *)

Section Shrunk.

Variables d d2 : directory_t.
Variables ce t : cursor_t.
Variables n k len : Z.

Hypothesis W : words12 d.
Hypothesis Asc : ascending d.
Hypothesis Hfits : fits d.
Hypothesis Hgrid : reach d (seg_start d (c_dir_block ce)) ce.
Hypothesis Hvalid : overflowed_segment d ce = false.
Hypothesis Htail : reach d (step d ce) t.
Hypothesis Hn : c_entry t = c_entry ce + 2 + n.
Hypothesis Hn0 : 0 <= n.
Hypothesis Hk : c_file_number t = c_file_number ce + 1 + k.
Hypothesis Hk0 : 0 <= k.
Hypothesis Hnb : c_next_block t = u16 (c_next_block ce + len).
Hypothesis Hstay :
  c_file_number ce + k <= negate (number_files d (c_dir_block ce)).

Hypothesis D0 : forall j, j <> c_dir_block ce -> seg d2 j = seg d j.
Hypothesis D1 :
  forall q, q < c_entry ce -> q <> 0 -> q <> 3 ->
            word d2 (c_dir_block ce) q = word d (c_dir_block ce) q.
Hypothesis Dc :
  negate (number_files d2 (c_dir_block ce))
  = negate (number_files d (c_dir_block ce)) - k.
Hypothesis D2 : word d2 (c_dir_block ce) (c_entry ce) = 0.
Hypothesis D3 : u16 (negate (word d2 (c_dir_block ce) (c_entry ce + 1))) = len.
Hypothesis D4 :
  forall q, c_entry t <= q < 256 ->
            word d2 (c_dir_block ce) (q - n) = word d (c_dir_block ce) q.

Lemma shr_place : 5 <= c_entry ce /\ 1 <= c_file_number ce <= 4095.
Proof.
  destruct (grid_place d _ ce W Hgrid) as (_ & He & Hf & _).
  pose proof (overflowed_count _ _ W Hvalid). lia.
Qed.

Lemma shr_header (j : Z) :
  first_file_block d2 j = first_file_block d j
  /\ next_segment d2 j = next_segment d j
  /\ additional_words d2 j = additional_words d j.
Proof.
  destruct shr_place as [Hp _].
  unfold first_file_block, next_segment, additional_words.
  destruct (Z.eq_dec j (c_dir_block ce)) as [->|Hj].
  - rewrite !D1 by lia. auto.
  - unfold word. rewrite (D0 j Hj). auto.
Qed.

Lemma shr_file_entry_length (j : Z) :
  file_entry_length d2 j = file_entry_length d j.
Proof.
  unfold file_entry_length. destruct (shr_header j) as (_ & _ & ->).
  reflexivity.
Qed.

Lemma shr_entry_length (e1 e2 : entry_t) :
  empty_file e1 = empty_file e2 -> dir_block e1 = dir_block e2 ->
  entry_length d2 e1 = entry_length d e2.
Proof.
  intros E1 E2. unfold entry_length.
  rewrite E1, E2, shr_file_entry_length. reflexivity.
Qed.

Lemma shr_seg_start (j : Z) : seg_start d2 j = seg_start d j.
Proof. unfold seg_start. destruct (shr_header j) as (-> & _). reflexivity. Qed.

Lemma shr_ascending : ascending d2.
Proof.
  intros j. destruct (shr_header j) as (_ & -> & _). apply Asc.
Qed.

(** *** Later segments *)

Lemma shr_valid_later (f : nat) :
  forall c b c1,
    c_dir_block ce < c_dir_block c ->
    valid_entry f d c = Some (b, c1) ->
    valid_entry f d2 c = Some (b, c1)
    /\ (b = true -> c_dir_block ce < c_dir_block c1).
Proof.
  induction f as [|f IH]; intros c b c1 Hl V; [discriminate|].
  cbn [valid_entry] in *.
  rewrite (overflowed_same_seg d d2 c) by (apply D0; lia).
  destruct (shr_header (c_dir_block c)) as (_ & -> & _).
  destruct (overflowed_segment d c).
  - destruct (next_segment d (c_dir_block c) =? 0) eqn:E0.
    + split; [exact V|]. intros ->. discriminate.
    + destruct (next_segment d (c_dir_block c) >? DIR_LENGTH); [discriminate|].
      destruct (shr_header (next_segment d (c_dir_block c) - 1)) as (-> & _).
      apply IH; [|exact V]. cbn [c_dir_block].
      destruct (Asc (c_dir_block c)); zbool; lia.
  - split; [exact V|]. intros _. injection V as _ <-. exact Hl.
Qed.

Lemma shr_step_later (c : cursor_t) (old : entry_t) :
  c_dir_block ce < c_dir_block c ->
  peek_entry d2 c old = peek_entry d c old /\ step d2 c = step d c.
Proof.
  intros Hl. split.
  - apply peek_entry_same_seg, D0. lia.
  - apply step_same_seg, D0. lia.
Qed.

(** *** On the way to the entry *)

Lemma shr_on_way (c : cursor_t) :
  reach d (seg_start d (c_dir_block ce)) c -> reach d c ce ->
  overflowed_segment d c = false /\ overflowed_segment d2 c = false
  /\ c_dir_block c = c_dir_block ce /\ 5 <= c_entry c
  /\ c_file_number c <= c_file_number ce.
Proof.
  intros Hg Hr.
  destruct (grid_place d _ c W Hg) as (Hd & He & Hf & _).
  pose proof (reach_file_number _ _ _ W Hr Hf) as Hf2.
  assert (Ho : overflowed_segment d c = false).
  { destruct Hr; [exact Hvalid|assumption]. }
  split; [exact Ho|]. split; [|split; [exact Hd|split; [exact He|exact Hf2]]].
  unfold overflowed_segment. rewrite Hd, Dc.
  rewrite Z.gtb_ltb. apply Z.ltb_ge. lia.
Qed.

Lemma shr_peek_before (c : cursor_t) (old : entry_t) :
  c_dir_block c = c_dir_block ce -> 5 <= c_entry c ->
  c_entry c + entry_length d (peek_entry d c entry_zero) <= c_entry ce ->
  peek_entry d2 c old = peek_entry d c old.
Proof.
  intros Hj Hc Hend.
  pose proof (negate_count _ (word12_word d (c_dir_block ce) 4 W)) as Hcn.
  fold (additional_words d (c_dir_block ce)) in Hcn.
  destruct (file_entry_length_word12 d (c_dir_block ce)
              (word12_word d (c_dir_block ce) 4 W)) as [Eel _].
  rewrite entry_length_peek in Hend.
  unfold peek_entry. rewrite Hj in *.
  destruct (shr_header (c_dir_block ce)) as (_ & _ & ->).
  pose proof (Z.eqb_spec (word d (c_dir_block ce) (c_entry c)) 0) as Hz.
  unfold empty_entry_length in Hend.
  rewrite (D1 (c_entry c)) by (destruct Hz; lia).
  destruct Hz as [Hz|Hz]; cbv iota.
  - rewrite (D1 (c_entry c + 1)) by lia. reflexivity.
  - rewrite Eel in Hend.
    rewrite (u16_small (negate (additional_words d (c_dir_block ce)))) by lia.
    rewrite (D1 (c_entry c + 4 + negate (additional_words d (c_dir_block ce))))
      by lia.
    f_equal.
    + unfold words_at. apply map_ext_in. intros x Hx. apply in_seq in Hx.
      apply D1; lia.
    + f_equal. unfold words_at. apply map_ext_in. intros x Hx.
      apply in_seq in Hx. apply D1; lia.
Qed.

Lemma shr_step_before (c : cursor_t) :
  reach d (seg_start d (c_dir_block ce)) c -> reach d c ce -> c <> ce ->
  (forall old, peek_entry d2 c old = peek_entry d c old)
  /\ step d2 c = step d c
  /\ reach d (seg_start d (c_dir_block ce)) (step d c)
  /\ reach d (step d c) ce.
Proof.
  intros Hg Hr Hne.
  destruct (shr_on_way c Hg Hr) as (Ho & _ & Hd & Hc & _).
  destruct (reach_before _ _ _ Hr Hne) as (_ & Hr' & Hend).
  assert (P : forall o, peek_entry d2 c o = peek_entry d c o)
    by (intros o; apply shr_peek_before; assumption).
  split; [exact P|]. split; [|split].
  - rewrite !step_fields, P.
    rewrite (shr_entry_length _ (peek_entry d c entry_zero)); reflexivity.
  - apply reach_snoc; assumption.
  - exact Hr'.
Qed.

(** The entry is met in the new directory as in the old one. *)
Lemma shr_grid_to (a : cursor_t) :
  reach d (seg_start d (c_dir_block ce)) a -> reach d a ce -> reach d2 a ce.
Proof.
  intros Hg Hr. remember ce as b eqn:Eb in Hr.
  induction Hr as [a|a b Ho Hr IH]; [subst; apply reach_here|].
  subst b.
  destruct (cursor_eq_dec a ce) as [->|Hne]; [apply reach_here|].
  assert (Hab : reach d a ce) by (apply reach_step; assumption).
  destruct (shr_on_way a Hg Hab) as (_ & Ho2 & _).
  destruct (shr_step_before a Hg Hab Hne) as (_ & S & Hg' & _).
  apply reach_step; [exact Ho2|]. rewrite S. apply IH; [exact Hg'|reflexivity].
Qed.

Lemma shr_grid : reach d2 (seg_start d2 (c_dir_block ce)) ce.
Proof.
  rewrite shr_seg_start. apply shr_grid_to; [apply reach_here|exact Hgrid].
Qed.

(** *** The entry itself *)

Lemma shr_valid_at : overflowed_segment d2 ce = false.
Proof. apply (shr_on_way ce Hgrid (reach_here d ce)). Qed.

Lemma shr_peek_at (old : entry_t) :
  empty_file (peek_entry d2 ce old) = true
  /\ e_length (peek_entry d2 ce old) = len.
Proof.
  rewrite empty_file_peek, e_length_peek, D2, Z.eqb_refl. auto.
Qed.

Lemma shr_tail_place :
  reach d (seg_start d (c_dir_block ce)) t /\ c_dir_block t = c_dir_block ce.
Proof.
  assert (Hg : reach d (seg_start d (c_dir_block ce)) t).
  { apply (reach_trans d _ ce); [exact Hgrid|].
    apply reach_step; [exact Hvalid|exact Htail]. }
  split; [exact Hg|]. apply (grid_place d _ t W Hg).
Qed.

Lemma shr_step_at : step d2 ce = pulled n k t.
Proof.
  destruct (shr_peek_at entry_zero) as [E1 E2].
  destruct shr_place as [_ Hf]. destruct shr_tail_place as [_ Hd].
  rewrite step_fields, E2. unfold entry_length. rewrite E1.
  unfold pulled, empty_entry_length. rewrite Hn, Hk, Hnb, Hd.
  rewrite u16_small by lia. f_equal; lia.
Qed.

(** *** Behind the entry *)

Lemma shr_after_place (c : cursor_t) :
  reach d t c ->
  reach d (seg_start d (c_dir_block ce)) c
  /\ c_dir_block c = c_dir_block ce
  /\ c_entry t <= c_entry c
  /\ c_file_number ce + 1 + k <= c_file_number c.
Proof.
  intros Ha. destruct shr_tail_place as [Hg Hd]. destruct shr_place as [_ Hf].
  assert (Hgc : reach d (seg_start d (c_dir_block ce)) c)
    by (apply (reach_trans d _ t); assumption).
  split; [exact Hgc|]. split; [apply (grid_place d _ c W Hgc)|].
  split; [apply (reach_entry _ _ _ Ha)|].
  pose proof (reach_file_number _ _ _ W Ha). lia.
Qed.

Lemma shr_overflowed_after (c : cursor_t) :
  reach d t c ->
  overflowed_segment d2 (pulled n k c) = overflowed_segment d c.
Proof.
  intros Ha. destruct (shr_after_place c Ha) as (_ & Hd & _).
  unfold overflowed_segment, pulled. cbn [c_file_number c_dir_block].
  rewrite Hd, Dc. rewrite !Z.gtb_ltb.
  destruct (negate (number_files d (c_dir_block ce)) <? c_file_number c) eqn:E;
    zbool; [apply Z.ltb_lt|apply Z.ltb_ge]; lia.
Qed.

(** An entry behind is read from its new place. *)
Lemma shr_peek_after (c : cursor_t) (old old' : entry_t) :
  reach d t c -> overflowed_segment d c = false ->
  row_of (peek_entry d2 (pulled n k c) old) = row_of (peek_entry d c old')
  /\ empty_file (peek_entry d2 (pulled n k c) old)
     = empty_file (peek_entry d c old')
  /\ e_length (peek_entry d2 (pulled n k c) old)
     = e_length (peek_entry d c old').
Proof.
  intros Ha Ho. destruct (shr_after_place c Ha) as (Hg & Hd & Hc & Hfn).
  destruct shr_place as [Hp Hf].
  pose proof (negate_count _ (word12_word d (c_dir_block ce) 4 W)) as Hcn.
  fold (additional_words d (c_dir_block ce)) in Hcn.
  destruct (file_entry_length_word12 d (c_dir_block ce)
              (word12_word d (c_dir_block ce) 4 W)) as [Eel _].
  pose proof (Hfits _ _ Hg Ho) as Ht.
  rewrite entry_length_peek, Hd in Ht. unfold empty_entry_length in Ht.
  assert (E0 : (word d2 (c_dir_block ce) (c_entry c - n) =? 0)
               = (word d (c_dir_block ce) (c_entry c) =? 0)).
  { rewrite (D4 (c_entry c)); [reflexivity|].
    revert Ht. destruct (word d (c_dir_block ce) (c_entry c) =? 0); lia. }
  assert (EL : e_length (peek_entry d2 (pulled n k c) entry_zero)
               = e_length (peek_entry d c entry_zero)).
  { rewrite !e_length_peek. unfold pulled. cbn [c_dir_block c_entry].
    rewrite Hd, E0.
    destruct (shr_header (c_dir_block ce)) as (_ & _ & ->).
    destruct (word d (c_dir_block ce) (c_entry c) =? 0).
    + replace (c_entry c - n + 1) with (c_entry c + 1 - n) by lia.
      rewrite D4 by lia. reflexivity.
    + rewrite (u16_small (negate (additional_words d (c_dir_block ce))))
        by lia.
      replace (c_entry c - n + 4
               + negate (additional_words d (c_dir_block ce)))
        with (c_entry c + 4 + negate (additional_words d (c_dir_block ce))
              - n) by lia.
      rewrite D4 by lia. reflexivity. }
  split; [|split].
  - rewrite !row_of_peek, EL. unfold pulled.
    cbn [c_file_number c_dir_block c_entry c_next_block].
    rewrite Hd, E0.
    replace (c_file_number c - k =? 1) with (c_file_number c =? 1)
      by (apply eq_trans with false; [|symmetry]; apply Z.eqb_neq; lia).
    f_equal.
    destruct (word d (c_dir_block ce) (c_entry c) =? 0) eqn:Ez; [reflexivity|].
    unfold words_at. apply map_ext_in. intros x Hx. apply in_seq in Hx.
    replace (c_entry c - n + Z.of_nat x) with (c_entry c + Z.of_nat x - n)
      by lia.
    apply D4. lia.
  - rewrite !empty_file_peek. unfold pulled. cbn [c_dir_block c_entry].
    rewrite Hd. exact E0.
  - rewrite (e_length_peek d2 _ old), (e_length_peek d c old').
    rewrite (e_length_peek d2 _ entry_zero), (e_length_peek d c entry_zero)
      in EL. exact EL.
Qed.

Lemma shr_step_after (c : cursor_t) :
  reach d t c -> overflowed_segment d c = false ->
  step d2 (pulled n k c) = pulled n k (step d c) /\ reach d t (step d c).
Proof.
  intros Ha Ho. split; [|apply reach_snoc; assumption].
  destruct (shr_peek_after c entry_zero entry_zero Ha Ho) as (_ & E1 & E2).
  destruct (shr_after_place c Ha) as (_ & _ & _ & Hfn).
  destruct shr_place as [_ Hf].
  pose proof (overflowed_count d c W Ho) as Hc.
  rewrite !step_fields, E2.
  rewrite (shr_entry_length _ (peek_entry d c entry_zero));
    [|exact E1|rewrite !dir_block_peek_entry; reflexivity].
  unfold pulled. cbn [c_file_number c_next_block c_entry c_dir_block].
  rewrite (u16_small (c_file_number c - k + 1)) by lia.
  rewrite (u16_small (c_file_number c + 1)) by lia.
  f_equal; lia.
Qed.

Lemma shr_valid_after (f : nat) (c : cursor_t) (b : bool) (c1 : cursor_t) :
  valid_entry f d c = Some (b, c1) -> reach d t c ->
  (overflowed_segment d c = false /\ b = true /\ c1 = c
   /\ valid_entry f d2 (pulled n k c) = Some (true, pulled n k c))
  \/ (overflowed_segment d c = true
      /\ exists c1',
          valid_entry f d2 (pulled n k c) = Some (b, c1')
          /\ (b = true -> c1' = c1 /\ c_dir_block ce < c_dir_block c1)).
Proof.
  intros V Ha. destruct f as [|f]; [discriminate|].
  destruct (shr_after_place c Ha) as (_ & Hd & _).
  pose proof (shr_overflowed_after c Ha) as Ho2.
  cbn [valid_entry] in *. rewrite Ho2.
  replace (c_dir_block (pulled n k c)) with (c_dir_block c) by reflexivity.
  destruct (shr_header (c_dir_block c)) as (_ & -> & _).
  destruct (overflowed_segment d c).
  - right. split; [reflexivity|].
    destruct (next_segment d (c_dir_block c) =? 0) eqn:E0.
    + injection V as <- <-. eexists. split; [reflexivity|discriminate].
    + destruct (next_segment d (c_dir_block c) >? DIR_LENGTH); [discriminate|].
      destruct (shr_header (next_segment d (c_dir_block c) - 1)) as (-> & _).
      exists c1.
      assert (Hlater : c_dir_block ce
                       < c_dir_block
                           (mk_cursor 1
                              (first_file_block d
                                 (next_segment d (c_dir_block c) - 1))
                              file_entries
                              (next_segment d (c_dir_block c) - 1))).
      { cbn [c_dir_block]. destruct (Asc (c_dir_block c)); zbool; lia. }
      destruct (shr_valid_later f _ b c1 Hlater V) as [V2 Hl].
      split; [exact V2|]. intros Hb. split; [reflexivity|apply Hl, Hb].
  - left. injection V as <- <-. auto.
Qed.

(** The walks behind the entry list the same rows. *)
Lemma shr_rows_sim (f : nat) :
  forall c c' e e' es,
    (c_dir_block ce < c_dir_block c /\ c' = c)
    \/ (reach d t c /\ c' = pulled n k c) ->
    entries_loop f d c e = Some es ->
    exists es',
      entries_loop f d2 c' e' = Some es'
      /\ map row_of es' = map row_of es.
Proof.
  induction f as [|f IH]; intros c c' e e' es R E; [discriminate|].
  assert (Hcont : forall c1,
            c_dir_block ce < c_dir_block c1 ->
            option_map (cons (peek_entry d c1 e))
              (entries_loop f d (step d c1) (peek_entry d c1 e)) = Some es ->
            exists es',
              option_map (cons (peek_entry d2 c1 e'))
                (entries_loop f d2 (step d2 c1) (peek_entry d2 c1 e'))
              = Some es'
              /\ map row_of es' = map row_of es).
  { intros c1 Hl E1.
    destruct (entries_loop f d (step d c1) (peek_entry d c1 e))
      as [es1|] eqn:E2; [|discriminate].
    injection E1 as <-.
    destruct (shr_step_later c1 e' Hl) as [P S].
    destruct (IH (step d c1) (step d c1) (peek_entry d c1 e)
                 (peek_entry d c1 e') es1) as (es1' & E3 & F);
      [left; split; [rewrite step_fields; exact Hl|reflexivity]|exact E2|].
    rewrite S, P, E3. eexists. split; [reflexivity|].
    cbn [map]. rewrite F, !row_of_peek. reflexivity. }
  cbn [entries_loop] in *.
  destruct (valid_entry (S f) d c) as [[b c1]|] eqn:V; [|discriminate].
  destruct R as [[Hl ->]|[Ha ->]].
  - destruct (shr_valid_later _ _ _ _ Hl V) as [V2 Hl1]. rewrite V2.
    destruct b.
    + rewrite get_entry_step in *. apply Hcont; [apply Hl1; reflexivity|exact E].
    + injection E as <-. exists []. split; reflexivity.
  - destruct (shr_valid_after _ _ _ _ V Ha)
      as [(Ho & -> & -> & V')|(Ho & c1' & V' & Hb1)]; rewrite V'.
    + rewrite get_entry_step in *.
      destruct (entries_loop f d (step d c) (peek_entry d c e))
        as [es1|] eqn:E2; [|discriminate].
      injection E as <-.
      destruct (shr_step_after c Ha Ho) as [S Ha2].
      destruct (IH (step d c) (pulled n k (step d c)) (peek_entry d c e)
                   (peek_entry d2 (pulled n k c) e') es1) as (es1' & E3 & F);
        [right; split; [exact Ha2|reflexivity]|exact E2|].
      rewrite S, E3. eexists. split; [reflexivity|].
      cbn [map]. rewrite F.
      destruct (shr_peek_after c e' e Ha Ho) as (-> & _). reflexivity.
    + destruct b.
      * destruct (Hb1 eq_refl) as [-> Hl]. rewrite get_entry_step in *.
        apply Hcont; [exact Hl|exact E].
      * injection E as <-. exists []. split; reflexivity.
Qed.

(** The walk from the entry on. *)
Lemma shr_rows_at (f : nat) (e e' : entry_t) (es : list entry_t) :
  entries_loop f d t e = Some es ->
  exists es',
    entries_loop (S f) d2 ce e' = Some (peek_entry d2 ce e' :: es')
    /\ map row_of es' = map row_of es.
Proof.
  intros E.
  destruct (shr_rows_sim f t (pulled n k t) e (peek_entry d2 ce e') es)
    as (es' & E2 & F); [right; split; [apply reach_here|reflexivity]|exact E|].
  exists es'. split; [|exact F].
  cbn [entries_loop].
  rewrite (valid_entry_here f d2 ce shr_valid_at), get_entry_step,
    shr_step_at, E2.
  reflexivity.
Qed.

(** *** The entries of the new directory end inside the blocks *)

Lemma shr_reach_back (a' x' : cursor_t) :
  reach d2 a' x' ->
  forall a,
    (reach d (seg_start d (c_dir_block ce)) a /\ reach d a ce /\ a' = a)
    \/ (reach d t a /\ a' = pulled n k a) ->
    exists x,
      (reach d (seg_start d (c_dir_block ce)) x /\ reach d x ce /\ x' = x)
      \/ (reach d t x /\ x' = pulled n k x).
Proof.
  intros R. induction R as [a'|a' x' Ho R IH]; intros a Ha; [eauto|].
  destruct Ha as [(Hg & Hr & ->)|(Hr & ->)].
  - destruct (cursor_eq_dec a ce) as [->|Hne].
    + apply (IH t). right. split; [apply reach_here|apply shr_step_at].
    + destruct (shr_step_before a Hg Hr Hne) as (_ & S & Hg' & Hr').
      apply (IH (step d a)). left. rewrite S. auto.
  - rewrite shr_overflowed_after in Ho by exact Hr.
    destruct (shr_step_after a Hr Ho) as [S Hr'].
    apply (IH (step d a)). right. rewrite S. auto.
Qed.

Lemma shr_fits : fits d2.
Proof.
  intros j x' R Ho.
  destruct (Z.eq_dec j (c_dir_block ce)) as [->|Hj].
  - destruct (shr_reach_back _ _ R (seg_start d (c_dir_block ce)))
      as (x & [(Hg & Hr & ->)|(Hr & ->)]).
    { left. split; [apply reach_here|]. split; [exact Hgrid|].
      apply shr_seg_start. }
    + destruct (cursor_eq_dec x ce) as [->|Hne].
      * destruct (shr_peek_at entry_zero) as [E1 _].
        unfold entry_length at 1. rewrite E1.
        pose proof (Hfits _ _ Hgrid Hvalid) as Hf.
        rewrite entry_length_peek in Hf.
        destruct (file_entry_length_word12 d (c_dir_block ce)
                    (word12_word d (c_dir_block ce) 4 W)) as [_ Eel].
        revert Hf. unfold empty_entry_length.
        destruct (word d (c_dir_block ce) (c_entry ce) =? 0); lia.
      * destruct (shr_step_before x Hg Hr Hne) as (P & _).
        destruct (shr_on_way x Hg Hr) as (Hox & _).
        rewrite P, (shr_entry_length _ (peek_entry d x entry_zero))
          by reflexivity.
        apply (Hfits _ _ Hg Hox).
    + rewrite shr_overflowed_after in Ho by exact Hr.
      destruct (shr_after_place x Hr) as (Hg & _).
      destruct (shr_peek_after x entry_zero entry_zero Hr Ho) as (_ & E1 & _).
      rewrite (shr_entry_length _ (peek_entry d x entry_zero));
        [|exact E1|rewrite !dir_block_peek_entry; reflexivity].
      pose proof (Hfits _ _ Hg Ho). unfold pulled. cbn [c_entry]. lia.
  - assert (Hs : seg d2 j = seg d j) by (apply D0, Hj).
    assert (Hd : c_dir_block x' = j).
    { apply reach_dir_block in R. exact R. }
    rewrite shr_seg_start in R.
    assert (R' : reach d (seg_start d j) x').
    { apply (reach_same_seg d d2); [exact Hs|exact R]. }
    rewrite (overflowed_same_seg d d2) in Ho by (rewrite Hd; exact Hs).
    rewrite (peek_entry_same_seg d d2) by (rewrite Hd; exact Hs).
    rewrite (entry_length_same_seg d d2)
      by (rewrite dir_block_peek_entry, Hd; exact Hs).
    apply (Hfits _ _ R' Ho).
Qed.

(** What the walks of the two directories share. *)
Lemma shr_all :
  ascending d2 /\ fits d2
  /\ reach d2 (seg_start d2 (c_dir_block ce)) ce
  /\ overflowed_segment d2 ce = false
  /\ step d2 ce = pulled n k t
  /\ (forall old,
        row_of (peek_entry d2 ce old)
        = mk_row (c_file_number ce =? 1) (c_dir_block ce) true []
                 (c_next_block ce) len)
  /\ (forall f c e e' es,
        reach d t c -> entries_loop f d c e = Some es ->
        exists es',
          entries_loop f d2 (pulled n k c) e' = Some es'
          /\ map row_of es' = map row_of es)
  /\ (forall f e e' es,
        entries_loop f d t e = Some es ->
        exists es',
          entries_loop (S f) d2 ce e' = Some (peek_entry d2 ce e' :: es')
          /\ map row_of es' = map row_of es)
  /\ (forall j, first_file_block d2 j = first_file_block d j
                /\ next_segment d2 j = next_segment d j).
Proof.
  split; [exact shr_ascending|]. split; [exact shr_fits|].
  split; [exact shr_grid|]. split; [exact shr_valid_at|].
  split; [exact shr_step_at|]. split; [|split; [|split]].
  - intros old. rewrite row_of_peek.
    destruct (shr_peek_at entry_zero) as [_ ->]. rewrite D2, Z.eqb_refl.
    reflexivity.
  - intros f c e e' es Hr E.
    apply (shr_rows_sim f c _ e e' es); [right; auto|exact E].
  - apply shr_rows_at.
  - intros j. destruct (shr_header j) as (-> & -> & _). auto.
Qed.

End Shrunk.

(** ** Twelve-bit words are kept *)

Lemma Forall_upd {A : Type} (P : A -> Prop) (v : A) (l : list A) :
  forall m, P v -> Forall P l -> Forall P (upd m v l).
Proof.
  induction l as [|h l IH]; intros m Hv Hl; [destruct m; exact Hl|].
  inversion Hl as [|? ? Hh Ht]; subst.
  destruct m as [|m]; cbn [upd]; constructor; auto.
Qed.

Lemma Forall_wr (l : list Z) (off v : Z) :
  word12 v -> Forall word12 l -> Forall word12 (wr l off v).
Proof.
  intros Hv Hl. unfold wr. destruct (off <? 0); [exact Hl|].
  apply Forall_upd; assumption.
Qed.

Lemma words12_set_seg (d : directory_t) (i : Z) (s : dir_block_t) :
  words12 d -> Forall word12 (data s) -> words12 (set_seg d i s).
Proof.
  intros W H j. rewrite seg_set_seg.
  destruct ((i =? j) && (0 <=? i) && (i <? Z.of_nat (length d)));
    [exact H|apply W].
Qed.

Lemma words12_poke (d : directory_t) (i off v : Z) :
  words12 d -> 0 <= v < 4096 -> words12 (poke d i off v).
Proof.
  intros W Hv. unfold poke. apply words12_set_seg; [exact W|].
  cbn [data]. apply Forall_wr; [|apply W].
  rewrite u16_small by lia. exact Hv.
Qed.

Lemma words12_mark_dirty (d : directory_t) (i : Z) :
  words12 d -> words12 (mark_dirty d i).
Proof.
  intros W. unfold mark_dirty. apply words12_set_seg; [exact W|apply W].
Qed.

Lemma words12_set_data (d : directory_t) (i : Z) (l : list Z) :
  words12 d -> Forall word12 l -> words12 (set_data d i l).
Proof. intros W H. unfold set_data. apply words12_set_seg; assumption. Qed.

Lemma Forall_shuffle_down (m : nat) :
  forall l src dst,
    Forall word12 l -> Forall word12 (shuffle_down_loop m l src dst).
Proof.
  induction m as [|m IH]; intros l src dst H; [exact H|].
  cbn [shuffle_down_loop]. apply IH. apply Forall_wr; [|exact H].
  apply word12_rd, H.
Qed.

Lemma words12_put_entry_empty (d : directory_t) (e : entry_t) :
  words12 d -> empty_file e = true -> 0 <= e_length e < 4096 ->
  words12 (put_entry d e).
Proof.
  intros W He Hl. unfold put_entry. rewrite He.
  apply words12_poke; [apply words12_poke; [apply words12_mark_dirty, W|lia]|].
  apply negate_count. exact Hl.
Qed.

Lemma words12_fix_segment_down (d : directory_t) (e : entry_t) (offset : Z) :
  words12 d -> 0 <= entry e ->
  0 <= entry_length
         (set_data d (dir_block e)
            (shuffle_words_down (data (seg d (dir_block e)))
               (entry e + entry_length d e) (entry e + offset)
               (OS8_BLOCK_SIZE - 1))) e - offset <= 768 ->
  words12 (fix_segment_down d e offset).
Proof.
  intros W He Hx. unfold fix_segment_down.
  match goal with
  | |- context [set_data d ?i ?l] =>
      assert (W1 : words12 (set_data d i l))
        by (apply words12_set_data; [exact W|];
            unfold shuffle_words_down; apply Forall_shuffle_down, W);
      set (d1 := set_data d i l) in *
  end.
  destruct (negb (flag_word d1 (dir_block e) =? 0)
            && (flag_word d1 (dir_block e) - 768 >? entry e)) eqn:E;
    [|exact W1].
  apply words12_poke; [exact W1|].
  pose proof (word12_word d1 (dir_block e) 3 W1) as Hf.
  unfold word12 in Hf. fold (flag_word d1 (dir_block e)) in Hf.
  zbool. lia.
Qed.

Lemma words12_bump_number_files (d : directory_t) (i amount : Z) :
  words12 d -> 0 <= number_files d i - amount < 4096 ->
  words12 (bump_number_files d i amount).
Proof.
  intros W H. unfold bump_number_files.
  apply words12_poke; [apply words12_mark_dirty, W|].
  unfold number_files in *. rewrite word_mark_dirty. exact H.
Qed.

(** ** Two empty entries become one *)

Lemma valid_in_range (d : directory_t) (c : cursor_t) :
  shape d -> overflowed_segment d c = false -> 1 <= c_file_number c ->
  0 <= c_dir_block c < 6.
Proof.
  intros [L _] Ho Hf.
  destruct (seg_index_cases d (c_dir_block c)) as [H|H]; [rewrite L in H; cbn in H; lia|].
  unfold overflowed_segment, number_files, word in Ho.
  rewrite (seg_outside d _ H) in Ho. cbn in Ho.
  change (negate 0) with 0 in Ho. zbool. lia.
Qed.

Lemma negate_count_down (w : Z) :
  word12 w -> 2 <= negate w ->
  0 <= w + 1 < 4096 /\ negate (u16 (w - -1)) = negate w - 1.
Proof.
  unfold word12, negate. intros Hw Hn.
  destruct (Z.eq_dec w 0) as [->|H0]; [cbn in Hn; lia|].
  rewrite Z.rem_small in Hn by lia.
  replace (w - -1) with (w + 1) by lia.
  rewrite u16_small by lia. rewrite !Z.rem_small by lia. lia.
Qed.

Lemma merged_facts (d : directory_t) (ce : cursor_t) (eo neo : entry_t) :
  shape d -> words12 d -> ascending d -> fits d ->
  reach d (seg_start d (c_dir_block ce)) ce ->
  overflowed_segment d ce = false ->
  overflowed_segment d (step d ce) = false ->
  empty_file (peek_entry d ce eo) = true ->
  empty_file (peek_entry d (step d ce) neo) = true ->
  e_length (peek_entry d ce eo) + e_length (peek_entry d (step d ce) neo)
  < 4096 ->
  let x := peek_entry d ce eo in
  let y := peek_entry d (step d ce) neo in
  let x' := set_length x (u16 (e_length x + e_length y)) in
  let d2 := bump_number_files (fix_segment_down (put_entry d x') y 0)
                              (dir_block x') (-1) in
  shape d2 /\ words12 d2 /\ ascending d2 /\ fits d2
  /\ (forall j, j <> c_dir_block ce -> seg d2 j = seg d j)
  /\ (forall q, q < c_entry ce -> q <> 0 -> q <> 3 ->
                word d2 (c_dir_block ce) q = word d (c_dir_block ce) q)
  /\ negate (number_files d2 (c_dir_block ce))
     = negate (number_files d (c_dir_block ce)) - 1
  /\ reach d2 (seg_start d2 (c_dir_block ce)) ce
  /\ (forall old,
        row_of (peek_entry d2 ce old)
        = mk_row (c_file_number ce =? 1) (c_dir_block ce) true []
                 (c_next_block ce) (e_length x + e_length y))
  /\ (forall f e e' es,
        entries_loop f d (step d (step d ce)) e = Some es ->
        exists es',
          entries_loop (S f) d2 ce e' = Some (peek_entry d2 ce e' :: es')
          /\ map row_of es' = map row_of es)
  /\ (forall j, first_file_block d2 j = first_file_block d j
                /\ next_segment d2 j = next_segment d j)
  /\ overflowed_segment d2 ce = false.
Proof.
  intros Sh W Asc Hfits Hgrid Hvalid Hvalid1 Hx Hy Hsum x y x' d2.
  change (e_length x + e_length y < 4096) in Hsum.
  change (empty_file x = true) in Hx. change (empty_file y = true) in Hy.
  destruct (grid_place d _ ce W Hgrid) as (_ & Hp & Hf1 & _).
  pose proof (overflowed_count _ _ W Hvalid) as Hf2.
  pose proof (valid_in_range d ce Sh Hvalid Hf1) as Hi.
  set (i := c_dir_block ce) in *. set (p := c_entry ce) in *.
  assert (Hwx : word d i p = 0).
  { unfold x in Hx. rewrite empty_file_peek in Hx. apply Z.eqb_eq, Hx. }
  assert (Es : step d ce
               = mk_cursor (c_file_number ce + 1)
                           (u16 (c_next_block ce + e_length x))
                           (p + 2) i).
  { rewrite step_fields, entry_length_peek.
    fold i p. rewrite Hwx, Z.eqb_refl.
    unfold x. rewrite (e_length_peek d ce eo), (e_length_peek d ce entry_zero).
    rewrite u16_small by lia. reflexivity. }
  assert (Hwy : word d i (p + 2) = 0).
  { unfold y in Hy. rewrite empty_file_peek, Es in Hy.
    cbn [c_dir_block c_entry] in Hy. apply Z.eqb_eq, Hy. }
  assert (Hf3 : c_file_number ce + 1 <= negate (number_files d i)).
  { pose proof Hvalid1 as H. unfold overflowed_segment in H. rewrite Es in H.
    cbn [c_file_number c_dir_block] in H. zbool. lia. }
  assert (Hf4 : c_file_number ce + 1 <= 4095).
  { pose proof (overflowed_count _ _ W Hvalid1) as H. rewrite Es in H.
    exact H. }
  assert (Hp4 : p + 4 <= 256).
  { pose proof (Hfits i (step d ce)
                  (reach_snoc d _ ce Hgrid Hvalid) Hvalid1) as H.
    rewrite entry_length_peek, Es in H. cbn [c_dir_block c_entry] in H.
    rewrite Hwy, Z.eqb_refl in H. unfold empty_entry_length in H. lia. }
  set (t := step d (step d ce)).
  assert (Et : t = mk_cursor (c_file_number ce + 2)
                             (u16 (c_next_block ce + (e_length x + e_length y)))
                             (p + 4) i).
  { unfold t. rewrite (step_fields d (step d ce)), entry_length_peek.
    rewrite (e_length_peek d (step d ce) entry_zero).
    unfold y in *. rewrite (e_length_peek d (step d ce) neo).
    rewrite Es. cbn [c_file_number c_next_block c_entry c_dir_block].
    rewrite Hwy, Z.eqb_refl. unfold empty_entry_length.
    rewrite u16_small by lia. f_equal; [lia| |lia].
    unfold u16. rewrite Zplus_mod_idemp_l. f_equal. lia. }
  assert (Hlx : 0 <= e_length x /\ 0 <= e_length y).
  { unfold x, y. rewrite !e_length_peek.
    split; match goal with |- 0 <= (if ?b then u16 ?u else u16 ?v) =>
             pose proof (u16_range u); pose proof (u16_range v);
             destruct b; lia end. }
  assert (Edb : dir_block x' = i) by apply dir_block_peek_entry.
  assert (Ex' : empty_file x' = true /\ entry x' = p
                /\ e_length x' = e_length x + e_length y).
  { unfold x'. cbn [set_length empty_file entry e_length].
    split; [exact Hx|]. split; [apply place_peek|]. apply u16_small. lia. }
  destruct Ex' as (Ex1 & Ex2 & Ex3).
  assert (Ey : dir_block y = i /\ entry y = p + 2 /\ empty_file y = true).
  { unfold y. rewrite dir_block_peek_entry.
    destruct (place_peek d (step d ce) neo) as (-> & _).
    rewrite Es. cbn [c_dir_block c_entry].
    split; [reflexivity|]. split; [reflexivity|].
    rewrite <- Es. exact Hy. }
  destruct Ey as (Ey1 & Ey2 & Ey3).
  destruct Sh as [Sl Sd].
  assert (Hlen : length (data (seg d i)) = 256%nat) by (apply Sd; exact Hi).
  assert (Hid : 0 <= i < Z.of_nat (length d)) by (rewrite Sl; cbn; lia).
  set (d1 := put_entry d x') in *.
  assert (Sh1 : shape d1) by (apply put_entry_spec; split; assumption).
  assert (H1 : forall q,
             word d1 i q
             = if q =? p then 0
               else if q =? p + 1 then u16 (negate (e_length x + e_length y))
               else word d i q).
  { intros q. pose proof (word_put_entry_empty d x' q Ex1) as P.
    rewrite Edb, Ex2, Ex3 in P. apply P; [lia|rewrite Hlen; lia]. }
  assert (O1 : forall j, j <> i -> seg d1 j = seg d j).
  { intros j Hj. unfold d1. apply seg_put_entry_other. rewrite Edb. auto. }
  set (d1' := fix_segment_down d1 y 0) in *.
  assert (Sh1' : shape d1') by (apply fix_segment_down_spec; exact Sh1).
  assert (Ely : forall dd, entry_length dd y = 2).
  { intros dd. unfold entry_length. rewrite Ey3. reflexivity. }
  assert (L1 : length (data (seg d1 i)) = 256%nat)
    by (apply Sh1; exact Hi).
  assert (Hid1 : 0 <= i < Z.of_nat (length d1))
    by (destruct Sh1 as [-> _]; cbn; lia).
  assert (H2 : forall q, q <> 3 ->
             word d1' i q
             = rd (shuffle_words_down (data (seg d1 i)) (p + 4) (p + 2) 255) q).
  { intros q Hq. pose proof (word_fix_segment_down d1 y 0 q) as P.
    rewrite Ey1, Ey2, Ely in P.
    replace (p + 2 + 2) with (p + 4) in P by lia.
    replace (p + 2 + 0) with (p + 2) in P by lia.
    apply P; assumption. }
  assert (O2 : forall j, j <> i -> seg d1' j = seg d1 j).
  { intros j Hj. unfold d1'. apply seg_fix_segment_down_other.
    rewrite Ey1. auto. }
  assert (L1' : length (data (seg d1' i)) = 256%nat)
    by (apply Sh1'; exact Hi).
  assert (H3 : forall j q,
             word d2 j q
             = if (i =? j) && (q =? 0) then u16 (word d1' i 0 - -1)
               else word d1' j q).
  { intros j q. unfold d2. rewrite Edb.
    apply word_bump_number_files. rewrite L1'. lia. }
  assert (Sh2 : shape d2) by (apply bump_number_files_spec; exact Sh1').
  assert (O3 : forall j, j <> i -> seg d2 j = seg d j).
  { intros j Hj. rewrite <- (O1 j Hj), <- (O2 j Hj). unfold d2.
    rewrite Edb. unfold bump_number_files.
    rewrite data_poke_other by auto. apply seg_mark_dirty_other. auto. }
  assert (Hlow : forall q, q < p + 2 -> q <> 3 -> word d1' i q = word d1 i q).
  { intros q Hq Hq3. rewrite H2 by exact Hq3. unfold shuffle_words_down.
    apply shuffle_down_loop_outside. lia. }
  assert (Hw0 : word d1' i 0 = word d i 0).
  { rewrite Hlow by lia. rewrite H1.
    replace (0 =? p) with false by (symmetry; apply Z.eqb_neq; lia).
    replace (0 =? p + 1) with false by (symmetry; apply Z.eqb_neq; lia).
    reflexivity. }
  pose proof (word12_word d i 0 W) as Hw12.
  destruct (negate_count_down (word d i 0) Hw12) as [Hc1 Hc2].
  { unfold number_files in Hf3. lia. }
  assert (D1 : forall q, q < p -> q <> 0 -> q <> 3 ->
                         word d2 i q = word d i q).
  { intros q Hq Hq0 Hq3. rewrite H3.
    replace (q =? 0) with false by (symmetry; apply Z.eqb_neq; lia).
    rewrite andb_false_r, Hlow by lia. rewrite H1.
    replace (q =? p) with false by (symmetry; apply Z.eqb_neq; lia).
    replace (q =? p + 1) with false by (symmetry; apply Z.eqb_neq; lia).
    reflexivity. }
  assert (Dc : negate (number_files d2 i) = negate (number_files d i) - 1).
  { unfold number_files. rewrite H3, Z.eqb_refl. cbn [andb Z.eqb].
    rewrite Hw0. exact Hc2. }
  assert (D2 : word d2 i p = 0).
  { rewrite H3.
    replace (p =? 0) with false by (symmetry; apply Z.eqb_neq; lia).
    rewrite andb_false_r, Hlow by lia. rewrite H1, Z.eqb_refl. reflexivity. }
  assert (D3 : u16 (negate (word d2 i (p + 1))) = e_length x + e_length y).
  { rewrite H3.
    replace (p + 1 =? 0) with false by (symmetry; apply Z.eqb_neq; lia).
    rewrite andb_false_r, Hlow by lia. rewrite H1.
    replace (p + 1 =? p) with false by (symmetry; apply Z.eqb_neq; lia).
    rewrite Z.eqb_refl.
    rewrite <- (u16_small (e_length x + e_length y)) at 1 by lia.
    apply negate_twice_small. lia. }
  assert (D4 : forall q, c_entry t <= q < 256 ->
                         word d2 i (q - 2) = word d i q).
  { intros q Hq. rewrite Et in Hq. cbn [c_entry] in Hq. rewrite H3.
    replace (q - 2 =? 0) with false by (symmetry; apply Z.eqb_neq; lia).
    rewrite andb_false_r, H2 by lia. unfold shuffle_words_down.
    rewrite shuffle_down_loop_inside; try (rewrite ?L1; lia).
    replace (q - 2 + (p + 4 - (p + 2))) with q by lia.
    fold (word d1 i q). rewrite H1.
    replace (q =? p) with false by (symmetry; apply Z.eqb_neq; lia).
    replace (q =? p + 1) with false by (symmetry; apply Z.eqb_neq; lia).
    reflexivity. }
  assert (W2 : words12 d2).
  { unfold d2. rewrite Edb. apply words12_bump_number_files.
    - apply words12_fix_segment_down.
      + apply words12_put_entry_empty; [exact W|exact Ex1|lia].
      + lia.
      + rewrite Ely. lia.
    - unfold number_files. fold d1 d1'. rewrite Hw0. lia. }
  assert (Htail : reach d (step d ce) t).
  { apply reach_step; [exact Hvalid1|apply reach_here]. }
  destruct (shr_all d d2 ce t 2 1 (e_length x + e_length y) W Asc Hfits
              Hgrid Hvalid Htail
              ltac:(rewrite Et; cbn [c_entry]; fold p; lia) ltac:(lia)
              ltac:(rewrite Et; cbn [c_file_number]; lia) ltac:(lia)
              ltac:(rewrite Et; reflexivity) ltac:(fold i; lia)
              O3 D1 Dc D2 D3 D4)
    as (A2 & F2 & G2 & V2 & S2 & R2 & _ & RA & FB).
  split; [split; apply Sh2|]. split; [exact W2|].
  split; [exact A2|]. split; [exact F2|]. split; [exact O3|].
  split; [exact D1|]. split; [exact Dc|]. split; [exact G2|].
  split; [exact R2|]. split; [exact RA|]. split; [exact FB|exact V2].
Qed.

(** ** A file becomes an empty entry *)

Lemma deleted_facts (d : directory_t) (ce : cursor_t) (old : entry_t) :
  shape d -> words12 d -> ascending d -> fits d ->
  reach d (seg_start d (c_dir_block ce)) ce ->
  overflowed_segment d ce = false ->
  empty_file (peek_entry d ce old) = false ->
  let x := peek_entry d ce old in
  let d2 := fst (delete_entry d x) in
  shape d2 /\ words12 d2 /\ ascending d2 /\ fits d2
  /\ (forall j, j <> c_dir_block ce -> seg d2 j = seg d j)
  /\ (forall q, q < c_entry ce -> q <> 3 ->
                word d2 (c_dir_block ce) q = word d (c_dir_block ce) q)
  /\ reach d2 (seg_start d2 (c_dir_block ce)) ce
  /\ overflowed_segment d2 ce = false
  /\ step d2 ce
     = pulled (file_entry_length d (c_dir_block ce) - 2) 0 (step d ce)
  /\ (forall o,
        row_of (peek_entry d2 ce o)
        = mk_row (c_file_number ce =? 1) (c_dir_block ce) true []
                 (c_next_block ce) (e_length x))
  /\ (forall f c e e' es,
        reach d (step d ce) c -> entries_loop f d c e = Some es ->
        exists es',
          entries_loop f d2
            (pulled (file_entry_length d (c_dir_block ce) - 2) 0 c) e'
          = Some es'
          /\ map row_of es' = map row_of es)
  /\ (forall j, first_file_block d2 j = first_file_block d j
                /\ next_segment d2 j = next_segment d j).
Proof.
  intros Sh W Asc Hfits Hgrid Hvalid Hx x d2.
  change (empty_file x = false) in Hx.
  destruct (grid_place d _ ce W Hgrid) as (_ & Hp & Hf1 & _).
  pose proof (overflowed_count _ _ W Hvalid) as Hf2.
  pose proof (valid_in_range d ce Sh Hvalid Hf1) as Hi.
  set (i := c_dir_block ce) in *. set (p := c_entry ce) in *.
  assert (Hwx : word d i p <> 0).
  { unfold x in Hx. rewrite empty_file_peek in Hx. apply Z.eqb_neq, Hx. }
  assert (Hwb : (word d i p =? 0) = false) by (apply Z.eqb_neq; exact Hwx).
  pose proof (word12_word d i 4 W) as Haw. fold (additional_words d i) in Haw.
  destruct (file_entry_length_word12 d i Haw) as (Eel & Hel5).
  pose proof (negate_count _ Haw) as Hcn.
  set (el := file_entry_length d i) in *.
  assert (Hfit : p + el <= 256).
  { pose proof (Hfits i ce Hgrid Hvalid) as H.
    rewrite entry_length_peek in H. fold i p in H. rewrite Hwb in H.
    exact H. }
  destruct (deleted_words d ce old Sh W Hi Hp Hfit Hwx)
    as (D0 & D1 & D2 & D3 & D4).
  fold x d2 i p el in D0, D1, D2, D3, D4.
  assert (Elx : e_length x = u16 (negate (word d i (p + el - 1)))).
  { unfold x. rewrite e_length_peek. fold i p. rewrite Hwb.
    rewrite (u16_small (negate (additional_words d i))) by lia.
    do 3 f_equal. lia. }
  assert (Hlx : 0 <= e_length x < 4096).
  { rewrite Elx.
    pose proof (negate_count _ (word12_word d i (p + el - 1) W)).
    rewrite u16_small by lia. lia. }
  assert (Edb : dir_block x = i) by apply dir_block_peek_entry.
  assert (Een : entry x = p) by apply place_peek.
  assert (Es : step d ce
               = mk_cursor (c_file_number ce + 1)
                           (u16 (c_next_block ce + e_length x))
                           (p + el) i).
  { rewrite step_fields, entry_length_peek. fold i p. rewrite Hwb.
    unfold x. rewrite (e_length_peek d ce old), (e_length_peek d ce entry_zero).
    rewrite u16_small by lia. reflexivity. }
  destruct Sh as [Sl Sd].
  assert (Hid : 0 <= i < Z.of_nat (length d)) by (rewrite Sl; cbn; lia).
  assert (Sh2 : shape d2).
  { unfold d2, delete_entry. cbn [fst].
    apply put_entry_spec, fix_segment_down_spec. split; assumption. }
  assert (W2 : words12 d2).
  { unfold d2, delete_entry. cbn [fst].
    apply words12_put_entry_empty; [|reflexivity|exact Hlx].
    apply words12_fix_segment_down; [exact W|rewrite Een; lia|].
    unfold entry_length at 1. rewrite Hx, Edb, Een.
    unfold entry_length. rewrite Hx, Edb. fold el.
    unfold file_entry_length, additional_words.
    rewrite word_set_data_same by exact Hid.
    unfold shuffle_words_down, empty_entry_length.
    rewrite shuffle_down_loop_outside by lia.
    fold (word d i 4). fold (additional_words d i).
    fold (file_entry_length d i). fold el. lia. }
  assert (Dc : negate (number_files d2 i) = negate (number_files d i) - 0).
  { unfold number_files. rewrite D1 by lia. lia. }
  assert (D3' : u16 (negate (word d2 i (p + 1))) = e_length x).
  { rewrite D3, Elx. reflexivity. }
  assert (Hstay : c_file_number ce + 0 <= negate (number_files d i)).
  { pose proof Hvalid as H. unfold overflowed_segment in H. fold i in H.
    zbool. lia. }
  destruct (shr_all d d2 ce (step d ce) (el - 2) 0 (e_length x) W Asc Hfits
              Hgrid Hvalid (reach_here d (step d ce))
              ltac:(rewrite Es; cbn [c_entry]; fold p; lia) ltac:(lia)
              ltac:(rewrite Es; cbn [c_file_number]; lia) ltac:(lia)
              ltac:(rewrite Es; reflexivity) Hstay
              D0 ltac:(intros q H1 _ H3; apply D1; assumption) Dc D2 D3'
              ltac:(intros q Hq; rewrite Es in Hq; cbn [c_entry] in Hq;
                    apply D4; lia))
    as (A2 & F2 & G2 & V2 & S2 & R2 & RS & _ & FB).
  split; [exact Sh2|]. split; [exact W2|].
  split; [exact A2|]. split; [exact F2|]. split; [exact D0|].
  split; [exact D1|]. split; [exact G2|]. split; [exact V2|].
  split; [exact S2|]. split; [exact R2|]. split; [exact RS|exact FB].
Qed.


(** * consolidate merges the empty entries *)

(** ** The walk *)

Lemma entries_loop_mono (f : nat) :
  forall d c e es f',
    entries_loop f d c e = Some es -> (f <= f')%nat ->
    entries_loop f' d c e = Some es.
Proof.
  induction f as [|f IH]; intros d c e es f' H Hf; [discriminate|].
  destruct f' as [|f']; [lia|]. cbn [entries_loop] in *.
  destruct (valid_entry (S f) d c) as [[b c1]|] eqn:V; [|discriminate].
  rewrite (valid_entry_mono _ _ _ _ (S f') V) by lia.
  destruct b; [|exact H].
  rewrite get_entry_step in *.
  destruct (entries_loop f d (step d c1) (peek_entry d c1 e)) as [es1|] eqn:E;
    [|discriminate].
  rewrite (IH _ _ _ _ f' E) by lia. exact H.
Qed.

Lemma entries_loop_S (f : nat) (d : directory_t) (c : cursor_t) (e : entry_t) :
  entries_loop (S f) d c e
  = match valid_entry (S f) d c with
    | None => None
    | Some (false, _) => Some []
    | Some (true, c1) =>
        option_map (cons (peek_entry d c1 e))
                   (entries_loop f d (step d c1) (peek_entry d c1 e))
    end.
Proof.
  cbn [entries_loop]. destruct (valid_entry (S f) d c) as [[[|] c1]|];
    try reflexivity.
  rewrite get_entry_step. reflexivity.
Qed.

Lemma e_length_nonneg (d : directory_t) (c : cursor_t) (old : entry_t) :
  0 <= e_length (peek_entry d c old).
Proof.
  rewrite e_length_peek.
  match goal with
  | |- 0 <= (if ?b then u16 ?u else u16 ?v) =>
      pose proof (u16_range u); pose proof (u16_range v); destruct b; lia
  end.
Qed.

Lemma entries_nonneg (f : nat) :
  forall d c e es,
    entries_loop f d c e = Some es ->
    Forall (fun r => 0 <= r_len r) (map row_of es).
Proof.
  induction f as [|f IH]; intros d c e es H; [discriminate|].
  cbn [entries_loop] in H.
  destruct (valid_entry (S f) d c) as [[[|] c1]|]; try discriminate.
  - rewrite get_entry_step in H.
    destruct (entries_loop f d (step d c1) (peek_entry d c1 e)) as [es1|] eqn:E;
      [|discriminate].
    injection H as <-. cbn [map]. constructor; [|apply (IH _ _ _ _ E)].
    apply e_length_nonneg.
  - injection H as <-. constructor.
Qed.

(** The ways of [valid_entry] to an entry. *)
Lemma valid_entry_cases (f : nat) :
  forall d c c1,
    ascending d -> valid_entry f d c = Some (true, c1) ->
    (c1 = c /\ overflowed_segment d c = false)
    \/ (overflowed_segment d c = true
        /\ c_dir_block c < c_dir_block c1 /\ c_file_number c1 = 1
        /\ reach d (seg_start d (c_dir_block c1)) c1
        /\ overflowed_segment d c1 = false).
Proof.
  induction f as [|f IH]; intros d c c1 Asc V; [discriminate|].
  cbn [valid_entry] in V.
  destruct (overflowed_segment d c) eqn:Ho.
  - right. split; [reflexivity|].
    destruct (next_segment d (c_dir_block c) =? 0) eqn:E0; [discriminate|].
    destruct (next_segment d (c_dir_block c) >? DIR_LENGTH); [discriminate|].
    assert (Hl : c_dir_block c < next_segment d (c_dir_block c) - 1).
    { destruct (Asc (c_dir_block c)); zbool; lia. }
    destruct (IH _ _ _ Asc V) as [[-> Ho1]|(Ho1 & Hd & Hf & Hg & Hv)].
    + cbn [c_dir_block c_file_number]. split; [exact Hl|].
      split; [reflexivity|]. split; [apply reach_here|exact Ho1].
    + cbn [c_dir_block] in Hd. split; [lia|]. auto.
  - left. injection V as <-. auto.
Qed.

(** ** What stays as it was *)

Lemma frame_refl (d : directory_t) (c : cursor_t) :
  words12 d -> reach d (seg_start d (c_dir_block c)) c -> frame c d d.
Proof.
  intros W Hg. unfold frame.
  destruct (grid_place d _ c W Hg) as (_ & _ & _ & H). auto 10.
Qed.

Lemma peek_entry_below (d d' : directory_t) (c : cursor_t) (old : entry_t)
  (E : Z) :
  words12 d ->
  (forall q, q < E -> q <> 0 -> q <> 3 ->
             word d' (c_dir_block c) q = word d (c_dir_block c) q) ->
  5 <= c_entry c ->
  c_entry c + entry_length d (peek_entry d c entry_zero) <= E ->
  peek_entry d' c old = peek_entry d c old /\ step d' c = step d c.
Proof.
  intros W D1 Hc Hend.
  pose proof (negate_count _ (word12_word d (c_dir_block c) 4 W)) as Hcn.
  fold (additional_words d (c_dir_block c)) in Hcn.
  destruct (file_entry_length_word12 d (c_dir_block c)
              (word12_word d (c_dir_block c) 4 W)) as [Eel _].
  pose proof (entry_length_nonneg d (peek_entry d c entry_zero)) as Hnn.
  assert (Ea : additional_words d' (c_dir_block c)
               = additional_words d (c_dir_block c)).
  { unfold additional_words. apply D1; lia. }
  assert (P : forall o, peek_entry d' c o = peek_entry d c o).
  { intros o. rewrite entry_length_peek in Hend.
    unfold peek_entry. rewrite Ea.
    pose proof (Z.eqb_spec (word d (c_dir_block c) (c_entry c)) 0) as Hz.
    unfold empty_entry_length in Hend.
    rewrite (D1 (c_entry c)) by (destruct Hz; lia).
    destruct Hz as [Hz|Hz]; cbv iota.
    - rewrite (D1 (c_entry c + 1)) by lia. reflexivity.
    - rewrite Eel in Hend.
      rewrite (u16_small (negate (additional_words d (c_dir_block c))))
        by lia.
      rewrite (D1 (c_entry c + 4 + negate (additional_words d (c_dir_block c))))
        by lia.
      f_equal.
      + unfold words_at. apply map_ext_in. intros x Hx. apply in_seq in Hx.
        apply D1; lia.
      + f_equal. unfold words_at. apply map_ext_in. intros x Hx.
        apply in_seq in Hx. apply D1; lia. }
  split; [apply P|].
  rewrite !step_fields, P. unfold entry_length, file_entry_length.
  rewrite dir_block_peek_entry, Ea. reflexivity.
Qed.

Lemma frame_step (d d' : directory_t) (c1 : cursor_t) :
  words12 d -> reach d (seg_start d (c_dir_block c1)) c1 ->
  overflowed_segment d c1 = false ->
  frame (step d c1) d d' ->
  frame c1 d d'
  /\ (forall old, peek_entry d' c1 old = peek_entry d c1 old)
  /\ step d' c1 = step d c1.
Proof.
  intros W Hg Ho (F1 & F2 & F3 & F4 & F5 & F6).
  destruct (grid_place d _ c1 W Hg) as (_ & Hp & Hf1 & _).
  pose proof (overflowed_count _ _ W Ho) as Hf2.
  pose proof (entry_length_nonneg d (peek_entry d c1 entry_zero)) as Hnn.
  rewrite step_fields in F1, F2, F3.
  cbn [c_dir_block c_entry c_file_number] in F1, F2, F3.
  rewrite u16_small in F3 by lia.
  assert (P : forall old,
             peek_entry d' c1 old = peek_entry d c1 old
             /\ step d' c1 = step d c1).
  { intros old. apply (peek_entry_below d d' c1 old _ W F2 Hp). lia. }
  split; [|split; [intros old; apply P|apply (P entry_zero)]].
  unfold frame. split; [exact F1|]. split; [intros q Hq; apply F2; lia|].
  split; [lia|]. split; [|auto].
  intros _. unfold overflowed_segment. rewrite Z.gtb_ltb. apply Z.ltb_ge. lia.
Qed.

Lemma valid_entry_frame (d d' : directory_t) (c1 : cursor_t) (f : nat) :
  ascending d -> frame c1 d d' -> overflowed_segment d c1 = false ->
  forall c,
    valid_entry f d c = Some (true, c1) ->
    valid_entry f d' c = Some (true, c1).
Proof.
  intros Asc (F1 & F2 & F3 & F4 & F5 & F6) Ho1.
  induction f as [|f IH]; intros c V; [discriminate|].
  destruct (valid_entry_cases _ _ _ _ Asc V) as [[-> Ho]|(Ho & Hd & _)].
  - cbn [valid_entry]. rewrite (F4 Ho). reflexivity.
  - cbn [valid_entry] in *. rewrite Ho in V.
    rewrite (overflowed_same_seg d d' c (F1 _ Hd)), Ho, F6, F5.
    destruct (next_segment d (c_dir_block c) =? 0); [discriminate|].
    destruct (next_segment d (c_dir_block c) >? DIR_LENGTH); [discriminate|].
    apply IH, V.
Qed.

Lemma frame_pre (f : nat) (d d' : directory_t) (c c1 : cursor_t) :
  words12 d -> ascending d -> reach d (seg_start d (c_dir_block c)) c ->
  valid_entry f d c = Some (true, c1) -> frame c1 d d' ->
  frame c d d' /\ valid_entry f d' c = Some (true, c1).
Proof.
  intros W Asc Hg V F.
  assert (Ho1 : overflowed_segment d c1 = false)
    by (eapply valid_entry_true; exact V).
  split; [|apply (valid_entry_frame d d' c1 f Asc F Ho1 c V)].
  destruct (valid_entry_cases _ _ _ _ Asc V) as [[-> Ho]|(Ho & Hd & _)];
    [exact F|].
  destruct F as (F1 & F2 & F3 & F4 & F5 & F6).
  destruct (grid_place d _ c W Hg) as (_ & _ & _ & Hc).
  unfold frame. split; [intros j Hj; apply F1; lia|].
  split; [intros q _ _ _; unfold word; rewrite (F1 _ Hd); reflexivity|].
  split; [unfold number_files, word; rewrite (F1 _ Hd); exact Hc|].
  split; [rewrite Ho; discriminate|auto].
Qed.

Lemma frame_after (d d2 d' : directory_t) (c1 : cursor_t) :
  (forall j, j <> c_dir_block c1 -> seg d2 j = seg d j) ->
  (forall q, q < c_entry c1 -> q <> 0 -> q <> 3 ->
             word d2 (c_dir_block c1) q = word d (c_dir_block c1) q) ->
  (forall j, first_file_block d2 j = first_file_block d j
             /\ next_segment d2 j = next_segment d j) ->
  overflowed_segment d2 c1 = false ->
  frame c1 d2 d' -> frame c1 d d'.
Proof.
  intros D0 D1 FB V2 (F1 & F2 & F3 & F4 & F5 & F6).
  unfold frame. split; [intros j Hj; rewrite F1 by exact Hj; apply D0; lia|].
  split; [intros q Hq H0 H3; rewrite F2 by assumption; apply D1; assumption|].
  split; [exact F3|]. split; [intros _; apply F4, V2|].
  split; intros j; [rewrite F5|rewrite F6]; apply FB.
Qed.

(** ** Merging rows *)

Lemma merge_rows_head (r : row) (rs : list row) :
  exists r' rs',
    merge_rows (r :: rs) = r' :: rs'
    /\ r_first r' = r_first r /\ r_empty r' = r_empty r.
Proof.
  cbn [merge_rows]. unfold merge_row.
  destruct (merge_rows rs) as [|r1 rs1]; [eauto|].
  destruct (r_empty r && r_empty r1 && negb (r_first r1)) eqn:E; [|eauto].
  eexists _, _. split; [reflexivity|]. cbn [r_first r_empty].
  split; [reflexivity|].
  apply andb_true_iff in E as [E _]. apply andb_true_iff in E as [E _].
  symmetry. exact E.
Qed.

(** An entry that does not merge with the next one. *)
Lemma merge_rows_keep (r : row) (rs : list row) :
  r_empty r = false
  \/ match rs with
     | [] => True
     | r1 :: _ => r_empty r1 = false \/ r_first r1 = true
     end ->
  merge_rows (r :: rs) = r :: merge_rows rs.
Proof.
  intros H. cbn [merge_rows]. unfold merge_row.
  destruct rs as [|r1 rs]; [reflexivity|].
  destruct (merge_rows_head r1 rs) as (r1' & rs' & -> & Hf & He).
  rewrite Hf, He.
  destruct H as [->|[->| ->]]; [reflexivity| |];
    rewrite ?andb_false_r; reflexivity.
Qed.

(** Two empty entries of a segment as one. *)
Lemma merge_rows_two (x y : row) (rs : list row) :
  r_empty x = true -> r_empty y = true -> r_first y = false ->
  merge_rows (x :: y :: rs)
  = merge_rows (mk_row (r_first x) (r_seg x) true [] (r_block x)
                       (r_len x + r_len y) :: rs).
Proof.
  intros Hx Hy Hf. cbn [merge_rows]. unfold merge_row at 2 3.
  rewrite Hy. cbn [r_empty andb].
  destruct (merge_rows rs) as [|r1 rs1].
  - cbn [merge_row]. rewrite Hx, Hy, Hf. reflexivity.
  - destruct (r_empty r1 && negb (r_first r1)) eqn:E.
    + cbn [merge_row r_empty r_first r_len r_seg r_block].
      rewrite Hx, Hf. cbn [andb negb]. rewrite Z.add_assoc. reflexivity.
    + cbn [merge_row r_empty r_first r_len r_seg r_block].
      rewrite Hx, Hy, Hf. reflexivity.
Qed.

Lemma total_length_cons (r : row) (rs : list row) :
  total_length (r :: rs) = r_len r + total_length rs.
Proof. reflexivity. Qed.

Lemma total_length_nonneg (rs : list row) :
  Forall (fun r => 0 <= r_len r) rs -> 0 <= total_length rs.
Proof.
  induction 1 as [|r rs Hr _ IH]; [cbn; lia|].
  rewrite total_length_cons. lia.
Qed.

(** ** The loop of [consolidate] *)

Lemma restore_at (d : directory_t) (c c' : cursor_t) (old : entry_t) (l : Z) :
  restore_cursor c' (set_length (peek_entry d c old) l) = c.
Proof.
  unfold restore_cursor. cbn [set_length file_number file_block entry dir_block].
  rewrite dir_block_peek_entry.
  destruct (place_peek d c old) as (-> & -> & ->). destruct c. reflexivity.
Qed.

Lemma no_zero_cons (r : row) (rs : list row) :
  no_zero_empty (r :: rs) = true ->
  (r_empty r = true -> r_len r <> 0) /\ no_zero_empty rs = true.
Proof.
  cbn [no_zero_empty forallb]. intros H. apply andb_true_iff in H as [H1 H2].
  split; [|exact H2]. intros He Hl. rewrite He, Hl in H1. discriminate.
Qed.

Lemma consolidate_rows (f : nat) :
  forall d c e ne e0 es,
    shape d -> words12 d -> ascending d -> fits d ->
    reach d (seg_start d (c_dir_block c)) c ->
    entries_loop f d c e0 = Some es ->
    no_zero_empty (map row_of es) = true ->
    total_length (map row_of es) < 4096 ->
    exists d' es',
      consolidate_loop f d c e ne = Some d'
      /\ entries_loop f d' c e0 = Some es'
      /\ map row_of es' = merge_rows (map row_of es)
      /\ frame c d d'.
Proof.
  induction f as [|f IH]; intros d c e ne e0 es Sh W Asc Hfits Hg E NZ TL;
    [discriminate|].
  cbn [entries_loop] in E. cbn [consolidate_loop].
  destruct (valid_entry (S f) d c) as [[b c1]|] eqn:V; [|discriminate].
  destruct b.
  2:{ injection E as <-. exists d, []. split; [reflexivity|].
      split; [cbn [entries_loop]; rewrite V; reflexivity|].
      split; [reflexivity|apply frame_refl; assumption]. }
  pose proof (valid_entry_true _ _ _ _ V) as Ho1.
  pose proof (valid_entry_grid d _ _ _ V Hg) as Hg1.
  destruct (grid_place d _ c1 W Hg1) as (_ & _ & Hf1 & _).
  pose proof (overflowed_count _ _ W Ho1) as Hf2.
  rewrite get_entry_step in E.
  destruct (entries_loop f d (step d c1) (peek_entry d c1 e0)) as [rest|] eqn:E1;
    [|discriminate].
  cbn [option_map] in E. injection E as <-.
  cbn [map] in NZ, TL |- *.
  apply no_zero_cons in NZ as [NZx NZr].
  rewrite total_length_cons in TL.
  pose proof (entries_nonneg _ _ _ _ _ E1) as NNr.
  pose proof (total_length_nonneg _ NNr) as TLr.
  rewrite row_of_peek in NZx, TL. cbn [r_empty r_len] in NZx, TL.
  pose proof (e_length_nonneg d c1 entry_zero) as NNx.
  assert (Hadv :
            merge_rows (row_of (peek_entry d c1 e0) :: map row_of rest)
            = row_of (peek_entry d c1 e0) :: merge_rows (map row_of rest) ->
            exists d' es',
              consolidate_loop f d (step d c1) (peek_entry d c1 e)
                               (peek_entry d (step d c1) ne) = Some d'
              /\ entries_loop (S f) d' c e0 = Some es'
              /\ map row_of es'
                 = merge_rows (row_of (peek_entry d c1 e0) :: map row_of rest)
              /\ frame c d d').
  { intros Hkeep.
    destruct (IH d (step d c1) (peek_entry d c1 e)
                 (peek_entry d (step d c1) ne) (peek_entry d c1 e0) rest
                 Sh W Asc Hfits (reach_snoc d _ c1 Hg1 Ho1) E1 NZr
                 ltac:(lia)) as (d' & es1 & C & E' & R & F).
    destruct (frame_step d d' c1 W Hg1 Ho1 F) as (F1 & P & St).
    destruct (frame_pre (S f) d d' c c1 W Asc Hg V F1) as (F0 & V').
    exists d', (peek_entry d c1 e0 :: es1).
    split; [exact C|]. split; [|split; [|exact F0]].
    - cbn [entries_loop]. rewrite V', get_entry_step, P, St, E'. reflexivity.
    - cbn [map]. rewrite R, Hkeep. reflexivity. }
  unfold consolidate_body. rewrite get_entry_step.
  rewrite (empty_file_peek d c1 e).
  destruct (word d (c_dir_block c1) (c_entry c1) =? 0) eqn:Ex.
  2:{ apply Hadv. apply merge_rows_keep. left.
      rewrite row_of_peek, Ex. reflexivity. }
  assert (Exe : forall o, empty_file (peek_entry d c1 o) = true)
    by (intros o; rewrite empty_file_peek; exact Ex).
  assert (Ele : forall o, e_length (peek_entry d c1 o)
                          = e_length (peek_entry d c1 entry_zero))
    by (intros o; rewrite !e_length_peek; reflexivity).
  rewrite (Ele e).
  destruct (e_length (peek_entry d c1 entry_zero) =? 0) eqn:El0.
  { exfalso. apply (NZx eq_refl). apply Z.eqb_eq, El0. }
  apply Z.eqb_neq in El0.
  destruct (negb (overflowed_segment d (step d c1))
            && empty_file (peek_entry d (step d c1) ne)) eqn:Em.
  2:{ apply Hadv. apply merge_rows_keep. right.
      destruct f as [|f']; [discriminate|].
      cbn [entries_loop] in E1.
      destruct (valid_entry (S f') d (step d c1)) as [[[|] c3]|] eqn:V3;
        try discriminate.
      - rewrite get_entry_step in E1.
        destruct (entries_loop f' d (step d c3)
                    (peek_entry d c3 (peek_entry d c1 e0))) as [rest3|];
          [|discriminate].
        injection E1 as <-. cbn [map]. rewrite row_of_peek.
        cbn [r_empty r_first].
        destruct (valid_entry_cases _ _ _ _ Asc V3) as [[-> Ho3]|(_ & _ & -> & _)].
        + left. rewrite Ho3 in Em. cbn [negb andb] in Em.
          rewrite empty_file_peek in Em. exact Em.
        + right. reflexivity.
      - injection E1 as <-. exact I. }
  apply andb_true_iff in Em as [Ho2 Ey]. apply negb_true_iff in Ho2.
  destruct f as [|f']; [discriminate|].
  cbn [entries_loop] in E1.
  rewrite (valid_entry_here f' d (step d c1) Ho2), get_entry_step in E1.
  destruct (entries_loop f' d (step d (step d c1))
              (peek_entry d (step d c1) (peek_entry d c1 e0)))
    as [rest2|] eqn:E2; [|discriminate].
  injection E1 as <-.
  cbn [map] in NZr, NNr, TLr, TL.
  apply no_zero_cons in NZr as [_ NZ2].
  rewrite total_length_cons in TLr, TL.
  inversion NNr as [|? ? NNy NN2]; subst.
  pose proof (total_length_nonneg _ NN2) as TL2.
  rewrite row_of_peek in NNy, TL. cbn [r_len] in NNy, TL.
  assert (Ely : forall o, e_length (peek_entry d (step d c1) o)
                          = e_length (peek_entry d (step d c1) entry_zero))
    by (intros o; rewrite !e_length_peek; reflexivity).
  assert (Hsum : e_length (peek_entry d c1 e)
                 + e_length (peek_entry d (step d c1) ne) < 4096)
    by (rewrite (Ele e), (Ely ne); lia).
  destruct (merged_facts d c1 e ne Sh W Asc Hfits Hg1 Ho1 Ho2 (Exe e) Ey Hsum)
    as (Sh2 & W2 & A2 & F2 & D0 & D1 & Dc & G2 & R2 & RA & FB & V2).
  rewrite (Ele e), (Ely ne) in *.
  rewrite restore_at.
  match type of Sh2 with
  | shape ?t => set (d2 := t) in *
  end.
  destruct (RA f' _ e0 rest2 E2) as (rest2' & E3 & R3).
  destruct (IH d2 c1
              (set_length (peek_entry d c1 e)
                 (u16 (e_length (peek_entry d c1 entry_zero)
                       + e_length (peek_entry d (step d c1) entry_zero))))
              (peek_entry d (step d c1) ne) e0
              (peek_entry d2 c1 e0 :: rest2') Sh2 W2 A2 F2 G2 E3)
    as (d' & es' & C & E' & R & F).
  { cbn [map no_zero_empty forallb]. rewrite R2, R3. cbn [r_empty r_len andb].
    fold (no_zero_empty (map row_of rest2)). rewrite NZ2, andb_true_r.
    apply negb_true_iff, Z.eqb_neq. lia. }
  { cbn [map]. rewrite total_length_cons, R2, R3. cbn [r_len]. lia. }
  destruct (frame_pre (S (S f')) d d' c c1 W Asc Hg V
              (frame_after d d2 d' c1 D0 D1 FB V2 F)) as (F0 & V').
  exists d', es'. split; [exact C|]. split; [|split; [|exact F0]].
  - rewrite entries_loop_S, V'. rewrite entries_loop_S in E'.
    assert (V1 : overflowed_segment d' c1 = false) by (apply F, V2).
    rewrite (valid_entry_here f' d' c1 V1) in E'.
    destruct (entries_loop f' d' (step d' c1) (peek_entry d' c1 e0))
      as [tl|] eqn:Et; [|discriminate].
    rewrite (entries_loop_mono _ _ _ _ _ (S f') Et) by lia. exact E'.
  - rewrite R. cbn [map]. rewrite R2, R3.
    rewrite (merge_rows_two (row_of (peek_entry d c1 e0))
               (row_of (peek_entry d (step d c1) (peek_entry d c1 e0)))).
    + rewrite !row_of_peek. cbn [r_first r_seg r_block r_len]. reflexivity.
    + rewrite row_of_peek, Ex. reflexivity.
    + rewrite row_of_peek. cbn [r_empty].
      rewrite empty_file_peek in Ey. exact Ey.
    + rewrite row_of_peek. cbn [r_first]. rewrite step_fields.
      cbn [c_file_number]. rewrite u16_small by lia.
      apply Z.eqb_neq. lia.
Qed.

(** ** The tests on the directory *)

Lemma ascendingb_spec (d : directory_t) :
  shape d -> ascendingb d = true -> ascending d.
Proof.
  intros [L _] H j. unfold ascendingb in H. cbn [forallb] in H.
  rewrite !andb_true_iff in H.
  destruct H as (H0 & H1 & H2 & H3 & H4 & H5 & _).
  assert (P : forall i, (next_segment d i =? 0) || (i + 1 <? next_segment d i)
                        = true ->
                        next_segment d i = 0 \/ i + 1 < next_segment d i).
  { intros i Hi. apply orb_true_iff in Hi as [Hi|Hi]; zbool; auto. }
  destruct (Z.eq_dec j 0) as [->|N0]; [apply P, H0|].
  destruct (Z.eq_dec j 1) as [->|N1]; [apply P, H1|].
  destruct (Z.eq_dec j 2) as [->|N2]; [apply P, H2|].
  destruct (Z.eq_dec j 3) as [->|N3]; [apply P, H3|].
  destruct (Z.eq_dec j 4) as [->|N4]; [apply P, H4|].
  destruct (Z.eq_dec j 5) as [->|N5]; [apply P, H5|].
  left. unfold next_segment, word.
  rewrite seg_outside by (rewrite L; cbn; lia). reflexivity.
Qed.

Lemma fitsb_spec (d : directory_t) :
  shape d -> words12 d -> fitsb d = true -> fits d.
Proof.
  intros [L _] W H i x R Ho. unfold fitsb in H. cbn [forallb] in H.
  rewrite !andb_true_iff in H.
  destruct H as (H0 & H1 & H2 & H3 & H4 & H5 & _).
  destruct (grid_place d i x W R) as (Hd & _ & Hf & _).
  assert (P : (number_files d i =? 0)
              || match get_unused_ptr d i 0 with
                 | Some (Some _) => true
                 | _ => false
                 end = true ->
              c_entry x + entry_length d (peek_entry d x entry_zero) <= 256).
  { intros Hi. apply orb_true_iff in Hi as [Hi|Hi].
    - exfalso. zbool. unfold overflowed_segment in Ho.
      rewrite Hd, Hi in Ho. change (negate 0) with 0 in Ho. zbool. lia.
    - destruct (get_unused_ptr d i 0) as [[ptr|]|] eqn:E; try discriminate.
      destruct (unused_ptr_tiles d i 0 ptr x W E R Ho) as [A B].
      unfold OS8_BLOCK_SIZE in B. lia. }
  destruct (Z.eq_dec i 0) as [->|N0]; [apply P, H0|].
  destruct (Z.eq_dec i 1) as [->|N1]; [apply P, H1|].
  destruct (Z.eq_dec i 2) as [->|N2]; [apply P, H2|].
  destruct (Z.eq_dec i 3) as [->|N3]; [apply P, H3|].
  destruct (Z.eq_dec i 4) as [->|N4]; [apply P, H4|].
  destruct (Z.eq_dec i 5) as [->|N5]; [apply P, H5|].
  apply P. unfold number_files, word.
  rewrite seg_outside by (rewrite L; cbn; lia). reflexivity.
Qed.

(** X19 (consolidate).  Take a directory of six segments of 256 twelve-bit
    words in which the entries of every segment end inside the block and
    every segment links to a later one, whose listing has no empty entry of
    length 0 and lengths that sum to less than 4096 blocks.  Then
    [consolidate] returns, and the listing of the directory it leaves is
    the old listing with every run of adjacent empty entries of one segment
    merged into one empty entry: the first block of the run, the sum of the
    lengths.  Files keep their names, first blocks and lengths, and empty
    entries of different segments are not merged. *)
Theorem consolidate_merges_empty_entries (fuel : nat) (d : directory_t)
  (es : list entry_t) :
  shapeb d = true -> words12b d = true ->
  fitsb d = true -> ascendingb d = true ->
  directory_entries fuel d = Some es ->
  no_zero_empty (map row_of es) = true ->
  total_length (map row_of es) < 4096 ->
  exists d' es',
    consolidate fuel d = Some d'
    /\ directory_entries fuel d' = Some es'
    /\ map row_of es' = merge_rows (map row_of es).
Proof.
  intros Sb Wb Fb Ab E NZ TL.
  pose proof (shapeb_spec d Sb) as Sh. pose proof (words12b_spec d Wb) as W.
  pose proof (ascendingb_spec d Sh Ab) as Asc.
  pose proof (fitsb_spec d Sh W Fb) as Hfits.
  unfold directory_entries, consolidate in *.
  destruct (consolidate_rows fuel d (init_cursor d) entry_zero entry_zero
              entry_zero es Sh W Asc Hfits (reach_here d _) E NZ TL)
    as (d' & es' & C & E' & R & F).
  exists d', es'. split; [exact C|]. split; [|exact R].
  destruct F as (_ & _ & _ & _ & F5 & _).
  unfold init_cursor in *. rewrite F5. exact E'.
Qed.

Lemma consolidate_merges_empty_entries_witness :
  exists d' es',
    consolidate 10 adjacent_directory = Some d'
    /\ directory_entries 10 d' = Some es'
    /\ map row_of es' = merge_rows (map row_of adjacent_listing).
Proof.
  apply (consolidate_merges_empty_entries 10 adjacent_directory
           adjacent_listing); reflexivity.
Defined.

(** The listing of [adjacent_directory] before and after [consolidate], as
    (empty, first block, length). *)
Example consolidate_merges_sample :
  map (fun e => (empty_file e, file_block e, e_length e)) adjacent_listing
  = [(false, 7, 3); (true, 10, 5); (true, 15, 2); (false, 17, 2);
     (true, 19, 1452)]
  /\ option_map (map (fun e => (empty_file e, file_block e, e_length e)))
       (match consolidate 10 adjacent_directory with
        | Some d' => directory_entries 10 d'
        | None => None
        end)
     = Some [(false, 7, 3); (true, 10, 7); (false, 17, 2); (true, 19, 1452)].
Proof. split; vm_compute; reflexivity. Qed.


(** * delete_os8_files *)

(** ** Rows *)

Lemma row_matches_peek (p : pattern_t) (d : directory_t) (c : cursor_t)
  (old old' : entry_t) :
  negb (empty_file (peek_entry d c old))
  && negb (e_length (peek_entry d c old) =? 0)
  && pattern_match_p (name (peek_entry d c old)) p
  = row_matches p (row_of (peek_entry d c old')).
Proof.
  fold (file_matches p (peek_entry d c old)).
  rewrite (file_matches_peek d c p old old').
  unfold file_matches, row_matches, row_of. cbn [r_empty r_len r_name].
  destruct (empty_file (peek_entry d c old')); reflexivity.
Qed.

Lemma delete_row_total (p : pattern_t) (rs : list row) :
  total_length (map (delete_row p) rs) = total_length rs.
Proof.
  induction rs as [|r rs IH]; [reflexivity|].
  cbn [map]. rewrite !total_length_cons, IH. f_equal.
  unfold delete_row. destruct (row_matches p r); reflexivity.
Qed.

Lemma delete_row_no_zero (p : pattern_t) (rs : list row) :
  no_zero_empty rs = true -> no_zero_empty (map (delete_row p) rs) = true.
Proof.
  induction rs as [|r rs IH]; [reflexivity|].
  cbn [map no_zero_empty forallb]. intros H.
  apply andb_true_iff in H as [H1 H2].
  fold (no_zero_empty (map (delete_row p) rs)). rewrite (IH H2), andb_true_r.
  unfold delete_row. destruct (row_matches p r) eqn:M; [|exact H1].
  cbn [r_empty r_len]. unfold row_matches in M.
  apply andb_true_iff in M as [M _]. apply andb_true_iff in M as [_ M].
  cbn [andb]. exact M.
Qed.

Lemma delete_rows_total (args : list string) :
  forall rs, total_length (delete_rows args rs) = total_length rs.
Proof.
  induction args as [|a args IH]; intros rs; [reflexivity|].
  unfold delete_rows in *. cbn [fold_left]. rewrite IH.
  apply delete_row_total.
Qed.

Lemma delete_rows_no_zero (args : list string) :
  forall rs, no_zero_empty rs = true ->
             no_zero_empty (delete_rows args rs) = true.
Proof.
  induction args as [|a args IH]; intros rs H; [exact H|].
  unfold delete_rows in *. cbn [fold_left]. apply IH.
  apply delete_row_no_zero, H.
Qed.

Lemma count_matches (p : pattern_t) (args : list string) (rs : list row) :
  (length (filter (row_matches p) rs)
   + length (filter (any_matches args) (map (delete_row p) rs)))%nat
  = length (filter (fun r => row_matches p r || any_matches args r) rs).
Proof.
  induction rs as [|r rs IH]; [reflexivity|].
  cbn [map filter]. unfold delete_row at 1.
  destruct (row_matches p r) eqn:M; cbn [orb].
  - assert (A : any_matches args
                  (mk_row (r_first r) (r_seg r) true [] (r_block r) (r_len r))
                = false).
    { unfold any_matches. clear IH. induction args as [|a args IHa];
        [reflexivity|].
      cbn [existsb]. rewrite IHa. unfold row_matches. cbn [r_empty].
      reflexivity. }
    rewrite A. cbn [length]. rewrite <- IH. lia.
  - destruct (any_matches args r); cbn [length]; rewrite <- IH; lia.
Qed.

(** ** The loop for one argument *)

Lemma delete_rows_loop (p : pattern_t) (f : nat) :
  forall d c e e0 es answers n,
    shape d -> words12 d -> ascending d -> fits d ->
    reach d (seg_start d (c_dir_block c)) c ->
    entries_loop f d c e0 = Some es ->
    exists d' es',
      delete_loop f true p d c e answers n
      = Some (d', answers,
              n + Z.of_nat (length (filter (row_matches p) (map row_of es))))
      /\ entries_loop f d' c e0 = Some es'
      /\ map row_of es' = map (delete_row p) (map row_of es)
      /\ shape d' /\ words12 d' /\ ascending d' /\ fits d'
      /\ frame c d d'.
Proof.
  induction f as [|f IH]; intros d c e e0 es answers n Sh W Asc Hfits Hg E;
    [discriminate|].
  rewrite entries_loop_S in E. cbn [delete_loop].
  destruct (valid_entry (S f) d c) as [[b c1]|] eqn:V; [|discriminate].
  destruct b.
  2:{ injection E as <-. exists d, []. cbn [map filter length].
      rewrite Z.add_0_r. split; [reflexivity|].
      split; [rewrite entries_loop_S, V; reflexivity|].
      split; [reflexivity|]. repeat (split; [assumption|]).
      apply frame_refl; assumption. }
  pose proof (valid_entry_true _ _ _ _ V) as Ho1.
  pose proof (valid_entry_grid d _ _ _ V Hg) as Hg1.
  destruct (grid_place d _ c1 W Hg1) as (_ & _ & Hf1 & _).
  pose proof (overflowed_count _ _ W Ho1) as Hf2.
  destruct (entries_loop f d (step d c1) (peek_entry d c1 e0)) as [rest|] eqn:E1;
    [|discriminate].
  cbn [option_map] in E. injection E as <-.
  rewrite (row_matches_peek p d c1 e e0).
  cbn [map filter].
  destruct (row_matches p (row_of (peek_entry d c1 e0))) eqn:M.
  - (* the file is deleted *)
    assert (Ex : empty_file (peek_entry d c1 e) = false).
    { unfold row_matches in M. rewrite row_of_peek in M. cbn [r_empty] in M.
      rewrite empty_file_peek.
      destruct (word d (c_dir_block c1) (c_entry c1) =? 0);
        [discriminate|reflexivity]. }
    destruct (deleted_facts d c1 e Sh W Asc Hfits Hg1 Ho1 Ex)
      as (Sh2 & W2 & A2 & F2 & D0 & D1 & G2 & V2 & S2 & R2 & RS & FB).
    change (delete_entry d (peek_entry d c1 e))
      with (fst (delete_entry d (peek_entry d c1 e)),
            set_empty (peek_entry d c1 e)).
    cbv beta iota.
    match type of Sh2 with
    | shape ?t => set (d2 := t) in *
    end.
    assert (Ea : advance_cursor d2 c1 (set_empty (peek_entry d c1 e))
                 = step d2 c1).
    { rewrite step_fields. unfold advance_cursor.
      pose proof (R2 entry_zero) as Rz. unfold row_of in Rz.
      injection Rz as _ _ Ee _ _ El.
      unfold entry_length. rewrite Ee. cbn [set_empty empty_file e_length].
      rewrite El. reflexivity. }
    rewrite Ea.
    destruct (RS f (step d c1) (peek_entry d c1 e0) (peek_entry d2 c1 e0) rest
                (reach_here d _) E1) as (rest' & E2 & R3).
    rewrite <- S2 in E2.
    assert (G3 : reach d2 (seg_start d2 (c_dir_block (step d2 c1)))
                       (step d2 c1)).
    { rewrite step_fields. cbn [c_dir_block]. rewrite <- step_fields.
      apply reach_snoc; assumption. }
    destruct (IH d2 (step d2 c1) (set_empty (peek_entry d c1 e))
                (peek_entry d2 c1 e0) rest' answers (n + 1)
                Sh2 W2 A2 F2 G3 E2)
      as (d' & es1 & C & E' & R & Sh' & W' & A' & F' & F).
    destruct (frame_step d2 d' c1 W2 G2 V2 F) as (F1 & P & St).
    assert (F1' : frame c1 d d').
    { apply (frame_after d d2 d' c1 D0); try assumption.
      intros q Hq _ H3. apply D1; assumption. }
    destruct (frame_pre (S f) d d' c c1 W Asc Hg V F1') as (F0 & V').
    exists d', (peek_entry d2 c1 e0 :: es1).
    split; [|split; [|split; [|auto 10]]].
    + rewrite C, R3. cbn [length]. do 2 f_equal. lia.
    + rewrite entries_loop_S, V', P, St, E'. reflexivity.
    + cbn [map]. rewrite R, R3, R2. f_equal.
      unfold delete_row. rewrite M. rewrite row_of_peek.
      cbn [r_first r_seg r_block r_len].
      rewrite (e_length_peek d c1 e), (e_length_peek d c1 entry_zero).
      reflexivity.
  - (* the entry stays *)
    assert (Ea : advance_cursor d c1 (peek_entry d c1 e) = step d c1).
    { pose proof (get_entry_step d c1 e) as G. unfold get_entry in G.
      exact (f_equal fst G). }
    rewrite Ea.
    destruct (IH d (step d c1) (peek_entry d c1 e) (peek_entry d c1 e0) rest
                answers n Sh W Asc Hfits (reach_snoc d _ c1 Hg1 Ho1) E1)
      as (d' & es1 & C & E' & R & Sh' & W' & A' & F' & F).
    destruct (frame_step d d' c1 W Hg1 Ho1 F) as (F1 & P & St).
    destruct (frame_pre (S f) d d' c c1 W Asc Hg V F1) as (F0 & V').
    exists d', (peek_entry d c1 e0 :: es1).
    split; [exact C|]. split; [|split; [|auto 10]].
    + rewrite entries_loop_S, V', P, St, E'. reflexivity.
    + cbn [map]. rewrite R. f_equal. unfold delete_row. rewrite M.
      reflexivity.
Qed.

(** ** The loop over the arguments *)

Lemma delete_args_rows (f : nat) (args : list string) :
  forall d es answers n,
    shape d -> words12 d -> ascending d -> fits d ->
    directory_entries f d = Some es ->
    exists d' es',
      delete_args f true args d answers n
      = Some (d', answers,
              n + Z.of_nat (length (filter (any_matches args)
                                           (map row_of es))))
      /\ directory_entries f d' = Some es'
      /\ map row_of es' = delete_rows args (map row_of es)
      /\ shape d' /\ words12 d' /\ ascending d' /\ fits d'.
Proof.
  induction args as [|a args IH]; intros d es answers n Sh W Asc Hfits E.
  - exists d, es. cbn [delete_args].
    assert (N : filter (any_matches []) (map row_of es) = [])
      by (induction (map row_of es); [reflexivity|assumption]).
    rewrite N. cbn [length Z.of_nat]. rewrite Z.add_0_r. auto 10.
  - cbn [delete_args]. unfold directory_entries in E.
    destruct (delete_rows_loop (build_pattern (strip_device a)) f d
                (init_cursor d) entry_zero entry_zero es answers n
                Sh W Asc Hfits (reach_here d _) E)
      as (d1 & es1 & C & E1 & R1 & Sh1 & W1 & A1 & F1 & F).
    rewrite C.
    assert (E1' : directory_entries f d1 = Some es1).
    { destruct F as (_ & _ & _ & _ & F5 & _).
      unfold directory_entries, init_cursor in *. rewrite F5. exact E1. }
    destruct (IH d1 es1 answers
                (n + Z.of_nat (length (filter
                   (row_matches (build_pattern (strip_device a)))
                   (map row_of es))))
                Sh1 W1 A1 F1 E1')
      as (d' & es' & C' & E' & R' & Good).
    exists d', es'. split; [|split; [exact E'|split; [|exact Good]]].
    + rewrite C', R1. do 2 f_equal. rewrite <- Z.add_assoc, <- Nat2Z.inj_add.
      rewrite count_matches. reflexivity.
    + rewrite R', R1. reflexivity.
Qed.

(** X20 (delete_os8_files, quiet mode).  Take a directory as for
    [consolidate]: six segments of 256 twelve-bit words, the entries of
    every segment ending inside the block, every segment linking to a later
    one, no empty entry of length 0 in the listing and lengths that sum to
    less than 4096 blocks.  Then [delete_os8_files] with [quiet_p] set
    returns true without reading an answer; the count it prints is the
    number of files of the old listing that one of the arguments matches;
    and the listing of the directory it leaves is the old one with, for
    each argument in turn, every matching file of length other than 0
    turned into an empty entry of the same first block and length, and
    then every run of adjacent empty entries of one segment merged. *)
Theorem delete_os8_files_quiet (fuel : nat) (args : list string)
  (d : directory_t) (es : list entry_t) (answers : list bool) :
  shapeb d = true -> words12b d = true ->
  fitsb d = true -> ascendingb d = true ->
  directory_entries fuel d = Some es ->
  no_zero_empty (map row_of es) = true ->
  total_length (map row_of es) < 4096 ->
  exists d' es',
    delete_os8_files fuel args true d answers
    = Some (true, d',
            Z.of_nat (length (filter (any_matches args) (map row_of es))))
    /\ directory_entries fuel d' = Some es'
    /\ map row_of es' = merge_rows (delete_rows args (map row_of es)).
Proof.
  intros Sb Wb Fb Ab E NZ TL.
  pose proof (shapeb_spec d Sb) as Sh. pose proof (words12b_spec d Wb) as W.
  pose proof (ascendingb_spec d Sh Ab) as Asc.
  pose proof (fitsb_spec d Sh W Fb) as Hfits.
  destruct (delete_args_rows fuel args d es answers 0 Sh W Asc Hfits E)
    as (d1 & es1 & C1 & E1 & R1 & Sh1 & W1 & A1 & F1).
  unfold delete_os8_files. rewrite C1. rewrite Z.add_0_l.
  unfold directory_entries, consolidate in *.
  assert (NZ1 : no_zero_empty (map row_of es1) = true)
    by (rewrite R1; apply delete_rows_no_zero, NZ).
  assert (TL1 : total_length (map row_of es1) < 4096)
    by (rewrite R1, delete_rows_total; exact TL).
  destruct (consolidate_rows fuel d1 (init_cursor d1) entry_zero entry_zero
              entry_zero es1 Sh1 W1 A1 F1 (reach_here d1 _) E1 NZ1 TL1)
    as (d' & es' & C & E' & R & F).
  exists d', es'. rewrite C. split; [reflexivity|].
  split; [|rewrite R, R1; reflexivity].
  destruct F as (_ & _ & _ & _ & F5 & _).
  unfold init_cursor in *. rewrite F5. exact E'.
Qed.

Lemma delete_os8_files_quiet_witness :
  exists d' es',
    delete_os8_files 10 ["A"%string; "os8:b"%string] true adjacent_directory []
    = Some (true, d',
            Z.of_nat (length (filter
                                (any_matches ["A"%string; "os8:b"%string])
                                (map row_of adjacent_listing))))
    /\ directory_entries 10 d' = Some es'
    /\ map row_of es'
       = merge_rows (delete_rows ["A"%string; "os8:b"%string]
                       (map row_of adjacent_listing)).
Proof.
  apply (delete_os8_files_quiet 10 ["A"%string; "os8:b"%string]
           adjacent_directory adjacent_listing []); reflexivity.
Defined.

(** On the sample, deleting A and B leaves one empty entry of 1464 blocks
    from block 7; deleting A alone leaves an empty entry of 10 blocks, B
    and the last empty entry. *)
Example delete_os8_files_sample :
  option_map (fun r => (snd r,
                option_map (map (fun e => (empty_file e, file_block e,
                                           e_length e)))
                           (directory_entries 10 (snd (fst r)))))
    (delete_os8_files 10 ["A"%string; "os8:b"%string] true
       adjacent_directory [])
  = Some (2, Some [(true, 7, 1464)])
  /\ option_map (fun r => (snd r,
                option_map (map (fun e => (empty_file e, file_block e,
                                           e_length e)))
                           (directory_entries 10 (snd (fst r)))))
    (delete_os8_files 10 ["a"%string] true adjacent_directory [])
  = Some (1, Some [(true, 7, 10); (false, 17, 2); (true, 19, 1452)]).
Proof. split; vm_compute; reflexivity. Qed.


(** * consolidate and the entries it has passed *)

(** ** The words before the place of an operation *)

Lemma fix_segment_down_below (d : directory_t) (e : entry_t) (offset q : Z) :
  shape d -> 0 <= dir_block e < 6 -> q < entry e + offset -> q <> 3 ->
  word (fix_segment_down d e offset) (dir_block e) q = word d (dir_block e) q.
Proof.
  intros Sh Hi Hq H3.
  rewrite word_fix_segment_down by (try apply shape_in_range; assumption).
  unfold shuffle_words_down. apply shuffle_down_loop_outside. left. exact Hq.
Qed.

Lemma put_entry_empty_below (d : directory_t) (e : entry_t) (j q : Z) :
  empty_file e = true -> q < entry e ->
  word (put_entry d e) j q = word d j q.
Proof.
  intros He Hq. unfold put_entry. rewrite He.
  rewrite !word_poke, word_mark_dirty.
  replace (entry e + 1 =? q) with false by (symmetry; apply Z.eqb_neq; lia).
  replace (entry e =? q) with false by (symmetry; apply Z.eqb_neq; lia).
  rewrite !andb_false_r. reflexivity.
Qed.

Lemma bump_number_files_word (d : directory_t) (i amount q : Z) :
  shape d -> 0 <= i < 6 ->
  word (bump_number_files d i amount) i q
  = if q =? 0 then u16 (word d i 0 - amount) else word d i q.
Proof.
  intros [_ L] Hi. rewrite word_bump_number_files by (rewrite (L i Hi); lia).
  rewrite Z.eqb_refl. reflexivity.
Qed.

Lemma bump_number_files_other (d : directory_t) (i amount j : Z) :
  shape d -> j <> i -> seg (bump_number_files d i amount) j = seg d j.
Proof.
  intros Sh Hj.
  destruct (bump_number_files_spec d i amount Sh) as (_ & T & _).
  apply T, Hj.
Qed.

(** ** One round of the loop *)

(** A round of the loop at the cursor [c1] leaves the other segments and
    the words before [c1] alone, but for the count of files, which it may
    lower by one, and the flag word. *)
Lemma consolidate_body_below (d : directory_t) (c1 : cursor_t)
  (e ne : entry_t) :
  shape d -> overflowed_segment d c1 = false -> 1 <= c_file_number c1 ->
  5 <= c_entry c1 ->
  let r := consolidate_body d c1 e ne in
  let d2 := fst (fst (fst r)) in
  let c2 := snd (fst (fst r)) in
  shape d2
  /\ (forall j, j <> c_dir_block c1 -> seg d2 j = seg d j)
  /\ (forall q, q < c_entry c1 -> q <> 0 -> q <> 3 ->
                word d2 (c_dir_block c1) q = word d (c_dir_block c1) q)
  /\ (number_files d2 (c_dir_block c1) = number_files d (c_dir_block c1)
      \/ number_files d2 (c_dir_block c1)
         = u16 (number_files d (c_dir_block c1) + 1))
  /\ c_dir_block c2 = c_dir_block c1
  /\ c_entry c1 <= c_entry c2
  /\ (c_file_number c2 = c_file_number c1
      \/ c_file_number c2 = u16 (c_file_number c1 + 1)).
Proof.
  intros Sh Ho Hf Hp r d2 c2. subst d2 c2 r.
  pose proof (valid_in_range d c1 Sh Ho Hf) as Hi.
  set (i := c_dir_block c1) in *. set (p := c_entry c1) in *.
  pose proof (entry_length_nonneg d (peek_entry d c1 entry_zero)) as Hnn.
  assert (Skip : forall r,
                 r = (d, step d c1, peek_entry d c1 e,
                      peek_entry d (step d c1) ne) ->
                 shape (fst (fst (fst r)))
                 /\ (forall j, j <> i -> seg (fst (fst (fst r))) j = seg d j)
                 /\ (forall q, q < p -> q <> 0 -> q <> 3 ->
                               word (fst (fst (fst r))) i q = word d i q)
                 /\ (number_files (fst (fst (fst r))) i = number_files d i
                     \/ number_files (fst (fst (fst r))) i
                        = u16 (number_files d i + 1))
                 /\ c_dir_block (snd (fst (fst r))) = i
                 /\ p <= c_entry (snd (fst (fst r)))
                 /\ (c_file_number (snd (fst (fst r))) = c_file_number c1
                     \/ c_file_number (snd (fst (fst r)))
                        = u16 (c_file_number c1 + 1))).
  { intros r ->. cbn [fst snd].
    rewrite step_fields. cbn [c_dir_block c_entry c_file_number].
    fold p. split; [exact Sh|]. split; [reflexivity|].
    split; [reflexivity|]. split; [left; reflexivity|].
    split; [reflexivity|]. split; [lia|]. right. reflexivity. }
  unfold consolidate_body.
  rewrite get_entry_step.
  destruct (empty_file (peek_entry d c1 e)) eqn:Ee; [|apply Skip; reflexivity].
  assert (Edb : dir_block (peek_entry d c1 e) = i)
    by apply dir_block_peek_entry.
  destruct (place_peek d c1 e) as (Een & _ & _). fold p in Een.
  assert (El : entry_length d (peek_entry d c1 entry_zero) = 2).
  { rewrite entry_length_peek. rewrite empty_file_peek in Ee. fold i p.
    fold i p in Ee. rewrite Ee. reflexivity. }
  assert (St : step d c1
               = mk_cursor (u16 (c_file_number c1 + 1))
                   (u16 (c_next_block c1
                         + e_length (peek_entry d c1 entry_zero)))
                   (p + 2) i).
  { rewrite step_fields, El. reflexivity. }
  destruct (e_length (peek_entry d c1 e) =? 0).
  - (* an empty entry of length 0 goes *)
    clear Skip. cbn [fst snd].
    set (d1 := fix_segment_down d (peek_entry d c1 e) 0).
    destruct (fix_segment_down_spec d (peek_entry d c1 e) 0 Sh) as (S1 & T1).
    fold d1 in S1, T1. rewrite Edb in T1.
    destruct (bump_number_files_spec d1 i (-1) S1) as (S2 & T2 & _).
    rewrite Edb.
    assert (B : forall q, q < p -> q <> 3 -> word d1 i q = word d i q).
    { intros q Hq H3. unfold d1. rewrite <- Edb.
      apply fix_segment_down_below; rewrite ?Edb, ?Een; try assumption; lia. }
    split; [exact S2|]. split.
    { intros j Hj. rewrite T2 by exact Hj. apply T1, Hj. }
    split.
    { intros q Hq H0 H3. rewrite bump_number_files_word by assumption.
      replace (q =? 0) with false by (symmetry; apply Z.eqb_neq; exact H0).
      apply B; assumption. }
    split.
    { right. unfold number_files.
      rewrite bump_number_files_word by assumption. cbn [Z.eqb].
      rewrite B by lia. reflexivity. }
    rewrite St. cbn [c_dir_block c_entry c_file_number].
    split; [reflexivity|]. split; [lia|]. right. reflexivity.
  - destruct (negb (overflowed_segment d (step d c1))
              && empty_file (peek_entry d (step d c1) ne));
      [|apply Skip; reflexivity].
    (* two empty entries become one *)
    clear Skip. cbn [fst snd].
    set (e' := set_length (peek_entry d c1 e) _).
    assert (Edb' : dir_block e' = i) by exact Edb.
    assert (Een' : entry e' = p) by exact Een.
    assert (Ee' : empty_file e' = true) by exact Ee.
    set (y := peek_entry d (step d c1) ne).
    assert (Ydb : dir_block y = i).
    { unfold y. rewrite dir_block_peek_entry, St. reflexivity. }
    assert (Yen : entry y = p + 2).
    { unfold y. destruct (place_peek d (step d c1) ne) as (-> & _ & _).
      rewrite St. reflexivity. }
    set (d1 := put_entry d e').
    destruct (put_entry_spec d e' Sh) as (S1 & T1 & _).
    fold d1 in S1, T1. rewrite Edb' in T1.
    set (d1' := fix_segment_down d1 y 0).
    destruct (fix_segment_down_spec d1 y 0 S1) as (S2 & T2).
    fold d1' in S2, T2. rewrite Ydb in T2.
    destruct (bump_number_files_spec d1' i (-1) S2) as (S3 & T3 & _).
    rewrite Edb'.
    assert (B : forall q, q < p -> q <> 3 -> word d1' i q = word d i q).
    { intros q Hq H3. unfold d1'. rewrite <- Ydb.
      rewrite fix_segment_down_below;
        rewrite ?Ydb, ?Yen; try assumption; try lia.
      unfold d1. apply put_entry_empty_below; [exact Ee'|lia]. }
    split; [exact S3|]. split.
    { intros j Hj. rewrite T3 by exact Hj. rewrite T2 by exact Hj.
      apply T1, Hj. }
    split.
    { intros q Hq H0 H3. rewrite bump_number_files_word by assumption.
      replace (q =? 0) with false by (symmetry; apply Z.eqb_neq; exact H0).
      apply B; assumption. }
    split.
    { right. unfold number_files.
      rewrite bump_number_files_word by assumption. cbn [Z.eqb].
      rewrite B by lia. reflexivity. }
    unfold e'. rewrite restore_at. fold i p.
    split; [reflexivity|]. split; [lia|]. left. reflexivity.
Qed.

Lemma negate_sane_down (w : Z) :
  0 <= w <= 4096 -> 1 <= negate w ->
  0 <= u16 (w + 1) <= 4096 /\ negate (u16 (w + 1)) = negate w - 1.
Proof.
  intros Hw Hn.
  assert (C : w = 0 \/ w = 4096 \/ 1 <= w <= 4095) by lia.
  destruct C as [->|[->|C]];
    [change (negate 0) with 0 in Hn; lia
    |change (negate 4096) with 0 in Hn; lia|].
  rewrite u16_small by lia. unfold negate in *.
  rewrite Z.rem_small by lia. rewrite Z.rem_small by lia. lia.
Qed.

Lemma not_overflowed_count (d : directory_t) (c : cursor_t) :
  overflowed_segment d c = false ->
  c_file_number c <= negate (number_files d (c_dir_block c))
  /\ c_file_number c < 4096.
Proof.
  unfold overflowed_segment. intros H. zbool.
  pose proof (negate_lt (number_files d (c_dir_block c))). lia.
Qed.

(** ** The loop from a cursor on *)

(** Whatever the loop of [consolidate] does from a cursor at or behind [a]
    on, it keeps what lies before [a]. *)
Lemma consolidate_past (dG : directory_t) (a : cursor_t) (f : nat) :
  forall d c e ne d',
    ascending dG -> shape d -> count_sane d (c_dir_block a) ->
    stays a dG d -> past a c ->
    consolidate_loop f d c e ne = Some d' ->
    shape d' /\ count_sane d' (c_dir_block a) /\ stays a dG d'.
Proof.
  induction f as [|f IH]; intros d c e ne d' Asc Sh Cs St Hpast H;
    [discriminate|].
  cbn [consolidate_loop] in H.
  destruct (valid_entry (S f) d c) as [[b c1]|] eqn:V; [|discriminate].
  destruct b; [|injection H as <-; auto].
  assert (Asc_d : ascending d).
  { intros j. destruct St as (_ & _ & _ & _ & F5). rewrite F5. apply Asc. }
  pose proof (valid_entry_true _ _ _ _ V) as Ho1.
  assert (P1 : past a c1).
  { destruct (valid_entry_cases _ _ _ _ Asc_d V)
      as [[-> _]|(_ & Hd & Hfn & Hg & _)]; [exact Hpast|].
    apply reach_entry in Hg. unfold seg_start, file_entries in Hg.
    cbn [c_entry] in Hg. destruct Hpast as (_ & _ & Hpast).
    split; [lia|]. split; [lia|]. left. lia. }
  destruct P1 as (Hp1 & Hf1 & Hpos).
  destruct (not_overflowed_count d c1 Ho1) as [Hc1 Hc2].
  pose proof (consolidate_body_below d c1 e ne Sh Ho1 Hf1 Hp1) as K.
  destruct (consolidate_body d c1 e ne) as [[[d2 c2] e2] ne2].
  cbv zeta in K. cbn [fst snd] in K.
  destruct K as (S2 & T2 & W2 & N2 & Cd & Ce & Cf).
  destruct St as (F1 & F2 & F3 & F4 & F5).
  assert (Hd : forall j q, q = 1 \/ q = 2 -> word d2 j q = word d j q).
  { intros j q Hq. destruct (Z.eq_dec j (c_dir_block c1)) as [->|Hj].
    - apply W2; lia.
    - unfold word. rewrite T2 by exact Hj. reflexivity. }
  assert (Cs2 : count_sane d2 (c_dir_block a)
                /\ c_file_number a - 1
                   <= negate (number_files d2 (c_dir_block a))).
  { unfold count_sane in *.
    destruct (Z.eq_dec (c_dir_block c1) (c_dir_block a)) as [E|E].
    - rewrite E in *. destruct N2 as [-> | ->]; [lia|].
      destruct (negate_sane_down _ Cs ltac:(lia)) as [R1 R2].
      rewrite R2. lia.
    - unfold number_files, word in *. rewrite T2 by congruence. lia. }
  destruct Cs2 as [Cs2 F3'].
  rewrite u16_small in Cf by lia.
  apply (IH d2 c2 e2 ne2 d' Asc S2 Cs2); [|split; [lia|split; lia]|exact H].
  unfold stays. split.
  { intros j Hj. rewrite T2 by lia. apply F1, Hj. }
  split.
  { intros q Hq H0 H3. rewrite <- F2 by assumption.
    destruct (Z.eq_dec (c_dir_block c1) (c_dir_block a)) as [E|E].
    - rewrite <- E. apply W2; lia.
    - unfold word. rewrite T2 by congruence. reflexivity. }
  split; [exact F3'|].
  split; intros j; [rewrite <- F4|rewrite <- F5];
    [unfold first_file_block|unfold next_segment]; apply Hd; auto.
Qed.

(** ** lookup *)

Lemma lookup_loop_S (f : nat) (p : pattern_t) (d : directory_t)
  (c : cursor_t) :
  lookup_loop (S f) p d c
  = match valid_entry (S f) d c with
    | None => None
    | Some (false, c1) => Some (None, c1)
    | Some (true, c1) =>
        if file_matches p (peek_entry d c1 entry_zero)
        then Some (Some (peek_entry d c1 entry_zero), step d c1)
        else lookup_loop f p d (step d c1)
    end.
Proof.
  cbn [lookup_loop]. destruct (valid_entry (S f) d c) as [[[|] c1]|];
    reflexivity.
Qed.

Lemma lookup_loop_mono (p : pattern_t) (f : nat) :
  forall d c r f',
    lookup_loop f p d c = Some r -> (f <= f')%nat ->
    lookup_loop f' p d c = Some r.
Proof.
  induction f as [|f IH]; intros d c r f' H Hf; [discriminate|].
  destruct f' as [|f']; [lia|]. rewrite lookup_loop_S in *.
  destruct (valid_entry (S f) d c) as [[b c1]|] eqn:V; [|discriminate].
  rewrite (valid_entry_mono _ _ _ _ (S f') V) by lia.
  destruct b; [|exact H].
  destruct (file_matches p (peek_entry d c1 entry_zero)); [exact H|].
  apply (IH _ _ _ f' H). lia.
Qed.

(** ** What stays before a cursor *)

Lemma frame_stays (c : cursor_t) (d d' : directory_t) :
  frame c d d' -> stays c d d'.
Proof. intros (F1 & F2 & F3 & _ & F5 & F6). unfold stays. auto. Qed.

Lemma stays_step (d d' : directory_t) (c1 : cursor_t) :
  words12 d -> reach d (seg_start d (c_dir_block c1)) c1 ->
  overflowed_segment d c1 = false ->
  stays (step d c1) d d' ->
  frame c1 d d'
  /\ (forall old, peek_entry d' c1 old = peek_entry d c1 old)
  /\ step d' c1 = step d c1.
Proof.
  intros W Hg Ho (F1 & F2 & F3 & F5 & F6).
  destruct (grid_place d _ c1 W Hg) as (_ & Hp & Hf1 & _).
  pose proof (overflowed_count _ _ W Ho) as Hf2.
  pose proof (entry_length_nonneg d (peek_entry d c1 entry_zero)) as Hnn.
  rewrite step_fields in F1, F2, F3.
  cbn [c_dir_block c_entry c_file_number] in F1, F2, F3.
  rewrite u16_small in F3 by lia.
  assert (P : forall old,
             peek_entry d' c1 old = peek_entry d c1 old
             /\ step d' c1 = step d c1).
  { intros old. apply (peek_entry_below d d' c1 old _ W F2 Hp). lia. }
  split; [|split; [intros old; apply P|apply (P entry_zero)]].
  unfold frame. split; [exact F1|]. split; [intros q Hq; apply F2; lia|].
  split; [lia|]. split; [|auto].
  intros _. unfold overflowed_segment. rewrite Z.gtb_ltb. apply Z.ltb_ge. lia.
Qed.

Lemma stays_here (d : directory_t) (c1 : cursor_t) :
  words12 d -> reach d (seg_start d (c_dir_block c1)) c1 ->
  overflowed_segment d c1 = false ->
  stays (step d c1) d d
  /\ past (step d c1) (step d c1)
  /\ count_sane d (c_dir_block (step d c1)).
Proof.
  intros W Hg Ho.
  destruct (grid_place d _ c1 W Hg) as (_ & Hp & Hf1 & _).
  destruct (not_overflowed_count d c1 Ho) as [Hc1 Hc2].
  pose proof (entry_length_nonneg d (peek_entry d c1 entry_zero)) as Hnn.
  rewrite step_fields. unfold stays, past, count_sane.
  cbn [c_dir_block c_entry c_file_number].
  rewrite u16_small by lia.
  pose proof (word12_word d (c_dir_block c1) 0 W) as H0.
  unfold word12 in H0. fold (number_files d (c_dir_block c1)) in H0.
  split; [|split; [|lia]].
  - split; [reflexivity|]. split; [reflexivity|]. split; [lia|].
    split; reflexivity.
  - split; [lia|]. split; [lia|]. right. lia.
Qed.

(** The round of the loop at a file, and at an empty entry that has no
    empty entry behind it in its segment. *)
Lemma consolidate_body_file (d : directory_t) (c1 : cursor_t)
  (e ne : entry_t) :
  empty_file (peek_entry d c1 entry_zero) = false ->
  consolidate_body d c1 e ne
  = (d, step d c1, peek_entry d c1 e, peek_entry d (step d c1) ne).
Proof.
  intros H. unfold consolidate_body. rewrite get_entry_step.
  rewrite empty_file_peek in *. rewrite H. reflexivity.
Qed.

Lemma consolidate_body_alone (d : directory_t) (c1 : cursor_t)
  (e ne : entry_t) :
  empty_file (peek_entry d c1 entry_zero) = true ->
  e_length (peek_entry d c1 entry_zero) <> 0 ->
  overflowed_segment d (step d c1) = true
  \/ empty_file (peek_entry d (step d c1) entry_zero) = false ->
  consolidate_body d c1 e ne
  = (d, step d c1, peek_entry d c1 e, peek_entry d (step d c1) ne).
Proof.
  intros H Hl Hn. unfold consolidate_body. rewrite get_entry_step.
  rewrite empty_file_peek in *. rewrite H.
  rewrite e_length_peek in *.
  replace (_ =? 0) with false by (symmetry; apply Z.eqb_neq; exact Hl).
  rewrite (empty_file_peek d (step d c1) ne).
  destruct Hn as [-> | ->]; [reflexivity|].
  rewrite andb_false_r. reflexivity.
Qed.


(** * consolidate before the first file of a name *)

(** ** The quiet walk *)

Lemma valid_entry_self (f : nat) (d : directory_t) (c c1 : cursor_t) :
  valid_entry f d c = Some (true, c1) -> valid_entry f d c1 = Some (true, c1).
Proof.
  intros V. pose proof (valid_entry_true _ _ _ _ V) as Ho.
  destruct f as [|f]; [discriminate|]. apply valid_entry_here, Ho.
Qed.

Lemma quiet_to_mono (p : pattern_t) (d : directory_t) (cF : cursor_t)
  (g : nat) (c : cursor_t) :
  quiet_to p d cF g c -> forall g', (g <= g')%nat -> quiet_to p d cF g' c.
Proof.
  induction 1 as [g c V M|g c c1 V E M Q IH|g c c1 V E L N Q IH];
    intros g' Hg; (destruct g' as [|g']; [lia|]).
  - apply quiet_last; [|exact M]. apply (valid_entry_mono _ _ _ _ _ V). lia.
  - apply (quiet_file p d cF g' c c1); try assumption.
    + apply (valid_entry_mono _ _ _ _ _ V). lia.
    + apply IH. lia.
  - apply (quiet_empty p d cF g' c c1); try assumption.
    + apply (valid_entry_mono _ _ _ _ _ V). lia.
    + apply IH. lia.
Qed.

Lemma quiet_to_at (p : pattern_t) (d : directory_t) (cF : cursor_t)
  (g : nat) (c c1 : cursor_t) :
  valid_entry g d c = Some (true, c1) ->
  quiet_to p d cF g c1 -> quiet_to p d cF g c.
Proof.
  intros V Q. pose proof (valid_entry_self _ _ _ _ V) as V1.
  inversion Q as [g0 x V0 M|g0 x c2 V0 E M Q0|g0 x c2 V0 E L N Q0]; subst;
    pose proof (valid_entry_det _ _ _ _ _ _ V0 V1) as Ed;
    injection Ed as Ed; subst.
  - apply quiet_last; assumption.
  - apply (quiet_file p d cF g0 c c1); assumption.
  - apply (quiet_empty p d cF g0 c c1); assumption.
Qed.

Lemma frame_overflowed (f : nat) (d d' : directory_t) (c c1 : cursor_t) :
  ascending d -> valid_entry f d c = Some (true, c1) -> frame c1 d d' ->
  overflowed_segment d' c = overflowed_segment d c.
Proof.
  intros Asc V (F1 & _ & _ & F4 & _).
  destruct (valid_entry_cases _ _ _ _ Asc V) as [[-> Ho]|(Ho & Hd & _)].
  - rewrite Ho. apply F4, Ho.
  - apply overflowed_same_seg, F1, Hd.
Qed.

Lemma row_matches_empty (p : pattern_t) (r : row) :
  row_matches p r = true -> r_empty r = false.
Proof.
  unfold row_matches. destruct (r_empty r); [discriminate|reflexivity].
Qed.

Lemma file_matches_row (p : pattern_t) (d : directory_t) (c : cursor_t)
  (old old' : entry_t) :
  file_matches p (peek_entry d c old)
  = row_matches p (row_of (peek_entry d c old')).
Proof. apply row_matches_peek. Qed.

(** ** The first run of [consolidate] *)

(** The loop of [consolidate] on a directory that lists, from the cursor
    on, the rows [pre] and then a file [rF] that the pattern matches:
    there is a directory [dG] in which the empty entries of [pre] are
    merged, the walk to the file is quiet, and the result of the loop is
    [dG] before the end of the file. *)
Lemma consolidate_prefix (p : pattern_t) (f : nat) :
  forall g d c e ne e0 es pre rF post d',
    shape d -> words12 d -> ascending d -> fits d ->
    reach d (seg_start d (c_dir_block c)) c ->
    entries_loop g d c e0 = Some es ->
    map row_of es = pre ++ rF :: post ->
    no_zero_empty pre = true ->
    Forall (fun r => row_matches p r = false) pre ->
    row_matches p rF = true ->
    total_length pre < 4096 ->
    consolidate_loop f d c e ne = Some d' ->
    exists dG cF,
      words12 dG /\ ascending dG /\ frame c d dG
      /\ quiet_to p dG cF g c
      /\ file_block (peek_entry dG cF entry_zero) = r_block rF
      /\ e_length (peek_entry dG cF entry_zero) = r_len rF
      /\ shape d' /\ count_sane d' (c_dir_block cF)
      /\ stays (step dG cF) dG d'
      /\ overflowed_segment dG c = overflowed_segment d c
      /\ (forall c1 gg,
            valid_entry gg d c = Some (true, c1) ->
            empty_file (peek_entry dG c1 entry_zero)
            = empty_file (peek_entry d c1 entry_zero)).
Proof.
  induction f as [|f IH];
    intros g d c e ne e0 es pre rF post d' Sh W Asc Hfits Hg E R NZ NM MF TL C;
    [discriminate|].
  destruct g as [|g]; [discriminate|].
  cbn [entries_loop] in E. cbn [consolidate_loop] in C.
  destruct (valid_entry (S g) d c) as [[b c1]|] eqn:V; [|discriminate].
  destruct (valid_entry (S f) d c) as [[b' c1']|] eqn:V'; [|discriminate].
  pose proof (valid_entry_det _ _ _ _ _ _ V V') as Ed. injection Ed as <- <-.
  destruct b.
  2:{ injection E as <-. destruct pre; discriminate. }
  pose proof (valid_entry_true _ _ _ _ V) as Ho1.
  pose proof (valid_entry_grid d _ _ _ V Hg) as Hg1.
  destruct (grid_place d _ c1 W Hg1) as (_ & _ & Hf1 & _).
  pose proof (overflowed_count _ _ W Ho1) as Hf2.
  rewrite get_entry_step in E.
  destruct (entries_loop g d (step d c1) (peek_entry d c1 e0)) as [rest|] eqn:E1;
    [|discriminate].
  cbn [option_map] in E. injection E as <-. cbn [map] in R.
  pose proof (entries_nonneg _ _ _ _ _ E1) as NNr.
  pose proof (e_length_nonneg d c1 entry_zero) as NNx.
  destruct pre as [|r pre].
  { (* the file is reached *)
    cbn [app] in R. injection R as RF _.
    assert (M : file_matches p (peek_entry d c1 entry_zero) = true).
    { rewrite (file_matches_row p d c1 entry_zero e0), RF. exact MF. }
    assert (Ef : empty_file (peek_entry d c1 entry_zero) = false).
    { unfold file_matches in M.
      destruct (empty_file (peek_entry d c1 entry_zero));
        [discriminate|reflexivity]. }
    rewrite (consolidate_body_file d c1 e ne Ef) in C.
    destruct (stays_here d c1 W Hg1 Ho1) as (St & Pa & Cs).
    destruct (consolidate_past d (step d c1) f d (step d c1) _ _ d'
                Asc Sh Cs St Pa C) as (Sh' & Cs' & St').
    exists d, c1. split; [exact W|]. split; [exact Asc|].
    split; [apply frame_refl; assumption|].
    split; [apply quiet_last; assumption|].
    split; [rewrite <- RF; destruct (place_peek d c1 entry_zero) as (_ & -> & _);
            destruct (place_peek d c1 e0) as (_ & H & _);
            unfold row_of; cbn [r_block]; rewrite H; reflexivity|].
    split; [rewrite <- RF; unfold row_of; cbn [r_len];
            rewrite !e_length_peek; reflexivity|].
    split; [exact Sh'|]. split; [exact Cs'|]. split; [exact St'|].
    split; reflexivity. }
  cbn [app] in R. injection R as Rr Rrest.
  apply no_zero_cons in NZ as [NZx NZr].
  inversion NM as [|? ? NMx NMr]; subst.
  rewrite total_length_cons in TL.
  rewrite Rrest in NNr. apply Forall_app in NNr as [NNp _].
  pose proof (total_length_nonneg _ NNp) as TLp.
  rewrite row_of_peek in NZx, TL. cbn [r_empty r_len] in NZx, TL.
  assert (Hadv :
            consolidate_body d c1 e ne
            = (d, step d c1, peek_entry d c1 e, peek_entry d (step d c1) ne) ->
            (empty_file (peek_entry d c1 entry_zero) = true ->
             e_length (peek_entry d c1 entry_zero) <> 0
             /\ (overflowed_segment d (step d c1) = false ->
                 empty_file (peek_entry d (step d c1) entry_zero) = false)) ->
            exists dG cF,
              words12 dG /\ ascending dG /\ frame c d dG
              /\ quiet_to p dG cF (S g) c
              /\ file_block (peek_entry dG cF entry_zero) = r_block rF
              /\ e_length (peek_entry dG cF entry_zero) = r_len rF
              /\ shape d' /\ count_sane d' (c_dir_block cF)
              /\ stays (step dG cF) dG d'
              /\ overflowed_segment dG c = overflowed_segment d c
              /\ (forall c2 gg,
                    valid_entry gg d c = Some (true, c2) ->
                    empty_file (peek_entry dG c2 entry_zero)
                    = empty_file (peek_entry d c2 entry_zero))).
  { intros Hbody Hidle. rewrite Hbody in C.
    destruct (IH g d (step d c1) _ _ (peek_entry d c1 e0) rest pre rF post d'
                 Sh W Asc Hfits (reach_snoc d _ c1 Hg1 Ho1) E1 Rrest NZr NMr MF
                 ltac:(lia) C)
      as (dG & cF & WG & AG & F & Q & Kb & Kl & Sh' & Cs' & St' & Ov & Em).
    destruct (frame_step d dG c1 W Hg1 Ho1 F) as (F1 & P & St).
    destruct (frame_pre (S g) d dG c c1 W Asc Hg V F1) as (F0 & VG).
    exists dG, cF. split; [exact WG|]. split; [exact AG|].
    split; [exact F0|]. split.
    { destruct (empty_file (peek_entry d c1 entry_zero)) eqn:Ex.
      - destruct (Hidle eq_refl) as [Hl Hn].
        apply (quiet_empty p dG cF g c c1); [exact VG| | | |].
        + rewrite P. exact Ex.
        + rewrite P. exact Hl.
        + rewrite St, Ov. intros Ho2.
          rewrite (Em (step d c1) (S O) (valid_entry_here _ _ _ Ho2)).
          apply Hn, Ho2.
        + rewrite St. exact Q.
      - apply (quiet_file p dG cF g c c1); [exact VG| | |].
        + rewrite P. exact Ex.
        + rewrite P, (file_matches_row p d c1 entry_zero e0). exact NMx.
        + rewrite St. exact Q. }
    split; [exact Kb|]. split; [exact Kl|]. split; [exact Sh'|].
    split; [exact Cs'|]. split; [exact St'|].
    split; [apply (frame_overflowed (S g) d dG c c1 Asc V F1)|].
    intros c2 gg V2.
    pose proof (valid_entry_det _ _ _ _ _ _ V V2) as Ed. injection Ed as <-.
    rewrite P. reflexivity. }
  destruct (empty_file (peek_entry d c1 entry_zero)) eqn:Ex.
  2:{ apply Hadv; [apply consolidate_body_file, Ex|discriminate]. }
  assert (Exw : (word d (c_dir_block c1) (c_entry c1) =? 0) = true)
    by (rewrite <- (empty_file_peek d c1 entry_zero); exact Ex).
  assert (El0 : e_length (peek_entry d c1 entry_zero) <> 0)
    by (apply NZx, Exw).
  destruct (negb (overflowed_segment d (step d c1))
            && empty_file (peek_entry d (step d c1) entry_zero)) eqn:Em.
  2:{ assert (Hn : overflowed_segment d (step d c1) = true
                   \/ empty_file (peek_entry d (step d c1) entry_zero) = false).
      { destruct (overflowed_segment d (step d c1)); [left; reflexivity|].
        right. exact Em. }
      apply Hadv; [apply consolidate_body_alone; assumption|].
      intros _. split; [exact El0|]. intros Ho2.
      destruct Hn as [Hn|Hn]; [congruence|exact Hn]. }
  (* two empty entries become one *)
  apply andb_true_iff in Em as [Ho2 Ey]. apply negb_true_iff in Ho2.
  destruct g as [|g']; [discriminate|].
  cbn [entries_loop] in E1.
  rewrite (valid_entry_here g' d (step d c1) Ho2), get_entry_step in E1.
  destruct (entries_loop g' d (step d (step d c1))
              (peek_entry d (step d c1) (peek_entry d c1 e0)))
    as [rest2|] eqn:E2; [|discriminate].
  injection E1 as <-. cbn [map] in Rrest.
  destruct pre as [|r2 pre].
  { exfalso. cbn [app] in Rrest. injection Rrest as RF _.
    apply row_matches_empty in MF. rewrite <- RF in MF.
    unfold row_of in MF. cbn [r_empty] in MF.
    rewrite empty_file_peek in MF, Ey. congruence. }
  cbn [app] in Rrest. injection Rrest as Rr2 Rrest.
  apply no_zero_cons in NZr as [_ NZ2].
  inversion NMr as [|? ? _ NM2]; subst.
  inversion NNp as [|? ? NNy NN2]; subst.
  rewrite total_length_cons in TLp, TL.
  pose proof (total_length_nonneg _ NN2) as TL2.
  rewrite row_of_peek in NNy, TL. cbn [r_len] in NNy, TL.
  assert (Exe : forall o, empty_file (peek_entry d c1 o) = true)
    by (intros o; rewrite empty_file_peek; exact Exw).
  assert (Eye : forall o, empty_file (peek_entry d (step d c1) o) = true)
    by (intros o; rewrite empty_file_peek in *; exact Ey).
  assert (Ele : forall o, e_length (peek_entry d c1 o)
                          = e_length (peek_entry d c1 entry_zero))
    by (intros o; rewrite !e_length_peek; reflexivity).
  assert (Ely : forall o, e_length (peek_entry d (step d c1) o)
                          = e_length (peek_entry d (step d c1) entry_zero))
    by (intros o; rewrite !e_length_peek; reflexivity).
  assert (Hsum : e_length (peek_entry d c1 e)
                 + e_length (peek_entry d (step d c1) ne) < 4096)
    by (rewrite (Ele e), (Ely ne); lia).
  destruct (merged_facts d c1 e ne Sh W Asc Hfits Hg1 Ho1 Ho2 (Exe e) (Eye ne)
              Hsum)
    as (Sh2 & W2 & A2 & F2 & D0 & D1 & Dc & G2 & R2 & RA & FB & V2).
  unfold consolidate_body in C. rewrite get_entry_step in C.
  rewrite (Exe e), (Ele e) in C.
  replace (e_length (peek_entry d c1 entry_zero) =? 0) with false in C
    by (symmetry; apply Z.eqb_neq; exact El0).
  rewrite Ho2, (Eye ne) in C. cbn [negb andb] in C.
  rewrite (Ele e), (Ely ne) in *.
  rewrite restore_at in C.
  match type of Sh2 with
  | shape ?t => set (d2 := t) in *
  end.
  destruct (RA g' (peek_entry d (step d c1) (peek_entry d c1 e0)) e0 rest2 E2)
    as (rest2' & E3 & R3).
  match type of C with
  | consolidate_loop _ _ _ ?ea ?eb = _ =>
      destruct (IH (S g') d2 c1 ea eb e0 (peek_entry d2 c1 e0 :: rest2')
                  (mk_row (c_file_number c1 =? 1) (c_dir_block c1) true []
                          (c_next_block c1)
                          (e_length (peek_entry d c1 entry_zero)
                           + e_length (peek_entry d (step d c1) entry_zero))
                     :: pre) rF post d' Sh2 W2 A2 F2 G2 E3)
        as (dG & cF & WG & AG & F & Q & Kb & Kl & Sh' & Cs' & St' & Ov & Eme)
  end.
  { cbn [map app]. rewrite R2, R3, Rrest. reflexivity. }
  { cbn [no_zero_empty forallb r_empty r_len andb].
    fold (no_zero_empty pre). rewrite NZ2, andb_true_r.
    apply negb_true_iff, Z.eqb_neq. lia. }
  { constructor; [reflexivity|exact NM2]. }
  { exact MF. }
  { rewrite total_length_cons. cbn [r_len]. lia. }
  { exact C. }
  pose proof (frame_after d d2 dG c1 D0 D1 FB V2 F) as F1.
  destruct (frame_pre (S (S g')) d dG c c1 W Asc Hg V F1) as (F0 & VG).
  exists dG, cF. split; [exact WG|]. split; [exact AG|].
  split; [exact F0|].
  split; [apply (quiet_to_at p dG cF (S (S g')) c c1 VG);
          apply (quiet_to_mono _ _ _ _ _ Q); lia|].
  split; [exact Kb|]. split; [exact Kl|]. split; [exact Sh'|].
  split; [exact Cs'|]. split; [exact St'|].
  split; [apply (frame_overflowed (S (S g')) d dG c c1 Asc V F1)|].
  intros c2 gg Vc.
  pose proof (valid_entry_det _ _ _ _ _ _ V Vc) as Ed. injection Ed as <-.
  rewrite (Eme c1 (S O) (valid_entry_here _ _ _ V2)), Ex.
  specialize (R2 entry_zero). apply (f_equal r_empty) in R2.
  exact R2.
Qed.

(** ** A directory that agrees with one of a quiet walk *)

Lemma quiet_first (p : pattern_t) (dG : directory_t) (cF : cursor_t)
  (g : nat) (c : cursor_t) :
  quiet_to p dG cF g c ->
  words12 dG -> ascending dG ->
  reach dG (seg_start dG (c_dir_block c)) c ->
  forall d,
    stays (step dG cF) dG d ->
    frame c dG d
    /\ exists c1,
        valid_entry g dG c = Some (true, c1)
        /\ valid_entry g d c = Some (true, c1)
        /\ (forall old, peek_entry d c1 old = peek_entry dG c1 old)
        /\ step d c1 = step dG c1
        /\ reach dG (seg_start dG (c_dir_block c1)) c1
        /\ overflowed_segment dG c1 = false.
Proof.
  intros Q W Asc.
  induction Q as [g c V M|g c c1 V E M Q IH|g c c1 V E L N Q IH];
    intros Hg d St;
    pose proof (valid_entry_true _ _ _ _ V) as Ho1;
    pose proof (valid_entry_grid dG _ _ _ V Hg) as Hg1.
  - destruct (stays_step dG d cF W Hg1 Ho1 St) as (F1 & P & Ss).
    destruct (frame_pre (S g) dG d c cF W Asc Hg V F1) as (F0 & V').
    split; [exact F0|]. exists cF. auto 10.
  - destruct (IH (reach_snoc dG _ c1 Hg1 Ho1) d St) as (F & _).
    destruct (frame_step dG d c1 W Hg1 Ho1 F) as (F1 & P & Ss).
    destruct (frame_pre (S g) dG d c c1 W Asc Hg V F1) as (F0 & V').
    split; [exact F0|]. exists c1. auto 10.
  - destruct (IH (reach_snoc dG _ c1 Hg1 Ho1) d St) as (F & _).
    destruct (frame_step dG d c1 W Hg1 Ho1 F) as (F1 & P & Ss).
    destruct (frame_pre (S g) dG d c c1 W Asc Hg V F1) as (F0 & V').
    split; [exact F0|]. exists c1. auto 10.
Qed.

(** [lookup] in such a directory finds the file. *)
Lemma lookup_quiet (p : pattern_t) (dG : directory_t) (cF : cursor_t)
  (g : nat) (c : cursor_t) :
  quiet_to p dG cF g c ->
  words12 dG -> ascending dG ->
  reach dG (seg_start dG (c_dir_block c)) c ->
  forall d,
    stays (step dG cF) dG d ->
    lookup_loop g p d c
    = Some (Some (peek_entry dG cF entry_zero), step dG cF).
Proof.
  intros Q W Asc.
  induction Q as [g c V M|g c c1 V E M Q IH|g c c1 V E L N Q IH];
    intros Hg d St;
    pose proof (valid_entry_true _ _ _ _ V) as Ho1;
    pose proof (valid_entry_grid dG _ _ _ V Hg) as Hg1.
  - destruct (quiet_first p dG cF (S g) c (quiet_last p dG cF g c V M)
                W Asc Hg d St) as (_ & c1 & V1 & V' & P & Ss & _).
    pose proof (valid_entry_det _ _ _ _ _ _ V V1) as Ed. injection Ed as <-.
    rewrite lookup_loop_S, V', P, M, Ss. reflexivity.
  - destruct (quiet_first p dG cF (S g) c
                (quiet_file p dG cF g c c1 V E M Q) W Asc Hg d St)
      as (_ & c2 & V1 & V' & P & Ss & _).
    pose proof (valid_entry_det _ _ _ _ _ _ V V1) as Ed. injection Ed as <-.
    rewrite lookup_loop_S, V', P, M, Ss.
    apply IH; [apply (reach_snoc dG _ c1 Hg1 Ho1)|exact St].
  - destruct (quiet_first p dG cF (S g) c
                (quiet_empty p dG cF g c c1 V E L N Q) W Asc Hg d St)
      as (_ & c2 & V1 & V' & P & Ss & _).
    pose proof (valid_entry_det _ _ _ _ _ _ V V1) as Ed. injection Ed as <-.
    rewrite lookup_loop_S, V', P, Ss.
    replace (file_matches p (peek_entry dG c1 entry_zero)) with false
      by (unfold file_matches; rewrite E; reflexivity).
    apply IH; [apply (reach_snoc dG _ c1 Hg1 Ho1)|exact St].
Qed.

(** ** The second run of [consolidate] *)

Lemma consolidate_quiet (p : pattern_t) (dG : directory_t) (cF : cursor_t)
  (g : nat) (c : cursor_t) :
  quiet_to p dG cF g c ->
  words12 dG -> ascending dG ->
  reach dG (seg_start dG (c_dir_block c)) c ->
  forall f d e ne d',
    shape d -> count_sane d (c_dir_block cF) ->
    stays (step dG cF) dG d ->
    consolidate_loop f d c e ne = Some d' ->
    shape d' /\ count_sane d' (c_dir_block cF) /\ stays (step dG cF) dG d'.
Proof.
  intros Q W Asc.
  induction Q as [g c V M|g c c1 V E M Q IH|g c c1 V E L N Q IH];
    intros Hg f d e ne d' Sh Cs St C;
    pose proof (valid_entry_true _ _ _ _ V) as Ho1;
    pose proof (valid_entry_grid dG _ _ _ V Hg) as Hg1;
    (destruct f as [|f]; [discriminate|]); cbn [consolidate_loop] in C.
  - destruct (quiet_first p dG cF (S g) c (quiet_last p dG cF g c V M)
                W Asc Hg d St) as (_ & c1 & V1 & V' & P & Ss & _).
    pose proof (valid_entry_det _ _ _ _ _ _ V V1) as Ed. injection Ed as <-.
    destruct (valid_entry (S f) d c) as [[b c2]|] eqn:V2; [|discriminate].
    pose proof (valid_entry_det _ _ _ _ _ _ V' V2) as Ed.
    injection Ed as <- <-.
    assert (Ef : empty_file (peek_entry d cF entry_zero) = false).
    { rewrite P. unfold file_matches in M.
      destruct (empty_file (peek_entry dG cF entry_zero));
        [discriminate|reflexivity]. }
    rewrite (consolidate_body_file d cF e ne Ef), Ss in C.
    destruct (stays_here dG cF W Hg1 Ho1) as (_ & Pa & _).
    exact (consolidate_past dG (step dG cF) f d (step dG cF) _ _ d' Asc Sh
             Cs St Pa C).
  - destruct (quiet_first p dG cF (S g) c
                (quiet_file p dG cF g c c1 V E M Q) W Asc Hg d St)
      as (_ & c2 & V1 & V' & P & Ss & _).
    pose proof (valid_entry_det _ _ _ _ _ _ V V1) as Ed. injection Ed as <-.
    destruct (valid_entry (S f) d c) as [[b c2]|] eqn:V2; [|discriminate].
    pose proof (valid_entry_det _ _ _ _ _ _ V' V2) as Ed.
    injection Ed as <- <-.
    assert (Ef : empty_file (peek_entry d c1 entry_zero) = false)
      by (rewrite P; exact E).
    rewrite (consolidate_body_file d c1 e ne Ef), Ss in C.
    apply (IH (reach_snoc dG _ c1 Hg1 Ho1) f d _ _ d' Sh Cs St C).
  - destruct (quiet_first p dG cF (S g) c
                (quiet_empty p dG cF g c c1 V E L N Q) W Asc Hg d St)
      as (_ & c2 & V1 & V' & P & Ss & _).
    pose proof (valid_entry_det _ _ _ _ _ _ V V1) as Ed. injection Ed as <-.
    destruct (valid_entry (S f) d c) as [[b c2]|] eqn:V2; [|discriminate].
    pose proof (valid_entry_det _ _ _ _ _ _ V' V2) as Ed.
    injection Ed as <- <-.
    destruct (quiet_first p dG cF g (step dG c1) Q W Asc
                (reach_snoc dG _ c1 Hg1 Ho1) d St)
      as (_ & c3 & V3 & V3' & P3 & _ & _ & Ho3).
    assert (Hn : overflowed_segment d (step d c1) = true
                 \/ empty_file (peek_entry d (step d c1) entry_zero) = false).
    { destruct (overflowed_segment d (step d c1)) eqn:Hod;
        [left; reflexivity|right].
      rewrite Ss in *.
      assert (V4 : valid_entry g d (step dG c1) = Some (true, step dG c1)).
      { destruct g as [|g0]; [discriminate|]. apply valid_entry_here, Hod. }
      pose proof (valid_entry_det _ _ _ _ _ _ V3' V4) as Ed.
      injection Ed as ->.
      rewrite P3. apply N, Ho3. }
    rewrite (consolidate_body_alone d c1 e ne) in C;
      [|rewrite P; exact E|rewrite P; exact L|exact Hn].
    rewrite Ss in C.
    apply (IH (reach_snoc dG _ c1 Hg1 Ho1) f d _ _ d' Sh Cs St C).
Qed.


(** * The listing of a directory that a file went into *)

(** Feeds a lemma the hypotheses that are at hand. *)
Ltac feed X :=
  repeat match type of X with
         | ?P -> _ =>
             match type of P with
             | Prop => specialize (X ltac:(assumption))
             end
         end.

Section Listed.

Variables d d4 : directory_t.
Variable ce : cursor_t.
Variable nm : list Z.
Variables k ptr : Z.

Hypothesis Sh : shape d.
Hypothesis W : words12 d.
Hypothesis Asc : ascending d.
Hypothesis Hfits : fits d.
Hypothesis Hgrid : reach d (seg_start d (c_dir_block ce)) ce.
Hypothesis Hvalid : overflowed_segment d ce = false.
Hypothesis Hnf : number_files d (c_dir_block ce) <> 0.
Hypothesis Hcount : negate (number_files d (c_dir_block ce)) < 100.
Hypothesis Hcnt : negate (additional_words d (c_dir_block ce)) < 10.
Hypothesis Hempty : word d (c_dir_block ce) (c_entry ce) = 0.
Hypothesis Hk :
  0 < k <= u16 (negate (word d (c_dir_block ce) (c_entry ce + 1))).
Hypothesis Hptr :
  get_unused_ptr d (c_dir_block ce)
    (file_entry_length d (c_dir_block ce) + 2) = Some (Some ptr).
Hypothesis Hnm : u16 (nth 0 nm 0) <> 0.

Hypothesis H0 : forall j, j <> c_dir_block ce -> seg d4 j = seg d j.
Hypothesis H1 :
  word d4 (c_dir_block ce) 0 = u16 (word d (c_dir_block ce) 0 - 1).
Hypothesis H2 :
  forall q, 1 <= q < c_entry ce -> q <> 3 ->
            word d4 (c_dir_block ce) q = word d (c_dir_block ce) q.
Hypothesis H3 :
  forall t, (t < 4)%nat ->
            word d4 (c_dir_block ce) (c_entry ce + Z.of_nat t)
            = u16 (nth t nm 0).
Hypothesis H4 :
  word d4 (c_dir_block ce)
       (c_entry ce + 4 + negate (additional_words d (c_dir_block ce)))
  = u16 (negate (u16 k)).
Hypothesis H5 :
  word d4 (c_dir_block ce)
       (c_entry ce + file_entry_length d (c_dir_block ce)) = 0.
Hypothesis H6 :
  word d4 (c_dir_block ce)
       (c_entry ce + file_entry_length d (c_dir_block ce) + 1)
  = u16 (negate (u16 (u16 (negate (word d (c_dir_block ce) (c_entry ce + 1)))
                      - k))).
Hypothesis H7 :
  forall q, c_entry ce + 2 <= q <= ptr ->
            word d4 (c_dir_block ce)
                 (q + file_entry_length d (c_dir_block ce))
            = word d (c_dir_block ce) q.

Lemma listed_ascending : ascending d4.
Proof.
  intros j. pose proof (ins_header d d4 ce) as X. feed X.
  destruct (X j) as (_ & -> & _). apply Asc.
Qed.

(** ** The walk behind the segment of the new file *)

Lemma listed_later_valid (f : nat) (c : cursor_t) (b : bool) (c1 : cursor_t) :
  c_dir_block ce < c_dir_block c -> valid_entry f d c = Some (b, c1) ->
  valid_entry f d4 c = Some (b, c1)
  /\ (b = true -> c_dir_block ce < c_dir_block c1).
Proof.
  intros Hl V.
  pose proof (valid_entry_before d d4 ce nm k ptr) as VB. feed VB.
  destruct (VB f c b c1 V) as [V4 _]; [left; lia|].
  split; [exact V4|]. intros ->.
  destruct (valid_entry_cases _ _ _ _ Asc V) as [[-> _]|(_ & Hd & _)]; lia.
Qed.

Lemma listed_entries_later (f : nat) :
  forall c c' e0 e0' es,
    (c_dir_block ce < c_dir_block c /\ c' = c)
    \/ (after d ce c
        /\ c' = shifted (file_entry_length d (c_dir_block ce)) c) ->
    entries_loop f d c e0 = Some es ->
    exists es4, entries_loop f d4 c' e0' = Some es4.
Proof.
  pose proof (step_before d d4 ce nm k ptr) as SB. feed SB.
  pose proof (valid_entry_after d d4 ce nm k ptr) as VA. feed VA.
  pose proof (step_after d d4 ce ptr) as SA. feed SA.
  pose proof (after_place d ce) as AP. feed AP.
  induction f as [|f IH]; intros c c' e0 e0' es R E; [discriminate|].
  rewrite entries_loop_S in *.
  destruct (valid_entry (S f) d c) as [[b c1]|] eqn:V; [|discriminate].
  assert (Hcont : forall c2,
            c_dir_block ce < c_dir_block c2 ->
            overflowed_segment d c2 = false ->
            option_map (cons (peek_entry d c2 e0))
              (entries_loop f d (step d c2) (peek_entry d c2 e0)) = Some es ->
            exists es4,
              option_map (cons (peek_entry d4 c2 e0'))
                (entries_loop f d4 (step d4 c2) (peek_entry d4 c2 e0'))
              = Some es4).
  { intros c2 Hl Ho E1.
    destruct (entries_loop f d (step d c2) (peek_entry d c2 e0))
      as [es1|] eqn:E2; [|discriminate].
    destruct (SB c2 e0') as (P & S & _);
      [left; lia|intros ->; lia|exact Ho|].
    destruct (IH (step d c2) (step d c2) (peek_entry d c2 e0)
                 (peek_entry d c2 e0') es1) as (es4 & E4);
      [left; split; [rewrite step_fields; exact Hl|reflexivity]|exact E2|].
    rewrite S, P, E4. eexists. reflexivity. }
  destruct R as [[Hl ->]|[Ha ->]].
  - destruct (listed_later_valid _ _ _ _ Hl V) as [V4 Hl1]. rewrite V4.
    destruct b; [|eexists; reflexivity].
    apply Hcont; [apply Hl1; reflexivity| |exact E].
    eapply valid_entry_true; exact V.
  - destruct (VA (S f) c b c1 V Ha)
      as [(Ho & -> & -> & V4)|(Ho & c1' & V4 & Hb1)]; rewrite V4.
    + destruct (entries_loop f d (step d c) (peek_entry d c e0))
        as [es1|] eqn:E2; [|discriminate].
      destruct (SA c Ha Ho) as [S Ha2].
      destruct (IH (step d c)
                   (shifted (file_entry_length d (c_dir_block ce)) (step d c))
                   (peek_entry d c e0)
                   (peek_entry d4
                      (shifted (file_entry_length d (c_dir_block ce)) c) e0')
                   es1) as (es4 & E4);
        [right; split; [exact Ha2|reflexivity]|exact E2|].
      rewrite S, E4. eexists. reflexivity.
    + destruct b; [|eexists; reflexivity].
      destruct (Hb1 eq_refl) as [-> _].
      apply Hcont; [| |exact E].
      * destruct (AP c Ha) as (_ & Hd & _).
        destruct (valid_entry_cases _ _ _ _ Asc V) as [[_ Hx]|(_ & Hy & _)];
          [congruence|lia].
      * eapply valid_entry_true; exact V.
Qed.

(** ** The walk to the new file *)

Lemma listed_entries_to (f : nat) :
  forall c e0 e0' es,
    before d ce c -> visits d c ce ->
    entries_loop f d c e0 = Some es ->
    exists es4 pre post post4,
      entries_loop (S f) d4 c e0' = Some es4
      /\ map row_of es = pre ++ row_of (peek_entry d ce entry_zero) :: post
      /\ map row_of es4 = pre ++ row_of (peek_entry d4 ce entry_zero) :: post4.
Proof.
  pose proof (step_before d d4 ce nm k ptr) as SB. feed SB.
  pose proof (valid_entry_before d d4 ce nm k ptr) as VB. feed VB.
  pose proof (rest_valid d d4 ce nm k) as RV. feed RV.
  pose proof (step_rest d d4 ce nm k) as SR. feed SR.
  induction f as [|f IH]; intros c e0 e0' es Hb Hv E; [discriminate|].
  rewrite entries_loop_S in E.
  destruct (valid_entry (S f) d c) as [[b c1]|] eqn:V; [|discriminate].
  assert (Hc1 : b = true /\ (c1 = ce \/ visits d (step d c1) ce)).
  { inversion Hv as [f0 x y V0|f0 x y z V0 Hv0]; subst;
      pose proof (valid_entry_det _ _ _ _ _ _ V V0) as Ed;
      injection Ed as -> ->; auto. }
  destruct Hc1 as [-> Hc1].
  pose proof (valid_entry_true _ _ _ _ V) as Ho1.
  destruct (VB (S f) c true c1 V Hb) as [V4 Hb1].
  rewrite (entries_loop_S (S f)),
    (valid_entry_mono _ _ _ _ (S (S f)) V4) by lia.
  destruct (entries_loop f d (step d c1) (peek_entry d c1 e0))
    as [es1|] eqn:E1; [|discriminate].
  cbn [option_map] in E. injection E as <-.
  destruct (cursor_eq_dec c1 ce) as [->|Hne].
  - destruct (listed_entries_later f (step d ce)
                (shifted (file_entry_length d (c_dir_block ce)) (step d ce))
                (peek_entry d ce e0)
                (peek_entry d4 (step d4 ce) (peek_entry d4 ce e0')) es1)
      as (es4 & E4);
      [right; split; [apply reach_here|reflexivity]|exact E1|].
    rewrite (entries_loop_S f), (valid_entry_here f d4 (step d4 ce) RV).
    rewrite SR, E4. cbn [option_map].
    eexists _, [], (map row_of es1), _. split; [reflexivity|].
    cbn [map app]. rewrite !(row_of_peek d ce), !(row_of_peek d4 ce).
    split; reflexivity.
  - destruct (SB c1 e0' (Hb1 eq_refl) Hne Ho1) as (P & S & Hb2).
    destruct Hc1 as [Hc1|Hv1]; [contradiction|].
    destruct (IH (step d c1) (peek_entry d c1 e0) (peek_entry d c1 e0') es1
                 Hb2 Hv1 E1) as (es4 & pre & post & post4 & E4 & R & R4).
    rewrite S, P, E4. cbn [option_map].
    exists (peek_entry d c1 e0' :: es4),
      (row_of (peek_entry d c1 e0) :: pre), post, post4.
    split; [reflexivity|]. cbn [map app]. rewrite R, R4.
    rewrite !(row_of_peek d c1). split; reflexivity.
Qed.

(** ** The entries of the new directory end inside the blocks *)

Lemma listed_reach_back (a' x' : cursor_t) :
  reach d4 a' x' ->
  forall a,
    (reach d (seg_start d (c_dir_block ce)) a /\ reach d a ce /\ a' = a)
    \/ a' = step d4 ce
    \/ (after d ce a
        /\ a' = shifted (file_entry_length d (c_dir_block ce)) a) ->
    overflowed_segment d4 x' = false ->
    exists x,
      (reach d (seg_start d (c_dir_block ce)) x /\ reach d x ce /\ x' = x)
      \/ x' = step d4 ce
      \/ (after d ce x /\ overflowed_segment d x = false
          /\ x' = shifted (file_entry_length d (c_dir_block ce)) x).
Proof.
  pose proof (step_before d d4 ce nm k ptr) as SB. feed SB.
  pose proof (before_valid d d4 ce nm k ptr) as BV. feed BV.
  pose proof (step_rest d d4 ce nm k) as SR. feed SR.
  pose proof (step_after d d4 ce ptr) as SA. feed SA.
  pose proof (after_overflowed d d4 ce) as AO. feed AO.
  intros R. induction R as [a'|a' x' Ho R IH]; intros a Ha Hx.
  - exists a. destruct Ha as [Ha|[Ha|[Ha ->]]]; [auto|auto|].
    right. right. rewrite AO in Hx by exact Ha. auto.
  - destruct Ha as [(Hg & Hr & ->)|[->|(Ha & ->)]].
    + destruct (cursor_eq_dec a ce) as [->|Hne].
      * apply (IH ce); [right; left; reflexivity|exact Hx].
      * destruct (BV a Hg Hr) as (Hoa & _).
        destruct (SB a entry_zero) as (_ & S & Hb); [right; auto|exact Hne|exact Hoa|].
        apply (IH (step d a)); [|exact Hx]. left. rewrite S.
        destruct Hb as [Hb|[Hg' Hr']]; [|auto].
        exfalso. apply Hb. rewrite step_fields. cbn [c_dir_block].
        apply (BV a Hg Hr).
    + apply (IH (step d ce)); [|exact Hx]. right. right.
      split; [apply reach_here|exact SR].
    + rewrite AO in Ho by exact Ha.
      destruct (SA a Ha Ho) as [S Ha2].
      apply (IH (step d a)); [|exact Hx]. right. right. auto.
Qed.

Lemma listed_fits : fits d4.
Proof.
  pose proof (step_before d d4 ce nm k ptr) as SB. feed SB.
  pose proof (before_valid d d4 ce nm k ptr) as BV. feed BV.
  pose proof (ins_entry_length d d4 ce) as EL. feed EL.
  pose proof (ins_seg_start d d4 ce) as SS. feed SS.
  pose proof (ins_room d ce ptr) as IR. feed IR.
  pose proof (ins_width d ce) as IW. feed IW.
  pose proof (peek_new d d4 ce nm k) as PN. feed PN.
  pose proof (step_new d d4 ce nm k) as SN. feed SN.
  pose proof (peek_rest d d4 ce nm k) as PR. feed PR.
  pose proof (peek_after d d4 ce ptr) as PA. feed PA.
  pose proof (after_place d ce) as AP. feed AP.
  pose proof (ins_file_entry_length d d4 ce) as FE. feed FE.
  destruct IR as [Hp2 Hr2]. destruct IW as [Eel Hc].
  intros j x' R Ho.
  destruct (Z.eq_dec j (c_dir_block ce)) as [->|Hj].
  - destruct (listed_reach_back _ _ R (seg_start d (c_dir_block ce)))
      as (x & [(Hg & Hr & ->)|[->|(Ha & Hox & ->)]]).
    { left. split; [apply reach_here|]. split; [exact Hgrid|apply SS]. }
    { exact Ho. }
    + destruct (cursor_eq_dec x ce) as [->|Hne].
      * destruct (PN entry_zero) as (E1 & _).
        unfold entry_length. rewrite E1, dir_block_peek_entry, FE. lia.
      * destruct (BV x Hg Hr) as (Hox & _).
        destruct (SB x entry_zero) as (P & _); [right; auto|exact Hne|exact Hox|].
        rewrite P, (EL _ (peek_entry d x entry_zero)) by reflexivity.
        apply (Hfits _ _ Hg Hox).
    + destruct (PR entry_zero) as (E1 & _).
      unfold entry_length. rewrite E1, SN. cbn [c_entry].
      unfold empty_entry_length. lia.
    + destruct (AP x Ha) as (Hg & Hd & _).
      destruct (PA x entry_zero entry_zero Ha Hox) as (E1 & _).
      rewrite (EL _ (peek_entry d x entry_zero));
        [|exact E1|rewrite !dir_block_peek_entry; reflexivity].
      destruct (unused_ptr_tiles d _ _ _ x W Hptr Hg Hox) as [Ht _].
      unfold shifted. cbn [c_entry]. lia.
  - assert (Hs : seg d4 j = seg d j) by (apply H0, Hj).
    assert (Hd : c_dir_block x' = j).
    { apply reach_dir_block in R. exact R. }
    rewrite SS in R.
    assert (R' : reach d (seg_start d j) x').
    { apply (reach_same_seg d d4); [exact Hs|exact R]. }
    rewrite (overflowed_same_seg d d4) in Ho by (rewrite Hd; exact Hs).
    rewrite (peek_entry_same_seg d d4) by (rewrite Hd; exact Hs).
    rewrite (entry_length_same_seg d d4)
      by (rewrite dir_block_peek_entry, Hd; exact Hs).
    apply (Hfits _ _ R' Ho).
Qed.

End Listed.

(** ** The words of the new directory *)

Lemma Forall_shuffle_up (m : nat) :
  forall l src dst,
    Forall word12 l -> Forall word12 (shuffle_up_loop m l src dst).
Proof.
  induction m as [|m IH]; intros l src dst H; [exact H|].
  cbn [shuffle_up_loop]. apply IH. apply Forall_wr; [|exact H].
  apply word12_rd, H.
Qed.

Lemma words12_fix_segment_up (d : directory_t) (e : entry_t)
  (offset first_byte : Z) :
  words12 d -> words12 (fix_segment_up d e offset first_byte).
Proof.
  intros W. unfold fix_segment_up.
  match goal with
  | |- context [set_data d ?i ?l] =>
      assert (W1 : words12 (set_data d i l))
        by (apply words12_set_data; [exact W|];
            unfold shuffle_words_up; apply Forall_shuffle_up, W);
      set (d1 := set_data d i l) in *
  end.
  destruct (negb (flag_word d1 (dir_block e) =? 0)
            && (flag_word d1 (dir_block e) - 768 >? entry e)); [|exact W1].
  apply words12_poke; [exact W1|].
  pose proof (Z.mod_pos_bound (flag_word d1 (dir_block e) + offset) (2 ^ 32)
                ltac:(lia)) as Hm.
  destruct ((flag_word d1 (dir_block e) + offset) mod 2 ^ 32 >? 1023) eqn:E;
    [lia|]. rewrite Z.gtb_ltb in E. apply Z.ltb_ge in E. lia.
Qed.

Lemma words12_poke_list (ws : list Z) :
  forall d i off,
    words12 d -> Forall word12 ws -> words12 (poke_list d i off ws).
Proof.
  induction ws as [|w ws IH]; intros d i off W H; [exact W|].
  inversion H as [|? ? Hw Hws]; subst. cbn [poke_list].
  apply IH; [|exact Hws]. apply words12_poke; [exact W|exact Hw].
Qed.

Lemma words12_put_entry_file (d : directory_t) (e : entry_t) :
  words12 d -> empty_file e = false ->
  Forall word12 (name e) ->
  (forall t, (t < Z.to_nat (Z.min 10 (additional_count e)))%nat ->
             word12 (nth t (e_additional_words e) 0)) ->
  0 <= e_length e < 4096 ->
  words12 (put_entry d e).
Proof.
  intros W He Hn Ha Hl. unfold put_entry. rewrite He.
  apply words12_poke; [|apply negate_count; exact Hl].
  apply words12_poke_list.
  - apply words12_poke_list; [apply words12_mark_dirty, W|].
    apply Forall_forall. intros w Hw. apply in_map_iff in Hw as (t & <- & _).
    destruct (Nat.lt_ge_cases t (List.length (name e))) as [Ht|Ht].
    + rewrite Forall_forall in Hn. apply Hn, nth_In, Ht.
    + rewrite nth_overflow by exact Ht. unfold word12. lia.
  - apply Forall_forall. intros w Hw. apply in_map_iff in Hw as (t & <- & Ht).
    apply in_seq in Ht. apply Ha. lia.
Qed.

Lemma entered_words12 (d : directory_t) (e : entry_t) (filename : string)
  (k ptr : Z) :
  shape d -> words12 d -> 0 <= dir_block e < 6 -> 5 <= entry e ->
  negate (additional_words d (dir_block e)) < 10 ->
  entry e + 2 <= ptr -> ptr + file_entry_length d (dir_block e) + 2 < 256 ->
  word d (dir_block e) (entry e) = 0 ->
  0 <= k <= u16 (negate (word d (dir_block e) (entry e + 1))) ->
  number_files d (dir_block e) <> 0 ->
  Forall word12 (build_sixbit filename) ->
  words12 (entered_directory filename k (file_entry_length d (dir_block e))
             d e ptr).
Proof.
  intros Sh W Hi Hp Hcnt Hptr Hroom Hempty Hk Hnf Hnm.
  pose proof (file_entry_fields d e filename k ptr) as FF. feed FF.
  pose proof (rest_entry_fields d e filename k ptr) as RF. feed RF.
  pose proof (entry_width d e) as EW. feed EW.
  destruct EW as [Eel Hc].
  destruct FF as (F1 & F2 & _ & _ & _ & _ & F7 & F8).
  destruct RF as (R1 & _ & _ & R4).
  pose proof (negate_count _ (word12_word d (dir_block e) (entry e + 1) W))
    as HL.
  rewrite u16_small in Hk by lia.
  unfold entered_directory. cbv zeta.
  set (d2 := enter_opened (file_entry_length d (dir_block e)) d e ptr) in *.
  set (e1 := enter_file_entry filename k d2 e) in *.
  set (d3 := put_entry d2 e1) in *.
  set (e2 := enter_rest_entry d3 e1) in *.
  assert (W2 : words12 d2).
  { unfold d2, enter_opened. apply words12_bump_number_files;
      [apply words12_fix_segment_up, W|].
    unfold number_files in *.
    rewrite word_fix_segment_up by (assumption || lia).
    replace ((entry e + file_entry_length d (dir_block e) <=? 0)
             && (0 <=? ptr + file_entry_length d (dir_block e)))
      with false by (symmetry; apply andb_false_iff; left; apply Z.leb_gt; lia).
    pose proof (word12_word d (dir_block e) 0 W) as H0. unfold word12 in H0.
    lia. }
  assert (W3 : words12 d3).
  { unfold d3. apply words12_put_entry_file; [exact W2|exact F1| | |].
    - rewrite F2. exact Hnm.
    - intros t Ht. unfold e1, enter_file_entry, set_file in *.
      cbn [e_additional_words additional_count] in *.
      rewrite app_nth1 by (rewrite repeat_length; exact Ht).
      rewrite nth_repeat. unfold word12. lia.
    - rewrite F7, u16_small by lia. lia. }
  apply words12_put_entry_empty; [exact W3|exact R1|].
  cbn [set_length e_length]. rewrite R4.
  rewrite (u16_small (negate _)) by lia. rewrite u16_small by lia. lia.
Qed.

Lemma entered_shape (d : directory_t) (e : entry_t) (filename : string)
  (k nel ptr : Z) :
  shape d -> shape (entered_directory filename k nel d e ptr).
Proof.
  intros Sh. unfold entered_directory, enter_opened. cbv zeta.
  apply put_entry_spec, put_entry_spec, bump_number_files_spec,
    fix_segment_up_spec, Sh.
Qed.

(** ** The directory that [enter] hands to [consolidate] *)

(** A file that goes into the empty entry at [ce] of a directory whose
    segment has room: the new directory is sound, and it lists what the
    old one lists before [ce], and then the file. *)
Lemma entered_sound (fuel g : nat) (filename : string) (k : Z)
  (d : directory_t) (ce : cursor_t) (old : entry_t) (ptr : Z)
  (es : list entry_t) :
  shape d -> words12 d -> ascending d -> fits d ->
  os8_filename_p filename = true ->
  os8_contains_wildcard_p filename = false ->
  visits d (init_cursor d) ce ->
  empty_file (peek_entry d ce old) = true ->
  0 < k <= e_length (peek_entry d ce old) ->
  validate_directory fuel d = Some true ->
  get_unused_ptr d (c_dir_block ce)
    ((file_entry_length d (c_dir_block ce) + empty_entry_length) mod 2 ^ 32)
  = Some (Some ptr) ->
  directory_entries g d = Some es ->
  exists es4 pre post post4,
    shape (entered_directory filename k
             (file_entry_length d (c_dir_block ce)) d (peek_entry d ce old)
             ptr)
    /\ words12 (entered_directory filename k
                  (file_entry_length d (c_dir_block ce)) d
                  (peek_entry d ce old) ptr)
    /\ ascending (entered_directory filename k
                    (file_entry_length d (c_dir_block ce)) d
                    (peek_entry d ce old) ptr)
    /\ fits (entered_directory filename k
               (file_entry_length d (c_dir_block ce)) d
               (peek_entry d ce old) ptr)
    /\ init_cursor (entered_directory filename k
                      (file_entry_length d (c_dir_block ce)) d
                      (peek_entry d ce old) ptr) = init_cursor d
    /\ directory_entries (S g)
         (entered_directory filename k
            (file_entry_length d (c_dir_block ce)) d (peek_entry d ce old)
            ptr) = Some es4
    /\ map row_of es = pre ++ row_of (peek_entry d ce entry_zero) :: post
    /\ map row_of es4
       = pre ++ mk_row (c_file_number ce =? 1) (c_dir_block ce) false
                  (stored_name (build_sixbit filename)) (c_next_block ce) k
             :: post4.
Proof.
  intros Sh W Asc Hfits Hname Hwild Hv Hemp Hk Hval Hptr Hes.
  destruct (legal_sixbit filename Hname Hwild) as (_ & Wnm & _ & Hn0).
  assert (Hnm : u16 (nth 0 (build_sixbit filename) 0) <> 0).
  { rewrite Forall_forall in Wnm.
    destruct (build_sixbit filename) as [|n0 rest]; [contradiction|].
    cbn [nth] in *. pose proof (Wnm n0 (or_introl eq_refl)) as H.
    unfold word12 in H. rewrite u16_small by lia. exact Hn0. }
  destruct (place_peek d ce old) as (Een & Efb & Efn).
  assert (Hempty : word d (c_dir_block ce) (c_entry ce) = 0).
  { rewrite empty_file_peek in Hemp. apply Z.eqb_eq, Hemp. }
  assert (El : e_length (peek_entry d ce old)
               = u16 (negate (word d (c_dir_block ce) (c_entry ce + 1)))).
  { rewrite e_length_peek, Hempty. reflexivity. }
  rewrite El in Hk.
  pose proof (visits_valid _ _ _ Hv) as Hvalid.
  pose proof (visits_grid _ _ _ Hv (reach_here d (seg_start d 0))) as Hgrid.
  destruct (validated_segment fuel d ce W Hval Hv) as [Hsane Hi].
  unfold segment_sane in Hsane.
  apply andb_true_iff in Hsane as [Hsane _].
  apply andb_true_iff in Hsane as [Hsane Hcnt].
  apply andb_true_iff in Hsane as [Hsane Hcount].
  apply andb_true_iff in Hsane as [_ Hnf].
  apply negb_true_iff in Hnf. zbool.
  destruct (ins_width d ce W Hcnt) as [Eel Hcn].
  unfold empty_entry_length in Hptr.
  change (2 ^ 32) with 4294967296 in Hptr.
  rewrite Z.mod_small in Hptr by lia.
  destruct (ins_room d ce ptr W Hgrid Hvalid Hempty Hptr) as [Hp2 Hr2].
  destruct (ins_place d ce W Hgrid Hvalid) as [Hp5 Hfn].
  set (e := peek_entry d ce old) in *.
  assert (Edb : dir_block e = c_dir_block ce) by apply dir_block_peek_entry.
  assert (Hk0 : 0 <= k
                <= u16 (negate (word d (c_dir_block ce) (c_entry ce + 1))))
    by lia.
  assert (Hwords := entered_words d e filename k ptr Sh W).
  assert (Hother := entered_other d e filename k ptr Sh W).
  assert (HW4 := entered_words12 d e filename k ptr Sh W).
  rewrite Edb, Een in Hwords, Hother, HW4.
  specialize (Hwords Hi Hp5 Hcnt Hp2 Hr2 Hempty).
  specialize (Hother Hi Hp5 Hcnt Hp2 Hr2 Hempty).
  specialize (HW4 Hi Hp5 Hcnt Hp2 Hr2 Hempty Hk0 Hnf Wnm).
  destruct Hwords as (K1 & K2 & K3 & K4 & K5 & K6 & K7).
  set (d4 := entered_directory filename k
               (file_entry_length d (c_dir_block ce)) d e ptr) in *.
  assert (Einit : init_cursor d4 = init_cursor d)
    by apply (ins_seg_start d d4 ce W Hgrid Hvalid Hother K2 0).
  assert (Hb0 : before d ce (init_cursor d)).
  { destruct (Z.eq_dec 0 (c_dir_block ce)) as [E0|E0].
    - right. rewrite <- E0 in *. split; [apply reach_here|exact Hgrid].
    - left. exact E0. }
  pose proof (listed_entries_to d d4 ce (build_sixbit filename) k ptr) as LT.
  feed LT.
  destruct (LT g (init_cursor d) entry_zero entry_zero es Hb0 Hv Hes)
    as (es4 & pre & post & post4 & E4 & R & R4).
  exists es4, pre, post, post4.
  split; [apply entered_shape, Sh|]. split; [exact HW4|].
  split; [apply (listed_ascending d d4 ce); assumption|].
  split; [apply (listed_fits d d4 ce (build_sixbit filename) k ptr);
          assumption|].
  split; [exact Einit|].
  split; [unfold directory_entries; rewrite Einit; exact E4|].
  split; [exact R|].
  rewrite R4. do 2 f_equal.
  destruct (peek_new d d4 ce (build_sixbit filename) k W Hgrid Hvalid Hcnt Hk
              Hnm Hother K2 K3 K4 entry_zero) as (P1 & P2 & P3).
  destruct (place_peek d4 ce entry_zero) as (_ & Q2 & Q3).
  unfold row_of. rewrite P1, P2, P3, Q2, Q3, dir_block_peek_entry.
  reflexivity.
Qed.


(** * allocate_os8_file and the listing *)

Lemma file_matches_row_of (p : pattern_t) (e : entry_t) :
  file_matches p e = row_matches p (row_of e).
Proof.
  unfold file_matches, row_matches, row_of. cbn [r_empty r_len r_name].
  destruct (empty_file e); reflexivity.
Qed.

(** [lookup] finds nothing, or the first file that the pattern matches;
    with that file deleted the directory is sound and lists the file as
    an empty entry. *)
Lemma lookup_delete (p : pattern_t) (f : nat) :
  forall d c e0 es g,
    shape d -> words12 d -> ascending d -> fits d ->
    reach d (seg_start d (c_dir_block c)) c ->
    entries_loop f d c e0 = Some es -> (f <= g)%nat ->
    (exists c',
        lookup_loop g p d c = Some (None, c')
        /\ filter (row_matches p) (map row_of es) = [])
    \/ (exists x a es1 pre rx post,
           lookup_loop g p d c = Some (Some x, a)
           /\ shape (fst (delete_entry d x))
           /\ words12 (fst (delete_entry d x))
           /\ ascending (fst (delete_entry d x))
           /\ fits (fst (delete_entry d x))
           /\ entries_loop f (fst (delete_entry d x)) c e0 = Some es1
           /\ map row_of es = pre ++ rx :: post
           /\ filter (row_matches p) pre = []
           /\ row_matches p rx = true
           /\ map row_of es1 = pre ++ delete_row p rx :: post
           /\ frame c d (fst (delete_entry d x))).
Proof.
  induction f as [|f IH]; intros d c e0 es g Sh W Asc Hfits Hg E Hf;
    [discriminate|].
  destruct g as [|g]; [lia|].
  rewrite entries_loop_S in E. rewrite lookup_loop_S.
  destruct (valid_entry (S f) d c) as [[b c1]|] eqn:V; [|discriminate].
  rewrite (valid_entry_mono _ _ _ _ (S g) V) by lia.
  destruct b.
  2:{ injection E as <-. left. exists c1. split; reflexivity. }
  pose proof (valid_entry_true _ _ _ _ V) as Ho1.
  pose proof (valid_entry_grid d _ _ _ V Hg) as Hg1.
  destruct (entries_loop f d (step d c1) (peek_entry d c1 e0)) as [rest|] eqn:E1;
    [|discriminate].
  cbn [option_map] in E. injection E as <-. cbn [map filter].
  rewrite (file_matches_row p d c1 entry_zero e0).
  destruct (row_matches p (row_of (peek_entry d c1 e0))) eqn:M.
  - right.
    assert (Ex : empty_file (peek_entry d c1 entry_zero) = false).
    { apply row_matches_empty in M. unfold row_of in M. cbn [r_empty] in M.
      rewrite empty_file_peek in *. exact M. }
    destruct (deleted_facts d c1 entry_zero Sh W Asc Hfits Hg1 Ho1 Ex)
      as (Sh2 & W2 & A2 & F2 & D0 & D1 & G2 & V2 & S2 & R2 & RS & FB).
    match type of Sh2 with
    | shape ?t => set (d2 := t) in *
    end.
    destruct (RS f (step d c1) (peek_entry d c1 e0) (peek_entry d2 c1 e0) rest
                (reach_here d _) E1) as (rest' & E2 & R3).
    rewrite <- S2 in E2.
    assert (F1 : frame c1 d d2).
    { apply (frame_after d d2 d2 c1 D0); try assumption.
      - intros q Hq _ H3. apply D1; assumption.
      - apply frame_refl; assumption. }
    destruct (frame_pre (S f) d d2 c c1 W Asc Hg V F1) as (F0 & V').
    exists (peek_entry d c1 entry_zero), (step d c1),
      (peek_entry d2 c1 e0 :: rest'), [],
      (row_of (peek_entry d c1 e0)), (map row_of rest).
    split; [reflexivity|]. fold d2.
    split; [exact Sh2|]. split; [exact W2|]. split; [exact A2|].
    split; [exact F2|].
    split; [rewrite entries_loop_S, V', E2; reflexivity|].
    split; [reflexivity|]. split; [reflexivity|]. split; [exact M|].
    split; [|exact F0].
    cbn [map app]. rewrite R3, R2. f_equal.
    unfold delete_row. rewrite M. rewrite row_of_peek.
    cbn [r_first r_seg r_block r_len]. reflexivity.
  - destruct (IH d (step d c1) (peek_entry d c1 e0) rest g Sh W Asc Hfits
                (reach_snoc d _ c1 Hg1 Ho1) E1 ltac:(lia))
      as [(c' & L & Fe)|(x & a & es1 & pre & rx & post & L & Sh2 & W2 & A2
                         & F2 & E2 & R & Fp & Mx & R1 & F)].
    + left. exists c'. split; [exact L|exact Fe].
    + right.
      destruct (frame_step d _ c1 W Hg1 Ho1 F) as (F1 & P & St).
      destruct (frame_pre (S f) d _ c c1 W Asc Hg V F1) as (F0 & V').
      exists x, a, (peek_entry d c1 e0 :: es1),
        (row_of (peek_entry d c1 e0) :: pre), rx, post.
      split; [exact L|]. split; [exact Sh2|]. split; [exact W2|].
      split; [exact A2|]. split; [exact F2|].
      split; [rewrite entries_loop_S, V', P, St, E2; reflexivity|].
      split; [cbn [app]; rewrite R; reflexivity|].
      split; [cbn [filter]; rewrite M; exact Fp|]. split; [exact Mx|].
      split; [cbn [map app]; rewrite R1; reflexivity|exact F0].
Qed.

Lemma delete_row_none (p : pattern_t) (rs : list row) :
  filter (row_matches p) rs = [] -> map (delete_row p) rs = rs.
Proof.
  induction rs as [|r rs IH]; [reflexivity|]. cbn [filter map].
  unfold delete_row at 1.
  destruct (row_matches p r); [discriminate|].
  intros H. rewrite (IH H). reflexivity.
Qed.

(** What [allocate_os8_file] leaves: the directory lists the files of the
    name as empty entries, and the entry handed out is one that the walk
    reads. *)
Lemma allocate_rows (fuel : nat) (filename : string) (size : Z)
  (d : directory_t) (entry0 : entry_t) (es : list entry_t) (ok : bool)
  (d1 : directory_t) (e : entry_t) :
  shape d -> words12 d -> ascending d -> fits d ->
  directory_entries fuel d = Some es ->
  (List.length (filter (row_matches (build_pattern (strip_device filename)))
                  (map row_of es)) <= 1)%nat ->
  allocate_os8_file fuel filename size d entry0 = Some (ok, d1, e) ->
  shape d1 /\ words12 d1 /\ ascending d1 /\ fits d1
  /\ init_cursor d1 = init_cursor d
  /\ (exists es1,
         directory_entries fuel d1 = Some es1
         /\ map row_of es1
            = map (delete_row (build_pattern (strip_device filename)))
                  (map row_of es))
  /\ (e_length e = 0
      \/ exists ce old,
          visits d1 (init_cursor d1) ce /\ e = peek_entry d1 ce old
          /\ empty_file e = true).
Proof.
  intros Sh W Asc Hfits Hes Hone Halloc.
  unfold allocate_os8_file, lookup in Halloc.
  unfold directory_entries in Hes.
  set (p := build_pattern (strip_device filename)) in *.
  assert (Hg : reach d (seg_start d (c_dir_block (init_cursor d)))
                     (init_cursor d)) by apply reach_here.
  assert (Hkey :
            exists exclude_entry,
              get_empty_entry fuel d1 exclude_entry entry0 size = Some (ok, e)
              /\ shape d1 /\ words12 d1 /\ ascending d1 /\ fits d1
              /\ init_cursor d1 = init_cursor d
              /\ exists es1,
                  directory_entries fuel d1 = Some es1
                  /\ map row_of es1 = map (delete_row p) (map row_of es)).
  { destruct (lookup_delete p fuel d (init_cursor d) entry_zero es fuel
                Sh W Asc Hfits Hg Hes (Nat.le_refl _))
      as [(c' & L & Fe)|(x & a & es1 & pre & rx & post & L & Sh2 & W2 & A2
                         & F2 & E2 & R & Fp & Mx & R1 & F)];
      rewrite L in Halloc.
    - destruct (get_empty_entry fuel d entry_zero entry0 size)
        as [[ok' e']|] eqn:G; [|discriminate].
      injection Halloc as <- <- <-.
      exists entry_zero. split; [exact G|]. repeat (split; [assumption|]).
      split; [reflexivity|]. exists es. split; [exact Hes|].
      symmetry. apply delete_row_none, Fe.
    - destruct (delete_entry d x) as [d2 ex] eqn:D. cbn [fst] in *.
      destruct (get_empty_entry fuel d2 ex entry0 size)
        as [[ok' e']|] eqn:G; [|discriminate].
      injection Halloc as <- <- <-.
      exists ex. split; [exact G|]. repeat (split; [assumption|]).
      assert (Ei : init_cursor d2 = init_cursor d).
      { destruct F as (_ & _ & _ & _ & F5 & _). unfold init_cursor.
        rewrite F5. reflexivity. }
      split; [exact Ei|].
      exists es1. split; [unfold directory_entries; rewrite Ei; exact E2|].
      rewrite R1, R in *. rewrite filter_app in Hone. cbn [filter] in Hone.
      rewrite Fp, Mx in Hone. cbn [app List.length] in Hone.
      assert (Fq : filter (row_matches p) post = []).
      { destruct (filter (row_matches p) post); [reflexivity|].
        cbn [List.length] in Hone. lia. }
      rewrite map_app. cbn [map].
      rewrite (delete_row_none p pre Fp), (delete_row_none p post Fq).
      reflexivity. }
  destruct Hkey as (ex & G & Sh1 & W1 & A1 & F1 & Ei & Hes1).
  repeat (split; [assumption|]).
  unfold get_empty_entry in G.
  destruct (get_empty_entry_loop fuel d1 ex size (init_cursor d1) entry_zero
              (set_length entry0 0)) as [best|] eqn:Hloop; [|discriminate].
  injection G as _ ->.
  destruct (empty_entry_visits _ _ _ _ _ _ _ _ Hloop)
    as [->|(ce & old & Hv & -> & Hemp & _)].
  - left. reflexivity.
  - right. exists ce, old. auto.
Qed.

(** ** The blocks that [stream_host_image_file] writes *)

Lemma stream_host_loop_fits (write_block : block_writer) (e : entry_t)
  (fuel : nat) :
  forall img input block_no img' block_no',
    stream_host_loop fuel write_block img input e block_no
      = Some (Some (img', block_no')) ->
    (block_no' = block_no \/ block_no' <= e_length e)
    /\ (Z.to_nat (block_no' - block_no) < fuel)%nat.
Proof.
  induction fuel as [|fuel IH]; intros img input bn img' bn' Hrun;
    [discriminate|].
  cbn [stream_host_loop] in Hrun.
  destruct (fread_words (Z.to_nat OS8_BLOCK_SIZE) input) as [ws rest].
  destruct (Z.of_nat (List.length ws) >? 0).
  - destruct (bn >=? e_length e) eqn:Hb; [discriminate|].
    destruct (write_block img (file_block e + bn) _) as [img1|];
      [|discriminate].
    destruct (IH _ _ _ _ _ Hrun) as [[->|H] Hf];
      rewrite Z.geb_leb in Hb; apply Z.leb_gt in Hb; split; lia.
  - injection Hrun as _ <-. split; [left; reflexivity|lia].
Qed.

(** ** Rows and blocks *)

Lemma no_zero_prefix (pre post : list row) :
  no_zero_empty (pre ++ post) = true -> no_zero_empty pre = true.
Proof.
  unfold no_zero_empty. rewrite forallb_app. intros H.
  apply andb_true_iff in H. apply H.
Qed.

Lemma total_length_app (pre post : list row) :
  total_length (pre ++ post) = total_length pre + total_length post.
Proof.
  induction pre as [|r pre IH]; [reflexivity|].
  cbn [app]. rewrite !total_length_cons, IH. lia.
Qed.

Lemma filter_none_Forall (p : pattern_t) (rs : list row) :
  filter (row_matches p) rs = [] ->
  Forall (fun r => row_matches p r = false) rs.
Proof.
  induction rs as [|r rs IH]; [constructor|]. cbn [filter].
  destruct (row_matches p r) eqn:M; [discriminate|].
  intros H. constructor; [exact M|apply IH, H].
Qed.

Lemma delete_row_unmatched (p : pattern_t) (rs : list row) :
  Forall (fun r => row_matches p r = false) (map (delete_row p) rs).
Proof.
  induction rs as [|r rs IH]; [constructor|]. cbn [map].
  constructor; [|exact IH]. unfold delete_row.
  destruct (row_matches p r) eqn:M; [reflexivity|exact M].
Qed.

Lemma valid_entry_start (f : nat) :
  forall d c c1,
    valid_entry f d c = Some (true, c1) ->
    c1 = c \/ c1 = seg_start d (c_dir_block c1).
Proof.
  induction f as [|f IH]; intros d c c1 V; [discriminate|].
  cbn [valid_entry] in V.
  destruct (overflowed_segment d c).
  - destruct (next_segment d (c_dir_block c) =? 0); [discriminate|].
    destruct (next_segment d (c_dir_block c) >? DIR_LENGTH); [discriminate|].
    destruct (IH _ _ _ V) as [->|H]; [right; reflexivity|right; exact H].
  - injection V as <-. left. reflexivity.
Qed.

(** The first block of a listed entry lies within the blocks of the
    entries before it. *)
Lemma row_block_bound (f : nat) :
  forall d c e0 es pre r post,
    words12 d -> ascending d ->
    entries_loop f d c e0 = Some es ->
    map row_of es = pre ++ r :: post ->
    0 <= c_next_block c ->
    0 <= r_block r <= Z.max (c_next_block c) 4095 + total_length pre.
Proof.
  induction f as [|f IH]; intros d c e0 es pre r post W Asc E R Hc;
    [discriminate|].
  rewrite entries_loop_S in E.
  destruct (valid_entry (S f) d c) as [[b c1]|] eqn:V; [|discriminate].
  destruct b; [|injection E as <-; destruct pre; discriminate].
  destruct (entries_loop f d (step d c1) (peek_entry d c1 e0)) as [rest|] eqn:E1;
    [|discriminate].
  cbn [option_map] in E. injection E as <-. cbn [map] in R.
  assert (Hc1 : 0 <= c_next_block c1 <= Z.max (c_next_block c) 4095).
  { destruct (valid_entry_start _ _ _ _ V) as [->|Hs]; [lia|].
    rewrite Hs. cbn [seg_start c_next_block c_dir_block].
    pose proof (word12_word d (c_dir_block c1) 1 W) as H1.
    unfold word12 in H1. fold (first_file_block d (c_dir_block c1)) in H1.
    lia. }
  pose proof (e_length_nonneg d c1 entry_zero) as NNx.
  destruct pre as [|r0 pre].
  - cbn [app] in R. injection R as <- _.
    rewrite row_of_peek. cbn [r_block]. change (total_length []) with 0. lia.
  - cbn [app] in R. injection R as <- R.
    rewrite total_length_cons, row_of_peek. cbn [r_len].
    assert (Hs : 0 <= c_next_block (step d c1)
                 <= c_next_block c1 + e_length (peek_entry d c1 entry_zero)).
    { rewrite step_fields. cbn [c_next_block].
      unfold u16.
      pose proof (Z.mod_pos_bound (c_next_block c1
                                   + e_length (peek_entry d c1 entry_zero))
                    65536 ltac:(lia)).
      pose proof (Z.mod_le (c_next_block c1
                            + e_length (peek_entry d c1 entry_zero))
                    65536 ltac:(lia) ltac:(lia)).
      lia. }
    pose proof (IH d (step d c1) _ rest pre r post W Asc E1 R ltac:(lia)).
    lia.
Qed.


(** * The binary round trip *)

Lemma init_cursor_same (d d' : directory_t) :
  (forall j, first_file_block d' j = first_file_block d j) ->
  init_cursor d' = init_cursor d.
Proof. intros H. unfold init_cursor. rewrite H. reflexivity. Qed.

(** ** The directory after [enter] and both runs of [consolidate] *)

(** A sound directory that lists the rows [pre] and then a file that the
    pattern matches: after two runs of [consolidate], [lookup] finds the
    file, at its blocks and with its length. *)
Lemma consolidated_twice (p : pattern_t) (fuel g fuel' : nat)
  (d4 d5 d6 : directory_t) (es4 : list entry_t) (pre : list row) (rF : row)
  (post : list row) :
  shape d4 -> words12 d4 -> ascending d4 -> fits d4 ->
  directory_entries g d4 = Some es4 ->
  map row_of es4 = pre ++ rF :: post ->
  no_zero_empty pre = true ->
  Forall (fun r => row_matches p r = false) pre ->
  row_matches p rF = true ->
  total_length pre < 4096 ->
  consolidate fuel d4 = Some d5 ->
  consolidate fuel d5 = Some d6 ->
  (g <= fuel')%nat ->
  exists x c,
    lookup_loop fuel' p d6 (init_cursor d6) = Some (Some x, c)
    /\ file_block x = r_block rF /\ e_length x = r_len rF.
Proof.
  intros Sh W Asc Hfits Hes R NZ NM MF TL C1 C2 Hg.
  unfold consolidate, directory_entries in *.
  destruct (consolidate_prefix p fuel g d4 (init_cursor d4) entry_zero
              entry_zero entry_zero es4 pre rF post d5 Sh W Asc Hfits
              (reach_here d4 _) Hes R NZ NM MF TL C1)
    as (dG & cF & WG & AG & F & Q & Kb & Kl & Sh5 & Cs5 & St5 & _).
  assert (EG : init_cursor dG = init_cursor d4)
    by (apply init_cursor_same, F).
  assert (E5 : init_cursor d5 = init_cursor d4).
  { rewrite <- EG. apply init_cursor_same, St5. }
  assert (HgG : reach dG (seg_start dG (c_dir_block (init_cursor d4)))
                      (init_cursor d4)).
  { rewrite <- EG. apply reach_here. }
  rewrite E5 in C2.
  destruct (consolidate_quiet p dG cF g (init_cursor d4) Q WG AG HgG fuel d5
              _ _ d6 Sh5 Cs5 St5 C2) as (Sh6 & Cs6 & St6).
  assert (E6 : init_cursor d6 = init_cursor d4).
  { rewrite <- EG. apply init_cursor_same, St6. }
  rewrite E6.
  exists (peek_entry dG cF entry_zero), (step dG cF).
  split; [|split; [exact Kb|exact Kl]].
  apply (lookup_loop_mono p g); [|exact Hg].
  apply (lookup_quiet p dG cF g (init_cursor d4) Q WG AG HgG d6 St6).
Qed.

(** ** A file entered where its segment has room *)

(** [enter_finish] and the second run of [consolidate], on a sound
    directory that lists no file of the name: [lookup] finds the new file
    at the blocks of the empty entry it went into. *)
Lemma entered_found (fuel g fuel' : nat) (filename : string) (k : Z)
  (d : directory_t) (ce : cursor_t) (old : entry_t) (ptr : Z)
  (es : list entry_t) (d5 d6 : directory_t) :
  shape d -> words12 d -> ascending d -> fits d ->
  os8_filename_p filename = true ->
  os8_contains_wildcard_p filename = false ->
  directory_entries g d = Some es ->
  no_zero_empty (map row_of es) = true ->
  total_length (map row_of es) < 4096 ->
  Forall (fun r => row_matches (build_pattern (strip_device filename)) r
                   = false) (map row_of es) ->
  visits d (init_cursor d) ce ->
  empty_file (peek_entry d ce old) = true ->
  0 < k <= e_length (peek_entry d ce old) ->
  get_unused_ptr d (c_dir_block ce)
    ((file_entry_length d (c_dir_block ce) + empty_entry_length) mod 2 ^ 32)
  = Some (Some ptr) ->
  enter_finish fuel filename k (file_entry_length d (c_dir_block ce)) d
    (peek_entry d ce old) ptr = Some (true, d5) ->
  consolidate fuel d5 = Some d6 ->
  (g < fuel')%nat ->
  exists x c,
    lookup fuel' filename d6 (init_cursor d6) = Some (Some x, c)
    /\ file_block x = c_next_block ce /\ e_length x = k
    /\ 0 <= c_next_block ce /\ c_next_block ce + k < 65536.
Proof.
  intros Sh W Asc Hfits Hname Hwild Hes NZ TL NM Hv Hemp Hk Hptr Hfin C2 Hg.
  destruct (enter_finish_entered _ _ _ _ _ _ _ _ Hfin) as [Hval C1].
  destruct (entered_sound fuel g filename k d ce old ptr es Sh W Asc Hfits
              Hname Hwild Hv Hemp Hk Hval Hptr Hes)
    as (es4 & pre & post & post4 & Sh4 & W4 & A4 & F4 & Ei & Hes4 & R & R4).
  set (p := build_pattern (strip_device filename)) in *.
  pose proof (entries_nonneg _ _ _ _ _ Hes) as NN.
  rewrite R in NZ, TL, NM, NN.
  apply Forall_app in NM as [NMp _]. apply Forall_app in NN as [NNp NNq].
  pose proof (total_length_nonneg _ NNp) as TLp.
  pose proof (total_length_nonneg _ NNq) as TLq.
  rewrite total_length_app in TL.
  rewrite total_length_cons, row_of_peek in TLq, TL. cbn [r_len] in TLq, TL.
  pose proof (e_length_nonneg d ce entry_zero) as NNe.
  assert (Ele : e_length (peek_entry d ce old)
                = e_length (peek_entry d ce entry_zero))
    by (rewrite !e_length_peek; reflexivity).
  rewrite Ele in Hk.
  assert (MF : row_matches p
                 (mk_row (c_file_number ce =? 1) (c_dir_block ce) false
                    (stored_name (build_sixbit filename)) (c_next_block ce) k)
               = true).
  { unfold row_matches. cbn [r_empty r_len r_name negb andb].
    replace (k =? 0) with false by (symmetry; apply Z.eqb_neq; lia).
    cbn [negb andb]. unfold p.
    apply (pattern_same_name filename filename); auto. }
  destruct (consolidated_twice p fuel (S g) fuel' _ d5 d6 es4 pre _ post4
              Sh4 W4 A4 F4 Hes4 R4 (no_zero_prefix _ _ NZ) NMp MF
              ltac:(lia) C1 C2 ltac:(lia))
    as (x & c & L & Kb & Kl).
  cbn [r_block r_len] in Kb, Kl.
  exists x, c. split; [exact L|]. split; [exact Kb|]. split; [exact Kl|].
  unfold directory_entries in Hes.
  pose proof (row_block_bound g d (init_cursor d) entry_zero es pre _ post
                W Asc Hes R) as Hb.
  rewrite row_of_peek in Hb. cbn [r_block] in Hb.
  pose proof (word12_word d 0 1 W) as H1. unfold word12 in H1.
  fold (first_file_block d 0) in H1.
  cbn [init_cursor c_next_block] in Hb. specialize (Hb ltac:(lia)).
inversion NNq as [|? ? _ NNpost]; subst.
  pose proof (total_length_nonneg _ NNpost). lia.
Qed.

(** ** The copy to the image and back *)

Lemma blocks_for_positive (input : list Z) :
  input <> [] -> 0 < blocks_for (Z.of_nat (List.length input)).
Proof.
  intros Hne. unfold blocks_for, OS8_BLOCK_SIZE.
  assert (0 < Z.of_nat (List.length input))
    by (destruct input; [contradiction|cbn [List.length]; lia]).
  Z.to_euclidean_division_equations; lia.
Qed.

Lemma copy_blocks (write_block : block_writer) (fuel : nat) (img : image)
  (input : list Z) (d : directory_t) (outputname : string)
  (d1 : directory_t) (e : entry_t) (d' : directory_t) (img' : image) :
  Nat.even (List.length input) = true -> input <> [] ->
  allocate_os8_file fuel outputname
    (((Z.of_nat (List.length input) + (OS8_BLOCK_SIZE - 1) * 2) mod 2 ^ 32)
     / (OS8_BLOCK_SIZE * 2)) d entry_zero = Some (true, d1, e) ->
  stream_host_image_file fuel write_block img input d outputname
      (Z.of_nat (List.length input)) = Some (true, d', img') ->
  0 < blocks_for (Z.of_nat (List.length input)) <= e_length e
  /\ (Z.to_nat (blocks_for (Z.of_nat (List.length input))) < fuel)%nat.
Proof.
  intros HE Hne Halloc Hcopy.
  pose proof (blocks_for_positive input Hne) as Hk.
  unfold stream_host_image_file in Hcopy. rewrite Halloc in Hcopy.
  destruct (stream_host_loop fuel write_block img input e 0)
    as [[[img1 block_no]|]|] eqn:Hloop; try discriminate.
  pose proof (stream_host_loop_count _ _ _ _ _ _ _ _ Hloop) as Hc.
  destruct (stream_host_loop_fits _ _ _ _ _ _ _ _ Hloop) as [Hf Hfu].
  pose proof (length_host_words input HE) as Lhw.
  assert (Ek : block_no = blocks_for (Z.of_nat (List.length input))).
  { rewrite Hc. unfold blocks_for, OS8_BLOCK_SIZE.
    replace (Z.of_nat (List.length input))
      with (2 * Z.of_nat (List.length (host_words input))) by lia.
    Z.to_euclidean_division_equations; lia. }
  rewrite Ek in *. rewrite Z.sub_0_r in Hfu. split; [|exact Hfu]. lia.
Qed.

(** ** Where the round trip ends *)

(** When [enter] has to append a segment, the new file is listed away
    from its blocks: in [packed_directory] the blocks of ZZ are written
    from block 48 on, and the directory lists ZZ at block 64160. *)
Lemma appended_file_misplaced :
  exists d1 e d' x c,
    allocate_os8_file 60 "zz" 1 packed_directory entry_zero
    = Some (true, d1, e)
    /\ has_room d1 ((file_entry_length d1 (dir_block e) + empty_entry_length)
                    mod 2 ^ 32) (dir_block e) = false
    /\ enter_os8_file 60 "zz" 1 d1 e = Some (true, d')
    /\ lookup 61 "zz" d' (init_cursor d') = Some (Some x, c)
    /\ file_block e = 48 /\ file_block x = 64160.
Proof.
  do 5 eexists. split; [vm_compute; reflexivity|].
  split; [vm_compute; reflexivity|]. split; [vm_compute; reflexivity|].
  split; [vm_compute; reflexivity|]. split; reflexivity.
Qed.

(** A name of one star is copied to the image and is not found there. *)
Lemma star_name_lost :
  os8_filename_p "*" = true
  /\ exists d' img',
      stream_host_image_file 100 write_dsk_block [] [1; 2; 3; 4]
        holed_directory "*" 4 = Some (true, d', img')
      /\ copy_os8_image_file 101 read_dsk_block img' d' "*" = Some None.
Proof.
  split; [reflexivity|]. do 2 eexists.
  split; [vm_compute; reflexivity|]. vm_compute. reflexivity.
Qed.

Section Device.

Variable write_block : block_writer.
Variable read_block : block_reader.

(** A block of 256 twelve-bit words that was written is read back. *)
Hypothesis write_then_read :
  forall img n b img',
    List.length b = 256%nat -> Forall word12 b ->
    write_block img n b = Some img' -> read_block img' n = Some b.

(** Writing a block leaves the blocks before it as they read. *)
Hypothesis write_keeps_lower :
  forall img n m b img' x,
    0 <= n < m -> List.length b = 256%nat ->
    write_block img m b = Some img' ->
    read_block img n = Some x -> read_block img' n = Some x.


End Device.

